(* ===== verification/_CoqProject ===== *)
-Q . S2P
Prelude.v
Types.v
External.v
Toy.v
Trie.v
Account.v
State.v
Ledger.v
Refine.v
Epoch.v
Scenario.v
StateProps.v
Supply.v
Finality.v
Schedule.v
Mempool.v
Governance.v
Storage.v
Genesis.v
Slashing.v
Engine.v
Peers.v
Sync.v
Config.v
Rest.v
Router.v
Errors.v
Rpc.v
RpcServer.v
Wallet.v
P2p.v
Handle.v
SyncLoop.v
SyncTask.v
Boot.v
Process.v
Cli.v
Cluster.v
Testing.v
E2e.v
StateTests.v
ConsensusTests.v
SyncTests.v
PoolTests.v
CoreTests.v
NetworkTests.v
StorageTests.v
RpcTests.v
ConfigTests.v
NodeTests.v
CryptoTests.v
