(* ===== verification/Prelude.v ===== *)
(** * Verification of the Mononium node

    Mononium ([src/src/mononium-lib], [src/src/mononium-cli]) is a Rust blockchain
    node: accounts and validators live in a sparse Merkle tree, blocks of
    transactions move that state forward, a proposer schedule and vote counting
    drive consensus, nodes exchange blocks over a peer-to-peer network, and clients
    reach a node through a REST API, a JSON-RPC server and a command-line wallet.
    This library translates the library crate, the node binary and the wallet into
    Rocq definitions and proves what makes them correct, or where they are not.

    ** How the code is modelled

    - Unsigned integers are [Z] within their width.  Operators that panic or wrap
      ([u64_add], [u256_add], ..) return in [outcome], whose [Panic] is a Rust panic;
      [BuildProfile] chooses between the overflow checks of the workspace's dev
      profile and the wrap-around of its release profile.  [Result] is [result].
    - A method with [&mut self] returns the new value of [self], also beside an
      error.  Inside an operation locks and [async] leave no trace; between
      operations tasks interleave ([Handle], [Process]), and channels wait and close.
    - A [HashMap] or [BTreeMap] is a [gmap]; iterating a [HashMap] follows an
      arbitrary permutation ([HashOrder]).
    - Code that is not in the repository is a type class: BLAKE3, hex, SCALE,
      Falcon-512 ([External]), redb ([Storage]), decimal and JSON parsing
      ([Genesis]), YAML and TOML ([Config]), serde_json ([Rest], [Router],
      [SyncTask]), axum's routing and rejections ([Router]), jsonrpsee's module and
      parameters ([RpcServer]), libp2p and the channels of tokio ([Handle]), the
      fn-dsa library and key files ([Wallet]).  The [..Ok] classes state documented laws.  Freedom from hash
      collisions is always assumed of the finite set of strings in play, never of
      all strings.  [Toy] and the ends of the files hold concrete instances, at
      which every theorem with hypotheses is applied once ([.._witness]).
    - Clocks are arguments; logging is left out; formatted error texts are cut to
      their constant part.

    ** The parts

    - [Prelude]: outcomes, words, sorting with comparators ([slice::sort_by]), sums,
      byte encodings, hint databases.
    - [Types]: [core/account.rs], [transaction.rs], [block.rs], [validator.rs],
      [constants.rs], [governance/types.rs], [error.rs].
    - [Trie]: [crypto/trie.rs].  The level-by-level computation of [root] is the
      recursive Merkle root ([smt_root_reference]), which commits to the contents
      ([smt_root_binding]).
    - [Account]: codecs and text of addresses ([core/account.rs],
      [crypto/address.rs], [falcon.rs]); [address_text_faithful].
    - [State]: [core/state.rs], every method of [StateMachine].  [Ledger] is the
      abstract machine on finite maps: what a transaction debits, when it is
      refused, what a block pays out.  [Refine] proves that the state machine
      implements it as long as amounts fit ([apply_block_simulates]), with the
      relation [refines] between tree and maps; [Epoch] does the same for
      withdrawals, thawing, elections and slashing.  [StateProps] draws the
      consequences on the code: [apply_block_refines], conservation of value
      ([apply_block_value]), [no_replay], [failed_tx_isolated],
      [applied_transfer], [distribute_fees_exact], [election_correct],
      [slash_correct], [unstaking_release], [thaw_all_count].  [Scenario] is the
      concrete chain used in the witnesses.
    - [Supply]: [consensus/supply.rs], [core/fee.rs]; [issue_capped].
    - [Finality]: [consensus/finality.rs], [fork_choice.rs]; [finality_rule],
      [fork_choice_correct], and [finality_ignores_block_hash].
    - [Schedule]: [consensus/proposer.rs], [era.rs], [election.rs];
      [schedule_fair], [era_bounds], [topn_correct].
    - [Mempool]: [mempool/mod.rs], [ordering.rs]; the invariant [pool_wf],
      [insert_correct], [select_correct], [evict_spec], and any sequence of calls
      ([pool_lifetime]).
    - [Governance]: [governance/engine.rs], [constants.rs]; submission, voting,
      cancellation and tally on the state machine's tree ([submit_proposal_correct],
      [cast_vote_correct], [cancel_proposal_correct]); deposits, parameter locks and the
      tally are promised by the comments only.
    - [Storage]: the [StorageEngine] trait as an interface with its promise
      [StorageOk], and [storage/redb.rs] that keeps it ([redb_engine_ok]): what is read
      back is exactly what was acknowledged, also when a commit fails ([put_atomic]).
      Everything below is proved against the interface.
    - [Genesis]: [storage/genesis.rs] and the start-up helpers of
      [mononium-cli/src/node.rs]; [genesis_loaded_once], [genesis_state],
      [latest_height_max], [consistency_check_correct].
    - [Slashing]: [consensus/slashing.rs]; [equivocation_correct],
      [block_signature_no_evidence].
    - [Engine]: [consensus/engine.rs].  [slot_tick] is one round of the slot loop
      over engine, state machine, mempool and store; [run_slots] iterates it over
      clock readings.  The stored chain stays linked ([chain_stays_linked]), a node
      in its slot makes progress ([slot_produces]), peers accept what it builds
      ([built_block_validates], [validate_block_correct]), one lost block stops it
      for ever ([lost_block_halts]), as does another validator's slot
      ([observer_stalls]).
    - [Peers]: [network/peer_score.rs], [topics.rs]; [rate_limited],
      [ban_only_once], [scores_bounded].
    - [Sync]: [network/messages.rs], [sync.rs], [sync_protocol.rs]; responder
      ([serve_forward_correct]), requester ([sync_step_sound]), both together
      ([honest_sync_fails]), and when the catch-up loop ends ([sync_terminates]).
    - [Config]: [config/mod.rs], [config/constants.rs], and the overlay of the command
      line ([NodeArgs] of [main.rs], [build_cli_overrides] of [node.rs]);
      [startup_config_correct].
    - [Rest]: the handlers of [node.rs] over the state they share with the consensus
      loop; [rest_chain_view], [block_by_hash_correct], [submitted_tx_included] (what
      the API accepts is in the next block), [genesis_validators_hidden].
    - [Router]: [build_router] and the bodies of answers, from a request to bytes;
      [router_dispatch], and [serve_inv] for what a request can change.
    - [Rpc]: [rpc/server.rs], [config.rs], [state.rs]; [rpc_block_get_correct].
      [RpcServer]: the registration of its methods and the dispatch of requests;
      [rpc_requests_served].
    - [Wallet]: [mononium-cli/src/wallet.rs], and the [SignatureScheme] interface of
      [crypto/signature.rs] with its instance [crypto/falcon.rs];
      [parse_monex_amount_correct], [wallet_posts_signed] (proved against the
      interface), [wallet_transfer_fate] (against [Rest] and [State]),
      [register_and_stake_panics].  [wallet_posts_signed] says when a command posts and
      what, and that [register-and-stake] never does.
    - [P2p]: the event loop of [network/mod.rs] as a transformer of the service's state
      that lists its effects on the swarm; [gossip_delivery], [node_never_serves].
    - [Handle]: [P2pService::new] and [start] as far as they are the program's, and
      [P2pHandle] over its command channel.  Callers, swarm and loop are a step
      relation, which [handle_refines] shows to be a run of the loop of [P2p] on the
      accepted commands.
    - [SyncLoop]: [run_sync_loop] of [network/sync.rs] between the channels of [P2p],
      which refines the loop of [Sync] ([sync_loop_refines]), and what becomes of it
      among nodes as they are started ([started_nodes_never_sync]).  [SyncTask]: the
      task that runs it for ever with its cursor in a file ([sync_task_resumes],
      [idle_rounds]).
    - [Boot]: [run_node] of [node.rs], from the genesis to the running node, and
      [run_events], which interleaves slots with submissions; [first_boot],
      [restart_rolls_back], [rpc_stale].
    - [Process]: the launch of everything on an opened chain ([launch], and from the
      arguments on [run_node_command]) and the running node as a step relation of its
      tasks: slots, the publication of their blocks, HTTP and RPC requests, the
      network, and the answers of the sync task, all on one storage engine.  Only slots,
      HTTP submissions and stored answers reach the chain, also if the service is given
      the engine, as a node does not ([equip]); the RPC server's mempool takes its own
      submissions and nothing else ([process_isolated]).  The blocks that are made are
      published ([produced_blocks_published]).
    - [Cli]: [main.rs]: the wallet and query commands over HTTP and the log
      formatter; [query_answers] ties the text printed to the store and the state of
      a node behind [Router], [printed_address_refused] shows that the address
      [keygen] prints cannot be used.

    - [Cluster]: the integration test [tests/cluster.rs], nodes set up from one genesis
      whose slots interleave; [cluster_stuck]: with more than one validator the chain
      ends at the first block.
    - [E2e]: the test of the binary [tests/e2e.rs]: key, genesis, node, balance, transfer
      and queries, over [Cli], [Boot], [Engine] and [Router]; it passes on one timeline
      ([e2e_passes]) and fails when a block falls between its steps ([e2e_races]).
    - [Errors]: the texts of [error.rs]; [error_text_identifies].
    - [Testing] and the files ending in [Tests]: the repository's unit tests as
      definitions on the model, each evaluated to a pass, and its property tests as
      functions of their generated inputs, with theorems for the inputs on which
      they return (and those on which a test itself overflows, as
      [symmetric_overflows]).  [StateTests] has [core/state.rs], [ConsensusTests] the
      consensus modules, [SyncTests] and [NetworkTests] the network, [PoolTests] mempool
      and governance, [CoreTests] data types and the tree, [StorageTests] storage and
      genesis, [RpcTests] the RPC server, [ConfigTests] the configuration, [NodeTests]
      the P2P service, the node binary and the wallet, [CryptoTests] keys and hashes
      ([lawful_tests_pass], for every lawful signature scheme).

    The parts call each other as the code does: [Engine] runs [State], [Mempool],
    [Schedule] and [Storage]; [Governance] and [Genesis] build on [State]; [Sync]
    reads and writes what [Engine] stores, and [P2p] answers with it; [Rest] and
    [Rpc] read the state of a [Node], behind [Router] and [RpcServer]; [Wallet] and
    [Cli] talk to them; [Handle] drives [P2p]; [Boot] and [Process] put them together.

    ** Bounds

    [apply_block_refines] asks that a block fits ([block_fits]): twice the total
    value and the product of the block's fees with it stay below [2^256], nonces and
    counters within their width.  Outside these bounds [U256] arithmetic panics.
    The tree has 256 levels ([DEPTH]), the number of iterations of its root
    computation.  Loops over the network or the clock are functions of the finite
    list of events they consume, so no fuel is involved; the scan of block
    identifiers by hash ([scan_hash]) has the starting height as its fuel, which is
    its number of iterations ([scan_hash_spec]).  The failure counter of [sync_step] is
    an integer without width: a [usize] is not filled by answers over a network.

    ** Not modelled

    The inside of the libp2p swarm (transport, mDNS, Kademlia; their events do nothing
    in the program, [discovery_inert]), HTTP and WebSocket transport, the clap
    declarations (a command line is the value they give), the text of log messages,
    the event channel of [P2pHandle::subscribe] (who reads it is an argument of
    [SyncLoop]), the floating-point [finality_ratio], the keyed and key-derivation
    hash wrappers, which nothing calls, the benchmarks, and unit tests of serde_json,
    clap, redb's errors or floating point.  In
    [Process] a slot up to the publication of its block, a request and an answer of
    the sync task are single steps: the locks make them so for the state and the
    mempool; the block writes of one answer, which other tasks could see half done,
    are taken together. *)
From Stdlib Require Import Strings.Byte.
From stdpp Require Import base gmap sets list strings countable sorting.
From Stdlib Require Import ZArith Lia.

#[global] Open Scope Z_scope.

(** ** Bytes and fixed-size arrays *)

Abbreviation byte := Byte.byte.
Abbreviation bytes := (list Byte.byte).

#[export] Instance byte_eq_dec : EqDecision byte := Byte.byte_eq_dec.

Definition byte_to_Z (b : byte) : Z := Z.of_N (Byte.to_N b).

Definition byte_of_Z (z : Z) : byte :=
  match Byte.of_N (Z.to_N (z mod 256)) with Some b => b | None => x00 end.

Lemma byte_of_to_Z (b : byte) : byte_of_Z (byte_to_Z b) = b.
Proof. by destruct b. Qed.

#[export] Program Instance byte_countable : Countable byte :=
  {| encode b := N.succ_pos (Byte.to_N b);
     decode p := Byte.of_N (Pos.pred_N p) |}.
Next Obligation. by intros []. Qed.

(** A Rust array [[u8; n]]: a byte list whose length is part of the type. *)
Record array (n : nat) : Type := Array {
  array_bytes : bytes;
  array_len : bool_decide (length array_bytes = n) = true
}.
Arguments Array {_} _ _.
Arguments array_bytes {_} _.
Arguments array_len {_} _.

Lemma array_eq {n} (a b : array n) : array_bytes a = array_bytes b -> a = b.
Proof.
  destruct a as [a Ha], b as [b Hb]; simpl; intros ->.
  f_equal. apply (Eqdep_dec.UIP_dec Bool.bool_dec).
Qed.

Lemma array_length {n} (a : array n) : length (array_bytes a) = n.
Proof. exact (proj1 (bool_decide_eq_true _) (array_len a)). Qed.

#[export] Instance array_eq_dec n : EqDecision (array n).
Proof.
  intros a b. destruct (decide (array_bytes a = array_bytes b)) as [E|E].
  - left. by apply array_eq.
  - right. by intros ->.
Defined.

Definition array_of_list (n : nat) (l : bytes) : option (array n) :=
  match bool_decide (length l = n) as d return bool_decide (length l = n) = d -> option (array n) with
  | true => fun E => Some (Array l E)
  | false => fun _ => None
  end eq_refl.

Lemma array_of_list_bytes {n} (a : array n) : array_of_list n (array_bytes a) = Some a.
Proof.
  unfold array_of_list. destruct a as [l E]; simpl. generalize (eq_refl (bool_decide (length l = n))).
  generalize (bool_decide (length l = n)) at 2 3. intros [] E'.
  - f_equal. by apply array_eq.
  - congruence.
Qed.

Lemma array_of_list_Some {n} (l : bytes) (a : array n) :
  array_of_list n l = Some a <-> array_bytes a = l.
Proof.
  split; [|intros <-; apply array_of_list_bytes].
  unfold array_of_list. generalize (eq_refl (bool_decide (length l = n))).
  generalize (bool_decide (length l = n)) at 2 3. intros [] E'; [|done].
  by intros [= <-].
Qed.

Lemma array_of_list_len (n : nat) (l : bytes) :
  length l = n -> exists a, array_of_list n l = Some a /\ array_bytes a = l.
Proof.
  intros E. assert (bool_decide (length l = n) = true) as E' by by apply bool_decide_eq_true.
  exists (Array l E'). split; [|done]. by apply array_of_list_Some.
Qed.

Lemma array_of_list_None (n : nat) (l : bytes) :
  length l <> n -> array_of_list n l = None.
Proof.
  intros E. destruct (array_of_list n l) as [a|] eqn:Ha; [|done].
  apply array_of_list_Some in Ha. destruct E. rewrite <- Ha. apply array_length.
Qed.

#[export] Instance array_countable n : Countable (array n).
Proof. apply (inj_countable array_bytes (array_of_list n)). apply array_of_list_bytes. Defined.

(** [[b; n]] *)
Lemma repeat_len_bool (n : nat) (b : byte) : bool_decide (length (List.repeat b n) = n) = true.
Proof. apply bool_decide_eq_true. apply List.repeat_length. Qed.

Definition array_repeat (n : nat) (b : byte) : array n := Array (List.repeat b n) (repeat_len_bool n b).

(** Lexicographic comparison of byte slices ([Ord for [u8]]). *)
Definition cmp_then (c d : comparison) : comparison :=
  match c with Eq => d | _ => c end.

Fixpoint bytes_cmp (a b : bytes) : comparison :=
  match a, b with
  | [], [] => Eq
  | [], _ :: _ => Lt
  | _ :: _, [] => Gt
  | x :: a, y :: b => cmp_then (Z.compare (byte_to_Z x) (byte_to_Z y)) (bytes_cmp a b)
  end.

(** ** Panics and results *)

(** A computation that returns or panics (arithmetic overflow, [unwrap],
    slice bounds, explicit [assert!]). *)
Inductive outcome (A : Type) : Type :=
| Ret (a : A)
| Panic.
Arguments Ret {_} _.
Arguments Panic {_}.

#[export] Instance outcome_ret : MRet outcome := fun A a => Ret a.
#[export] Instance outcome_bind : MBind outcome := fun A B f m =>
  match m with Ret a => f a | Panic => Panic end.

(** Rust's [Result]. *)
Inductive result (E A : Type) : Type :=
| Ok (a : A)
| Err (e : E).
Arguments Ok {_ _} _.
Arguments Err {_ _} _.

Definition is_ok {E A} (r : result E A) : bool :=
  match r with Ok _ => true | Err _ => false end.

Definition ok_or {E A} (o : option A) (e : E) : result E A :=
  match o with Some a => Ok a | None => Err e end.

(** [x ← e ? ; k] is Rust's [let x = e?; k] inside an [outcome]. *)
Definition try_bind {E A B} (m : outcome (result E A)) (f : A -> outcome (result E B)) :
    outcome (result E B) :=
  match m with
  | Panic => Panic
  | Ret (Err e) => Ret (Err e)
  | Ret (Ok a) => f a
  end.

Declare Scope mono_scope.
Delimit Scope mono_scope with mono.
Notation "x '<-?' m ; k" := (try_bind m (fun x => k))
  (at level 60, m at next level, right associativity) : mono_scope.
#[global] Open Scope mono_scope.

(** [assert!(b)] and [Option::unwrap] *)
Definition assert_ (b : bool) : outcome unit := if b then Ret tt else Panic.
Definition unwrap {A} (o : option A) : outcome A :=
  match o with Some a => Ret a | None => Panic end.

(** A left fold whose step may panic: a [for] loop over a list. *)
Fixpoint foldM {S A} (f : S -> A -> outcome S) (s : S) (l : list A) : outcome S :=
  match l with
  | [] => Ret s
  | x :: l => s' ← f s x; foldM f s' l
  end.

(** ** Machine integers

    Unsigned integers are [Z] kept within their width.  [u64], [u32], [usize]
    arithmetic follows the build profile (the workspace's [dev] profile has
    overflow checks, its [release] profile has not); [U256] of the
    [primitive-types] crate panics on overflow in every profile. *)

Definition W8 : Z := 2 ^ 8.
Definition W16 : Z := 2 ^ 16.
Definition W32 : Z := 2 ^ 32.
Definition W64 : Z := 2 ^ 64.
Definition W128 : Z := 2 ^ 128.
Definition W256 : Z := 2 ^ 256.

Definition U64_MAX : Z := W64 - 1.
Definition U128_MAX : Z := W128 - 1.
Definition U256_MAX : Z := W256 - 1.

Class BuildProfile := { overflow_checks : bool; debug_assertions : bool }.
Definition dev_profile : BuildProfile := {| overflow_checks := true; debug_assertions := true |}.
Definition release_profile : BuildProfile := {| overflow_checks := false; debug_assertions := false |}.

(** [debug_assert!(b)] *)
Definition debug_assert `{BuildProfile} (b : bool) : outcome unit :=
  if debug_assertions then assert_ b else Ret tt.

(** [a + b], [a - b], [a * b] on an unsigned [w]-modulus integer. *)
Definition wrap_check `{BuildProfile} (w z : Z) : outcome Z :=
  if (0 <=? z) && (z <? w) then Ret z
  else if overflow_checks then Panic else Ret (z mod w).

Definition u64_add `{BuildProfile} (a b : Z) : outcome Z := wrap_check W64 (a + b).
Definition u64_sub `{BuildProfile} (a b : Z) : outcome Z := wrap_check W64 (a - b).
Definition u64_mul `{BuildProfile} (a b : Z) : outcome Z := wrap_check W64 (a * b).
Definition u32_add `{BuildProfile} (a b : Z) : outcome Z := wrap_check W32 (a + b).
Definition u128_add `{BuildProfile} (a b : Z) : outcome Z := wrap_check W128 (a + b).
Definition usize_add `{BuildProfile} (a b : Z) : outcome Z := wrap_check W64 (a + b).
Definition usize_sub `{BuildProfile} (a b : Z) : outcome Z := wrap_check W64 (a - b).

Definition u64_saturating_sub (a b : Z) : Z := Z.max 0 (a - b).

(** [U256]: little-endian limbs, panicking operators, checked and saturating
    operations. *)
Definition U256_limbs (a b c d : Z) : Z := a + b * 2 ^ 64 + c * 2 ^ 128 + d * 2 ^ 192.

Definition u256_check (z : Z) : outcome Z :=
  if (0 <=? z) && (z <? W256) then Ret z else Panic.

Definition u256_add (a b : Z) : outcome Z := u256_check (a + b).
Definition u256_sub (a b : Z) : outcome Z := u256_check (a - b).
Definition u256_mul (a b : Z) : outcome Z := u256_check (a * b).
Definition u256_div (a b : Z) : outcome Z := if b =? 0 then Panic else Ret (a / b).
Definition u256_checked_add (a b : Z) : option Z := if a + b <? W256 then Some (a + b) else None.
Definition u256_checked_mul (a b : Z) : option Z := if a * b <? W256 then Some (a * b) else None.
Definition u256_saturating_add (a b : Z) : Z := Z.min (a + b) U256_MAX.
Definition u256_saturating_sub (a b : Z) : Z := Z.max 0 (a - b).
Definition u256_low_u128 (a : Z) : Z := a mod W128.

Definition is_u64 (z : Z) : Prop := 0 <= z < W64.
Definition is_u256 (z : Z) : Prop := 0 <= z < W256.

(** ** Stable sorting ([slice::sort_by]) *)

Fixpoint sort_insert {A} (cmp : A -> A -> comparison) (x : A) (l : list A) : list A :=
  match l with
  | [] => [x]
  | y :: l' => match cmp x y with Gt => y :: sort_insert cmp x l' | _ => x :: l end
  end.

Fixpoint sort_by {A} (cmp : A -> A -> comparison) (l : list A) : list A :=
  match l with
  | [] => []
  | x :: l => sort_insert cmp x (sort_by cmp l)
  end.

(** The comparison functions Rust's [sort_by] expects: total preorders. *)
Class CmpOk {A} (cmp : A -> A -> comparison) : Prop := {
  cmp_opp : forall x y, cmp y x = CompOpp (cmp x y);
  cmp_le_trans : forall x y z, cmp x y <> Gt -> cmp y z <> Gt -> cmp x z <> Gt
}.

Definition cmp_le {A} (cmp : A -> A -> comparison) (x y : A) : Prop := cmp x y <> Gt.

(** ** Sums *)

Fixpoint sumZ {A} (f : A -> Z) (l : list A) : Z :=
  match l with
  | [] => 0
  | x :: l => f x + sumZ f l
  end.

Definition map_sum `{Countable K} {V} (f : V -> Z) (m : gmap K V) : Z :=
  sumZ (fun kv => f kv.2) (map_to_list m).

(** ** Little- and big-endian integers *)

Fixpoint to_le_bytes (n : nat) (z : Z) : bytes :=
  match n with
  | O => []
  | S n => byte_of_Z (z mod 256) :: to_le_bytes n (z / 256)
  end.

Fixpoint from_le_bytes (l : bytes) : Z :=
  match l with
  | [] => 0
  | b :: l => byte_to_Z b + 256 * from_le_bytes l
  end.

Definition to_be_bytes (n : nat) (z : Z) : bytes := rev (to_le_bytes n z).
Definition from_be_bytes (l : bytes) : Z := from_le_bytes (rev l).

(** ** Lemmas: outcomes *)

Lemma Ret_inj {A} (a b : A) : Ret a = Ret b -> a = b.
Proof. by intros [=]. Qed.

Lemma Ret_pair_inj {A B} (a b : A) (c d : B) : Ret (a, c) = Ret (b, d) -> a = b /\ c = d.
Proof. by intros [=]. Qed.

Lemma bind_Ret_inv {A B} (m : outcome A) (f : A -> outcome B) (b : B) :
  (m ≫= f) = Ret b -> exists a, m = Ret a /\ f a = Ret b.
Proof. destruct m; [eauto|done]. Qed.

Lemma try_bind_inv {E A B} (m : outcome (result E A)) (f : A -> outcome (result E B)) r :
  try_bind m f = Ret r ->
  (exists e, m = Ret (Err e) /\ r = Err e) \/ (exists a, m = Ret (Ok a) /\ f a = Ret r).
Proof. destruct m as [[]|]; simpl; [eauto| |done]. intros [= <-]; eauto. Qed.

Lemma foldM_app {S A} (f : S -> A -> outcome S) s l1 l2 :
  foldM f s (l1 ++ l2) = (s' ← foldM f s l1; foldM f s' l2).
Proof. revert s; induction l1 as [|x l1 IH]; intros s; [done|]. simpl. destruct (f s x); [apply IH|done]. Qed.

(** An invariant of the step is an invariant of the loop. *)
Lemma foldM_ind {S A} (P : S -> Prop) (f : S -> A -> outcome S) s l s' :
  (forall s x s', x ∈ l -> P s -> f s x = Ret s' -> P s') ->
  P s -> foldM f s l = Ret s' -> P s'.
Proof.
  revert s; induction l as [|x l IH]; intros s Hf Hs; simpl; [by intros [= <-]|].
  intros (s1 & H1 & H2)%bind_Ret_inv. eapply IH; [|by eapply Hf; [left|..]|done].
  intros. eapply Hf; [by right|done..].
Qed.

(** ** Lemmas: machine integers *)

Lemma W64_pos : 0 < W64. Proof. done. Qed.
Lemma W64_val : W64 = 18446744073709551616. Proof. done. Qed.
Lemma W32_pos : 0 < W32. Proof. done. Qed.
Lemma W128_pos : 0 < W128. Proof. done. Qed.
Lemma W256_pos : 0 < W256. Proof. done. Qed.
Lemma W256_W128 : W256 = W128 * W128. Proof. reflexivity. Qed.
Lemma W128_lt_W256 : W128 < W256. Proof. reflexivity. Qed.
Lemma W64_lt_W128 : W64 < W128. Proof. reflexivity. Qed.
#[global] Opaque W256 W128.

(** Facts about the word moduli for [lia]. *)
Ltac widths :=
  pose proof W64_val; pose proof W128_pos; pose proof W256_pos;
  pose proof W128_lt_W256; pose proof W64_lt_W128;
  unfold is_u64, is_u256, U64_MAX, U128_MAX, U256_MAX, u64_saturating_sub,
    u256_saturating_add, u256_saturating_sub in *.
Ltac word_lia := widths; lia.

Lemma u256_check_Ret z c : u256_check z = Ret c <-> c = z /\ 0 <= z < W256.
Proof.
  unfold u256_check. destruct (0 <=? z) eqn:E1, (z <? W256) eqn:E2; simpl;
    split; try done; try lia; try (intros [= ->]; lia); intros [-> ?]; done.
Qed.

Lemma u256_check_ok z : 0 <= z < W256 -> u256_check z = Ret z.
Proof. intros. by apply u256_check_Ret. Qed.

Lemma u256_add_Ret a b c : u256_add a b = Ret c <-> c = a + b /\ 0 <= a + b < W256.
Proof. apply u256_check_Ret. Qed.
Lemma u256_sub_Ret a b c : u256_sub a b = Ret c <-> c = a - b /\ 0 <= a - b < W256.
Proof. apply u256_check_Ret. Qed.
Lemma u256_mul_Ret a b c : u256_mul a b = Ret c <-> c = a * b /\ 0 <= a * b < W256.
Proof. apply u256_check_Ret. Qed.
Lemma u256_div_Ret a b c : u256_div a b = Ret c <-> c = a / b /\ b <> 0.
Proof.
  unfold u256_div. destruct (Z.eqb_spec b 0); split; try done; [lia|by intros [= ->]|].
  by intros [-> _].
Qed.
Lemma u256_add_ok a b : 0 <= a + b < W256 -> u256_add a b = Ret (a + b).
Proof. apply u256_check_ok. Qed.
Lemma u256_sub_ok a b : 0 <= a - b < W256 -> u256_sub a b = Ret (a - b).
Proof. apply u256_check_ok. Qed.
Lemma u256_mul_ok a b : 0 <= a * b < W256 -> u256_mul a b = Ret (a * b).
Proof. apply u256_check_ok. Qed.
Lemma u256_div_ok a b : b <> 0 -> u256_div a b = Ret (a / b).
Proof. intros. by apply u256_div_Ret. Qed.
Lemma u256_add_Panic a b : 0 <= a -> 0 <= b -> u256_add a b = Panic <-> W256 <= a + b.
Proof.
  intros. unfold u256_add, u256_check.
  destruct (0 <=? a + b) eqn:E1, (a + b <? W256) eqn:E2; simpl; split; try done; lia.
Qed.

Section Profile.
Context `{BuildProfile}.

Lemma wrap_check_ok w z : 0 <= z < w -> wrap_check w z = Ret z.
Proof. intros. unfold wrap_check. destruct (0 <=? z) eqn:E1, (z <? w) eqn:E2; simpl; done || lia. Qed.

Lemma wrap_check_Ret w z c : 0 < w -> wrap_check w z = Ret c -> c = z mod w /\ 0 <= c < w.
Proof.
  intros Hw. unfold wrap_check. pose proof (Z.mod_pos_bound z w Hw).
  destruct (0 <=? z) eqn:E1, (z <? w) eqn:E2; simpl; try destruct overflow_checks; intros [= <-];
    first [done | rewrite Z.mod_small; lia | split; [done|lia]].
Qed.

Lemma u64_add_ok a b : 0 <= a + b < W64 -> u64_add a b = Ret (a + b).
Proof. apply wrap_check_ok. Qed.
Lemma u32_add_ok a b : 0 <= a + b < W32 -> u32_add a b = Ret (a + b).
Proof. apply wrap_check_ok. Qed.
Lemma u128_add_ok a b : 0 <= a + b < W128 -> u128_add a b = Ret (a + b).
Proof. apply wrap_check_ok. Qed.
Lemma u64_add_Ret a b c : u64_add a b = Ret c -> c = (a + b) mod W64 /\ 0 <= c < W64.
Proof. apply wrap_check_Ret. done. Qed.
Lemma u128_add_Ret a b c : u128_add a b = Ret c -> c = (a + b) mod W128 /\ 0 <= c < W128.
Proof. apply wrap_check_Ret. apply W128_pos. Qed.
Lemma u32_add_Ret a b c : u32_add a b = Ret c -> c = (a + b) mod W32 /\ 0 <= c < W32.
Proof. apply wrap_check_Ret. done. Qed.
End Profile.

(** Takes an equation [m = Ret r] about a monadic term apart. *)
Ltac inv_outcome :=
  repeat match goal with
  | H : mbind _ _ = Ret _ |- _ =>
      let x := fresh "x" in let H1 := fresh "H" in
      apply bind_Ret_inv in H; destruct H as (x & H1 & H); simpl in H
  | H : Ret _ = Ret _ |- _ => injection H; clear H; intros; simplify_eq
  | H : mret _ = Ret _ |- _ => injection H; clear H; intros; simplify_eq
  | H : Panic = Ret _ |- _ => discriminate H
  | H : u256_add _ _ = Ret _ |- _ => apply u256_add_Ret in H; destruct H as [? ?]; simplify_eq
  | H : u256_sub _ _ = Ret _ |- _ => apply u256_sub_Ret in H; destruct H as [? ?]; simplify_eq
  | H : u256_mul _ _ = Ret _ |- _ => apply u256_mul_Ret in H; destruct H as [? ?]; simplify_eq
  | H : u256_div _ _ = Ret _ |- _ => apply u256_div_Ret in H; destruct H as [? ?]; simplify_eq
  end.

(** Case analysis on the tests of a handler. *)
Ltac case_if_in H :=
  match type of H with
  | context [if ?b then _ else _] => let E := fresh "E" in destruct b eqn:E
  end.

(** Turns boolean comparisons on [Z] in the context into propositions. *)
Ltac zbool :=
  repeat match goal with
  | H : (_ =? _) = true |- _ => apply Z.eqb_eq in H
  | H : (_ =? _) = false |- _ => apply Z.eqb_neq in H
  | H : (_ <? _) = true |- _ => apply Z.ltb_lt in H
  | H : (_ <? _) = false |- _ => apply Z.ltb_ge in H
  | H : (_ <=? _) = true |- _ => apply Z.leb_le in H
  | H : (_ <=? _) = false |- _ => apply Z.leb_gt in H
  | H : negb _ = true |- _ => apply negb_true_iff in H
  | H : negb _ = false |- _ => apply negb_false_iff in H
  | H : (_ && _) = true |- _ => apply andb_true_iff in H; destruct H
  | H : (_ || _) = false |- _ => apply orb_false_iff in H; destruct H
  | H : bool_decide _ = true |- _ => apply bool_decide_eq_true in H
  | H : bool_decide _ = false |- _ => apply bool_decide_eq_false in H
  end.

Lemma omap_length_le {A B} (f : A -> option B) l : (length (omap f l) <= length l)%nat.
Proof. induction l as [|x l IH]; [done|]. cbn. destruct (f x); cbn in *; lia. Qed.

(** ** Lemmas: sorting *)

Section Sorting.
Context {A : Type} (cmp : A -> A -> comparison).

Lemma sort_insert_perm x l : sort_insert cmp x l ≡ₚ x :: l.
Proof.
  induction l as [|y l IH]; simpl; [done|].
  destruct (cmp x y); [done|done|]. rewrite IH. apply Permutation_swap.
Qed.

Lemma sort_by_perm l : sort_by cmp l ≡ₚ l.
Proof. induction l as [|x l IH]; simpl; [done|]. by rewrite sort_insert_perm, IH. Qed.

Lemma sort_by_length l : length (sort_by cmp l) = length l.
Proof. by rewrite sort_by_perm. Qed.

Lemma sort_by_elem x l : x ∈ sort_by cmp l <-> x ∈ l.
Proof. by rewrite sort_by_perm. Qed.

Context `{!CmpOk cmp}.

Lemma cmp_le_total x y : cmp_le cmp x y \/ cmp_le cmp y x.
Proof. unfold cmp_le. rewrite (cmp_opp (cmp:=cmp) x y). destruct (cmp x y); simpl; by auto. Qed.

Lemma cmp_refl x : cmp x x = Eq.
Proof. pose proof (cmp_opp (cmp:=cmp) x x) as H. by destruct (cmp x x). Qed.

Lemma cmp_gt_le x y : cmp x y = Gt -> cmp_le cmp y x.
Proof. unfold cmp_le. rewrite (cmp_opp (cmp:=cmp) x y). intros ->. done. Qed.

Lemma cmp_lt_le_trans x y z : cmp x y = Lt -> cmp_le cmp y z -> cmp x z = Lt.
Proof.
  intros H1 H2. destruct (cmp x z) eqn:E; [| done |].
  - exfalso. assert (cmp y x <> Gt) as H3.
    { apply (cmp_le_trans (cmp:=cmp) y z x); [done|]. rewrite (cmp_opp (cmp:=cmp) x z), E. done. }
    rewrite (cmp_opp (cmp:=cmp) x y), H1 in H3. done.
  - exfalso. assert (cmp y x <> Gt) as H3.
    { apply (cmp_le_trans (cmp:=cmp) y z x); [done|]. rewrite (cmp_opp (cmp:=cmp) x z), E. done. }
    rewrite (cmp_opp (cmp:=cmp) x y), H1 in H3. done.
Qed.

Lemma cmp_le_lt_trans x y z : cmp_le cmp x y -> cmp y z = Lt -> cmp x z = Lt.
Proof.
  intros H1 H2. destruct (cmp x z) eqn:E; [|done|]; exfalso;
    (assert (cmp z y <> Gt) as H3;
     [apply (cmp_le_trans (cmp:=cmp) z x y); [rewrite (cmp_opp (cmp:=cmp) x z), E; done|done]|]);
    rewrite (cmp_opp (cmp:=cmp) y z), H2 in H3; done.
Qed.

Lemma cmp_eq_trans x y z : cmp x y = Eq -> cmp y z = Eq -> cmp x z = Eq.
Proof.
  intros H1 H2. assert (cmp x z <> Gt) by (apply (cmp_le_trans (cmp:=cmp) x y z); congruence).
  assert (cmp z x <> Gt) as H3.
  { apply (cmp_le_trans (cmp:=cmp) z y x); rewrite ?(cmp_opp (cmp:=cmp) y z), ?(cmp_opp (cmp:=cmp) x y), ?H1, ?H2; done. }
  rewrite (cmp_opp (cmp:=cmp) x z) in H3. by destruct (cmp x z).
Qed.

Lemma sort_insert_sorted x l :
  StronglySorted (cmp_le cmp) l -> StronglySorted (cmp_le cmp) (sort_insert cmp x l).
Proof.
  induction 1 as [|y l Hl IH Hy]; simpl; [by repeat constructor|].
  destruct (cmp x y) eqn:E.
  1,2: constructor; [by constructor|]; constructor; [unfold cmp_le; congruence|];
    eapply Forall_impl; [exact Hy|]; intros z Hz; eapply (cmp_le_trans (cmp:=cmp) x y z); [congruence|done].
  constructor; [done|]. rewrite (sort_insert_perm x l). constructor; [by apply cmp_gt_le|done].
Qed.

Lemma sort_by_sorted l : StronglySorted (cmp_le cmp) (sort_by cmp l).
Proof. induction l as [|x l IH]; simpl; [constructor|]. by apply sort_insert_sorted. Qed.
End Sorting.

(** Comparators: [key.cmp()], its reverse, [then_with]. *)
#[export] Instance cmp_key_ok {A} (f : A -> Z) : CmpOk (fun x y => Z.compare (f x) (f y)).
Proof.
  split; [intros x y; by rewrite Z.compare_antisym|].
  intros x y z; rewrite !Z.compare_ngt_iff; lia.
Qed.

Lemma cmp_flip_ok {A} (c : A -> A -> comparison) :
  CmpOk c -> CmpOk (fun x y => c y x).
Proof.
  intros ?. split; [intros x y; apply cmp_opp|].
  intros x y z H1 H2. by apply (cmp_le_trans (cmp:=c) z y x).
Qed.

Lemma cmp_then_ok {A} (c d : A -> A -> comparison) :
  CmpOk c -> CmpOk d -> CmpOk (fun x y => cmp_then (c x y) (d x y)).
Proof.
  intros ??. split.
  - intros x y. rewrite (cmp_opp (cmp:=c) x y). destruct (c x y) eqn:E; simpl; [apply cmp_opp|done..].
  - intros x y z H1 H2.
    destruct (c x y) eqn:E1; [| |done]; destruct (c y z) eqn:E2; try done; simpl in *.
    + rewrite (cmp_eq_trans c x y z) by done. simpl. by apply (cmp_le_trans (cmp:=d) x y z).
    + rewrite (cmp_le_lt_trans c x y z) by (unfold cmp_le; congruence). done.
    + rewrite (cmp_lt_le_trans c x y z) by (unfold cmp_le; congruence). done.
    + rewrite (cmp_lt_le_trans c x y z) by (unfold cmp_le; congruence). done.
Qed.

Lemma byte_to_Z_range b : 0 <= byte_to_Z b < 256.
Proof. by destruct b. Qed.

Lemma byte_to_Z_inj a b : byte_to_Z a = byte_to_Z b -> a = b.
Proof. intros E. by rewrite <- (byte_of_to_Z a), E, byte_of_to_Z. Qed.

Lemma byte_to_of_Z z : byte_to_Z (byte_of_Z z) = z mod 256.
Proof.
  unfold byte_of_Z, byte_to_Z. pose proof (Z.mod_pos_bound z 256 ltac:(lia)) as Hz.
  destruct (Byte.of_N (Z.to_N (z mod 256))) as [b|] eqn:E.
  - apply Byte.to_of_N in E. rewrite E. lia.
  - apply Byte.of_N_None_iff in E. lia.
Qed.

Lemma bytes_cmp_eq a b : bytes_cmp a b = Eq -> a = b.
Proof.
  revert b; induction a as [|x a IH]; intros [|y b]; simpl; try done.
  destruct (Z.compare _ _) eqn:E; simpl; try done.
  apply Z.compare_eq, byte_to_Z_inj in E. subst. intros ?. f_equal. auto.
Qed.

#[export] Instance bytes_cmp_ok : CmpOk bytes_cmp.
Proof.
  split.
  - induction x as [|x l IH]; intros [|y k]; simpl; try done.
    rewrite Z.compare_antisym. destruct (Z.compare _ _); simpl; auto.
  - intros a. induction a as [|x a IH]; intros [|y b] [|z c]; simpl; try done.
    intros H1 H2.
    destruct (Z.compare_spec (byte_to_Z x) (byte_to_Z y)) as [E1|E1|E1]; simpl in H1; try done;
    destruct (Z.compare_spec (byte_to_Z y) (byte_to_Z z)) as [E2|E2|E2]; simpl in H2; try done;
    destruct (Z.compare_spec (byte_to_Z x) (byte_to_Z z)) as [E3|E3|E3]; simpl; try done; try lia.
    by apply (IH b c).
Qed.

Lemma cmp_on_ok {A B} (f : A -> B) (c : B -> B -> comparison) :
  CmpOk c -> CmpOk (fun x y => c (f x) (f y)).
Proof.
  intros ?. split; [intros; apply cmp_opp|]. intros x y z. apply (cmp_le_trans (cmp:=c)).
Qed.

(** A sorted list is determined by its elements when ties are equal. *)
Lemma sorted_unique {A} (cmp : A -> A -> comparison) `{!CmpOk cmp} l1 l2 :
  (forall x y, cmp x y = Eq -> x = y) -> StronglySorted (cmp_le cmp) l1 -> StronglySorted (cmp_le cmp) l2 ->
  l1 ≡ₚ l2 -> l1 = l2.
Proof.
  intros Hanti. assert (AntiSymm (=) (cmp_le cmp)) as Ha.
  { intros x y H1 H2. unfold cmp_le in *. rewrite (cmp_opp (cmp:=cmp) x y) in H2.
    apply Hanti. by destruct (cmp x y). }
  apply (StronglySorted_unique (cmp_le cmp)).
Qed.

Lemma sort_by_unique {A} (cmp : A -> A -> comparison) `{!CmpOk cmp} l1 l2 :
  (forall x y, cmp x y = Eq -> x = y) -> l1 ≡ₚ l2 -> sort_by cmp l1 = sort_by cmp l2.
Proof.
  intros Hanti Hp. apply (sorted_unique cmp); [done|by apply sort_by_sorted..|]. by rewrite !sort_by_perm.
Qed.

Lemma list_filter_all {A} (P : A -> Prop) `{!forall x, Decision (P x)} l : Forall P l -> filter P l = l.
Proof. induction 1 as [|x l Hx _ IH]; [done|]. by rewrite filter_cons, decide_True, IH. Qed.

Lemma list_filter_none {A} (P : A -> Prop) `{!forall x, Decision (P x)} l :
  Forall (fun x => ~ P x) l -> filter P l = [].
Proof. induction 1 as [|x l Hx _ IH]; [done|]. by rewrite filter_cons, decide_False. Qed.

Lemma take_elem {A} (x : A) n l : x ∈ take n l -> x ∈ l.
Proof. intros Hx. rewrite <- (take_drop n l). apply elem_of_app. by left. Qed.

Lemma take_drop_elem {A} (x : A) n l : x ∈ l <-> x ∈ take n l \/ x ∈ drop n l.
Proof. rewrite <- (take_drop n l) at 1. apply elem_of_app. Qed.

Lemma NoDup_take {A} n (l : list A) : NoDup l -> NoDup (take n l).
Proof. rewrite <- (take_drop n l) at 1. by intros [? _]%NoDup_app. Qed.

Lemma StronglySorted_take {A} (R : A -> A -> Prop) n l : StronglySorted R l -> StronglySorted R (take n l).
Proof. rewrite <- (take_drop n l) at 1. apply StronglySorted_app_1_l. Qed.

Lemma StronglySorted_filter {A} (R : A -> A -> Prop) (P : A -> Prop) `{!forall x, Decision (P x)} l :
  StronglySorted R l -> StronglySorted R (filter P l).
Proof.
  induction 1 as [|x l Hl IH Hx]; [constructor|]. rewrite filter_cons. case_decide; [|done].
  constructor; [done|]. apply Forall_forall. intros y [_ Hy]%list_elem_of_filter.
  rewrite Forall_forall in Hx. auto.
Qed.

(** ** Lemmas: sums *)

Lemma sumZ_app {A} (f : A -> Z) l k : sumZ f (l ++ k) = sumZ f l + sumZ f k.
Proof. induction l as [|x l IH]; simpl; lia. Qed.

Lemma sumZ_perm {A} (f : A -> Z) l k : l ≡ₚ k -> sumZ f l = sumZ f k.
Proof. induction 1; simpl; lia. Qed.

Lemma sumZ_nonneg {A} (f : A -> Z) l : (forall x, x ∈ l -> 0 <= f x) -> 0 <= sumZ f l.
Proof.
  induction l as [|x l IH]; simpl; intros H; [lia|].
  pose proof (H x ltac:(left)). assert (0 <= sumZ f l); [|lia]. apply IH. intros. apply H. by right.
Qed.

Lemma sumZ_mono {A} (f g : A -> Z) l : (forall x, x ∈ l -> f x <= g x) -> sumZ f l <= sumZ g l.
Proof.
  induction l as [|x l IH]; simpl; intros H; [lia|].
  pose proof (H x ltac:(left)). assert (sumZ f l <= sumZ g l); [|lia]. apply IH. intros. apply H. by right.
Qed.

Lemma sumZ_ext {A} (f g : A -> Z) l : (forall x, x ∈ l -> f x = g x) -> sumZ f l = sumZ g l.
Proof.
  intros H. apply Z.le_antisymm; apply sumZ_mono; intros x Hx; rewrite (H x Hx); lia.
Qed.

Lemma sumZ_elem_le {A} (f : A -> Z) l x :
  (forall y, y ∈ l -> 0 <= f y) -> x ∈ l -> f x <= sumZ f l.
Proof.
  intros Hf Hx. apply elem_of_Permutation in Hx as [k Hk]. rewrite (sumZ_perm _ _ _ Hk). simpl.
  assert (0 <= sumZ f k); [|lia]. apply sumZ_nonneg. intros y Hy. apply Hf. rewrite Hk. by right.
Qed.

Lemma sumZ_map {A B} (g : A -> B) (f : B -> Z) l : sumZ f (map g l) = sumZ (fun x => f (g x)) l.
Proof. induction l as [|x l IH]; simpl; lia. Qed.

Section MapSum.
Context `{Countable K} {V : Type} (f : V -> Z).

Lemma map_sum_empty : map_sum f (∅ : gmap K V) = 0.
Proof. unfold map_sum. by rewrite map_to_list_empty. Qed.

Lemma map_sum_insert_None (m : gmap K V) k v :
  m !! k = None -> map_sum f (<[k:=v]> m) = f v + map_sum f m.
Proof. intros E. unfold map_sum. by rewrite (sumZ_perm _ _ _ (map_to_list_insert m k v E)). Qed.

Lemma map_sum_delete (m : gmap K V) k v :
  m !! k = Some v -> map_sum f m = f v + map_sum f (delete k m).
Proof.
  intros E. rewrite <- (insert_delete_id m k v E) at 1.
  apply map_sum_insert_None, lookup_delete_eq.
Qed.

Lemma map_sum_insert (m : gmap K V) k v :
  map_sum f (<[k:=v]> m) = map_sum f m - from_option f 0 (m !! k) + f v.
Proof.
  destruct (m !! k) as [w|] eqn:E; simpl.
  - rewrite <- (insert_delete_eq m k v), map_sum_insert_None by apply lookup_delete_eq.
    rewrite (map_sum_delete m k w E). lia.
  - rewrite map_sum_insert_None by done. lia.
Qed.

Lemma map_sum_nonneg (m : gmap K V) :
  (forall k v, m !! k = Some v -> 0 <= f v) -> 0 <= map_sum f m.
Proof.
  intros Hf. apply sumZ_nonneg. intros [k v] Hx. apply elem_of_map_to_list in Hx. simpl. eauto.
Qed.

Lemma map_sum_lookup_le (m : gmap K V) k v :
  (forall k v, m !! k = Some v -> 0 <= f v) -> m !! k = Some v -> f v <= map_sum f m.
Proof.
  intros Hf E. rewrite (map_sum_delete m k v E).
  assert (0 <= map_sum f (delete k m)); [|lia].
  apply map_sum_nonneg. intros k' v' [_ E']%lookup_delete_Some. eauto.
Qed.
End MapSum.

(** ** Lemmas: byte encodings of integers *)

Lemma to_le_bytes_length n z : length (to_le_bytes n z) = n.
Proof. revert z; induction n; intros; simpl; auto. Qed.

Lemma from_to_le_bytes n z : 0 <= z < 256 ^ Z.of_nat n -> from_le_bytes (to_le_bytes n z) = z.
Proof.
  revert z; induction n as [|n IH]; intros z Hz.
  - simpl in *. change (256 ^ Z.of_nat 0) with 1 in Hz. lia.
  - rewrite Nat2Z.inj_succ, Z.pow_succ_r in Hz by lia. simpl.
    rewrite byte_to_of_Z, Z.mod_mod by lia. rewrite IH; [pose proof (Z.div_mod z 256); lia|].
    split; [apply Z.div_pos; lia|apply Z.div_lt_upper_bound; lia].
Qed.

Lemma to_be_bytes_length n z : length (to_be_bytes n z) = n.
Proof. unfold to_be_bytes. by rewrite length_rev, to_le_bytes_length. Qed.

Lemma from_to_be_bytes n z : 0 <= z < 256 ^ Z.of_nat n -> from_be_bytes (to_be_bytes n z) = z.
Proof. intros. unfold from_be_bytes, to_be_bytes. by rewrite rev_involutive, from_to_le_bytes. Qed.

Lemma to_be_bytes_inj n z1 z2 :
  0 <= z1 < 256 ^ Z.of_nat n -> 0 <= z2 < 256 ^ Z.of_nat n ->
  to_be_bytes n z1 = to_be_bytes n z2 -> z1 = z2.
Proof. intros H1 H2 E. by rewrite <- (from_to_be_bytes n z1 H1), E, from_to_be_bytes. Qed.

Lemma from_le_bytes_range l : 0 <= from_le_bytes l < 256 ^ Z.of_nat (length l).
Proof.
  induction l as [|b l IH]; simpl; [done|].
  rewrite Nat2Z.inj_succ, Z.pow_succ_r by lia. pose proof (byte_to_Z_range b). lia.
Qed.

Lemma to_from_le_bytes l : to_le_bytes (length l) (from_le_bytes l) = l.
Proof.
  induction l as [|b l IH]; simpl; [done|]. pose proof (byte_to_Z_range b).
  rewrite (Z.mul_comm 256), Z.mod_add, Z.div_add, Z.mod_small, Z.div_small, Z.add_0_l by lia.
  by rewrite byte_of_to_Z, IH.
Qed.

Lemma from_be_bytes_range l : 0 <= from_be_bytes l < 256 ^ Z.of_nat (length l).
Proof. unfold from_be_bytes. rewrite <- length_rev. apply from_le_bytes_range. Qed.

Lemma from_be_bytes_inj l k : length l = length k -> from_be_bytes l = from_be_bytes k -> l = k.
Proof.
  unfold from_be_bytes. intros Hl E. rewrite <- (rev_involutive l), <- (rev_involutive k). f_equal.
  rewrite <- (to_from_le_bytes (rev l)), E, length_rev, Hl, <- length_rev. apply to_from_le_bytes.
Qed.

Lemma from_be_bytes_cons b l : from_be_bytes (b :: l) = byte_to_Z b * 256 ^ Z.of_nat (length l) + from_be_bytes l.
Proof.
  unfold from_be_bytes. simpl. rewrite <- (length_rev l). generalize (rev l) as k. intros k.
  induction k as [|x k IH]; simpl; [lia|]. rewrite IH, Nat2Z.inj_succ, Z.pow_succ_r by lia. lia.
Qed.

(** On keys of one length the byte order is the order of the integers. *)
Lemma bytes_cmp_be l k : length l = length k -> bytes_cmp l k = Z.compare (from_be_bytes l) (from_be_bytes k).
Proof.
  revert k. induction l as [|x l IH]; intros [|y k] Hl; simpl in Hl; try done. injection Hl as Hl.
  rewrite !from_be_bytes_cons, <- Hl. simpl. rewrite IH by done.
  pose proof (from_be_bytes_range l) as H1. pose proof (from_be_bytes_range k) as H2. rewrite <- Hl in H2.
  set (w := 256 ^ Z.of_nat (length l)) in *.
  destruct (Z.compare_spec (byte_to_Z x) (byte_to_Z y)) as [->|Hlt|Hgt]; simpl.
  - symmetry. apply Z.add_compare_mono_l.
  - symmetry. apply Z.compare_lt_iff. nia.
  - symmetry. apply Z.compare_gt_iff. nia.
Qed.

(** ** Lemmas: building a map by a loop of insertions *)

Lemma foldl_insert_lookup `{Countable K} {A V} (k : A -> K) (v : A -> V) (l : list A) q h :
  (forall x y, x ∈ l -> y ∈ l -> k x = k y -> v x = v y) ->
  foldl (fun m x => <[k x := v x]> m) (∅ : gmap K V) l !! q = Some h <->
  exists x, x ∈ l /\ k x = q /\ v x = h.
Proof.
  revert q h. induction l as [|x l IH] using rev_ind; intros q h Hc; simpl.
  { rewrite lookup_empty. split; [done|]. intros (x & Hx & _). by apply elem_of_nil in Hx. }
  assert (forall y, y ∈ l -> y ∈ l ++ [x]) as Hl by (intros; apply elem_of_app; auto).
  assert (x ∈ l ++ [x]) as Hx by (apply elem_of_app; right; by apply list_elem_of_singleton).
  rewrite foldl_app. simpl. destruct (decide (k x = q)) as [<-|Hne].
  - rewrite lookup_insert_eq. split; [intros [= <-]; by exists x|].
    intros (y & Hy & E & <-). f_equal. by apply Hc.
  - rewrite lookup_insert_ne by done. rewrite IH by auto. split.
    + intros (y & Hy & E & <-). exists y; auto.
    + intros (y & Hy & E & <-). apply elem_of_app in Hy as [Hy| ->%list_elem_of_singleton]; [|done].
      exists y; auto.
Qed.

(** ** Hint databases

    [lengths] computes the length of the byte strings the codecs build;
    [words] has the ranges of the machine words. *)
Create Rewrite HintDb lengths.
Create HintDb words.
#[export] Hint Rewrite @length_app @length_map @length_take @length_drop @length_rev @array_length
  to_le_bytes_length to_be_bytes_length @sort_by_length : lengths.
#[export] Hint Resolve W32_pos W64_pos W128_pos W256_pos byte_to_Z_range from_le_bytes_range from_be_bytes_range : words.
