(* ===== verification/Types.v ===== *)
(** * Protocol data types

    The structs and enums of [core/account.rs], [core/transaction.rs],
    [core/block.rs], [core/validator.rs], [governance/types.rs],
    [consensus/slashing.rs] and [error.rs], with the constants of
    [core/constants.rs] and [constants.rs].  An enum is an [Inductive] with the
    source's variants, a struct a [Record] whose fields carry a short prefix.
    [U256], [u64], [u32], [u16] are [Z]; the [_valid] predicates state the ranges
    the Rust types enforce. *)
From Stdlib Require Import Strings.Byte Strings.String.
From stdpp Require Import base gmap sets list strings countable.
From Stdlib Require Import ZArith Lia.
From S2P Require Import Prelude.

(** ** Errors ([error.rs]) *)

(** [HexBytes([u8; 32])] *)
Record HexBytes := mkHexBytes { hex_bytes : array 32 }.

Inductive LibError :=
| InvalidSignature
| InsufficientBalance (have need : Z)
| InvalidNonce (expected got : Z)
| AccountNotFound (a : HexBytes)
| ValidatorNotFound (a : HexBytes)
| BlockNotFound (height : Z)
| TxNotFound
| ProposalNotFound
| GovernanceRejected (msg : string)
| Storage (msg : string)
| CodecError (msg : string)
| Consensus (msg : string)
| Crypto (msg : string)
| Network (msg : string)
| InvalidAddress (msg : string)
| EquivocationHeightMismatch (a b : Z)
| EquivocationParentMismatch
| EquivocationIdenticalBlocks
| EquivocationSigAInvalid
| EquivocationSigBInvalid
| ChecksumMismatch (expected computed : string)
| AlreadyFrozen.

Abbreviation Result A := (result LibError A).

(** ** Constants *)

Definition ONE_MONEX : Z := U256_limbs 9632337040368467968 5421010862427 0 0.
Definition ONE_MOXX : Z := U256_limbs 1 0 0 0.
Definition DEFAULT_FLAT_FEE : Z := U256_limbs 7223210852348854272 36158142452 0 0.
Definition DEFAULT_PER_BYTE_RATE : Z := U256_limbs 13902444923925299200 2531612072 0 0.
Definition ANTI_SPAM_DEPOSIT : Z := U256_limbs 1522216674051227648 1788933584601 0 0.
Definition DEFAULT_MIN_MEMPOOL_FEE : Z := U256_limbs 16891876302359887872 361581424523 0 0.
Definition BURN_FLAT_FEE : Z := U256_limbs 10 0 0 0.
Definition MISSED_SLOT_PENALTY : Z := U256_limbs 3722225092021714944 433680868994 0 0.
Definition PROPOSAL_DEPOSIT : Z := U256_limbs 4003012203950112768 542101086242752 0 0.
Definition BASE_MAX_SUPPLY : Z := U256_limbs 11806718586779598848 13574535716559052564 2938 0.
Definition SUPPLY_CEILING_RATE : Z := 350.
Definition SUPPLY_HEADROOM_RATE : Z := 500.
Definition MIN_STAKE : Z := ONE_MONEX.
Definition UNSTAKING_COOLDOWN_ERAS : Z := 168.
Definition FREEZE_DURATION_ERAS : Z := 72.
Definition MAX_VALIDATORS : Z := 101.
Definition MAX_VALIDATORS_DEVNET : Z := 21.
Definition FALCON_PUBLIC_KEY_SIZE : nat := 897.
Definition FALCON_SIGNATURE_SIZE : nat := 809.

(** ** Accounts ([core/account.rs]) *)

(** [struct Address([u8; 32])] *)
Record Address := address_from { as_bytes : array 32 }.

#[export] Instance Address_eq_dec : EqDecision Address.
Proof. solve_decision. Defined.
#[export] Instance Address_countable : Countable Address.
Proof. apply (inj_countable' as_bytes address_from). by intros []. Defined.

Record Account := mkAccount {
  balance : Z;                        (* U256 *)
  nonce : Z;                          (* u64 *)
  code_hash : option (array 32)
}.

#[export] Instance Account_eq_dec : EqDecision Account.
Proof. solve_decision. Defined.

(** [Account::new], [Account::with_nonce], [Account::increment_nonce] *)
Definition Account_new (b : Z) : Account := mkAccount b 0 None.
Definition Account_with_nonce (b n : Z) : Account := mkAccount b n None.
Definition increment_nonce `{BuildProfile} (a : Account) : outcome Account :=
  n ← u64_add (nonce a) 1; Ret (mkAccount (balance a) n (code_hash a)).

Definition set_balance (a : Account) (b : Z) : Account := mkAccount b (nonce a) (code_hash a).

(** [burn_address], [cap_refill_address] *)
Definition burn_address : Address := address_from (array_repeat 32 x00).

Definition cap_refill_bytes : bytes := List.repeat x00 31 ++ [x01].
Definition cap_refill_address : Address :=
  address_from (Array cap_refill_bytes (eq_refl : bool_decide (length cap_refill_bytes = 32%nat) = true)).

(** ** Validators ([core/validator.rs]) *)

Inductive ValidatorStatus :=
| Registered
| Staked (stake : Z)
| Active
| Unstaking (release_era amount : Z)
| Frozen (frozen_until : Z)
| Thawed.

#[export] Instance ValidatorStatus_eq_dec : EqDecision ValidatorStatus.
Proof. solve_decision. Defined.

Record ValidatorEntry := mkValidatorEntry {
  ve_address : Address;
  ve_public_key : array 897;
  ve_stake : Z;                       (* U256 *)
  ve_status : ValidatorStatus;
  ve_registration_era : Z             (* u64 *)
}.

#[export] Instance ValidatorEntry_eq_dec : EqDecision ValidatorEntry.
Proof. solve_decision. Defined.

(** [ValidatorEntry { stake, status, ..entry }] *)
Definition ve_update (e : ValidatorEntry) (stake : Z) (status : ValidatorStatus) : ValidatorEntry :=
  mkValidatorEntry (ve_address e) (ve_public_key e) stake status (ve_registration_era e).

(** ** Governance ([governance/types.rs]) *)

Inductive GovernanceParam :=
| MaxValidators
| EraLength
| BlockSizeCapBytes
| BlockTxCap
| FlatFee
| PerByteRate
| AntiSpamDeposit
| MissedSlotPenalty
| SupplyCeilingRate
| SupplyHeadroomRate.

#[export] Instance GovernanceParam_eq_dec : EqDecision GovernanceParam.
Proof. solve_decision. Defined.

Inductive GovernanceAction :=
| UpdateParam (param : GovernanceParam) (new_value : Z)
| IncreaseShards (new_count effective_era : Z).

Inductive ProposalStatus := PActive | PApproved | PRejected | PExpired | PCancelled.

#[export] Instance ProposalStatus_eq_dec : EqDecision ProposalStatus.
Proof. solve_decision. Defined.

Record Proposal := mkProposal {
  pr_proposal_id : array 32;
  pr_proposer : Address;
  pr_title : bytes;
  pr_description : bytes;
  pr_actions : list GovernanceAction;
  pr_deposit : Z;                     (* U256 *)
  pr_submission_era : Z;              (* u64 *)
  pr_status : ProposalStatus
}.

Record Vote := mkVote {
  vt_proposal_id : array 32;
  vt_voter : Address;
  vt_approve : bool;
  vt_weight : Z;                      (* U256 *)
  vt_block_height : Z                 (* u64 *)
}.

(** ** Transactions ([core/transaction.rs]) *)

Inductive BurnTarget := Permanent | CapRefill.

Inductive TxBody :=
| Transfer (recipient : Address) (amount : Z)
| RegisterValidator (public_key : array 897)
| Stake (validator : Address) (amount : Z)
| RegisterAndStake (validator : Address) (amount : Z)
| Unstake (validator : Address) (amount : Z)
| Burn (target : BurnTarget) (amount : Z)
| Propose (proposal_id : array 32) (title description : bytes) (actions : list GovernanceAction)
| VoteTx (proposal_id : array 32) (approve : bool)
| CancelProposal (proposal_id : array 32).

(** [struct Falcon512Signature(Vec<u8>)] *)
Record Falcon512Signature := mkSignature { sig_bytes : bytes }.

Record Transaction := mkTransaction {
  tx_chain_id : Z;                    (* u64 *)
  tx_nonce : Z;                       (* u64 *)
  tx_sender : Address;
  tx_fee : Z;                         (* U256 *)
  tx_body : TxBody;
  tx_signature : Falcon512Signature
}.

(** ** Blocks ([core/block.rs]) *)

Record BlockHeader := mkBlockHeader {
  hdr_height : Z;                     (* u64 *)
  hdr_parent_hash : array 32;
  hdr_global_state_root : array 32;
  hdr_tx_root : array 32;
  hdr_timestamp : Z;                  (* u64 *)
  hdr_proposer : Address;
  hdr_chain_id : Z;                   (* u64 *)
  hdr_proposer_signature : Falcon512Signature
}.

Record BlockBody := mkBlockBody { transactions : list Transaction }.
Record Block := mkBlock { blk_header : BlockHeader; blk_body : BlockBody }.

Record CommitVote := mkCommitVote {
  cv_height : Z;                      (* u64 *)
  cv_block_hash : array 32;
  cv_validator : Address;
  cv_signature : Falcon512Signature
}.

(** [consensus/slashing.rs] *)
Record EquivocationEvidence := mkEvidence {
  ev_header_a : BlockHeader;
  ev_signature_a : Falcon512Signature;
  ev_header_b : BlockHeader;
  ev_signature_b : Falcon512Signature;
  ev_proposer : array 32
}.

(** ** Ranges enforced by the Rust types *)

Definition account_valid (a : Account) : Prop := is_u256 (balance a) /\ is_u64 (nonce a).

Definition status_valid (s : ValidatorStatus) : Prop :=
  match s with
  | Staked st => is_u256 st
  | Unstaking e a => is_u64 e /\ is_u256 a
  | Frozen u => is_u64 u
  | _ => True
  end.

Definition entry_valid (e : ValidatorEntry) : Prop :=
  is_u256 (ve_stake e) /\ status_valid (ve_status e) /\ is_u64 (ve_registration_era e).

Definition body_valid (b : TxBody) : Prop :=
  match b with
  | Transfer _ a | Stake _ a | RegisterAndStake _ a | Unstake _ a | Burn _ a => is_u256 a
  | _ => True
  end.

Definition tx_valid (tx : Transaction) : Prop :=
  is_u64 (tx_chain_id tx) /\ is_u64 (tx_nonce tx) /\ is_u256 (tx_fee tx) /\ body_valid (tx_body tx).

Definition block_valid (b : Block) : Prop := Forall tx_valid (transactions (blk_body b)).

#[export] Instance entry_valid_dec e : Decision (entry_valid e).
Proof.
  unfold entry_valid, is_u256, is_u64.
  assert (Decision (status_valid (ve_status e))).
  { destruct (ve_status e); simpl; unfold is_u256, is_u64; apply _. }
  apply _.
Defined.
