(* ===== verification/External.v ===== *)
(** * Third-party code the program relies on

    Everything of this file stands for a crate outside [src/]: BLAKE3, the [hex]
    crate, [parity-scale-codec] with its [derive] macros, and the Falcon-512
    implementation.  Each is a type class whose operations are parameters of the
    model; the [..Ok] classes state the documented laws the theorems rely on.
    [toy_*] are concrete instances, used to evaluate the model on examples. *)
From Stdlib Require Import Strings.Byte.
From stdpp Require Import base gmap sets list countable sorting.
From Stdlib Require Import ZArith Lia.
From S2P Require Import Prelude Types.

(** ** BLAKE3 *)

Class Blake3 := { blake3 : bytes -> array 32 }.

(** No two inputs of [D] collide: the idealisation of collision resistance the
    theorems use, always relative to the inputs in play. *)
Definition collision_free `{Blake3} (D : bytes -> Prop) : Prop :=
  forall x y, D x -> D y -> blake3 x = blake3 y -> x = y.

(** [crypto/hash.rs]; a hasher that is fed items one after the other hashes their
    concatenation. *)
Definition blake3_hash `{Blake3} (data : bytes) : array 32 := blake3 data.
Definition blake3_batch_hash `{Blake3} (items : list bytes) : array 32 := blake3 (concat items).

(** ** Iteration order of [HashMap] and [HashSet]

    The standard library leaves it unspecified: some permutation of the keys. *)
Class HashOrder (K : Type) `{Countable K} := { hash_order : gset K -> list K }.
Class HashOrderOk (K : Type) `{HashOrder K} : Prop := { hash_order_perm s : hash_order s ≡ₚ elements s }.

Lemma hash_order_elem `{HashOrderOk K} (s : gset K) k : k ∈ hash_order s <-> k ∈ s.
Proof. by rewrite hash_order_perm, elem_of_elements. Qed.

Lemma hash_order_nodup `{HashOrderOk K} (s : gset K) : NoDup (hash_order s).
Proof. rewrite hash_order_perm. apply NoDup_elements. Qed.

(** ** Hexadecimal strings (the [hex] crate) *)

Class Hex := {
  hex_encode : bytes -> bytes;
  hex_decode : bytes -> option bytes
}.

Definition is_ascii (b : byte) : Prop := byte_to_Z b < 128.

Class HexOk `{Hex} : Prop := {
  hex_decode_encode b : hex_decode (hex_encode b) = Some b;
  hex_encode_length b : length (hex_encode b) = (2 * length b)%nat;
  hex_encode_ascii b : Forall is_ascii (hex_encode b);
  hex_decode_length s b : hex_decode s = Some b -> length s = (2 * length b)%nat
}.

(** ** SCALE codecs *)

(** [encode] and [decode]; decoding reads a prefix and returns the rest. *)
Record codec (A : Type) := mkCodec {
  enc : A -> bytes;
  dec : bytes -> option (A * bytes)
}.
Arguments mkCodec {_} _ _.
Arguments enc {_} _ _.
Arguments dec {_} _ _.

Definition codec_ok {A} (valid : A -> Prop) (c : codec A) : Prop :=
  forall x r, valid x -> dec c (enc c x ++ r) = Some (x, r).

(** [T::decode(&mut &bytes[..])]: trailing bytes are ignored. *)
Definition decode_all {A} (c : codec A) (bs : bytes) : option A := fst <$> dec c bs.

Lemma decode_all_enc {A} (valid : A -> Prop) (c : codec A) x :
  codec_ok valid c -> valid x -> decode_all c (enc c x) = Some x.
Proof. intros Hc Hx. unfold decode_all. rewrite <- (app_nil_r (enc c x)), Hc; done. Qed.

Lemma enc_inj {A} (valid : A -> Prop) (c : codec A) x y :
  codec_ok valid c -> valid x -> valid y -> enc c x = enc c y -> x = y.
Proof.
  intros Hc Hx Hy E. apply (decode_all_enc valid c x Hc) in Hx.
  apply (decode_all_enc valid c y Hc) in Hy. rewrite E in Hx. congruence.
Qed.

(** The codecs of the crate and of its derive macros that the program calls. *)
Class Scale := {
  sc_read : nat -> bytes -> option (bytes * bytes);     (* [Input::read] *)
  sc_u64 : codec Z;
  sc_u256 : codec Z;
  sc_opt32 : codec (option (array 32));
  sc_entry : codec ValidatorEntry;
  sc_tx : codec Transaction;
  sc_header : codec BlockHeader;
  sc_block : codec Block;
  sc_proposal : codec Proposal;
  sc_vote : codec Vote
}.

Definition action_valid (a : GovernanceAction) : Prop :=
  match a with
  | UpdateParam _ v => is_u256 v
  | IncreaseShards n e => 0 <= n < W16 /\ is_u64 e
  end.

Definition proposal_valid (p : Proposal) : Prop :=
  Forall action_valid (pr_actions p) /\ is_u256 (pr_deposit p) /\ is_u64 (pr_submission_era p).

Definition vote_valid (v : Vote) : Prop := is_u256 (vt_weight v) /\ is_u64 (vt_block_height v).

Definition signature_valid (s : Falcon512Signature) : Prop :=
  length (sig_bytes s) = FALCON_SIGNATURE_SIZE.

Definition header_valid (h : BlockHeader) : Prop :=
  is_u64 (hdr_height h) /\ is_u64 (hdr_timestamp h) /\ is_u64 (hdr_chain_id h) /\
  signature_valid (hdr_proposer_signature h).

Definition tx_body_wire_valid (b : TxBody) : Prop :=
  body_valid b /\ match b with Propose _ _ _ actions => Forall action_valid actions | _ => True end.

Definition tx_wire_valid (tx : Transaction) : Prop :=
  is_u64 (tx_chain_id tx) /\ is_u64 (tx_nonce tx) /\ is_u256 (tx_fee tx) /\
  tx_body_wire_valid (tx_body tx) /\ signature_valid (tx_signature tx).

Definition block_wire_valid (b : Block) : Prop :=
  header_valid (blk_header b) /\ Forall tx_wire_valid (transactions (blk_body b)).

Class ScaleOk `{Scale} : Prop := {
  sc_read_app n x r : length x = n -> sc_read n (x ++ r) = Some (x, r);
  sc_u64_ok : codec_ok is_u64 sc_u64;
  sc_u256_ok : codec_ok is_u256 sc_u256;
  sc_opt32_ok : codec_ok (fun _ => True) sc_opt32;
  sc_entry_ok : codec_ok entry_valid sc_entry;
  sc_tx_ok : codec_ok tx_wire_valid sc_tx;
  sc_header_ok : codec_ok header_valid sc_header;
  sc_block_ok : codec_ok block_wire_valid sc_block;
  sc_proposal_ok : codec_ok proposal_valid sc_proposal;
  sc_vote_ok : codec_ok vote_valid sc_vote
}.

(** ** Falcon-512 signatures *)

Class Falcon := {
  falcon_verify : bytes -> array 897 -> bytes -> bool   (* signature, key, message *)
}.

(** ** Concrete instances *)

(** Codec combinators; each keeps the round trip. *)
Definition c_iso {A B} (f : A -> B) (g : B -> A) (c : codec B) : codec A :=
  mkCodec (fun a => enc c (f a)) (fun bs => '(b, r) ← dec c bs; Some (g b, r)).

Definition c_pair {A B} (c : codec A) (d : codec B) : codec (A * B) :=
  mkCodec (fun p => enc c p.1 ++ enc d p.2)
    (fun bs => '(a, r) ← dec c bs; '(b, r) ← dec d r; Some ((a, b), r)).

Definition c_le (n : nat) : codec Z :=
  mkCodec (to_le_bytes n)
    (fun bs => if decide (n <= length bs)%nat then Some (from_le_bytes (take n bs), drop n bs) else None).

Definition c_array (n : nat) : codec (array n) :=
  mkCodec array_bytes (fun bs => a ← array_of_list n (take n bs); Some (a, drop n bs)).

Definition c_sum {A B} (c : codec A) (d : codec B) : codec (A + B) :=
  mkCodec (fun s => match s with inl a => x00 :: enc c a | inr b => x01 :: enc d b end)
    (fun bs => match bs with
      | x00 :: r => '(a, r) ← dec c r; Some (inl a, r)
      | x01 :: r => '(b, r) ← dec d r; Some (inr b, r)
      | _ => None
      end).

Definition c_unit : codec unit := mkCodec (fun _ => []) (fun bs => Some (tt, bs)).

Fixpoint enc_list {A} (c : codec A) (l : list A) : bytes :=
  match l with [] => [x00] | x :: l => x01 :: enc c x ++ enc_list c l end.

Fixpoint dec_list {A} (fuel : nat) (c : codec A) (bs : bytes) : option (list A * bytes) :=
  match fuel, bs with
  | _, x00 :: r => Some ([], r)
  | S fuel, x01 :: r => '(x, r) ← dec c r; '(l, r) ← dec_list fuel c r; Some (x :: l, r)
  | _, _ => None
  end.

Definition c_list {A} (c : codec A) : codec (list A) :=
  mkCodec (enc_list c) (fun bs => dec_list (length bs) c bs).

Lemma c_iso_ok {A B} (vA : A -> Prop) (vB : B -> Prop) (f : A -> B) (g : B -> A) (c : codec B) :
  (forall a, vA a -> vB (f a) /\ g (f a) = a) -> codec_ok vB c -> codec_ok vA (c_iso f g c).
Proof. intros Hf Hc x r Hx. simpl. destruct (Hf x Hx) as [Hv Hg]. rewrite Hc by done. simpl. by rewrite Hg. Qed.

Lemma c_pair_ok {A B} (vA : A -> Prop) (vB : B -> Prop) (c : codec A) (d : codec B) :
  codec_ok vA c -> codec_ok vB d -> codec_ok (fun p => vA p.1 /\ vB p.2) (c_pair c d).
Proof.
  intros Hc Hd [a b] r [Ha Hb]; simpl in *. rewrite <- app_assoc, Hc by done. simpl. by rewrite Hd.
Qed.

Lemma c_le_ok n : codec_ok (fun z => 0 <= z < 256 ^ Z.of_nat n) (c_le n).
Proof.
  intros z r Hz. simpl. pose proof (to_le_bytes_length n z) as Hl.
  rewrite decide_True by (rewrite length_app; lia).
  rewrite take_app_length', drop_app_length' by done. by rewrite from_to_le_bytes.
Qed.

Lemma c_array_ok n : codec_ok (fun _ => True) (c_array n).
Proof.
  intros a r _. simpl. pose proof (array_length a).
  rewrite take_app_length', drop_app_length' by done. by rewrite array_of_list_bytes.
Qed.

Lemma c_sum_ok {A B} (vA : A -> Prop) (vB : B -> Prop) (c : codec A) (d : codec B) :
  codec_ok vA c -> codec_ok vB d ->
  codec_ok (fun s => match s with inl a => vA a | inr b => vB b end) (c_sum c d).
Proof. intros Hc Hd [a|b] r H; simpl; [by rewrite Hc|by rewrite Hd]. Qed.

Lemma c_unit_ok : codec_ok (fun _ => True) c_unit.
Proof. by intros [] r _. Qed.

Lemma c_list_ok {A} (v : A -> Prop) (c : codec A) : codec_ok v c -> codec_ok (Forall v) (c_list c).
Proof.
  intros Hc l r Hl. simpl.
  assert (forall n, (length l <= n)%nat -> dec_list n c (enc_list c l ++ r) = Some (l, r)) as H.
  { induction Hl as [|x l Hx Hl IH]; intros n Hn; simpl in *; [by destruct n|].
    destruct n as [|n]; [lia|]. simpl. rewrite <- app_assoc, Hc by done. simpl. rewrite IH by lia. done. }
  apply H. rewrite length_app. clear H Hl.
  induction l as [|x l IH]; simpl; [lia|]. rewrite length_app. lia.
Qed.
