(* ===== verification/Toy.v ===== *)
(** * Concrete instances of the external classes

    Small executable stand-ins for BLAKE3, [hex], SCALE and Falcon that satisfy
    the laws of [External]: they show the hypotheses of the theorems can hold
    and let the witnesses evaluate the model. *)
From Stdlib Require Import Strings.Byte.
From stdpp Require Import base gmap sets list countable.
From Stdlib Require Import ZArith Lia.
From S2P Require Import Prelude Types External.

(** The first 32 bytes of the input, zero padded. *)
Lemma toy_hash_len (b : bytes) : bool_decide (length (resize 32 x00 b) = 32%nat) = true.
Proof. apply bool_decide_eq_true, length_resize. Qed.

#[local] Instance toy_blake3 : Blake3 := {| blake3 b := Array (resize 32 x00 b) (toy_hash_len b) |}.

(** Keys in the order of [elements]. *)
#[local] Instance toy_order `{Countable K} : HashOrder K := {| hash_order s := elements s |}.
#[local] Instance toy_order_ok `{Countable K} : HashOrderOk K.
Proof. by split. Qed.

(** Lower-case hexadecimal digits. *)
Definition hex_digit (z : Z) : byte := byte_of_Z (if z <? 10 then 48 + z else 87 + z).
Definition hex_value (b : byte) : option Z :=
  let z := byte_to_Z b in
  if (48 <=? z) && (z <=? 57) then Some (z - 48)
  else if (97 <=? z) && (z <=? 102) then Some (z - 87)
  else if (65 <=? z) && (z <=? 70) then Some (z - 55) else None.

Definition toy_hex_encode (b : bytes) : bytes :=
  flat_map (fun x => [hex_digit (byte_to_Z x / 16); hex_digit (byte_to_Z x mod 16)]) b.

Fixpoint toy_hex_decode (s : bytes) : option bytes :=
  match s with
  | [] => Some []
  | [_] => None
  | h :: l :: s => a ← hex_value h; b ← hex_value l; r ← toy_hex_decode s; Some (byte_of_Z (16 * a + b) :: r)
  end.

#[local] Instance toy_hex : Hex := {| hex_encode := toy_hex_encode; hex_decode := toy_hex_decode |}.

Lemma toy_hex_byte x :
  (a ← hex_value (hex_digit (byte_to_Z x / 16)); b ← hex_value (hex_digit (byte_to_Z x mod 16));
   Some (byte_of_Z (16 * a + b))) = Some x.
Proof. by destruct x. Qed.

Lemma toy_hex_roundtrip b : toy_hex_decode (toy_hex_encode b) = Some b.
Proof.
  induction b as [|x b IH]; [done|]. pose proof (toy_hex_byte x) as Hx. simpl.
  change (flat_map _ b) with (toy_hex_encode b). rewrite IH.
  destruct (hex_value (hex_digit (byte_to_Z x / 16))); simpl in *; [|done].
  destruct (hex_value (hex_digit (byte_to_Z x mod 16))); simpl in *; [|done]. congruence.
Qed.

Lemma toy_hex_encode_length b : length (toy_hex_encode b) = (2 * length b)%nat.
Proof. induction b; simpl in *; lia. Qed.

Lemma toy_hex_encode_ascii b : Forall is_ascii (toy_hex_encode b).
Proof.
  induction b as [|x b IH]; simpl; [constructor|].
  constructor; [by destruct x|]. constructor; [by destruct x|done].
Qed.

Lemma toy_hex_decode_length n s b :
  (length s <= n)%nat -> toy_hex_decode s = Some b -> length s = (2 * length b)%nat.
Proof.
  revert s b; induction n as [|n IH]; intros s b Hn; destruct s as [|h [|l s]]; simpl in *; try done;
    try (by intros [= <-]); try lia.
  destruct (hex_value h); simpl; [|done]. destruct (hex_value l); simpl; [|done].
  destruct (toy_hex_decode s) as [r|] eqn:E; simpl; [|done]. intros [= <-].
  apply IH in E; simpl; lia.
Qed.

#[local] Instance toy_hex_ok : HexOk.
Proof.
  split; simpl.
  - apply toy_hex_roundtrip.
  - apply toy_hex_encode_length.
  - apply toy_hex_encode_ascii.
  - intros s b. by apply (toy_hex_decode_length (length s)).
Qed.

(** SCALE stand-ins, built from the combinators. *)
Definition c_u64 : codec Z := c_le 8.
Definition c_u16 : codec Z := c_le 2.
Definition c_u256 : codec Z := c_le 32.
Definition c_byte : codec byte :=
  mkCodec (fun b => [b]) (fun bs => match bs with b :: r => Some (b, r) | [] => None end).
Definition c_bytes : codec bytes := c_list c_byte.
Definition c_bool : codec bool :=
  c_iso (fun b : bool => if b then inl tt else inr tt) (fun s => match s with inl _ => true | inr _ => false end)
    (c_sum c_unit c_unit).
Definition c_addr : codec Address := c_iso as_bytes address_from (c_array 32).
Definition c_opt32 : codec (option (array 32)) :=
  c_iso (fun o : option (array 32) => match o with None => inl tt | Some a => inr a end)
    (fun s => match s with inl _ => None | inr a => Some a end) (c_sum c_unit (c_array 32)).

Definition c_status : codec ValidatorStatus :=
  c_iso (fun s => match s with
      | Registered => inl (inl (inl tt)) | Active => inl (inl (inr tt)) | Thawed => inl (inr tt)
      | Staked z => inr (inl z) | Unstaking e a => inr (inr (inl (e, a))) | Frozen u => inr (inr (inr u)) end)
    (fun s => match s with
      | inl (inl (inl _)) => Registered | inl (inl (inr _)) => Active | inl (inr _) => Thawed
      | inr (inl z) => Staked z | inr (inr (inl (e, a))) => Unstaking e a | inr (inr (inr u)) => Frozen u end)
    (c_sum (c_sum (c_sum c_unit c_unit) c_unit) (c_sum c_u256 (c_sum (c_pair c_u64 c_u256) c_u64))).

Definition c_entry : codec ValidatorEntry :=
  c_iso (fun e => (ve_address e, (ve_public_key e, (ve_stake e, (ve_status e, ve_registration_era e)))))
    (fun p => let '(a, (k, (s, (st, r)))) := p in mkValidatorEntry a k s st r)
    (c_pair c_addr (c_pair (c_array 897) (c_pair c_u256 (c_pair c_status c_u64)))).

Definition param_index (p : GovernanceParam) : Z :=
  match p with
  | MaxValidators => 0 | EraLength => 1 | BlockSizeCapBytes => 2 | BlockTxCap => 3 | FlatFee => 4
  | PerByteRate => 5 | AntiSpamDeposit => 6 | MissedSlotPenalty => 7 | SupplyCeilingRate => 8
  | SupplyHeadroomRate => 9
  end.
Definition param_of_index (z : Z) : GovernanceParam :=
  match z with
  | 0 => MaxValidators | 1 => EraLength | 2 => BlockSizeCapBytes | 3 => BlockTxCap | 4 => FlatFee
  | 5 => PerByteRate | 6 => AntiSpamDeposit | 7 => MissedSlotPenalty | 8 => SupplyCeilingRate
  | _ => SupplyHeadroomRate
  end.

Definition c_action : codec GovernanceAction :=
  c_iso (fun a => match a with UpdateParam p v => inl (param_index p, v) | IncreaseShards n e => inr (n, e) end)
    (fun s => match s with inl (p, v) => UpdateParam (param_of_index p) v | inr (n, e) => IncreaseShards n e end)
    (c_sum (c_pair (c_le 1) c_u256) (c_pair c_u16 c_u64)).

Definition c_sig : codec Falcon512Signature := c_iso sig_bytes mkSignature c_bytes.

Definition c_body : codec TxBody :=
  c_iso (fun b => match b with
      | Transfer r a => inl (inl (inl (r, a))) | RegisterValidator k => inl (inl (inr k))
      | Stake v a => inl (inr (inl (v, a))) | RegisterAndStake v a => inl (inr (inr (v, a)))
      | Unstake v a => inr (inl (inl (v, a)))
      | Burn t a => inr (inl (inr (match t with Permanent => true | CapRefill => false end, a)))
      | Propose i t d l => inr (inr (inl (i, (t, (d, l)))))
      | VoteTx i v => inr (inr (inr (inl (i, v)))) | CancelProposal i => inr (inr (inr (inr i))) end)
    (fun s => match s with
      | inl (inl (inl (r, a))) => Transfer r a | inl (inl (inr k)) => RegisterValidator k
      | inl (inr (inl (v, a))) => Stake v a | inl (inr (inr (v, a))) => RegisterAndStake v a
      | inr (inl (inl (v, a))) => Unstake v a
      | inr (inl (inr (t, a))) => Burn (if t : bool then Permanent else CapRefill) a
      | inr (inr (inl (i, (t, (d, l))))) => Propose i t d l
      | inr (inr (inr (inl (i, v)))) => VoteTx i v | inr (inr (inr (inr i))) => CancelProposal i end)
    (c_sum (c_sum (c_sum (c_pair c_addr c_u256) (c_array 897))
                  (c_sum (c_pair c_addr c_u256) (c_pair c_addr c_u256)))
           (c_sum (c_sum (c_pair c_addr c_u256) (c_pair c_bool c_u256))
                  (c_sum (c_pair (c_array 32) (c_pair c_bytes (c_pair c_bytes (c_list c_action))))
                         (c_sum (c_pair (c_array 32) c_bool) (c_array 32))))).

Definition c_tx : codec Transaction :=
  c_iso (fun t => (tx_chain_id t, (tx_nonce t, (tx_sender t, (tx_fee t, (tx_body t, tx_signature t))))))
    (fun p => let '(c, (n, (s, (f, (b, g))))) := p in mkTransaction c n s f b g)
    (c_pair c_u64 (c_pair c_u64 (c_pair c_addr (c_pair c_u256 (c_pair c_body c_sig))))).

Definition c_header : codec BlockHeader :=
  c_iso (fun h => (hdr_height h, (hdr_parent_hash h, (hdr_global_state_root h, (hdr_tx_root h,
           (hdr_timestamp h, (hdr_proposer h, (hdr_chain_id h, hdr_proposer_signature h))))))))
    (fun p => let '(h, (ph, (r, (t, (ts, (pr, (c, s))))))) := p in mkBlockHeader h ph r t ts pr c s)
    (c_pair c_u64 (c_pair (c_array 32) (c_pair (c_array 32) (c_pair (c_array 32)
      (c_pair c_u64 (c_pair c_addr (c_pair c_u64 c_sig))))))).

Definition c_block : codec Block :=
  c_iso (fun b => (blk_header b, transactions (blk_body b))) (fun p => mkBlock p.1 (mkBlockBody p.2))
    (c_pair c_header (c_list c_tx)).

Definition c_pstatus : codec ProposalStatus :=
  c_iso (fun s => match s with PActive => inl (inl tt) | PApproved => inl (inr tt) | PRejected => inr (inl tt)
                  | PExpired => inr (inr (inl tt)) | PCancelled => inr (inr (inr tt)) end)
    (fun s => match s with inl (inl _) => PActive | inl (inr _) => PApproved | inr (inl _) => PRejected
              | inr (inr (inl _)) => PExpired | inr (inr (inr _)) => PCancelled end)
    (c_sum (c_sum c_unit c_unit) (c_sum c_unit (c_sum c_unit c_unit))).

Definition c_proposal : codec Proposal :=
  c_iso (fun p => (pr_proposal_id p, (pr_proposer p, (pr_title p, (pr_description p, (pr_actions p,
           (pr_deposit p, (pr_submission_era p, pr_status p))))))))
    (fun p => let '(i, (a, (t, (d, (l, (dep, (e, s))))))) := p in mkProposal i a t d l dep e s)
    (c_pair (c_array 32) (c_pair c_addr (c_pair c_bytes (c_pair c_bytes (c_pair (c_list c_action)
      (c_pair c_u256 (c_pair c_u64 c_pstatus))))))).

Definition c_vote : codec Vote :=
  c_iso (fun v => (vt_proposal_id v, (vt_voter v, (vt_approve v, (vt_weight v, vt_block_height v)))))
    (fun p => let '(i, (a, (b, (w, h)))) := p in mkVote i a b w h)
    (c_pair (c_array 32) (c_pair c_addr (c_pair c_bool (c_pair c_u256 c_u64)))).

Definition toy_read (n : nat) (bs : bytes) : option (bytes * bytes) :=
  if decide (n <= length bs)%nat then Some (take n bs, drop n bs) else None.

#[local] Instance toy_scale : Scale := {|
  sc_read := toy_read; sc_u64 := c_u64; sc_u256 := c_u256; sc_opt32 := c_opt32; sc_entry := c_entry;
  sc_tx := c_tx; sc_header := c_header; sc_block := c_block; sc_proposal := c_proposal; sc_vote := c_vote
|}.

(** The laws. *)
Lemma codec_weaken {A} (v v' : A -> Prop) (c : codec A) :
  (forall x, v x -> v' x) -> codec_ok v' c -> codec_ok v c.
Proof. intros H Hc x r Hx. auto. Qed.

Lemma c_u64_ok : codec_ok is_u64 c_u64. Proof. exact (c_le_ok 8). Qed.
Lemma c_u16_ok : codec_ok (fun z => 0 <= z < W16) c_u16. Proof. exact (c_le_ok 2). Qed.
Lemma c_u256_ok : codec_ok is_u256 c_u256. Proof. exact (c_le_ok 32). Qed.
Lemma c_byte_ok : codec_ok (fun _ => True) c_byte. Proof. done. Qed.

Lemma Forall_T {A} (l : list A) : Forall (fun _ => True) l.
Proof. by apply Forall_true. Qed.

Create HintDb codec.
#[local] Hint Resolve c_u64_ok c_u16_ok c_u256_ok c_byte_ok c_le_ok c_array_ok c_unit_ok
  c_pair_ok c_sum_ok c_list_ok Forall_T : codec.

(** Proves a round trip by the shape of the codec; the side condition relates
    the validity of the value to that of its components. *)
Ltac codec_tac :=
  eapply c_iso_ok; [|eauto 30 with codec].

Lemma c_bytes_ok : codec_ok (fun _ => True) c_bytes.
Proof. eapply codec_weaken; [|apply c_list_ok, c_byte_ok]. intros. apply Forall_T. Qed.
#[local] Hint Resolve c_bytes_ok : codec.
Lemma c_bool_ok : codec_ok (fun _ => True) c_bool. Proof. codec_tac. by intros []. Qed.
Lemma c_addr_ok : codec_ok (fun _ => True) c_addr. Proof. codec_tac. by intros []. Qed.
Lemma c_opt32_ok : codec_ok (fun _ => True) c_opt32. Proof. codec_tac. by intros []. Qed.
Lemma c_sig_ok : codec_ok (fun _ => True) c_sig. Proof. codec_tac. by intros []. Qed.
#[local] Hint Resolve c_bool_ok c_addr_ok c_opt32_ok c_sig_ok : codec.
Lemma c_status_ok : codec_ok status_valid c_status. Proof. codec_tac. by intros []. Qed.
#[local] Hint Resolve c_status_ok : codec.
Lemma c_entry_ok : codec_ok entry_valid c_entry.
Proof. codec_tac. intros [] (? & ? & ?); simpl in *. auto 10. Qed.

Lemma c_action_ok : codec_ok action_valid c_action.
Proof.
  codec_tac. intros [[] v|n e]; simpl; intros H; (split; [|done]); try exact H;
    (split; [split; done|exact H]).
Qed.
#[local] Hint Resolve c_action_ok : codec.
Lemma c_body_ok : codec_ok tx_body_wire_valid c_body.
Proof.
  codec_tac. intros b [H1 H2]. destruct b as [| | | | |[]| | |]; simpl in *; auto 10.
Qed.
#[local] Hint Resolve c_body_ok : codec.
Lemma c_tx_ok : codec_ok tx_wire_valid c_tx.
Proof. codec_tac. intros [] (? & ? & ? & ? & ?); simpl in *. auto 10. Qed.
Lemma c_header_ok : codec_ok header_valid c_header.
Proof. codec_tac. intros [] (? & ? & ? & ?); simpl in *. auto 20. Qed.
#[local] Hint Resolve c_tx_ok c_header_ok : codec.
Lemma c_block_ok : codec_ok block_wire_valid c_block.
Proof. codec_tac. intros [h [l]] [? ?]; simpl in *. auto. Qed.
Lemma c_pstatus_ok : codec_ok (fun _ => True) c_pstatus. Proof. codec_tac. by intros []. Qed.
#[local] Hint Resolve c_pstatus_ok : codec.
Lemma c_proposal_ok : codec_ok proposal_valid c_proposal.
Proof. codec_tac. intros [] (? & ? & ?); simpl in *. auto 20. Qed.
Lemma c_vote_ok : codec_ok vote_valid c_vote.
Proof. codec_tac. intros [] (? & ?); simpl in *. auto 20. Qed.

#[local] Instance toy_scale_ok : ScaleOk.
Proof.
  split; simpl; auto using c_u64_ok, c_u256_ok, c_opt32_ok, c_entry_ok, c_tx_ok, c_header_ok,
    c_block_ok, c_proposal_ok, c_vote_ok.
  intros n x r Hx. unfold toy_read. rewrite decide_True by (rewrite length_app; lia).
  by rewrite take_app_length', drop_app_length' by done.
Qed.

(** A verifier that accepts a signature starting with the first byte of the key. *)
#[local] Instance toy_falcon : Falcon := {|
  falcon_verify s k m := match s, array_bytes k with a :: _, b :: _ => bool_decide (a = b) | _, _ => false end
|}.

(** Texts of any countable data. *)
Fixpoint positive_bytes (p : positive) : bytes :=
  match p with xH => [] | xO p => x00 :: positive_bytes p | xI p => x01 :: positive_bytes p end.
Fixpoint bytes_positive (b : bytes) : positive :=
  match b with [] => 1%positive | x00 :: b => xO (bytes_positive b) | _ :: b => xI (bytes_positive b) end.

Lemma bytes_positive_bytes p : bytes_positive (positive_bytes p) = p.
Proof. induction p as [p IH|p IH|]; simpl; by rewrite ?IH. Qed.

(** [Import ToyInstances] evaluates the model with the stand-ins and the dev profile. *)
Module ToyInstances.
#[export] Existing Instance toy_blake3.
#[export] Existing Instance toy_order.
#[export] Existing Instance toy_order_ok.
#[export] Existing Instance toy_hex.
#[export] Existing Instance toy_hex_ok.
#[export] Existing Instance toy_scale.
#[export] Existing Instance toy_scale_ok.
#[export] Existing Instance toy_falcon.
#[export] Existing Instance dev_profile.
End ToyInstances.
