(* ===== verification/Trie.v ===== *)
(** * Sparse Merkle tree ([crypto/trie.rs])

    The state store of the chain: leaves in a hash map keyed by the BLAKE3 hash
    of the key, a lazily cached root, and the bottom-up root computation, which
    is proved equal to the textbook recursive Merkle root. *)
From Stdlib Require Import Strings.Byte.
From stdpp Require Import base gmap sets list countable.
From Stdlib Require Import ZArith Lia.
From S2P Require Import Prelude Types External Toy.

Definition DEPTH : nat := 256.
Definition EMPTY_HASH : array 32 := array_repeat 32 x00.

Definition NS_ACCOUNTS : byte := x00.
Definition NS_VALIDATORS : byte := x01.
Definition NS_META : byte := x02.
Definition NS_GOVERNANCE : byte := x03.

Definition namespace_key (ns : byte) (key : bytes) : bytes := ns :: key.

Section Trie.
Context `{BuildProfile} `{Blake3}.

(** [BLAKE3(left || right)] *)
Definition hash_pair (l r : array 32) : array 32 := blake3 (array_bytes l ++ array_bytes r).

(** [compute_defaults]: [defaults[0] = EMPTY_HASH], [defaults[d] = H(defaults[d-1] || defaults[d-1])]. *)
Fixpoint defaults_from (n : nat) (h : array 32) : list (array 32) :=
  h :: match n with O => [] | S n => defaults_from n (hash_pair h h) end.

Definition compute_defaults : list (array 32) := defaults_from DEPTH EMPTY_HASH.

Definition default_at (defs : list (array 32)) (d : nat) : array 32 := nth d defs EMPTY_HASH.

Record SparseMerkleTree := mkSMT {
  leaves : gmap (array 32) bytes;
  cached_root : option (array 32)
}.

Definition smt_new : SparseMerkleTree := mkSMT ∅ None.

(** One level of [compute_root]: the parents of [nodes], whose depth is [depth]. *)
Definition parent_entry (defs : list (array 32)) (depth : nat) (nodes : gmap Z (array 32))
    (node : Z * array 32) : Z * array 32 :=
  let '(pos, hash) := node in
  let sibling_pos := Z.lxor pos 1 in
  let parent_pos := Z.shiftr pos 1 in
  let sibling_hash := default (default_at defs depth) (nodes !! sibling_pos) in
  let '(l, r) := if pos <? sibling_pos then (hash, sibling_hash) else (sibling_hash, hash) in
  (parent_pos, hash_pair l r).

Definition root_level (defs : list (array 32)) (depth : nat) (nodes : gmap Z (array 32)) :
    gmap Z (array 32) :=
  foldl (fun parents node =>
      <[(parent_entry defs depth nodes node).1 := (parent_entry defs depth nodes node).2]> parents)
    ∅ (map_to_list nodes).

Fixpoint root_levels (defs : list (array 32)) (n depth : nat) (nodes : gmap Z (array 32)) :
    gmap Z (array 32) :=
  match n with
  | O => nodes
  | S n => root_levels defs n (S depth) (root_level defs depth nodes)
  end.

(** The nodes at leaf level: [pos = U256::from_big_endian(key_hash)]. *)
Definition leaf_nodes (ls : gmap (array 32) bytes) : gmap Z (array 32) :=
  foldl (fun nodes kv => <[from_be_bytes (array_bytes kv.1) := blake3 kv.2]> nodes) ∅ (map_to_list ls).

Definition compute_root (ls : gmap (array 32) bytes) : outcome (array 32) :=
  let defs := compute_defaults in
  let nodes := root_levels defs DEPTH 0 (leaf_nodes ls) in
  _ ← debug_assert (Nat.eqb (length (map_to_list nodes)) 1);
  Ret (match map_to_list nodes with [] => default_at defs DEPTH | (_, h) :: _ => h end).

(** [defaults()[DEPTH]]: the root of the empty tree. *)
Definition empty_root : array 32 := default_at compute_defaults DEPTH.

Definition smt_root (self : SparseMerkleTree) : outcome (array 32 * SparseMerkleTree) :=
  match cached_root self with
  | Some cached => Ret (cached, self)
  | None =>
      if bool_decide (leaves self = ∅) then Ret (empty_root, self)
      else
        root ← compute_root (leaves self);
        Ret (root, mkSMT (leaves self) (Some root))
  end.

Definition smt_insert (self : SparseMerkleTree) (key value : bytes) : SparseMerkleTree :=
  mkSMT (<[blake3 key := value]> (leaves self)) None.

Definition smt_get (self : SparseMerkleTree) (key : bytes) : option bytes :=
  leaves self !! blake3 key.

(** ** The reference: the Merkle root of a 256-level binary tree *)

(** Hash of the leaf at a position: [EMPTY_HASH] where nothing is stored. *)
Definition lhash (ln : gmap Z (array 32)) (pos : Z) : array 32 := default EMPTY_HASH (ln !! pos).

(** Hash of the subtree of height [d] whose leaves are the positions [p * 2^d + _]. *)
Fixpoint merkle (lf : Z -> array 32) (d : nat) (p : Z) : array 32 :=
  match d with
  | O => lf p
  | S d => hash_pair (merkle lf d (2 * p)) (merkle lf d (2 * p + 1))
  end.

Definition merkle_root (ls : gmap (array 32) bytes) : array 32 := merkle (lhash (leaf_nodes ls)) DEPTH 0.

#[local] Opaque compute_defaults compute_root empty_root DEPTH.

(** ** Lookup laws *)

Lemma smt_get_new key : smt_get smt_new key = None.
Proof. apply lookup_empty. Qed.

Lemma smt_get_insert_eq t k v : smt_get (smt_insert t k v) k = Some v.
Proof. apply lookup_insert_eq. Qed.

Lemma smt_get_insert_ne t k v k' : blake3 k <> blake3 k' -> smt_get (smt_insert t k v) k' = smt_get t k'.
Proof. apply lookup_insert_ne. Qed.

Lemma smt_get_root t r t' k : smt_root t = Ret (r, t') -> smt_get t' k = smt_get t k.
Proof.
  unfold smt_root, smt_get. destruct (cached_root t); [by intros [_ <-]%Ret_pair_inj|].
  case_bool_decide; [by intros [_ <-]%Ret_pair_inj|].
  by intros (x & _ & [_ <-]%Ret_pair_inj)%bind_Ret_inv.
Qed.

(** ** Positions *)

Lemma sibling_even p : 0 <= p -> Z.lxor (2 * p) 1 = 2 * p + 1.
Proof. intros. destruct p; [done|done|lia]. Qed.
Lemma sibling_odd p : 0 <= p -> Z.lxor (2 * p + 1) 1 = 2 * p.
Proof. intros. destruct p; [done|done|lia]. Qed.
Lemma shiftr_even p : Z.shiftr (2 * p) 1 = p.
Proof. rewrite Z.shiftr_div_pow2 by lia. change (2 ^ 1) with 2. rewrite Z.mul_comm. by apply Z.div_mul. Qed.
Lemma shiftr_odd p : Z.shiftr (2 * p + 1) 1 = p.
Proof.
  rewrite Z.shiftr_div_pow2 by lia. change (2 ^ 1) with 2.
  rewrite Z.add_comm, Z.mul_comm, Z.div_add by lia. done.
Qed.

Lemma shiftr_succ p (d : nat) : Z.shiftr p (Z.of_nat (S d)) = Z.shiftr (Z.shiftr p (Z.of_nat d)) 1.
Proof. rewrite Z.shiftr_shiftr by lia. f_equal. lia. Qed.

Lemma pos_cases p : exists q, p = 2 * q \/ p = 2 * q + 1.
Proof. exists (p / 2). pose proof (Z.div_mod p 2). pose proof (Z.mod_pos_bound p 2). lia. Qed.

(** ** Defaults *)

Lemma default_at_S h n d : (d < n)%nat ->
  default_at (defaults_from n h) (S d) =
  hash_pair (default_at (defaults_from n h) d) (default_at (defaults_from n h) d).
Proof.
  revert h d; induction n as [|n IH]; intros h d Hd; [lia|].
  destruct d as [|d]; [by destruct n|]. simpl. unfold default_at in *. apply (IH (hash_pair h h) d). lia.
Qed.

Lemma default_at_0 : default_at compute_defaults 0 = EMPTY_HASH.
Proof. with_strategy transparent [compute_defaults DEPTH] reflexivity. Qed.

Lemma default_at_level d : (d < DEPTH)%nat ->
  default_at compute_defaults (S d) =
  hash_pair (default_at compute_defaults d) (default_at compute_defaults d).
Proof. with_strategy transparent [compute_defaults] unfold compute_defaults. apply default_at_S. Qed.

(** ** The loop invariant of [compute_root] *)

(** Some stored leaf lies below node [p] of depth [d]. *)
Definition below (ln : gmap Z (array 32)) (d : nat) (p : Z) : Prop :=
  exists pos, is_Some (ln !! pos) /\ Z.shiftr pos (Z.of_nat d) = p.

Lemma below_parent ln d p : below ln d p -> below ln (S d) (Z.shiftr p 1).
Proof. intros (pos & Hp & <-). exists pos. split; [done|]. apply shiftr_succ. Qed.

Lemma below_child ln d p : below ln (S d) p -> below ln d (2 * p) \/ below ln d (2 * p + 1).
Proof.
  intros (pos & Hp & <-). rewrite shiftr_succ.
  destruct (pos_cases (Z.shiftr pos (Z.of_nat d))) as [q [E|E]].
  - left. exists pos. split; [done|]. rewrite E, shiftr_even. done.
  - right. exists pos. split; [done|]. rewrite E, shiftr_odd. done.
Qed.

Section Levels.
Context (ln : gmap Z (array 32)).
Context (ln_nonneg : forall pos h, ln !! pos = Some h -> 0 <= pos).

Lemma below_nonneg d p : below ln d p -> 0 <= p.
Proof. intros (pos & [h Hp] & <-). apply Z.shiftr_nonneg. eauto. Qed.

Lemma merkle_empty d p : (d <= DEPTH)%nat -> ~ below ln d p ->
  merkle (lhash ln) d p = default_at compute_defaults d.
Proof.
  revert p; induction d as [|d IH]; intros p Hd Hb.
  - simpl. unfold lhash. rewrite default_at_0. destruct (ln !! p) as [h|] eqn:E; [|done].
    destruct Hb. exists p. rewrite E. split; [eauto|]. by rewrite Z.shiftr_0_r.
  - rewrite default_at_level by lia. simpl.
    rewrite !IH; [done|lia| |lia|]; intros Hc; apply Hb.
    + apply below_parent in Hc. rewrite shiftr_odd in Hc. done.
    + apply below_parent in Hc. rewrite shiftr_even in Hc. done.
Qed.

(** [nodes] is exactly the non-empty nodes of depth [d] with their hashes. *)
Definition level_ok (d : nat) (nodes : gmap Z (array 32)) : Prop :=
  forall p h, nodes !! p = Some h <-> below ln d p /\ h = merkle (lhash ln) d p.

Lemma level_lookup d nodes p : (d <= DEPTH)%nat -> level_ok d nodes ->
  default (default_at compute_defaults d) (nodes !! p) = merkle (lhash ln) d p.
Proof.
  intros Hd Hn. destruct (nodes !! p) as [h|] eqn:E; simpl; [by apply Hn in E as [_ ->]|].
  rewrite merkle_empty; [done..|]. intros Hb.
  assert (nodes !! p = Some (merkle (lhash ln) d p)) by (apply Hn; auto). congruence.
Qed.

Lemma parent_entry_ok d nodes p : (d <= DEPTH)%nat -> level_ok d nodes -> 0 <= p ->
  parent_entry compute_defaults d nodes (p, merkle (lhash ln) d p) =
  (Z.shiftr p 1, merkle (lhash ln) (S d) (Z.shiftr p 1)).
Proof.
  intros Hd Hn Hp. unfold parent_entry. rewrite (level_lookup d nodes) by done.
  destruct (pos_cases p) as [q [->| ->]].
  - rewrite sibling_even, shiftr_even by lia. rewrite (proj2 (Z.ltb_lt _ _)) by lia. done.
  - rewrite sibling_odd, shiftr_odd by lia. rewrite (proj2 (Z.ltb_ge _ _)) by lia. done.
Qed.

Lemma root_level_ok d nodes : (d < DEPTH)%nat -> level_ok d nodes ->
  level_ok (S d) (root_level compute_defaults d nodes).
Proof.
  intros Hd Hn p h. unfold root_level.
  assert (forall node, node ∈ map_to_list nodes ->
    below ln d node.1 /\ parent_entry compute_defaults d nodes node =
      (Z.shiftr node.1 1, merkle (lhash ln) (S d) (Z.shiftr node.1 1))) as He.
  { intros [q g] Hin. apply elem_of_map_to_list, Hn in Hin as [Hb ->].
    split; [done|]. apply parent_entry_ok; [lia|done|by eapply below_nonneg]. }
  rewrite foldl_insert_lookup.
  2:{ intros x y Hx Hy. destruct (He x Hx) as [_ ->], (He y Hy) as [_ ->]. simpl. by intros ->. }
  split.
  - intros (x & Hx & E1 & E2). destruct (He x Hx) as [Hb Hp]. rewrite Hp in E1, E2. simpl in E1, E2.
    subst. split; [|done]. by apply below_parent.
  - intros [Hb ->].
    assert (exists q, below ln d q /\ Z.shiftr q 1 = p) as (q & Hq & Eq).
    { apply below_child in Hb as [Hb|Hb]; eexists; (split; [exact Hb|]);
        [apply shiftr_even|apply shiftr_odd]. }
    exists (q, merkle (lhash ln) d q).
    assert ((q, merkle (lhash ln) d q) ∈ map_to_list nodes) as Hin by (apply elem_of_map_to_list, Hn; auto).
    destruct (He _ Hin) as [_ ->]. subst p. done.
Qed.

Lemma root_levels_ok n d nodes : (d + n <= DEPTH)%nat -> level_ok d nodes ->
  level_ok (d + n) (root_levels compute_defaults n d nodes).
Proof.
  revert d nodes; induction n as [|n IH]; intros d nodes Hd Hn; simpl.
  - by rewrite Nat.add_0_r.
  - rewrite Nat.add_succ_r. change (S (d + n)) with (S d + n)%nat.
    apply IH; [lia|]. apply root_level_ok; [lia|done].
Qed.

Lemma level_ok_0 : level_ok 0 ln.
Proof.
  intros p h. simpl. unfold lhash, below. split.
  - intros E. rewrite E. split; [|done]. exists p. rewrite E, Z.shiftr_0_r. eauto.
  - intros [(pos & [g Hg] & E) ->]. rewrite Z.shiftr_0_r in E. subst. by rewrite Hg.
Qed.
End Levels.

(** ** Leaves *)

Lemma leaf_nodes_lookup ls pos h :
  leaf_nodes ls !! pos = Some h <->
  exists k v, ls !! k = Some v /\ from_be_bytes (array_bytes k) = pos /\ blake3 v = h.
Proof.
  unfold leaf_nodes. rewrite foldl_insert_lookup.
  - split.
    + intros ([k v] & Hin & ? & ?). apply elem_of_map_to_list in Hin. eauto.
    + intros (k & v & Hin & ? & ?). exists (k, v). by rewrite elem_of_map_to_list.
  - intros [k v] [k' v'] H1 H2 E. simpl in *.
    apply elem_of_map_to_list in H1. apply elem_of_map_to_list in H2.
    apply from_be_bytes_inj in E; [|by rewrite !array_length].
    apply array_eq in E. subst. congruence.
Qed.

Lemma leaf_nodes_range ls pos h : leaf_nodes ls !! pos = Some h -> 0 <= pos < 2 ^ Z.of_nat DEPTH.
Proof.
  intros (k & v & _ & <- & _)%leaf_nodes_lookup. pose proof (from_be_bytes_range (array_bytes k)) as Hr.
  rewrite array_length in Hr. exact Hr.
Qed.

Lemma leaf_nodes_insert ls k v :
  leaf_nodes (<[k := v]> ls) = <[from_be_bytes (array_bytes k) := blake3 v]> (leaf_nodes ls).
Proof.
  apply map_eq. intros pos. apply option_eq. intros h. rewrite leaf_nodes_lookup.
  destruct (decide (from_be_bytes (array_bytes k) = pos)) as [<-|Hne].
  - rewrite lookup_insert_eq. split.
    + intros (k' & v' & H1 & E & <-). apply from_be_bytes_inj, array_eq in E; [|by rewrite !array_length].
      subst. rewrite lookup_insert_eq in H1. congruence.
    + intros [= <-]. exists k, v. by rewrite lookup_insert_eq.
  - rewrite lookup_insert_ne, leaf_nodes_lookup by done. split.
    + intros (k' & v' & H1 & <- & <-). rewrite lookup_insert_ne in H1 by congruence. eauto.
    + intros (k' & v' & H1 & <- & <-). exists k', v'. rewrite lookup_insert_ne by congruence. eauto.
Qed.

Lemma below_top ls p : below (leaf_nodes ls) DEPTH p <-> ls <> ∅ /\ p = 0.
Proof.
  split.
  - intros (pos & [h Hp] & <-). pose proof (leaf_nodes_range _ _ _ Hp). split.
    + intros ->. apply leaf_nodes_lookup in Hp as (k & v & Hk & _). by rewrite lookup_empty in Hk.
    + rewrite Z.shiftr_div_pow2 by lia. by apply Z.div_small.
  - intros [Hne ->]. apply map_choose in Hne as (k & v & Hk).
    assert (leaf_nodes ls !! from_be_bytes (array_bytes k) = Some (blake3 v)) as Hp
      by (apply leaf_nodes_lookup; eauto).
    exists (from_be_bytes (array_bytes k)). split; [by eexists|].
    pose proof (leaf_nodes_range _ _ _ Hp). rewrite Z.shiftr_div_pow2 by lia. by apply Z.div_small.
Qed.

Lemma empty_root_unfold : empty_root = default_at compute_defaults DEPTH.
Proof. reflexivity. Qed.

Lemma merkle_root_empty : merkle_root ∅ = empty_root.
Proof.
  unfold merkle_root. rewrite empty_root_unfold. apply merkle_empty; [apply le_n|].
  intros [Hne _]%below_top. done.
Qed.

(** [compute_root] is the Merkle root, and its [debug_assert_eq!] holds. *)
Lemma compute_root_merkle ls : ls <> ∅ -> compute_root ls = Ret (merkle_root ls).
Proof.
  intros Hne. set (ln := leaf_nodes ls).
  assert (level_ok ln DEPTH (root_levels compute_defaults DEPTH 0 ln)) as Hl.
  { apply (root_levels_ok ln) with (d := 0%nat); [|done|apply level_ok_0].
    intros pos h Hp. apply leaf_nodes_range in Hp. lia. }
  assert (root_levels compute_defaults DEPTH 0 ln = {[ 0 := merkle_root ls ]}) as E.
  { apply map_eq. intros p. apply option_eq. intros h. rewrite (Hl p h).
    unfold ln. rewrite below_top, lookup_singleton_Some. unfold merkle_root. split.
    - intros [[_ ->] ->]. done.
    - intros [<- <-]. done. }
  with_strategy transparent [compute_root] unfold compute_root.
  fold ln. rewrite E, map_to_list_singleton. unfold debug_assert. simpl.
  by destruct debug_assertions.
Qed.

(** ** The cached root *)

Definition smt_wf (t : SparseMerkleTree) : Prop :=
  forall c, cached_root t = Some c -> c = merkle_root (leaves t).

Lemma smt_new_wf : smt_wf smt_new.
Proof. done. Qed.

Lemma smt_insert_wf t k v : smt_wf (smt_insert t k v).
Proof. done. Qed.

Lemma smt_root_spec t : smt_wf t ->
  exists t', smt_root t = Ret (merkle_root (leaves t), t') /\ leaves t' = leaves t /\ smt_wf t'.
Proof.
  intros Hwf. unfold smt_root. destruct (cached_root t) as [c|] eqn:Ec.
  - exists t. by rewrite (Hwf c Ec).
  - case_bool_decide as He.
    + exists t. split; [|done]. by rewrite He, merkle_root_empty.
    + rewrite compute_root_merkle by done. simpl. eexists. split; [done|]. split; [done|].
      intros c. simpl. congruence.
Qed.

(** The [Trie] trait, and its implementation; the provided [prove] is a [todo!()]. *)
Class Trie (T : Type) := {
  trie_get : T -> bytes -> option bytes;
  trie_insert : T -> bytes -> bytes -> T;
  trie_root : T -> outcome (array 32 * T);
  trie_prove : T -> bytes -> outcome bytes
}.

#[export] Instance smt_trie : Trie SparseMerkleTree := {|
  trie_get := smt_get;
  trie_insert := smt_insert;
  trie_root := smt_root;
  trie_prove _ _ := Panic
|}.

(** The trees the program can build. *)
Inductive smt_reachable : SparseMerkleTree -> Prop :=
| reach_new : smt_reachable smt_new
| reach_insert t k v : smt_reachable t -> smt_reachable (smt_insert t k v)
| reach_root t r t' : smt_reachable t -> smt_root t = Ret (r, t') -> smt_reachable t'.

Lemma smt_reachable_wf t : smt_reachable t -> smt_wf t.
Proof.
  induction 1 as [|t k v _ IH|t r t' _ IH E]; [apply smt_new_wf|apply smt_insert_wf|].
  destruct (smt_root_spec t IH) as (t1 & E' & _ & Hwf). rewrite E' in E.
  by apply Ret_pair_inj in E as [_ <-].
Qed.

(** The root [root] returns. *)
Definition root_of (t : SparseMerkleTree) : option (array 32) :=
  match smt_root t with Ret (r, _) => Some r | Panic => None end.

(** C8: the root is the Merkle root.  For every tree the program can build, by
    insertions and root computations in any order, [root] returns the root of the
    256-level binary tree over the stored leaves and changes no lookup; an inserted
    value is read back, other keys are unaffected, the last of two writes to a key
    counts, and writes to different keys commute. *)
Theorem smt_root_reference (t : SparseMerkleTree) (Hr : smt_reachable t) :
  (exists t', smt_root t = Ret (merkle_root (leaves t), t') /\ forall k, smt_get t' k = smt_get t k) /\
  (forall k v, smt_get (smt_insert t k v) k = Some v) /\
  (forall k v k', blake3 k <> blake3 k' -> smt_get (smt_insert t k v) k' = smt_get t k') /\
  (forall k v w, root_of (smt_insert (smt_insert t k v) k w) = root_of (smt_insert t k w)) /\
  (forall k v k' v', blake3 k <> blake3 k' ->
     root_of (smt_insert (smt_insert t k v) k' v') = root_of (smt_insert (smt_insert t k' v') k v)).
Proof.
  assert (forall a b, leaves a = leaves b -> smt_wf a -> smt_wf b -> root_of a = root_of b) as Hroot.
  { intros a b Hl Ha Hb. unfold root_of. destruct (smt_root_spec a Ha) as (? & -> & _), (smt_root_spec b Hb) as (? & -> & _). simpl.
    by rewrite Hl. }
  split; [|split; [|split; [|split]]].
  - destruct (smt_root_spec t (smt_reachable_wf t Hr)) as (t' & E & Hl & _). exists t'. split; [done|].
    intros k. unfold smt_get. by rewrite Hl.
  - intros k v. apply smt_get_insert_eq.
  - intros k v k'. apply smt_get_insert_ne.
  - intros k v w. apply Hroot; [|apply smt_insert_wf..]. simpl. apply insert_insert_eq.
  - intros k v k' v' Hne. apply Hroot; [|apply smt_insert_wf..]. simpl. by apply insert_insert_ne.
Qed.

(** ** The root commits to the contents *)

(** The byte strings hashed for a tree: its values, and the children of its nodes. *)
Definition tree_input (ls : gmap (array 32) bytes) (x : bytes) : Prop :=
  (exists k, ls !! k = Some x) \/
  exists d p, (d < DEPTH)%nat /\ 0 <= p /\
    x = array_bytes (merkle (lhash (leaf_nodes ls)) d (2 * p)) ++ array_bytes (merkle (lhash (leaf_nodes ls)) d (2 * p + 1)).

Lemma merkle_inj (P : bytes -> Prop) lf lf' n : collision_free P ->
  (forall f d p, f = lf \/ f = lf' -> (d < n)%nat -> 0 <= p ->
     P (array_bytes (merkle f d (2 * p)) ++ array_bytes (merkle f d (2 * p + 1)))) ->
  forall d p, (d <= n)%nat -> 0 <= p -> merkle lf d p = merkle lf' d p ->
  forall pos, 0 <= pos -> Z.shiftr pos (Z.of_nat d) = p -> lf pos = lf' pos.
Proof.
  intros Hcf HP d. induction d as [|d IH]; intros p Hd Hp E pos Hpos Hs.
  - rewrite Z.shiftr_0_r in Hs. by subst.
  - simpl in E. apply Hcf in E; [|apply HP; [by left|lia|done]|apply HP; [by right|lia|done]].
    apply app_inj_1 in E as [E0%array_eq E1%array_eq]; [|by rewrite !array_length].
    rewrite shiftr_succ in Hs. destruct (pos_cases (Z.shiftr pos (Z.of_nat d))) as (q & [Hq|Hq]); rewrite Hq in Hs;
      rewrite ?shiftr_even, ?shiftr_odd in Hs; subst q.
    + by apply (IH (2 * p)); [lia|lia|..].
    + by apply (IH (2 * p + 1)); [lia|lia|..].
Qed.

(** C9: the root commits to the contents.  Two trees the program can build that have
    the same root answer every lookup alike, unless two of the strings hashed for
    them collide or a stored value hashes to the all-zero leaf. *)
Theorem smt_root_binding (t t' u u' : SparseMerkleTree) (r : array 32)
    (Hr : smt_reachable t) (Hr' : smt_reachable t')
    (E : smt_root t = Ret (r, u)) (E' : smt_root t' = Ret (r, u'))
    (Hcf : collision_free (fun x => tree_input (leaves t) x \/ tree_input (leaves t') x))
    (Hzero : forall k v, leaves t !! k = Some v \/ leaves t' !! k = Some v -> blake3 v <> EMPTY_HASH) (k : bytes) :
  smt_get t k = smt_get t' k.
Proof.
  destruct (smt_root_spec t (smt_reachable_wf t Hr)) as (v & Ev & _), (smt_root_spec t' (smt_reachable_wf t' Hr')) as (v' & Ev' & _).
  assert (merkle_root (leaves t) = merkle_root (leaves t')) as Em by congruence. clear Ev Ev' E E'. unfold merkle_root in Em.
  assert (forall pos, 0 <= pos < 2 ^ Z.of_nat DEPTH -> lhash (leaf_nodes (leaves t)) pos = lhash (leaf_nodes (leaves t')) pos) as Hl.
  { intros pos Hpos. apply (merkle_inj _ _ _ DEPTH Hcf) with (d := DEPTH) (p := 0); try done; [|lia|].
    - intros f d p [-> | ->] Hd Hp; [left|right]; right; exists d, p; done.
    - apply Z.shiftr_eq_0; [lia|]. destruct (decide (pos = 0)) as [-> |Hne]; [reflexivity|].
      assert (0 < pos) as Hgt by lia. apply (proj1 (Z.log2_lt_pow2 pos (Z.of_nat DEPTH) Hgt)). apply Hpos. }
  unfold smt_get. set (h := blake3 k). set (pos := from_be_bytes (array_bytes h)).
  assert (0 <= pos < 2 ^ Z.of_nat DEPTH) as Hpos.
  { unfold pos. pose proof (from_be_bytes_range (array_bytes h)) as Hb. rewrite array_length in Hb. exact Hb. }
  specialize (Hl pos Hpos). unfold lhash in Hl.
  assert (forall ls, leaf_nodes ls !! pos = blake3 <$> ls !! h) as Hlook.
  { intros ls. apply option_eq. intros x. rewrite leaf_nodes_lookup, fmap_Some. split.
    - intros (k' & w & Hk & Ep & <-). apply from_be_bytes_inj, array_eq in Ep; [|by rewrite !array_length]. subst. eauto.
    - intros (w & Hk & ->). eauto. }
  rewrite !Hlook in Hl.
  destruct (leaves t !! h) as [x|] eqn:Ex, (leaves t' !! h) as [y|] eqn:Ey; simpl in Hl; try done.
  - apply Hcf in Hl; [by subst|left; left; by exists h|right; left; by exists h].
  - exfalso. by apply (Hzero h x); [left|].
  - exfalso. by apply (Hzero h y); [right|].
Qed.
End Trie.

(** ** Instances *)

Import ToyInstances.

Definition tree_ex : SparseMerkleTree := smt_insert (smt_insert smt_new [x01] [x0a]) [x02] [x0b].

Lemma tree_ex_reachable : smt_reachable tree_ex.
Proof. repeat constructor. Qed.

Lemma smt_root_reference_witness :
  root_of (smt_insert (smt_insert tree_ex [x03] [x0c]) [x04] [x0d]) =
  root_of (smt_insert (smt_insert tree_ex [x04] [x0d]) [x03] [x0c]).
Proof.
  destruct (smt_root_reference tree_ex tree_ex_reachable) as (_ & _ & _ & _ & Hcomm).
  apply (Hcomm [x03] [x0c] [x04] [x0d]). intros E.
  assert (bool_decide (blake3 [x03] = blake3 [x04]) = false) as F by (vm_compute; reflexivity).
  rewrite (bool_decide_eq_true_2 _ E) in F. discriminate F.
Defined.

(** One value at position 0: with the stand-in hash every node on the left edge has
    the hash of that value, and the value is the input of those nodes. *)
Definition left_leaf : array 32 := array_repeat 32 x0a.
Definition left_value : bytes := array_bytes left_leaf ++ array_bytes EMPTY_HASH.
Definition left_tree : SparseMerkleTree := smt_insert smt_new [] left_value.
Definition left_tree' : SparseMerkleTree := smt_insert (smt_insert smt_new [] [x0b]) [] left_value.

Lemma toy_pair (a b : array 32) : blake3 (array_bytes a ++ array_bytes b) = a.
Proof. apply array_eq. simpl. apply resize_app. by rewrite array_length. Qed.

Lemma left_leaves : leaves left_tree = {[ EMPTY_HASH := left_value ]} /\ leaves left_tree' = {[ EMPTY_HASH := left_value ]}.
Proof.
  assert (blake3 [] = EMPTY_HASH) as E by (apply array_eq; vm_compute; reflexivity).
  unfold left_tree, left_tree', smt_insert. cbn [leaves smt_new]. rewrite E, insert_insert_eq. done.
Qed.

Lemma left_merkle d p : 0 <= p ->
  merkle (lhash (leaf_nodes {[ EMPTY_HASH := left_value ]})) d p = if decide (p = 0) then left_leaf else EMPTY_HASH.
Proof.
  revert p. induction d as [|d IH]; intros p Hp.
  - cbn [merkle]. unfold lhash. assert (blake3 left_value = left_leaf) as E by (apply array_eq; vm_compute; reflexivity).
    destruct (leaf_nodes _ !! p) as [h|] eqn:El; simpl.
    + apply leaf_nodes_lookup in El as (k & v & [<- <-]%lookup_singleton_Some & <- & <-). rewrite decide_True by reflexivity. exact E.
    + case_decide as Hp0; [|done]. subst p. exfalso.
      assert (leaf_nodes {[ EMPTY_HASH := left_value ]} !! 0 = Some left_leaf) as F; [|rewrite El in F; discriminate F].
      apply leaf_nodes_lookup. exists EMPTY_HASH, left_value.
      split; [apply lookup_singleton_eq|]. split; [reflexivity|exact E].
  - cbn [merkle]. unfold hash_pair. rewrite toy_pair, IH by lia. by repeat case_decide; lia || done.
Qed.

Lemma left_inputs x : tree_input {[ EMPTY_HASH := left_value ]} x ->
  x = left_value \/ x = array_bytes EMPTY_HASH ++ array_bytes EMPTY_HASH.
Proof.
  intros [(k & [_ <-]%lookup_singleton_Some)|(d & p & _ & Hp & ->)]; [by left|]. rewrite !left_merkle by lia.
  rewrite (decide_False (P := 2 * p + 1 = 0)) by lia. case_decide; [by left|by right].
Qed.

Lemma smt_root_binding_witness : smt_get left_tree [x01] = smt_get left_tree' [x01].
Proof.
  destruct left_leaves as [El El'].
  assert (smt_reachable left_tree) as Hr by repeat constructor.
  assert (smt_reachable left_tree') as Hr' by repeat constructor.
  destruct (smt_root_spec left_tree (smt_reachable_wf _ Hr)) as (u & E & _).
  destruct (smt_root_spec left_tree' (smt_reachable_wf _ Hr')) as (u' & E' & _).
  rewrite El in E. rewrite El' in E'.
  apply (smt_root_binding left_tree left_tree' u u' _ Hr Hr' E E').
  - rewrite El, El'. intros x y Hx Hy Exy.
    assert (x = left_value \/ x = array_bytes EMPTY_HASH ++ array_bytes EMPTY_HASH) as Ix by (destruct Hx; by apply left_inputs).
    assert (y = left_value \/ y = array_bytes EMPTY_HASH ++ array_bytes EMPTY_HASH) as Iy by (destruct Hy; by apply left_inputs).
    unfold left_value in Ix, Iy.
    destruct Ix as [-> | ->], Iy as [-> | ->]; rewrite ?toy_pair in Exy; try reflexivity; discriminate Exy.
  - rewrite El, El'. intros k v [[_ <-]%lookup_singleton_Some|[_ <-]%lookup_singleton_Some] F;
      unfold left_value in F; rewrite toy_pair in F; discriminate F.
Defined.
