(* ===== verification/Account.v ===== *)
(** * Accounts, addresses and their encodings ([core/account.rs], [crypto/address.rs])

    The hand-written SCALE codecs of [Address] and [Account], the checksummed
    address format, and the hexadecimal address parsers of the genesis loader,
    the RPC server and the node.  A Rust [&str] is its UTF-8 byte list. *)
From Stdlib Require Import Strings.Byte Strings.String.
From stdpp Require Import base gmap sets list strings countable.
From Stdlib Require Import ZArith Lia.
From S2P Require Import Prelude Types External Toy.

(** ** Falcon signatures and keys ([crypto/falcon.rs]) *)

(** [Falcon512Signature::from_bytes]; the message of [format!] is abstracted to its constant part. *)
Definition signature_from_bytes (bs : bytes) : Result Falcon512Signature :=
  if negb (bool_decide (length bs = FALCON_SIGNATURE_SIZE)) then Err (Crypto "signature must be 809 bytes"%string)
  else Ok (mkSignature bs).

Section Account.
Context `{Blake3} `{Hex} `{Scale}.

(** ** SCALE codecs *)

Definition scale_encode_address (a : Address) : bytes := array_bytes (as_bytes a).

Definition scale_decode_address (bs : bytes) : option (Address * bytes) :=
  '(raw, rest) ← sc_read 32 bs;
  a ← array_of_list 32 raw;
  Some (address_from a, rest).

Definition sc_address : codec Address := mkCodec scale_encode_address scale_decode_address.

Definition account_encode (a : Account) : bytes :=
  enc sc_u256 (balance a) ++ enc sc_u64 (nonce a) ++ enc sc_opt32 (code_hash a).

Definition account_decode (bs : bytes) : option (Account * bytes) :=
  '(b, bs) ← dec sc_u256 bs;
  '(n, bs) ← dec sc_u64 bs;
  '(c, bs) ← dec sc_opt32 bs;
  Some (mkAccount b n c, bs).

Definition sc_account : codec Account := mkCodec account_encode account_decode.

Definition scale_encode_account (a : Account) : bytes := enc sc_account a.

(** Panics ([expect]) if the bytes are not an encoded account. *)
Definition scale_decode_account (bs : bytes) : outcome Account := unwrap (decode_all sc_account bs).

(** [Decode for Falcon512Signature] *)
Definition signature_decode (bs : bytes) : option (Falcon512Signature * bytes) :=
  '(raw, rest) ← sc_read FALCON_SIGNATURE_SIZE bs;
  match signature_from_bytes raw with Ok s => Some (s, rest) | Err _ => None end.

Definition sc_signature : codec Falcon512Signature := mkCodec sig_bytes signature_decode.

(** ** Address derivation *)

Definition derive_address (pubkey : array 897) : Address := address_from (blake3 (array_bytes pubkey)).

Definition derive_address_from (pubkey : bytes) : outcome Address :=
  _ ← assert_ (bool_decide (length pubkey = FALCON_PUBLIC_KEY_SIZE));
  Ret (address_from (blake3 pubkey)).

(** ** The display format: [0x], 64 hex digits, 16 checksum digits *)

Definition str_0x : bytes := [x30; x78].

Definition format_address (addr : Address) : bytes :=
  let raw := array_bytes (as_bytes addr) in
  let checksum := take 8 (array_bytes (blake3 raw)) in
  str_0x ++ hex_encode raw ++ hex_encode checksum.

Inductive ParseAddressError := MissingPrefix | TooShort | InvalidHex | ParseChecksumMismatch.

(** [str::is_char_boundary] and [&s[a..b]], which panics off a boundary. *)
Definition is_continuation (b : byte) : bool := (128 <=? byte_to_Z b) && (byte_to_Z b <? 192).

Definition is_char_boundary (s : bytes) (i : nat) : bool :=
  match s !! i with
  | Some b => Nat.eqb i 0 || negb (is_continuation b)
  | None => Nat.eqb i (length s)
  end.

Definition str_slice (s : bytes) (a b : nat) : outcome bytes :=
  if Nat.leb a b && is_char_boundary s a && is_char_boundary s b then Ret (take (b - a) (drop a s)) else Panic.

Definition starts_with (p s : bytes) : bool := bool_decide (take (length p) s = p).

Definition parse_address (s : bytes) : outcome (result ParseAddressError Address) :=
  if negb (starts_with str_0x s) then Ret (Err MissingPrefix)
  else if Nat.ltb (length s) 82 then Ret (Err TooShort)
  else
    body ← str_slice s 2 66;
    checksum_hex ← str_slice s 66 82;
    body_bytes ← Ret (hex_decode body);
    match body_bytes with
    | None => Ret (Err InvalidHex)
    | Some body_bytes =>
        match hex_decode checksum_hex with
        | None => Ret (Err InvalidHex)
        | Some checksum_bytes =>
            raw ← unwrap (array_of_list 32 body_bytes);
            let computed := take 8 (array_bytes (blake3 (array_bytes raw))) in
            if negb (bool_decide (checksum_bytes = computed)) then Ret (Err ParseChecksumMismatch)
            else Ret (Ok (address_from raw))
        end
    end.

(** ** Raw hexadecimal addresses and keys *)

(** [s.strip_prefix("0x").unwrap_or(s)] *)
Definition strip_0x (s : bytes) : bytes := if starts_with str_0x s then drop 2 s else s.

(** [s.trim_start_matches("0x")]: strips the prefix as often as it occurs. *)
Fixpoint trim_start_0x (s : bytes) : bytes :=
  match s with
  | x30 :: x78 :: s' => trim_start_0x s'
  | _ => s
  end.

(** [hex_serde::serialize] and [deserialize] of [Address]; [None] is a serde error. *)
Definition address_serialize (a : Address) : bytes := str_0x ++ hex_encode (array_bytes (as_bytes a)).

Definition address_deserialize (s : bytes) : option Address :=
  bs ← hex_decode (strip_0x s);
  raw ← array_of_list 32 bs;
  Some (address_from raw).

(** [pubkey_serde] of [core/transaction.rs] and [core/validator.rs] *)
Definition pubkey_serialize (k : array 897) : bytes := hex_encode (array_bytes k).
Definition pubkey_deserialize (s : bytes) : option (array 897) :=
  bs ← hex_decode s; array_of_list 897 bs.

(** [sig_serde] of [network/messages.rs], and the signatures of [core/transaction.rs] *)
Definition evidence_signature_serialize (s : array 666) : bytes := hex_encode (array_bytes s).
Definition evidence_signature_deserialize (s : bytes) : option (array 666) :=
  bs ← hex_decode s; array_of_list 666 bs.

Definition signature_serialize (s : Falcon512Signature) : bytes := hex_encode (sig_bytes s).
Definition signature_deserialize (s : bytes) : option Falcon512Signature :=
  bs ← hex_decode s; match signature_from_bytes bs with Ok sig => Some sig | Err _ => None end.

(** [HexBytes] of [error.rs], as it is displayed. *)
Definition hex_bytes_display (b : array 32) : bytes := str_0x ++ hex_encode (array_bytes b).

(** [parse_hex_addr] of [storage/genesis.rs] *)
Definition parse_hex_addr (s : bytes) : Result (array 32) :=
  match hex_decode (strip_0x s) with
  | None => Err (Storage "invalid hex address"%string)
  | Some bs => ok_or (array_of_list 32 bs) (Storage "address must be 32 bytes"%string)
  end.

(** [parse_raw_address] of [node.rs]; the message is the stripped string. *)
Definition parse_raw_address (s : bytes) : Result (array 32) :=
  let e := InvalidAddress (string_of_list_byte (strip_0x s)) in
  match hex_decode (strip_0x s) with
  | None => Err e
  | Some bs => ok_or (array_of_list 32 bs) e
  end.

(** [parse_address] of [rpc/server.rs]: JSON-RPC error code and message. *)
Definition rpc_parse_address (s : bytes) : result (Z * string) Address :=
  match hex_decode (trim_start_0x s) with
  | None => Err (-2, "invalid hex"%string)
  | Some bs =>
      match array_of_list 32 bs with
      | None => Err (-2, "address must be 32 bytes"%string)
      | Some raw => Ok (address_from raw)
      end
  end.

(** ** Serde round trips of keys and signatures *)

Lemma hex_array_roundtrip `{!HexOk} {n} (a : array n) :
  (bs ← hex_decode (hex_encode (array_bytes a)); array_of_list n bs) = Some a.
Proof. rewrite hex_decode_encode. apply array_of_list_bytes. Qed.

Lemma signature_serde_roundtrip `{!HexOk} (s : Falcon512Signature) : signature_valid s ->
  signature_deserialize (signature_serialize s) = Some s.
Proof.
  intros Hs. unfold signature_deserialize, signature_serialize. rewrite hex_decode_encode. cbn [mbind option_bind].
  unfold signature_from_bytes. rewrite bool_decide_true by done. by destruct s.
Qed.

(** ** SCALE round trips *)

Lemma sc_address_ok `{!ScaleOk} : codec_ok (fun _ => True) sc_address.
Proof.
  intros [a] r _. simpl. unfold scale_decode_address, scale_encode_address. simpl.
  rewrite sc_read_app by apply array_length. simpl. by rewrite array_of_list_bytes.
Qed.

Lemma sc_account_ok `{!ScaleOk} : codec_ok account_valid sc_account.
Proof.
  intros [b n c] r [Hb Hn]. simpl in *. unfold account_decode, account_encode. simpl.
  rewrite <- !app_assoc, sc_u256_ok by done. simpl. rewrite sc_u64_ok by done. simpl.
  by rewrite sc_opt32_ok by done.
Qed.

Lemma sc_signature_ok `{!ScaleOk} : codec_ok signature_valid sc_signature.
Proof.
  intros [s] r Hs. unfold signature_valid in Hs. simpl in *. unfold signature_decode.
  rewrite sc_read_app by done. cbv beta iota. simpl. unfold signature_from_bytes.
  by rewrite bool_decide_true by done.
Qed.

(** ** Address strings *)

Lemma length_0x : length str_0x = 2%nat. Proof. done. Qed.

Lemma starts_with_app p s : starts_with p (p ++ s) = true.
Proof. apply bool_decide_eq_true. by rewrite take_app_length. Qed.

Lemma ascii_boundary s i : Forall is_ascii s -> (i <= length s)%nat -> is_char_boundary s i = true.
Proof.
  intros Hs Hi. unfold is_char_boundary. destruct (s !! i) as [b|] eqn:E.
  - rewrite Forall_lookup in Hs. specialize (Hs i b E). unfold is_ascii in Hs.
    unfold is_continuation. rewrite (proj2 (Z.leb_gt _ _)) by lia. simpl. by rewrite orb_true_r.
  - apply lookup_ge_None in E. apply Nat.eqb_eq. lia.
Qed.

(** A boundary of a prefix is one of the whole string, when what follows starts a character. *)
Lemma boundary_app s t i :
  is_char_boundary s i = true -> is_char_boundary (s ++ t) i = true \/ i = length s.
Proof.
  unfold is_char_boundary. destruct (s !! i) as [b|] eqn:E.
  - intros Hb. left. by rewrite lookup_app_l, E by by eapply lookup_lt_Some.
  - intros Hb%Nat.eqb_eq. by right.
Qed.

Lemma str_slice_Ret s a b r : str_slice s a b = Ret r -> r = take (b - a) (drop a s).
Proof. unfold str_slice. by destruct (_ && _); [intros [= <-]|]. Qed.

Lemma str_slice_ok s a b : (a <= b)%nat -> is_char_boundary s a = true -> is_char_boundary s b = true ->
  str_slice s a b = Ret (take (b - a) (drop a s)).
Proof. intros Hab Ha Hb. unfold str_slice. rewrite (proj2 (Nat.leb_le _ _) Hab), Ha, Hb. done. Qed.

Section Laws.
Context `{!HexOk}.

Definition checksum (a : Address) : bytes := take 8 (array_bytes (blake3 (array_bytes (as_bytes a)))).

Lemma checksum_length a : length (checksum a) = 8%nat.
Proof. unfold checksum. by autorewrite with lengths. Qed.

Lemma format_address_eq a :
  format_address a = str_0x ++ hex_encode (array_bytes (as_bytes a)) ++ hex_encode (checksum a).
Proof. done. Qed.

Lemma format_address_length a : length (format_address a) = 82%nat.
Proof.
  rewrite format_address_eq. autorewrite with lengths. by rewrite !hex_encode_length, checksum_length, array_length.
Qed.

Lemma format_address_ascii a : Forall is_ascii (format_address a).
Proof.
  rewrite format_address_eq. apply Forall_app. split; [by repeat constructor|].
  apply Forall_app. split; apply hex_encode_ascii.
Qed.

(** The slices of a formatted address, whatever follows it. *)
Lemma format_body a t : take (66 - 2) (drop 2 (format_address a ++ t)) = hex_encode (array_bytes (as_bytes a)).
Proof.
  rewrite format_address_eq, <- app_assoc, drop_app_length' by done.
  rewrite <- app_assoc. apply take_app_length'. by rewrite hex_encode_length, array_length.
Qed.

Lemma format_check a t : take (82 - 66) (drop 66 (format_address a ++ t)) = hex_encode (checksum a).
Proof.
  rewrite format_address_eq.
  replace ((str_0x ++ hex_encode (array_bytes (as_bytes a)) ++ hex_encode (checksum a)) ++ t)
    with ((str_0x ++ hex_encode (array_bytes (as_bytes a))) ++ hex_encode (checksum a) ++ t)
    by by rewrite <- !app_assoc.
  rewrite drop_app_length' by by rewrite length_app, hex_encode_length, array_length.
  apply take_app_length'. by rewrite hex_encode_length, checksum_length.
Qed.

Lemma format_boundary a t i : (i < 82)%nat -> is_char_boundary (format_address a ++ t) i = true.
Proof.
  intros Hi. pose proof (format_address_length a).
  destruct (boundary_app (format_address a) t i) as [|E]; [|done|lia].
  apply ascii_boundary; [apply format_address_ascii|lia].
Qed.

(** What [parse_address] does on a formatted address followed by [t]. *)
Lemma parse_format_app a t :
  parse_address (format_address a ++ t) =
  if is_char_boundary (format_address a ++ t) 82 then Ret (Ok a) else Panic.
Proof.
  unfold parse_address. pose proof (format_address_length a) as Hl.
  replace (starts_with str_0x (format_address a ++ t)) with true
    by (rewrite format_address_eq, <- app_assoc; symmetry; apply starts_with_app).
  rewrite (proj2 (Nat.ltb_ge _ _)) by (rewrite length_app; lia). cbv beta iota delta [negb].
  rewrite (str_slice_ok _ 2 66) by first [lia | apply format_boundary; lia].
  unfold str_slice. rewrite (format_boundary a t 66) by lia.
  rewrite (proj2 (Nat.leb_le 66 82)) by lia. cbv beta iota delta [andb].
  destruct (is_char_boundary (format_address a ++ t) 82); [|done].
  unfold mbind, outcome_bind. rewrite format_body, format_check, !hex_decode_encode.
  rewrite array_of_list_bytes. cbv beta iota delta [unwrap].
  rewrite bool_decide_true by done. by destruct a.
Qed.

Lemma address_serde_roundtrip a : address_deserialize (address_serialize a) = Some a.
Proof.
  unfold address_deserialize, address_serialize, strip_0x. rewrite starts_with_app, drop_app_length' by done.
  rewrite hex_decode_encode. simpl. rewrite array_of_list_bytes. by destruct a.
Qed.

Lemma pubkey_serde_roundtrip k : pubkey_deserialize (pubkey_serialize k) = Some k.
Proof.
  unfold pubkey_deserialize, pubkey_serialize. rewrite hex_decode_encode. simpl. apply array_of_list_bytes.
Qed.

(** C25: the textual forms of an address and of the account record are faithful.
    Parsing inverts formatting, whatever ASCII text follows it; a string is only
    accepted if its digits are those of the address returned and its checksum
    digits those of that address; the serialised form and the SCALE encoding read
    back. *)
Theorem address_text_faithful `{!ScaleOk} :
  (forall a t, Forall is_ascii t -> parse_address (format_address a ++ t) = Ret (Ok a)) /\
  (forall s a, parse_address s = Ret (Ok a) ->
     (82 <= length s)%nat /\ take 2 s = str_0x /\ hex_decode (take 64 (drop 2 s)) = Some (array_bytes (as_bytes a)) /\
     hex_decode (take 16 (drop 66 s)) = Some (checksum a)) /\
  (forall a, address_deserialize (address_serialize a) = Some a) /\
  (forall a r, account_valid a -> account_decode (account_encode a ++ r) = Some (a, r)).
Proof.
  split; [|split; [|split; [apply address_serde_roundtrip|apply sc_account_ok]]].
  - intros a t Ht. rewrite parse_format_app. rewrite ascii_boundary; [done| |].
    + apply Forall_app. split; [apply format_address_ascii|done].
    + rewrite length_app, format_address_length. lia.
  - intros s a E. unfold parse_address in E. destruct (starts_with str_0x s) eqn:Es; [|done]. cbn [negb] in E.
    apply bool_decide_eq_true in Es. destruct (Nat.ltb_spec (length s) 82) as [Hl|Hl]; [done|].
    apply bind_Ret_inv in E as (body & Hb & E). apply str_slice_Ret in Hb as ->.
    apply bind_Ret_inv in E as (check & Hc & E). apply str_slice_Ret in Hc as ->.
    cbn [mbind outcome_bind] in E.
    destruct (hex_decode (take (66 - 2) (drop 2 s))) as [body|] eqn:Eb; [|done].
    destruct (hex_decode (take (82 - 66) (drop 66 s))) as [check|] eqn:Ec; [|done].
    apply bind_Ret_inv in E as (raw & Hraw & E). unfold unwrap in Hraw.
    destruct (array_of_list 32 body) as [raw'|] eqn:Er; [|done]. injection Hraw as ->.
    apply array_of_list_Some in Er. destruct (bool_decide _) eqn:Eq; [|done]. apply bool_decide_eq_true in Eq.
    injection E as <-. simpl in Eb, Ec |- *. rewrite Eb, Ec, Er, Eq. split; [done|]. split; [exact Es|]. done.
Qed.
End Laws.
End Account.

(** ** Instances *)

Import ToyInstances.

Definition address_ex : Address := address_from (array_repeat 32 x5a).

Lemma address_text_faithful_witness :
  parse_address (format_address address_ex ++ list_byte_of_string " trailing") = Ret (Ok address_ex).
Proof. apply address_text_faithful. repeat constructor. Defined.

(** A string with a two-byte character across position 66 panics instead of being
    rejected. *)
Example parse_address_panics :
  parse_address (str_0x ++ List.repeat x30 63 ++ [xc3; xa9] ++ List.repeat x30 20) = Panic.
Proof. vm_compute. reflexivity. Qed.
