(* ===== verification/State.v ===== *)
(** * The state machine ([core/state.rs])

    The data and the operations of [StateMachine], in the shape of the source:
    accounts and validator entries are SCALE-encoded into the sparse Merkle tree,
    a handler takes the machine and the caller's local copy of the sender account
    and returns both, also when it returns an error.  The abstract ledger these
    operations implement is in [Ledger], the refinement in [Refine]. *)
From Stdlib Require Import Strings.Byte Strings.String.
From stdpp Require Import base gmap sets list strings countable sorting.
From Stdlib Require Import ZArith Lia.
From S2P Require Import Prelude Types External Trie Account.

Record BlockReceipt := mkReceipt {
  total_fees : Z;                     (* u128 *)
  tx_count : Z;                       (* u32 *)
  failed_count : Z;                   (* u32 *)
  receipt_state_root : array 32
}.

Record SlashResult := mkSlashResult {
  slashed_amount : Z;
  burn_amount : Z;
  bounty_amount : Z;
  remaining_stake : Z
}.

Record StateMachine := mkStateMachine {
  state : SparseMerkleTree;
  active_set : list Address;
  validators : gset Address           (* HashSet *)
}.

(** [U256::min(fee, U256::from(u128::MAX)).low_u128()] *)
Definition fee_as_u128 (fee : Z) : Z := u256_low_u128 (Z.min fee U128_MAX).

(** What a transaction handler returns: the machine, the local sender, the result. *)
Abbreviation handler := (outcome (StateMachine * Account * Result unit)).

Section State.
Context `{BuildProfile} `{Blake3} `{Scale}.

Definition set_state (self : StateMachine) (t : SparseMerkleTree) : StateMachine :=
  mkStateMachine t (active_set self) (validators self).

(** ** Construction and accessors *)

Definition account_key (a : Address) : bytes := namespace_key NS_ACCOUNTS (array_bytes (as_bytes a)).
Definition validator_key (a : Address) : bytes := namespace_key NS_VALIDATORS (array_bytes (as_bytes a)).

Definition StateMachine_new (initial_accounts : list (Address * Account)) : StateMachine :=
  mkStateMachine
    (foldl (fun st '(addr, acct) => smt_insert st (account_key addr) (scale_encode_account acct))
       smt_new initial_accounts)
    [] ∅.

Definition state_root (self : StateMachine) : outcome (array 32 * StateMachine) :=
  '(r, t) ← smt_root (state self);
  Ret (r, set_state self t).

Definition get_account (self : StateMachine) (address : Address) : outcome (option Account) :=
  match smt_get (state self) (account_key address) with
  | None => Ret None
  | Some bs => acct ← scale_decode_account bs; Ret (Some acct)
  end.

Definition get_validator (self : StateMachine) (address : Address) : option ValidatorEntry :=
  bs ← smt_get (state self) (validator_key address);
  decode_all sc_entry bs.

Definition set_account (self : StateMachine) (addr : Address) (acct : Account) : StateMachine :=
  set_state self (smt_insert (state self) (account_key addr) (scale_encode_account acct)).

Definition set_validator (self : StateMachine) (addr : Address) (entry : ValidatorEntry) : StateMachine :=
  mkStateMachine (smt_insert (state self) (validator_key addr) (enc sc_entry entry))
    (active_set self) ({[ addr ]} ∪ validators self).

Definition governance_key (sub_key : bytes) : bytes := namespace_key NS_GOVERNANCE sub_key.

Definition governance_insert (self : StateMachine) (sub_key value : bytes) : StateMachine :=
  set_state self (smt_insert (state self) (governance_key sub_key) value).

Definition governance_get (self : StateMachine) (sub_key : bytes) : option bytes :=
  smt_get (state self) (governance_key sub_key).

Definition set_active_set (self : StateMachine) (s : list Address) : StateMachine :=
  mkStateMachine (state self) s (validators self).

Definition validator_stake (self : StateMachine) (a : Address) : option Z := ve_stake <$> get_validator self a.

(** [sum_stake], [total_active_stake] *)
Definition sum_stake (self : StateMachine) (addresses : list Address) : Z :=
  foldl (fun total addr =>
    match get_validator self addr with
    | Some entry => u256_saturating_add total (ve_stake entry)
    | None => total
    end) 0 addresses.

Definition total_active_stake (self : StateMachine) : Z := sum_stake self (active_set self).

(** [credit_balance] *)
Definition credit_balance (self : StateMachine) (addr : Address) (amount : Z) : outcome StateMachine :=
  o ← get_account self addr;
  let acct := default (Account_new 0) o in
  Ret (set_account self addr (set_balance acct (u256_saturating_add (balance acct) amount))).

(** ** Fee distribution *)

(** [b.0.cmp(&a.0).then(a.1.as_bytes().cmp(b.1.as_bytes()))] *)
Definition fee_cmp (a b : Z * Address) : comparison :=
  cmp_then (Z.compare b.1 a.1) (bytes_cmp (array_bytes (as_bytes a.2)) (array_bytes (as_bytes b.2))).

(** The first loop: the running stake total and the [(stake, address)] pairs. *)
Definition stake_pairs (self : StateMachine) : Z * list (Z * Address) :=
  foldl (fun '(total, pairs) addr =>
    match get_validator self addr with
    | Some v => (u256_saturating_add total (ve_stake v), pairs ++ [(ve_stake v, addr)])
    | None => (total, pairs)
    end) (0, []) (active_set self).

(** One share of the second loop. *)
Definition pay_share (total total_stake : Z) (s : StateMachine * Z) (p : Z * Address) :
    outcome (StateMachine * Z) :=
  let '(self, distributed) := s in
  let '(stake, addr) := p in
  m ← u256_mul total stake;
  share ← u256_div m total_stake;
  if share =? 0 then Ret (self, distributed)
  else
    self ← credit_balance self addr share;
    Ret (self, u256_saturating_add distributed share).

Definition distribute_fees (self : StateMachine) (total : Z) : outcome StateMachine :=
  if (total =? 0) || bool_decide (active_set self = []) then Ret self
  else
    let '(total_stake, pairs) := stake_pairs self in
    if total_stake =? 0 then Ret self
    else
      let pairs := sort_by fee_cmp pairs in
      '(self, distributed) ← foldM (pay_share total total_stake) (self, 0) pairs;
      if distributed <? total then
        match pairs with
        | (_, addr) :: _ => rest ← u256_sub total distributed; credit_balance self addr rest
        | [] => Ret self
        end
      else Ret self.

(** ** Transaction handlers *)

Definition fail_with (self : StateMachine) (sender : Account) (e : LibError) : handler :=
  Ret (self, sender, Err e).

(** [sender.balance -= debit; sender.nonce += 1] *)
Definition debit_account (sender : Account) (debit : Z) : outcome Account :=
  b ← u256_sub (balance sender) debit;
  increment_nonce (set_balance sender b).

Definition try_transfer (self : StateMachine) (sender : Account) (recipient : Address)
    (amount fee nonce' : Z) : handler :=
  if negb (nonce sender =? nonce') then fail_with self sender (InvalidNonce (nonce sender) nonce')
  else
    total_debit ← u256_add amount fee;
    if balance sender <? total_debit
    then fail_with self sender (InsufficientBalance (balance sender) total_debit)
    else
      sender ← debit_account sender total_debit;
      o ← get_account self recipient;
      let recipient_acct := default (Account_new 0) o in
      b ← u256_add (balance recipient_acct) amount;
      Ret (set_account self recipient (set_balance recipient_acct b), sender, Ok tt).

Definition try_deduct_fee_only (sender : Account) (fee nonce' : Z) : outcome (Account * Result unit) :=
  if negb (nonce sender =? nonce') then Ret (sender, Err (InvalidNonce (nonce sender) nonce'))
  else if balance sender <? fee then Ret (sender, Err (InsufficientBalance (balance sender) fee))
  else sender ← debit_account sender fee; Ret (sender, Ok tt).

Definition apply_register_validator (self : StateMachine) (sender : Account) (addr : Address)
    (public_key : array 897) (fee nonce' : Z) : handler :=
  if bool_decide (is_Some (get_validator self addr))
  then fail_with self sender (Consensus "already registered"%string)
  else if negb (nonce sender =? nonce') then fail_with self sender (InvalidNonce (nonce sender) nonce')
  else
    total_debit ← u256_add fee ANTI_SPAM_DEPOSIT;
    if balance sender <? total_debit
    then fail_with self sender (InsufficientBalance (balance sender) total_debit)
    else
      sender ← debit_account sender total_debit;
      Ret (set_validator self addr (mkValidatorEntry addr public_key 0 Registered 0), sender, Ok tt).

Definition frozen_or_unstaking (s : ValidatorStatus) : bool :=
  match s with Frozen _ | Unstaking _ _ => true | _ => false end.

Definition apply_stake (self : StateMachine) (sender : Account) (sender_addr validator_addr : Address)
    (amount fee nonce' : Z) : handler :=
  if negb (nonce sender =? nonce') then fail_with self sender (InvalidNonce (nonce sender) nonce')
  else
    match get_validator self validator_addr with
    | None => fail_with self sender (ValidatorNotFound (mkHexBytes (as_bytes validator_addr)))
    | Some entry =>
        if frozen_or_unstaking (ve_status entry)
        then fail_with self sender (Consensus "validator is frozen or unstaking"%string)
        else if amount =? 0 then fail_with self sender (Consensus "stake amount must be > 0"%string)
        else
          total_debit ← u256_add fee amount;
          if balance sender <? total_debit
          then fail_with self sender (InsufficientBalance (balance sender) total_debit)
          else
            sender ← debit_account sender total_debit;
            match u256_checked_add (ve_stake entry) amount with
            | None => fail_with self sender (Consensus "stake overflow"%string)
            | Some new_stake =>
                let status := if bool_decide (ve_status entry = Registered) then Staked new_stake
                              else ve_status entry in
                Ret (set_validator self validator_addr (ve_update entry new_stake status), sender, Ok tt)
            end
    end.

Definition apply_register_and_stake (self : StateMachine) (sender : Account)
    (sender_addr validator_addr : Address) (amount fee nonce' : Z) : handler :=
  if negb (bool_decide (validator_addr = sender_addr))
  then fail_with self sender (Consensus "register-and-stake validator must equal sender"%string)
  else if negb (nonce sender =? nonce') then fail_with self sender (InvalidNonce (nonce sender) nonce')
  else if bool_decide (is_Some (get_validator self sender_addr))
  then fail_with self sender (Consensus "already registered"%string)
  else if amount =? 0 then fail_with self sender (Consensus "stake amount must be > 0"%string)
  else
    d ← u256_add fee ANTI_SPAM_DEPOSIT;
    total_debit ← u256_add d amount;
    if balance sender <? total_debit
    then fail_with self sender (InsufficientBalance (balance sender) total_debit)
    else
      sender ← debit_account sender total_debit;
      let entry := mkValidatorEntry sender_addr (array_repeat 897 x00) amount (Staked amount) 0 in
      Ret (set_validator self sender_addr entry, sender, Ok tt).

Definition apply_unstake (self : StateMachine) (sender : Account) (sender_addr validator_addr : Address)
    (amount fee nonce' current_era : Z) : handler :=
  if negb (nonce sender =? nonce') then fail_with self sender (InvalidNonce (nonce sender) nonce')
  else
    match get_validator self validator_addr with
    | None => fail_with self sender (ValidatorNotFound (mkHexBytes (as_bytes validator_addr)))
    | Some entry =>
        if match ve_status entry with Frozen _ => true | _ => false end
        then fail_with self sender (Consensus "validator is frozen"%string)
        else if amount =? 0 then fail_with self sender (Consensus "unstake amount must be > 0"%string)
        else if ve_stake entry <? amount
        then fail_with self sender (Consensus "unstake amount exceeds validator stake"%string)
        else if balance sender <? fee
        then fail_with self sender (InsufficientBalance (balance sender) fee)
        else
          sender ← debit_account sender fee;
          release_era ← u64_add current_era UNSTAKING_COOLDOWN_ERAS;
          match ve_status entry with
          | Unstaking existing_era existing_amount =>
              match u256_checked_add existing_amount amount with
              | None => fail_with self sender (Consensus "unstake overflow"%string)
              | Some new_amount =>
                  if ve_stake entry <? new_amount
                  then fail_with self sender (Consensus "cumulative unstake exceeds validator stake"%string)
                  else
                    let entry := ve_update entry (ve_stake entry) (Unstaking existing_era new_amount) in
                    Ret (set_validator self validator_addr entry, sender, Ok tt)
              end
          | _ =>
              let entry := ve_update entry (ve_stake entry) (Unstaking release_era amount) in
              Ret (set_validator self validator_addr entry, sender, Ok tt)
          end
    end.

(** The governance handlers: nonce and balance checks, then the fee; the
    remaining arguments of the source are unused. *)
Definition governance_stub (self : StateMachine) (sender : Account) (fee nonce' : Z) : handler :=
  if negb (nonce sender =? nonce') then fail_with self sender (InvalidNonce (nonce sender) nonce')
  else if balance sender <? fee then fail_with self sender (InsufficientBalance (balance sender) fee)
  else
    sender ← increment_nonce (set_balance sender (u256_saturating_sub (balance sender) fee));
    Ret (self, sender, Ok tt).

Definition apply_propose (self : StateMachine) (sender : Account) (sender_addr : Address)
    (proposal_id : array 32) (title description : bytes) (actions : list GovernanceAction)
    (fee nonce' : Z) : handler :=
  governance_stub self sender fee nonce'.

Definition apply_gov_vote (self : StateMachine) (sender : Account) (sender_addr : Address)
    (proposal_id : array 32) (approve : bool) (fee nonce' : Z) : handler :=
  governance_stub self sender fee nonce'.

Definition apply_cancel_proposal (self : StateMachine) (sender : Account) (sender_addr : Address)
    (proposal_id : array 32) (fee nonce' : Z) : handler :=
  governance_stub self sender fee nonce'.

(** ** Applying a block *)

Definition burn_destination (t : BurnTarget) : Address :=
  match t with Permanent => burn_address | CapRefill => cap_refill_address end.

(** The [match &tx.body] of [apply_block]. *)
Definition execute (self : StateMachine) (sender_acct : Account) (tx : Transaction) : handler :=
  let sender := tx_sender tx in
  let fee := tx_fee tx in
  let n := tx_nonce tx in
  match tx_body tx with
  | Transfer recipient amount => try_transfer self sender_acct recipient amount fee n
  | Burn target amount => try_transfer self sender_acct (burn_destination target) amount fee n
  | RegisterValidator public_key => apply_register_validator self sender_acct sender public_key fee n
  | Stake validator amount => apply_stake self sender_acct sender validator amount fee n
  | RegisterAndStake validator amount =>
      apply_register_and_stake self sender_acct sender validator amount fee n
  | Unstake validator amount => apply_unstake self sender_acct sender validator amount fee n 0
  | Propose id title description actions =>
      apply_propose self sender_acct sender id title description actions fee n
  | VoteTx id approve => apply_gov_vote self sender_acct sender id approve fee n
  | CancelProposal id => apply_cancel_proposal self sender_acct sender id fee n
  end.

(** The loop state of [apply_block]: the machine, [block_fees], [tx_count], [failed_count]. *)
Record Exec := mkExec { ex_machine : StateMachine; ex_fees : Z; ex_count : Z; ex_failed : Z }.

Definition count_failed (s : Exec) : outcome Exec :=
  f ← u32_add (ex_failed s) 1;
  Ret (mkExec (ex_machine s) (ex_fees s) (ex_count s) f).

Definition apply_tx (chain_id : Z) (s : Exec) (tx : Transaction) : outcome Exec :=
  if negb (tx_chain_id tx =? chain_id) then count_failed s
  else
    o ← get_account (ex_machine s) (tx_sender tx);
    match o with
    | None => count_failed s
    | Some sender_acct =>
        '(self, sender_acct, executed) ← execute (ex_machine s) sender_acct tx;
        if is_ok executed then
          let self := set_account self (tx_sender tx) sender_acct in
          fees ← u128_add (ex_fees s) (fee_as_u128 (tx_fee tx));
          c ← u32_add (ex_count s) 1;
          Ret (mkExec self fees c (ex_failed s))
        else if tx_fee tx <=? balance sender_acct then
          b ← u256_sub (balance sender_acct) (tx_fee tx);
          let self := set_account self (tx_sender tx) (set_balance sender_acct b) in
          fees ← u128_add (ex_fees s) (fee_as_u128 (tx_fee tx));
          count_failed (mkExec self fees (ex_count s) (ex_failed s))
        else count_failed (mkExec self (ex_fees s) (ex_count s) (ex_failed s))
    end.

Definition apply_block (self : StateMachine) (block : Block) : outcome (StateMachine * Result BlockReceipt) :=
  s ← foldM (apply_tx (hdr_chain_id (blk_header block))) (mkExec self 0 0 0) (transactions (blk_body block));
  self ← distribute_fees (ex_machine s) (ex_fees s);
  '(root, self) ← state_root self;
  Ret (self, Ok (mkReceipt (ex_fees s) (ex_count s) (ex_failed s) root)).

(** ** Era boundary *)

Definition process_unstaking_cooldown (self : StateMachine) (validator_addr : Address) (current_era : Z) :
    outcome (StateMachine * Result unit) :=
  match get_validator self validator_addr with
  | None => Ret (self, Ok tt)
  | Some entry =>
      match ve_status entry with
      | Unstaking release_era amount =>
          if current_era <? release_era then Ret (self, Ok tt)
          else if ve_stake entry <=? amount
          then Ret (set_validator self validator_addr (ve_update entry 0 Registered), Ok tt)
          else
            new_stake ← u256_sub (ve_stake entry) amount;
            let status := if MIN_STAKE <=? new_stake then Staked new_stake else Registered in
            Ret (set_validator self validator_addr (ve_update entry new_stake status), Ok tt)
      | _ => Ret (self, Ok tt)
      end
  end.

Definition process_thaw (self : StateMachine) (validator_addr : Address) (current_era : Z) :
    StateMachine * Result bool :=
  match get_validator self validator_addr with
  | None => (self, Ok false)
  | Some entry =>
      match ve_status entry with
      | Frozen frozen_until =>
          if current_era <? frozen_until then (self, Ok false)
          else
            let new_status := if MIN_STAKE <=? ve_stake entry then Thawed else Registered in
            (set_validator self validator_addr (ve_update entry (ve_stake entry) new_status), Ok true)
      | _ => (self, Ok false)
      end
  end.

(** [self.process_thaw(..).unwrap_or(false)] counted over the list. *)
Definition thaw_step (current_era : Z) (s : StateMachine * Z) (addr : Address) : outcome (StateMachine * Z) :=
  let '(self, count) := s in
  match process_thaw self addr current_era with
  | (self, Ok true) => c ← usize_add count 1; Ret (self, c)
  | (self, _) => Ret (self, count)
  end.

Definition thaw_all (self : StateMachine) (addrs : list Address) (current_era : Z) : outcome (StateMachine * Z) :=
  foldM (thaw_step current_era) (self, 0) addrs.

Definition eligible_entries (self : StateMachine) (candidates : list Address) : list ValidatorEntry :=
  omap (fun addr =>
    entry ← get_validator self addr;
    if frozen_or_unstaking (ve_status entry) then None else Some entry) candidates.

(** [b.stake.cmp(&a.stake).then_with(|| a.registration_era.cmp(&b.registration_era))] *)
Definition election_cmp (a b : ValidatorEntry) : comparison :=
  cmp_then (Z.compare (ve_stake b) (ve_stake a)) (Z.compare (ve_registration_era a) (ve_registration_era b)).

Definition elected_entries (self : StateMachine) (candidates : list Address) (max_validators era : Z) :
    list ValidatorEntry :=
  let eligible := eligible_entries self candidates in
  if era =? 0 then take (Z.to_nat max_validators) eligible
  else take (Z.to_nat max_validators)
         (filter (fun e => MIN_STAKE <= ve_stake e) (sort_by election_cmp eligible)).

Definition activate (s : ValidatorStatus) : ValidatorStatus :=
  match s with Registered | Staked _ | Thawed => Active | other => other end.

Definition run_election (self : StateMachine) (candidates : list Address) (max_validators era : Z) :
    StateMachine * list Address :=
  let elected := elected_entries self candidates max_validators era in
  let active_addrs := map ve_address elected in
  (foldl (fun self entry =>
      set_validator self (ve_address entry) (ve_update entry (ve_stake entry) (activate (ve_status entry))))
    self elected, active_addrs).

(** ** Slashing *)

(** [amount * U256::from(p) / U256::from(100)] *)
Definition percent (amount p : Z) : outcome Z := m ← u256_mul amount p; u256_div m 100.

(** [if let Some(mut acct) = self.get_account(..) {..} else {..}] *)
Definition slash_credit (self : StateMachine) (addr : Address) (amount : Z) : outcome StateMachine :=
  o ← get_account self addr;
  match o with
  | Some acct => Ret (set_account self addr (set_balance acct (u256_saturating_add (balance acct) amount)))
  | None => Ret (set_account self addr (set_balance (Account_new 0) amount))
  end.

Definition apply_slash (self : StateMachine) (proposer_addr : array 32) (reporter_addr : Address)
    (current_era : Z) : outcome (StateMachine * Result SlashResult) :=
  let addr := address_from proposer_addr in
  match get_validator self addr with
  | None => Ret (self, Err (ValidatorNotFound (mkHexBytes proposer_addr)))
  | Some entry =>
      if match ve_status entry with Frozen _ => true | _ => false end then Ret (self, Err AlreadyFrozen)
      else
        slashed ← percent (ve_stake entry) 90;
        burn ← percent slashed 90;
        bounty ← percent slashed 10;
        remaining ← u256_sub (ve_stake entry) slashed;
        self ← slash_credit self burn_address burn;
        self ← slash_credit self reporter_addr bounty;
        frozen_until ← u64_add current_era 72;
        Ret (set_validator self addr (ve_update entry remaining (Frozen frozen_until)),
             Ok (mkSlashResult slashed burn bounty remaining))
  end.
End State.

(** Both comparators are total preorders, as [sort_by] requires. *)
#[export] Instance election_cmp_ok : CmpOk election_cmp.
Proof.
  apply cmp_then_ok; [|apply cmp_key_ok].
  apply (cmp_flip_ok (fun a b => Z.compare (ve_stake a) (ve_stake b))). apply cmp_key_ok.
Qed.

#[export] Instance fee_cmp_ok : CmpOk fee_cmp.
Proof.
  apply cmp_then_ok.
  - apply (cmp_flip_ok (fun a b : Z * Address => Z.compare a.1 b.1)). apply (cmp_key_ok fst).
  - apply (cmp_on_ok (fun p : Z * Address => array_bytes (as_bytes p.2)) bytes_cmp), bytes_cmp_ok.
Qed.
