(* ===== verification/Ledger.v ===== *)
(** * The abstract ledger: what [apply_block] promises

    Accounts and validator entries as finite maps, amounts as unbounded integers,
    a transaction as a list of checks and one effect.  No encoding, no tree, no
    arithmetic that can fail.  [Refine] proves that [core/state.rs] implements
    this specification; the theorems on value are proved here once. *)
From Stdlib Require Import Strings.Byte Strings.String.
From stdpp Require Import base gmap sets list strings countable sorting.
From Stdlib Require Import ZArith Lia.
From S2P Require Import Prelude Types State.

Record Ledger := mkLedger {
  accounts : gmap Address Account;
  entries : gmap Address ValidatorEntry;
  active : list Address
}.

Definition put_account (L : Ledger) (a : Address) (x : Account) : Ledger :=
  mkLedger (<[a := x]> (accounts L)) (entries L) (active L).
Definition put_entry (L : Ledger) (a : Address) (e : ValidatorEntry) : Ledger :=
  mkLedger (accounts L) (<[a := e]> (entries L)) (active L).

Definition account_or_new (L : Ledger) (a : Address) : Account := default (Account_new 0) (accounts L !! a).

Definition credit (L : Ledger) (a : Address) (x : Z) : Ledger :=
  put_account L a (set_balance (account_or_new L a) (balance (account_or_new L a) + x)).

(** Everything anybody owns: balances and stakes. *)
Definition value (L : Ledger) : Z := map_sum balance (accounts L) + map_sum ve_stake (entries L).

(** ** Transactions *)

(** What an accepted transaction takes from its sender. *)
Definition debit (tx : Transaction) : Z :=
  match tx_body tx with
  | Transfer _ a | Burn _ a => a + tx_fee tx
  | Stake _ a => tx_fee tx + a
  | RegisterValidator _ => tx_fee tx + ANTI_SPAM_DEPOSIT
  | RegisterAndStake _ a => tx_fee tx + ANTI_SPAM_DEPOSIT + a
  | _ => tx_fee tx
  end.

Definition charge (acct : Account) (d : Z) : Account :=
  mkAccount (balance acct - d) (nonce acct + 1) (code_hash acct).

(** The first check that does not hold. *)
Fixpoint first_error (checks : list (bool * LibError)) : option LibError :=
  match checks with
  | [] => None
  | (b, e) :: checks => if b then first_error checks else Some e
  end.

(** The amount already waiting to be withdrawn from a validator. *)
Definition pending (e : ValidatorEntry) : Z :=
  match ve_status e with Unstaking _ x => x | _ => 0 end.

Definition is_frozen (s : ValidatorStatus) : bool := match s with Frozen _ => true | _ => false end.

Definition spec_error (L : Ledger) (acct : Account) (tx : Transaction) : option LibError :=
  let s := tx_sender tx in
  let nonce_ok := (nonce acct =? tx_nonce tx, InvalidNonce (nonce acct) (tx_nonce tx)) in
  let funds := (debit tx <=? balance acct, InsufficientBalance (balance acct) (debit tx)) in
  let unregistered :=
    (bool_decide (entries L !! s = None), Consensus "already registered"%string) in
  match tx_body tx with
  | RegisterValidator _ => first_error [unregistered; nonce_ok; funds]
  | Stake v a =>
      match entries L !! v with
      | None => first_error [nonce_ok; (false, ValidatorNotFound (mkHexBytes (as_bytes v)))]
      | Some e => first_error [nonce_ok;
          (negb (frozen_or_unstaking (ve_status e)), Consensus "validator is frozen or unstaking"%string);
          (negb (a =? 0), Consensus "stake amount must be > 0"%string);
          funds;
          (ve_stake e + a <? W256, Consensus "stake overflow"%string)]
      end
  | RegisterAndStake v a => first_error [
      (bool_decide (v = s), Consensus "register-and-stake validator must equal sender"%string);
      nonce_ok; unregistered;
      (negb (a =? 0), Consensus "stake amount must be > 0"%string);
      funds]
  | Unstake v a =>
      match entries L !! v with
      | None => first_error [nonce_ok; (false, ValidatorNotFound (mkHexBytes (as_bytes v)))]
      | Some e => first_error [nonce_ok;
          (negb (is_frozen (ve_status e)), Consensus "validator is frozen"%string);
          (negb (a =? 0), Consensus "unstake amount must be > 0"%string);
          (a <=? ve_stake e, Consensus "unstake amount exceeds validator stake"%string);
          funds;
          (pending e + a <? W256, Consensus "unstake overflow"%string);
          (pending e + a <=? ve_stake e, Consensus "cumulative unstake exceeds validator stake"%string)]
      end
  | _ => first_error [nonce_ok; funds]
  end.

(** The three errors raised after the sender has been charged. *)
Definition late_error (e : LibError) : bool :=
  match e with
  | Consensus m => bool_decide (m = "stake overflow"%string) || bool_decide (m = "unstake overflow"%string)
      || bool_decide (m = "cumulative unstake exceeds validator stake"%string)
  | _ => false
  end.

Definition staked_more (e : ValidatorEntry) (a : Z) : ValidatorEntry :=
  ve_update e (ve_stake e + a)
    (if bool_decide (ve_status e = Registered) then Staked (ve_stake e + a) else ve_status e).

(** An unstaking keeps the release era of the one already pending. *)
Definition unstaking_more (e : ValidatorEntry) (a : Z) : ValidatorEntry :=
  ve_update e (ve_stake e)
    (Unstaking (match ve_status e with Unstaking r _ => r | _ => UNSTAKING_COOLDOWN_ERAS end) (pending e + a)).

Definition pay_to (L : Ledger) (s r : Address) (a : Z) : Ledger :=
  if decide (r = s) then L else credit L r a.

(** The effect of an accepted transaction of a sender owning [acct]. *)
Definition spec_effect (L : Ledger) (acct : Account) (tx : Transaction) : Ledger :=
  let s := tx_sender tx in
  let L := put_account L s (charge acct (debit tx)) in
  match tx_body tx with
  | Transfer r a => pay_to L s r a
  | Burn t a => pay_to L s (burn_destination t) a
  | RegisterValidator k => put_entry L s (mkValidatorEntry s k 0 Registered 0)
  | Stake v a => from_option (fun e => put_entry L v (staked_more e a)) L (entries L !! v)
  | RegisterAndStake _ a => put_entry L s (mkValidatorEntry s (array_repeat 897 x00) a (Staked a) 0)
  | Unstake v a => from_option (fun e => put_entry L v (unstaking_more e a)) L (entries L !! v)
  | _ => L
  end.

(** What a step reports: the ledger, the fee collected, whether it was applied. *)
Record Step := mkStep { st_ledger : Ledger; st_fee : Z; st_applied : bool }.

Definition spec_reject (L : Ledger) (acct : Account) (tx : Transaction) (e : LibError) : Step :=
  let acct := if late_error e then charge acct (debit tx) else acct in
  if tx_fee tx <=? balance acct
  then mkStep (put_account L (tx_sender tx) (set_balance acct (balance acct - tx_fee tx))) (tx_fee tx) false
  else mkStep L 0 false.

Definition spec_tx (chain_id : Z) (L : Ledger) (tx : Transaction) : Step :=
  if negb (tx_chain_id tx =? chain_id) then mkStep L 0 false
  else
    match accounts L !! tx_sender tx with
    | None => mkStep L 0 false
    | Some acct =>
        match spec_error L acct tx with
        | None => mkStep (spec_effect L acct tx) (tx_fee tx) true
        | Some e => spec_reject L acct tx e
        end
    end.

(** The value that leaves the ledger: deposits, self-transfers, double charges. *)
Definition destroyed (chain_id : Z) (L : Ledger) (tx : Transaction) : Z :=
  if negb (tx_chain_id tx =? chain_id) then 0
  else
    match accounts L !! tx_sender tx with
    | None => 0
    | Some acct =>
        match spec_error L acct tx with
        | Some e =>
            if late_error e && (tx_fee tx <=? balance acct - debit tx) then debit tx else 0
        | None =>
            match tx_body tx with
            | Transfer r a => if decide (r = tx_sender tx) then a else 0
            | Burn t a => if decide (burn_destination t = tx_sender tx) then a else 0
            | RegisterValidator _ | RegisterAndStake _ _ => ANTI_SPAM_DEPOSIT
            | _ => 0
            end
        end
    end.

(** ** Fee distribution *)

Definition stake_of (L : Ledger) (a : Address) : option Z := ve_stake <$> entries L !! a.

(** The active validators with an entry, as [(stake, address)]. *)
Definition active_stakes (L : Ledger) : list (Z * Address) :=
  omap (fun a => (fun s => (s, a)) <$> stake_of L a) (active L).

Definition share_of (F total : Z) (p : Z * Address) : Z := F * p.1 / total.

(** Who gets how much: the shares in order, then the remainder to the first. *)
Definition payouts (F : Z) (pairs : list (Z * Address)) : list (Address * Z) :=
  let total := sumZ fst pairs in
  let shares := map (fun p => (p.2, share_of F total p)) pairs in
  match pairs with
  | [] => []
  | p :: _ => shares ++ [(p.2, F - sumZ snd shares)]
  end.

Definition payout (L : Ledger) (p : Address * Z) : Ledger := if p.2 =? 0 then L else credit L p.1 p.2.

Definition spec_distribute (L : Ledger) (F : Z) : Ledger :=
  let pairs := active_stakes L in
  if sumZ fst pairs =? 0 then L
  else foldl payout L (payouts F (sort_by fee_cmp pairs)).

(** ** Blocks *)

Record BlockStep := mkBlockStep { bs_ledger : Ledger; bs_fees : Z; bs_applied : Z; bs_failed : Z }.

Definition spec_txs_step (chain_id : Z) (s : BlockStep) (tx : Transaction) : BlockStep :=
  let r := spec_tx chain_id (bs_ledger s) tx in
  mkBlockStep (st_ledger r) (bs_fees s + st_fee r)
    (bs_applied s + if st_applied r then 1 else 0) (bs_failed s + if st_applied r then 0 else 1).

Definition spec_txs (chain_id : Z) (L : Ledger) (txs : list Transaction) : BlockStep :=
  foldl (spec_txs_step chain_id) (mkBlockStep L 0 0 0) txs.

Definition spec_block (L : Ledger) (b : Block) : BlockStep :=
  let s := spec_txs (hdr_chain_id (blk_header b)) L (transactions (blk_body b)) in
  mkBlockStep (spec_distribute (bs_ledger s) (bs_fees s)) (bs_fees s) (bs_applied s) (bs_failed s).

(** ** Well-formed ledgers *)

(** Balances, stakes and nonces are in range, and no more value is waiting to
    be withdrawn from a validator, or recorded in its status, than it has. *)
Definition entry_wf (e : ValidatorEntry) : Prop :=
  0 <= ve_stake e /\
  match ve_status e with
  | Staked s => 0 <= s <= ve_stake e
  | Unstaking r x => is_u64 r /\ 0 <= x <= ve_stake e
  | Frozen u => is_u64 u
  | _ => True
  end /\ is_u64 (ve_registration_era e).

Definition account_wf (a : Account) : Prop := 0 <= balance a /\ is_u64 (nonce a).

Record ledger_wf (L : Ledger) : Prop := {
  wf_accounts : map_Forall (fun _ a => account_wf a) (accounts L);
  wf_entries : map_Forall (fun a e => entry_wf e /\ ve_address e = a) (entries L)
}.

(** The ranges a transaction must respect for the fixed-width arithmetic of
    the code to agree with the ledger. *)
Definition body_amount (b : TxBody) : Z :=
  match b with
  | Transfer _ a | Stake _ a | RegisterAndStake _ a | Unstake _ a | Burn _ a => a
  | _ => 0
  end.

Definition tx_fits (tx : Transaction) : Prop :=
  0 <= body_amount (tx_body tx) /\ 0 <= tx_fee tx < W128 /\ 0 <= tx_nonce tx < U64_MAX /\ debit tx < W256.

(** ** Value *)

Lemma value_nonneg_parts L :
  ledger_wf L -> 0 <= map_sum balance (accounts L) /\ 0 <= map_sum ve_stake (entries L).
Proof.
  intros [Ha He]. split; apply map_sum_nonneg; intros k v Hk.
  - by destruct (Ha k v Hk).
  - by destruct (He k v Hk) as [[? _] _].
Qed.

Lemma value_nonneg L : ledger_wf L -> 0 <= value L.
Proof. intros Hwf. destruct (value_nonneg_parts L Hwf). unfold value. lia. Qed.

Lemma balance_le_value L a acct : ledger_wf L -> accounts L !! a = Some acct -> 0 <= balance acct <= value L.
Proof.
  intros Hwf Ha. destruct (value_nonneg_parts L Hwf). destruct Hwf as [HA HE]. unfold value.
  pose proof (map_sum_lookup_le balance (accounts L) a acct ltac:(intros k v Hk; by destruct (HA k v Hk)) Ha).
  destruct (HA a acct Ha). lia.
Qed.

Lemma stake_le_value L a e : ledger_wf L -> entries L !! a = Some e -> 0 <= ve_stake e <= value L.
Proof.
  intros Hwf Ha. destruct (value_nonneg_parts L Hwf). destruct Hwf as [HA HE]. unfold value.
  pose proof (map_sum_lookup_le ve_stake (entries L) a e
    ltac:(intros k v Hk; by destruct (HE k v Hk) as [[? _] _]) Ha).
  destruct (HE a e Ha) as [[? _] _]. lia.
Qed.

Lemma account_or_new_le_value L a : ledger_wf L -> 0 <= balance (account_or_new L a) <= value L.
Proof.
  intros Hwf. unfold account_or_new. destruct (accounts L !! a) as [acct|] eqn:E; simpl.
  - eauto using balance_le_value.
  - destruct (value_nonneg_parts L Hwf). unfold value. lia.
Qed.

Lemma value_put_account L a x :
  value (put_account L a x) = value L - from_option balance 0 (accounts L !! a) + balance x.
Proof. unfold value. simpl. rewrite map_sum_insert. lia. Qed.

Lemma value_put_entry L a e :
  value (put_entry L a e) = value L - from_option ve_stake 0 (entries L !! a) + ve_stake e.
Proof. unfold value. simpl. rewrite map_sum_insert. lia. Qed.

Lemma value_credit L a x : value (credit L a x) = value L + x.
Proof.
  unfold credit. rewrite value_put_account. unfold account_or_new.
  destruct (accounts L !! a); simpl; lia.
Qed.

Lemma value_pay_to L s r a : value (pay_to L s r a) = value L + if decide (r = s) then 0 else a.
Proof. unfold pay_to. case_decide; [lia|apply value_credit]. Qed.

Lemma value_payouts ps L : value (foldl payout L ps) = value L + sumZ snd ps.
Proof.
  revert L; induction ps as [|[a x] ps IH]; intros L; simpl; [lia|]. rewrite IH. unfold payout; simpl.
  destruct (x =? 0) eqn:E; zbool; [lia|rewrite value_credit; lia].
Qed.

(** ** Payouts *)

Lemma payouts_total F pairs : pairs <> [] -> sumZ snd (payouts F pairs) = F.
Proof.
  intros Hp. unfold payouts. destruct pairs as [|p pairs]; [done|]. rewrite sumZ_app. simpl. lia.
Qed.

Lemma div_sum_le F T (pairs : list (Z * Address)) :
  0 < T -> sumZ (share_of F T) pairs <= F * sumZ fst pairs / T.
Proof.
  intros HT. induction pairs as [|p pairs IH]; simpl; [by rewrite Z.mul_0_r|].
  unfold share_of in *. rewrite Z.mul_add_distr_l.
  apply Z.div_le_lower_bound; [done|].
  pose proof (Z.mul_div_le (F * p.1) T HT). pose proof (Z.mul_div_le (F * sumZ fst pairs) T HT). nia.
Qed.

Lemma sumZ_payout_shares F T (pairs : list (Z * Address)) :
  sumZ snd (map (fun p => (p.2, share_of F T p)) pairs) = sumZ (share_of F T) pairs.
Proof. by rewrite sumZ_map. Qed.

(** The shares never exceed the fees. *)
Lemma shares_le F pairs : 0 < sumZ fst pairs -> sumZ (share_of F (sumZ fst pairs)) pairs <= F.
Proof.
  intros HT. pose proof (div_sum_le F _ pairs HT) as H. by rewrite Z.div_mul in H by lia.
Qed.

Lemma value_spec_distribute L F :
  value (spec_distribute L F) = value L + if sumZ fst (active_stakes L) =? 0 then 0 else F.
Proof.
  unfold spec_distribute. destruct (_ =? 0) eqn:E; zbool; [lia|]. rewrite value_payouts, payouts_total; [done|].
  intros E2. pose proof (sort_by_perm fee_cmp (active_stakes L)) as Hp. rewrite E2 in Hp.
  apply Permutation_nil in Hp. by rewrite Hp in E.
Qed.

(** ** Each step accounts for all value *)

Lemma value_effect L acct tx :
  accounts L !! tx_sender tx = Some acct -> spec_error L acct tx = None ->
  value (spec_effect L acct tx) + tx_fee tx +
    match tx_body tx with
    | Transfer r a => if decide (r = tx_sender tx) then a else 0
    | Burn t a => if decide (burn_destination t = tx_sender tx) then a else 0
    | RegisterValidator _ | RegisterAndStake _ _ => ANTI_SPAM_DEPOSIT
    | _ => 0
    end = value L.
Proof.
  intros Ha He.
  assert (forall d, value (put_account L (tx_sender tx) (charge acct d)) = value L - d) as Hc.
  { intros d. rewrite value_put_account, Ha. simpl. lia. }
  unfold spec_effect, spec_error, debit in *.
  destruct (tx_body tx) as [r a|k|v a|v a|v a|t a| | |]; simpl in *;
    rewrite ?value_pay_to, ?Hc; try (case_decide; lia); try lia.
  - rewrite value_put_entry, Hc. simpl. case_bool_decide as Hr; [|done]. rewrite Hr. simpl. lia.
  - destruct (entries L !! v) as [e|] eqn:Ev; simpl in *; [|by destruct (nonce acct =? _)].
    rewrite value_put_entry, Hc. simpl. rewrite Ev. simpl. lia.
  - rewrite value_put_entry, Hc. simpl.
    destruct (bool_decide (v = _)); [|done]. destruct (nonce acct =? _); [|done].
    case_bool_decide as Hr; [|done]. rewrite Hr. simpl. lia.
  - destruct (entries L !! v) as [e|] eqn:Ev; simpl in *; [|by destruct (nonce acct =? _)].
    rewrite value_put_entry, Hc. simpl. rewrite Ev. simpl. lia.
Qed.

Lemma value_reject L acct tx e :
  accounts L !! tx_sender tx = Some acct ->
  value (st_ledger (spec_reject L acct tx e)) + st_fee (spec_reject L acct tx e) +
    (if late_error e && (tx_fee tx <=? balance acct - debit tx) then debit tx else 0) = value L.
Proof.
  intros Ha. unfold spec_reject. destruct (late_error e); simpl.
  - destruct (_ <=? _) eqn:E; simpl; [|lia]. rewrite value_put_account, Ha. simpl. lia.
  - destruct (_ <=? _) eqn:E; simpl; [|lia]. rewrite value_put_account, Ha. simpl. lia.
Qed.

Lemma value_spec_tx c L tx :
  value (st_ledger (spec_tx c L tx)) + st_fee (spec_tx c L tx) + destroyed c L tx = value L.
Proof.
  unfold spec_tx, destroyed. destruct (negb _); simpl; [lia|].
  destruct (accounts L !! tx_sender tx) as [acct|] eqn:Ha; simpl; [|lia].
  destruct (spec_error L acct tx) as [e|] eqn:He.
  - by apply value_reject.
  - by apply value_effect.
Qed.

(** ** Well-formedness is preserved *)

Lemma put_account_wf L a x : ledger_wf L -> account_wf x -> ledger_wf (put_account L a x).
Proof. intros [HA HE] Hx. split; [|done]. by apply map_Forall_insert_2. Qed.

Lemma put_entry_wf L a e : ledger_wf L -> entry_wf e -> ve_address e = a -> ledger_wf (put_entry L a e).
Proof. intros [HA HE] He Ha. split; [done|]. by apply map_Forall_insert_2. Qed.

Lemma account_or_new_wf L a : ledger_wf L -> account_wf (account_or_new L a).
Proof.
  intros [HA _]. unfold account_or_new. destruct (accounts L !! a) as [x|] eqn:E; simpl; [by eapply HA|].
  unfold account_wf, is_u64. simpl. word_lia.
Qed.

Lemma set_balance_wf a b : account_wf a -> 0 <= b -> account_wf (set_balance a b).
Proof. intros [? ?] ?. by split. Qed.

Lemma credit_wf L a x : ledger_wf L -> 0 <= x -> ledger_wf (credit L a x).
Proof.
  intros Hwf Hx. pose proof (account_or_new_wf L a Hwf) as Ha. apply put_account_wf; [done|].
  apply set_balance_wf; [done|]. destruct Ha. lia.
Qed.

Lemma pay_to_wf L s r a : ledger_wf L -> 0 <= a -> ledger_wf (pay_to L s r a).
Proof. intros. unfold pay_to. case_decide; [done|by apply credit_wf]. Qed.

Lemma charge_wf acct tx d :
  account_wf acct -> nonce acct = tx_nonce tx -> tx_nonce tx < U64_MAX -> d <= balance acct ->
  account_wf (charge acct d).
Proof. intros [? ?] ???. unfold account_wf, is_u64 in *. simpl. word_lia. Qed.

(** Takes a hypothesis [first_error .. = o] apart, check by check. *)
Ltac inv_checks H :=
  simpl in H;
  repeat match type of H with
  | context [if ?b then _ else _] => let E := fresh "C" in destruct b eqn:E; [|try discriminate H]
  end;
  zbool.

(** What an accepted transaction guarantees of its sender. *)
Lemma spec_error_None_sender L acct tx :
  spec_error L acct tx = None -> nonce acct = tx_nonce tx /\ debit tx <= balance acct.
Proof.
  unfold spec_error. intros H.
  destruct (tx_body tx); try (destruct (entries L !! _)); inv_checks H; try discriminate H; split; lia.
Qed.

(** A late error is raised after the same checks. *)
Lemma spec_error_late_sender L acct tx e :
  spec_error L acct tx = Some e -> late_error e = true -> nonce acct = tx_nonce tx /\ debit tx <= balance acct.
Proof.
  unfold spec_error. intros H Hl.
  destruct (tx_body tx); try (destruct (entries L !! _)); inv_checks H; simplify_eq/=;
    try discriminate Hl; split; lia.
Qed.

Lemma staked_more_wf e a : entry_wf e -> 0 <= a -> entry_wf (staked_more e a).
Proof.
  intros (Hs & Hst & Hr) Ha. unfold entry_wf, staked_more. simpl. split; [lia|]. split; [|done].
  case_bool_decide as E; simpl; [lia|]. destruct (ve_status e); simpl in *; destruct_and?; split_and?; done || lia.
Qed.

Lemma unstaking_more_wf e a :
  entry_wf e -> 0 <= a -> pending e + a <= ve_stake e -> entry_wf (unstaking_more e a).
Proof.
  intros (Hs & Hst & Hr) Ha Hp. unfold entry_wf, unstaking_more. simpl. split; [done|]. split; [|done].
  unfold pending in *. destruct (ve_status e); (split; [try done|lia]).
  all: tauto.
Qed.

Lemma effect_wf L acct tx :
  ledger_wf L -> accounts L !! tx_sender tx = Some acct -> tx_fits tx ->
  spec_error L acct tx = None -> ledger_wf (spec_effect L acct tx).
Proof.
  intros Hwf Ha (Hamt & Hfee & Hn & Hd) He.
  destruct (spec_error_None_sender L acct tx He) as [Hnonce Hbal].
  assert (ledger_wf (put_account L (tx_sender tx) (charge acct (debit tx)))) as Hwf1.
  { apply put_account_wf; [done|]. apply (charge_wf acct tx); try done; [by eapply (wf_accounts _ Hwf)|lia]. }
  unfold spec_effect, spec_error in *. revert Hwf1.
  assert (entries (put_account L (tx_sender tx) (charge acct (debit tx))) = entries L) as HL by done. revert HL.
  generalize (put_account L (tx_sender tx) (charge acct (debit tx))) as L1. intros L1 HL Hwf1. rewrite ?HL.
  destruct (tx_body tx) as [r a|k|v a|v a|v a|t a| | |]; simpl in Hamt; try done.
  - by apply pay_to_wf.
  - apply put_entry_wf; done.
  - destruct (entries L !! v) as [e|] eqn:Ev; simpl; [|done].
    destruct (wf_entries _ Hwf v e Ev). apply put_entry_wf; [done|by apply staked_more_wf|done].
  - apply put_entry_wf; [done| |done]. unfold entry_wf. simpl. widths. split_and?; lia.
  - destruct (entries L !! v) as [e|] eqn:Ev; simpl; [|done].
    destruct (wf_entries _ Hwf v e Ev). inv_checks He; try discriminate He.
    apply put_entry_wf; [done|by apply unstaking_more_wf|done].
  - by apply pay_to_wf.
Qed.

Lemma reject_wf L acct tx e :
  ledger_wf L -> accounts L !! tx_sender tx = Some acct -> tx_fits tx ->
  spec_error L acct tx = Some e -> ledger_wf (st_ledger (spec_reject L acct tx e)).
Proof.
  intros Hwf Ha (_ & _ & Hn & _) He. pose proof (wf_accounts _ Hwf _ _ Ha) as Hacct.
  unfold spec_reject. destruct (late_error e) eqn:Hl.
  - destruct (spec_error_late_sender L acct tx e He Hl).
    assert (account_wf (charge acct (debit tx))) as Hc by (apply (charge_wf acct tx); try done; lia).
    destruct (_ <=? _) eqn:E; zbool; [|done]. apply put_account_wf; [done|]. apply set_balance_wf; [done|lia].
  - destruct (_ <=? _) eqn:E; zbool; [|done]. apply put_account_wf; [done|]. apply set_balance_wf; [done|lia].
Qed.

Lemma spec_tx_wf c L tx : ledger_wf L -> tx_fits tx -> ledger_wf (st_ledger (spec_tx c L tx)).
Proof.
  intros Hwf Htx. unfold spec_tx. destruct (negb _); [done|].
  destruct (accounts L !! tx_sender tx) as [acct|] eqn:Ha; [|done].
  destruct (spec_error L acct tx) as [e|] eqn:He; [by apply reject_wf|by apply effect_wf].
Qed.

Lemma spec_tx_active c L tx : active (st_ledger (spec_tx c L tx)) = active L.
Proof.
  unfold spec_tx, spec_reject, spec_effect, pay_to. destruct (negb _); [done|].
  destruct (accounts L !! _); [|done]. destruct (spec_error _ _ _); [by destruct (_ <=? _)|].
  simpl. destruct (tx_body tx); simpl; try case_decide; try done; by destruct (entries L !! _).
Qed.

Lemma debit_nonneg tx : tx_fits tx -> 0 <= debit tx.
Proof.
  intros (Hamt & Hf & _). unfold debit. assert (0 < ANTI_SPAM_DEPOSIT) by done.
  destruct (tx_body tx); simpl in Hamt; lia.
Qed.

Lemma fees_nonneg txs : Forall tx_fits txs -> 0 <= sumZ tx_fee txs.
Proof. induction 1 as [|tx txs (_ & ? & _) _ IH]; simpl; lia. Qed.

Lemma destroyed_nonneg c L tx : tx_fits tx -> 0 <= destroyed c L tx.
Proof.
  intros Htx. pose proof (debit_nonneg tx Htx). destruct Htx as (Hamt & _).
  assert (0 < ANTI_SPAM_DEPOSIT) by done. unfold destroyed.
  destruct (negb _); [done|]. destruct (accounts L !! _); [|done].
  destruct (spec_error _ _ _).
  - by destruct (_ && _).
  - destruct (tx_body tx); simpl in Hamt; try case_decide; lia.
Qed.

Lemma st_fee_range c L tx : tx_fits tx -> 0 <= st_fee (spec_tx c L tx) <= tx_fee tx.
Proof.
  intros (_ & Hf & _). unfold spec_tx, spec_reject. destruct (negb _); simpl; [lia|].
  destruct (accounts L !! _); simpl; [|lia]. destruct (spec_error _ _ _); simpl; [|lia].
  destruct (_ <=? _); simpl; lia.
Qed.

(** ** The transactions of a block *)

Definition destroyed_txs (c : Z) (L : Ledger) (txs : list Transaction) : Z :=
  (foldl (fun '(L, d) tx => (st_ledger (spec_tx c L tx), d + destroyed c L tx)) (L, 0) txs).2.

Lemma destroyed_txs_fold c txs L d :
  (foldl (fun '(L, d) tx => (st_ledger (spec_tx c L tx), d + destroyed c L tx)) (L, d) txs).2 =
  d + destroyed_txs c L txs.
Proof.
  unfold destroyed_txs. revert L d; induction txs as [|tx txs IH]; intros L d; simpl; [lia|].
  rewrite IH, (IH _ (0 + _)). lia.
Qed.

Lemma destroyed_txs_cons c L tx txs :
  destroyed_txs c L (tx :: txs) = destroyed c L tx + destroyed_txs c (st_ledger (spec_tx c L tx)) txs.
Proof. unfold destroyed_txs at 1. simpl. by rewrite destroyed_txs_fold. Qed.

Lemma destroyed_txs_nonneg c txs L : Forall tx_fits txs -> 0 <= destroyed_txs c L txs.
Proof.
  intros H. revert L. induction H as [|tx txs Htx _ IH]; intros L; [done|].
  rewrite destroyed_txs_cons. pose proof (destroyed_nonneg c L tx Htx).
  pose proof (IH (st_ledger (spec_tx c L tx))). lia.
Qed.

Lemma value_spec_txs_from c txs s :
  let s' := foldl (spec_txs_step c) s txs in
  value (bs_ledger s') + bs_fees s' + destroyed_txs c (bs_ledger s) txs = value (bs_ledger s) + bs_fees s /\
  bs_applied s' + bs_failed s' = bs_applied s + bs_failed s + Z.of_nat (length txs) /\
  active (bs_ledger s') = active (bs_ledger s).
Proof.
  revert s; induction txs as [|tx txs IH]; intros s; simpl; [unfold destroyed_txs; simpl; split_and!; lia || done|].
  destruct (IH (spec_txs_step c s tx)) as (IH1 & IH2 & IH3). rewrite destroyed_txs_cons.
  pose proof (value_spec_tx c (bs_ledger s) tx). unfold spec_txs_step in *. simpl in *.
  split; [lia|]. split; [destruct (st_applied _); lia|]. rewrite IH3. apply spec_tx_active.
Qed.

Lemma value_spec_txs c L txs :
  value (bs_ledger (spec_txs c L txs)) + bs_fees (spec_txs c L txs) + destroyed_txs c L txs = value L.
Proof. destruct (value_spec_txs_from c txs (mkBlockStep L 0 0 0)) as (H & _). simpl in H. unfold spec_txs. lia. Qed.

Lemma spec_txs_wf c L txs : ledger_wf L -> Forall tx_fits txs -> ledger_wf (bs_ledger (spec_txs c L txs)).
Proof.
  intros Hwf Htx. unfold spec_txs.
  assert (forall s, ledger_wf (bs_ledger s) -> ledger_wf (bs_ledger (foldl (spec_txs_step c) s txs))) as H.
  { clear L Hwf. induction Htx as [|tx txs Htx _ IH]; intros s Hs; simpl; [done|]. apply IH. simpl. by apply spec_tx_wf. }
  by apply H.
Qed.

Lemma spec_txs_fees c L txs :
  Forall tx_fits txs -> 0 <= bs_fees (spec_txs c L txs) <= sumZ tx_fee txs.
Proof.
  intros Htx. unfold spec_txs.
  assert (forall s, bs_fees s <= bs_fees (foldl (spec_txs_step c) s txs) <= bs_fees s + sumZ tx_fee txs) as H.
  { induction Htx as [|tx txs Htx _ IH]; intros s; simpl; [lia|].
    pose proof (IH (spec_txs_step c s tx)). simpl in *. pose proof (st_fee_range c (bs_ledger s) tx Htx). lia. }
  by apply (H (mkBlockStep L 0 0 0)).
Qed.

Lemma spec_txs_counts c L txs :
  bs_applied (spec_txs c L txs) + bs_failed (spec_txs c L txs) = Z.of_nat (length txs).
Proof. destruct (value_spec_txs_from c txs (mkBlockStep L 0 0 0)) as (_ & H & _). unfold spec_txs. simpl in *. lia. Qed.

Lemma spec_txs_active c L txs : active (bs_ledger (spec_txs c L txs)) = active L.
Proof. by destruct (value_spec_txs_from c txs (mkBlockStep L 0 0 0)) as (_ & _ & H). Qed.

(** ** The whole block *)

Lemma active_stakes_nonneg L : ledger_wf L -> forall p, p ∈ active_stakes L -> 0 <= p.1.
Proof.
  intros Hwf [s a] Hp. unfold active_stakes in Hp. apply list_elem_of_omap in Hp as (b & _ & E).
  unfold stake_of in E. destruct (entries L !! b) as [e|] eqn:Ee; simpl in E; [|done]. injection E as <- <-.
  by destruct (wf_entries _ Hwf b e Ee) as [[? _] _].
Qed.

Lemma payouts_nonneg F pairs p : 0 <= F -> (forall q, q ∈ pairs -> 0 <= q.1) -> 0 < sumZ fst pairs ->
  p ∈ payouts F pairs -> 0 <= p.2.
Proof.
  intros HF Hp HT. unfold payouts. destruct pairs as [|q pairs]; [intros []%elem_of_nil|].
  remember (q :: pairs) as ps eqn:E. intros [Hin|Hin]%elem_of_app.
  - apply list_elem_of_fmap in Hin as (r & -> & Hr). simpl. unfold share_of.
    apply Z.div_pos; [|done]. specialize (Hp r Hr). nia.
  - apply list_elem_of_singleton in Hin as ->. simpl. rewrite sumZ_payout_shares.
    pose proof (shares_le F ps HT). lia.
Qed.

Lemma payouts_wf ps L : (forall p, p ∈ ps -> 0 <= p.2) -> ledger_wf L -> ledger_wf (foldl payout L ps).
Proof.
  revert L; induction ps as [|[a x] ps IH]; intros L Hp Hwf; simpl; [done|].
  apply IH; [intros; apply Hp; by right|]. unfold payout. simpl. destruct (_ =? 0); [done|].
  apply credit_wf; [done|]. apply (Hp (a, x)). left.
Qed.

Lemma sorted_stakes_sum L : sumZ fst (sort_by fee_cmp (active_stakes L)) = sumZ fst (active_stakes L).
Proof. apply sumZ_perm, sort_by_perm. Qed.

Lemma sorted_stakes_nonneg L p : ledger_wf L -> p ∈ sort_by fee_cmp (active_stakes L) -> 0 <= p.1.
Proof. intros Hwf Hp. apply sort_by_elem in Hp. by apply (active_stakes_nonneg L). Qed.

Lemma active_stakes_sum_pos L : ledger_wf L -> sumZ fst (active_stakes L) <> 0 -> 0 < sumZ fst (active_stakes L).
Proof. intros Hwf Hne. pose proof (sumZ_nonneg fst (active_stakes L) (active_stakes_nonneg L Hwf)). lia. Qed.

Lemma spec_distribute_wf L F : ledger_wf L -> 0 <= F -> ledger_wf (spec_distribute L F).
Proof.
  intros Hwf HF. unfold spec_distribute. destruct (_ =? 0) eqn:E; zbool; [done|].
  apply payouts_wf; [|done]. intros p. apply payouts_nonneg; [done| |].
  - intros q. by apply sorted_stakes_nonneg.
  - rewrite sorted_stakes_sum. by apply active_stakes_sum_pos.
Qed.

Lemma spec_block_wf L b :
  ledger_wf L -> Forall tx_fits (transactions (blk_body b)) -> ledger_wf (bs_ledger (spec_block L b)).
Proof.
  intros Hwf Htx. unfold spec_block. simpl. apply spec_distribute_wf; [by apply spec_txs_wf|].
  by apply spec_txs_fees.
Qed.

(** Fees that reach no validator leave the ledger too. *)
Definition lost_fees (L : Ledger) (b : Block) : Z :=
  let s := spec_txs (hdr_chain_id (blk_header b)) L (transactions (blk_body b)) in
  if sumZ fst (active_stakes (bs_ledger s)) =? 0 then bs_fees s else 0.

Definition destroyed_block (L : Ledger) (b : Block) : Z :=
  destroyed_txs (hdr_chain_id (blk_header b)) L (transactions (blk_body b)) + lost_fees L b.

Lemma value_spec_block L b : value (bs_ledger (spec_block L b)) + destroyed_block L b = value L.
Proof.
  unfold spec_block, destroyed_block, lost_fees. simpl. rewrite value_spec_distribute.
  pose proof (value_spec_txs (hdr_chain_id (blk_header b)) L (transactions (blk_body b))).
  destruct (_ =? 0); lia.
Qed.

Lemma destroyed_block_nonneg L b : Forall tx_fits (transactions (blk_body b)) -> 0 <= destroyed_block L b.
Proof.
  intros Htx. unfold destroyed_block, lost_fees.
  pose proof (destroyed_txs_nonneg (hdr_chain_id (blk_header b)) _ L Htx).
  pose proof (spec_txs_fees (hdr_chain_id (blk_header b)) L _ Htx). destruct (_ =? 0); lia.
Qed.

(** ** Stakes of the active set *)

Definition stakes_in (m : gmap Address ValidatorEntry) (l : list Address) : list (Z * Address) :=
  omap (fun a => (fun s => (s, a)) <$> (ve_stake <$> m !! a)) l.

Lemma stakes_in_delete m a l : a ∉ l -> stakes_in (delete a m) l = stakes_in m l.
Proof.
  unfold stakes_in. induction l as [|b l IH]; intros Ha; csimpl; [done|].
  apply not_elem_of_cons in Ha as [Hb Hl]. rewrite lookup_delete_ne by done. by rewrite IH.
Qed.

Lemma stakes_le_entries m l :
  NoDup l -> map_Forall (fun _ e => 0 <= ve_stake e) m -> sumZ fst (stakes_in m l) <= map_sum ve_stake m.
Proof.
  intros Hl. revert m. induction Hl as [|a l Ha Hl IH]; intros m Hm; csimpl.
  { apply map_sum_nonneg. exact Hm. }
  pose proof (stakes_in_delete m a l Ha) as Hdel.
  unfold stakes_in in *. csimpl. destruct (m !! a) as [e|] eqn:Ee; csimpl; [|by apply IH].
  rewrite (map_sum_delete ve_stake m a e Ee). rewrite <- Hdel. apply Zplus_le_compat_l, IH.
  by apply map_Forall_delete.
Qed.

Lemma active_stakes_le_value L : ledger_wf L -> NoDup (active L) -> sumZ fst (active_stakes L) <= value L.
Proof.
  intros Hwf Hn. destruct (value_nonneg_parts L Hwf). unfold value.
  assert (map_Forall (fun _ e => 0 <= ve_stake e) (entries L)) as He.
  { intros a e Ha. by destruct (wf_entries _ Hwf a e Ha) as [[? _] _]. }
  pose proof (stakes_le_entries (entries L) (active L) Hn He) as Hs. unfold stakes_in in Hs.
  unfold active_stakes, stake_of. lia.
Qed.

Lemma foldl_payout_zero L ps : (forall p, p ∈ ps -> p.2 = 0) -> foldl payout L ps = L.
Proof.
  intros Hp. induction ps as [|p ps IH]; simpl; [done|]. unfold payout at 2.
  rewrite (Hp p) by left. simpl. apply IH. intros. apply Hp. by right.
Qed.

Lemma share_of_zero T p : share_of 0 T p = 0.
Proof. unfold share_of. by rewrite Z.mul_0_l, Zdiv_0_l. Qed.

Lemma spec_distribute_zero L : spec_distribute L 0 = L.
Proof.
  unfold spec_distribute. destruct (_ =? 0); [done|]. apply foldl_payout_zero. intros p.
  unfold payouts. destruct (sort_by _ _) as [|q qs]; [intros []%elem_of_nil|].
  remember (q :: qs) as ps eqn:E. remember (sumZ fst ps) as T eqn:ET.
  assert (sumZ (share_of 0 T) ps = 0) as H0.
  { clear. induction ps as [|x ps IH]; simpl; [done|]. rewrite share_of_zero. lia. }
  intros [Hin|Hin]%elem_of_app.
  - apply list_elem_of_fmap in Hin as (r & -> & _). apply share_of_zero.
  - apply list_elem_of_singleton in Hin as ->. simpl. rewrite sumZ_payout_shares. lia.
Qed.

Lemma put_entry_active L a e : active (put_entry L a e) = active L. Proof. done. Qed.
