(* ===== verification/Refine.v ===== *)
(** * The state machine implements the ledger

    [refines D sm L]: on the addresses of [D], whose tree keys do not collide,
    the machine [sm] stores exactly the accounts and entries of the ledger [L].
    Every handler of [core/state.rs] is simulated by its transition of [Ledger]. *)
From Stdlib Require Import Strings.Byte Strings.String.
From stdpp Require Import base gmap sets list strings countable sorting.
From Stdlib Require Import ZArith Lia.
From S2P Require Import Prelude Types External Toy Trie Account State Ledger.

(** The addresses a transaction reads or writes. *)
Definition tx_addresses (tx : Transaction) : list Address :=
  tx_sender tx ::
  match tx_body tx with
  | Transfer r _ => [r]
  | Burn t _ => [burn_destination t]
  | Stake v _ | Unstake v _ | RegisterAndStake v _ => [v]
  | _ => []
  end.

Section Refine.
Context `{BuildProfile} `{Blake3} `{Scale} `{!ScaleOk}.

(** The tree keys of the addresses of [D]. *)
Definition keys_of (D : gset Address) (k : bytes) : Prop :=
  exists a, a ∈ D /\ (k = account_key a \/ k = validator_key a).

Record refines (D : gset Address) (sm : StateMachine) (L : Ledger) : Prop := {
  rf_account : forall a, a ∈ D -> get_account sm a = Ret (accounts L !! a);
  rf_entry : forall a, a ∈ D -> get_validator sm a = entries L !! a;
  rf_active : active_set sm = active L;
  rf_active_known : forall a, a ∈ active L -> a ∈ D;
  rf_dom_accounts : forall a, is_Some (accounts L !! a) -> a ∈ D;
  rf_validators : validators sm = dom (entries L);
  rf_validators_known : forall a, is_Some (entries L !! a) -> a ∈ D;
  rf_wf : smt_wf (state sm)
}.

(** ** The store interface *)

Lemma account_key_inj a b : account_key a = account_key b -> a = b.
Proof. destruct a as [a], b as [b]. intros [= E]. f_equal. by apply array_eq. Qed.

Lemma validator_key_inj a b : validator_key a = validator_key b -> a = b.
Proof. destruct a as [a], b as [b]. intros [= E]. f_equal. by apply array_eq. Qed.

Lemma account_validator_key a b : account_key a <> validator_key b.
Proof. done. Qed.

(** [D] given by a list: the keys do not collide when their hashes differ. *)
Definition key_list (l : list Address) : list bytes := map account_key l ++ map validator_key l.

Lemma collision_free_list l : NoDup (map blake3 (key_list l)) -> collision_free (keys_of (list_to_set l)).
Proof.
  intros Hn x y Hx Hy E.
  assert (forall k, keys_of (list_to_set l) k -> k ∈ key_list l) as Hk.
  { intros k (a & Ha%elem_of_list_to_set & [-> | ->]); apply elem_of_app; [left|right]; apply list_elem_of_fmap; eauto. }
  apply Hk, list_elem_of_lookup in Hx as [i Hi]. apply Hk, list_elem_of_lookup in Hy as [j Hj].
  assert (i = j) as ->.
  { eapply NoDup_lookup; [exact Hn|by apply (list_lookup_fmap_Some_2 blake3)|].
    rewrite E. by apply (list_lookup_fmap_Some_2 blake3). }
  congruence.
Qed.

Section Store.
Context (D : gset Address) (HD : collision_free (keys_of D)).

Lemma account_hash_ne a b : a ∈ D -> b ∈ D -> a <> b -> blake3 (account_key a) <> blake3 (account_key b).
Proof.
  intros Ha Hb Hne E. apply Hne, account_key_inj, HD; [exists a; auto|exists b; auto|done].
Qed.

Lemma validator_hash_ne a b : a ∈ D -> b ∈ D -> a <> b -> blake3 (validator_key a) <> blake3 (validator_key b).
Proof.
  intros Ha Hb Hne E. apply Hne, validator_key_inj, HD; [exists a; auto|exists b; auto|done].
Qed.

Lemma account_validator_hash_ne a b : a ∈ D -> b ∈ D -> blake3 (account_key a) <> blake3 (validator_key b).
Proof.
  intros Ha Hb E. apply (account_validator_key a b), HD; [exists a; auto|exists b; auto|done].
Qed.

Lemma scale_account_roundtrip x : account_valid x -> scale_decode_account (scale_encode_account x) = Ret x.
Proof.
  intros Hx. unfold scale_decode_account, scale_encode_account.
  by rewrite (decode_all_enc account_valid) by (apply sc_account_ok || done).
Qed.

Lemma get_set_account_eq sm a x : account_valid x -> get_account (set_account sm a x) a = Ret (Some x).
Proof.
  intros Hx. unfold get_account, set_account, set_state. simpl. rewrite smt_get_insert_eq.
  by rewrite scale_account_roundtrip.
Qed.

Lemma get_set_account_ne sm a x b : a ∈ D -> b ∈ D -> a <> b ->
  get_account (set_account sm a x) b = get_account sm b.
Proof.
  intros Ha Hb Hne. unfold get_account, set_account, set_state. simpl.
  by rewrite smt_get_insert_ne by by apply account_hash_ne.
Qed.

Lemma get_validator_set_account sm a x b : a ∈ D -> b ∈ D ->
  get_validator (set_account sm a x) b = get_validator sm b.
Proof.
  intros Ha Hb. unfold get_validator, set_account, set_state. simpl.
  by rewrite smt_get_insert_ne by by apply account_validator_hash_ne.
Qed.

Lemma get_set_validator_eq sm a e : entry_valid e -> get_validator (set_validator sm a e) a = Some e.
Proof.
  intros He. unfold get_validator, set_validator. simpl. rewrite smt_get_insert_eq. simpl.
  by rewrite (decode_all_enc entry_valid) by (apply sc_entry_ok || done).
Qed.

Lemma get_set_validator_ne sm a e b : a ∈ D -> b ∈ D -> a <> b ->
  get_validator (set_validator sm a e) b = get_validator sm b.
Proof.
  intros Ha Hb Hne. unfold get_validator, set_validator. simpl.
  by rewrite smt_get_insert_ne by by apply validator_hash_ne.
Qed.

Lemma get_account_set_validator sm a e b : a ∈ D -> b ∈ D ->
  get_account (set_validator sm a e) b = get_account sm b.
Proof.
  intros Ha Hb. unfold get_account, set_validator. simpl.
  rewrite smt_get_insert_ne; [done|]. intros E. symmetry in E. by apply account_validator_hash_ne in E.
Qed.

Lemma is_Some_insert_known {V} (m : gmap Address V) a x b :
  a ∈ D -> (forall c, is_Some (m !! c) -> c ∈ D) -> is_Some (<[a := x]> m !! b) -> b ∈ D.
Proof.
  intros Ha Hm. destruct (decide (a = b)) as [<-|Hne]; [done|]. rewrite lookup_insert_ne by done. apply Hm.
Qed.

Lemma refines_put_account sm L a x :
  refines D sm L -> a ∈ D -> account_valid x -> refines D (set_account sm a x) (put_account L a x).
Proof.
  intros R Ha Hx. split; simpl; try apply R.
  - intros b Hb. destruct (decide (a = b)) as [<-|Hne].
    + by rewrite get_set_account_eq, lookup_insert_eq.
    + rewrite get_set_account_ne, lookup_insert_ne by done. by apply R.
  - intros b Hb. rewrite get_validator_set_account by done. by apply R.
  - intros b. apply is_Some_insert_known; [done|apply R].
  - apply smt_insert_wf.
Qed.

Lemma refines_put_entry sm L a e :
  refines D sm L -> a ∈ D -> entry_valid e -> refines D (set_validator sm a e) (put_entry L a e).
Proof.
  intros R Ha He. split; simpl; try apply R.
  - intros b Hb. rewrite get_account_set_validator by done. by apply R.
  - intros b Hb. destruct (decide (a = b)) as [<-|Hne].
    + by rewrite get_set_validator_eq, lookup_insert_eq.
    + rewrite get_set_validator_ne, lookup_insert_ne by done. by apply R.
  - rewrite (rf_validators _ _ _ R). by rewrite dom_insert_L.
  - intros b. apply is_Some_insert_known; [done|apply R].
  - apply smt_insert_wf.
Qed.

Lemma refines_state_root sm L : refines D sm L ->
  exists sm', state_root sm = Ret (merkle_root (leaves (state sm')), sm') /\ refines D sm' L.
Proof.
  intros R. destruct (smt_root_spec (state sm) (rf_wf _ _ _ R)) as (t & E & Hl & Hwf).
  exists (set_state sm t). unfold state_root. rewrite E. simpl. rewrite Hl. split; [done|].
  pose proof (fun k => smt_get_root (state sm) _ t k E) as Hg.
  split; simpl; try apply R; [| |done].
  - intros a Ha. unfold get_account. simpl. rewrite Hg. apply (rf_account _ _ _ R a Ha).
  - intros a Ha. unfold get_validator. simpl. rewrite Hg. apply (rf_entry _ _ _ R a Ha).
Qed.

Lemma refines_new accts :
  Forall (fun p => p.1 ∈ D /\ account_valid p.2) accts ->
  refines D (StateMachine_new accts)
    (mkLedger (foldl (fun m p => <[p.1 := p.2]> m) ∅ accts) ∅ []).
Proof.
  intros Hf. unfold StateMachine_new.
  assert (forall sm L, refines D sm L -> refines D
    (mkStateMachine (foldl (fun st '(addr, acct) => smt_insert st (account_key addr) (scale_encode_account acct))
       (state sm) accts) (active_set sm) (validators sm))
    (mkLedger (foldl (fun m p => <[p.1 := p.2]> m) (accounts L) accts) (entries L) (active L))) as Hgen.
  { induction Hf as [|[a x] accts [Ha Hx] _ IH]; intros sm L R; simpl in *; [by destruct sm, L|].
    apply (IH (set_account sm a x) (put_account L a x)). by apply refines_put_account. }
  apply (Hgen (mkStateMachine smt_new [] ∅) (mkLedger ∅ ∅ [])).
  split; simpl; try done; try (intros a [? Hs]; by rewrite lookup_empty in Hs).
  all: intros a Ha; by apply elem_of_nil in Ha.
Qed.

(** ** Ranges *)

Lemma account_wf_valid x : account_wf x -> balance x < W256 -> account_valid x.
Proof. intros [? ?] ?. split; [|done]. word_lia. Qed.

Lemma entry_wf_valid e : entry_wf e -> ve_stake e < W256 -> entry_valid e.
Proof.
  intros (? & Hs & ?) ?. unfold entry_valid, is_u256. split; [lia|]. split; [|done].
  destruct (ve_status e); simpl; try done; unfold is_u256; destruct_and?; split_and?; done || lia.
Qed.

(** Writing a ledger whose value is in range writes valid records. *)
Lemma refines_put_account_value sm L a x :
  refines D sm L -> a ∈ D -> ledger_wf L -> account_wf x -> value (put_account L a x) < W256 ->
  refines D (set_account sm a x) (put_account L a x).
Proof.
  intros R Ha Hwf Hx Hv. apply refines_put_account; [done..|]. apply account_wf_valid; [done|].
  pose proof (balance_le_value (put_account L a x) a x (put_account_wf L a x Hwf Hx)
    (lookup_insert_eq _ _ _)). lia.
Qed.

Lemma refines_put_entry_value sm L a e :
  refines D sm L -> a ∈ D -> ledger_wf L -> entry_wf e -> ve_address e = a -> value (put_entry L a e) < W256 ->
  refines D (set_validator sm a e) (put_entry L a e).
Proof.
  intros R Ha Hwf He Hea Hv. apply refines_put_entry; [done..|]. apply entry_wf_valid; [done|].
  pose proof (stake_le_value (put_entry L a e) a e (put_entry_wf L a e Hwf He Hea)
    (lookup_insert_eq _ _ _)). lia.
Qed.

Lemma refines_credit sm L a x :
  refines D sm L -> a ∈ D -> ledger_wf L -> 0 <= x -> value L + x < W256 ->
  exists sm', credit_balance sm a x = Ret sm' /\ refines D sm' (credit L a x).
Proof.
  intros R Ha Hwf Hx Hv. unfold credit_balance. rewrite (rf_account _ _ _ R a Ha). simpl.
  change (default (Account_new 0) (accounts L !! a)) with (account_or_new L a).
  pose proof (account_or_new_le_value L a Hwf). pose proof (account_or_new_wf L a Hwf) as [Hb Hn].
  unfold u256_saturating_add. rewrite Z.min_l by word_lia.
  eexists. split; [done|]. apply refines_put_account_value; try done.
  - apply set_balance_wf; [done|lia].
  - pose proof (value_credit L a x) as Hc. unfold credit in Hc. lia.
Qed.

Lemma refines_set_active_set sm L s :
  refines D sm L -> Forall (fun a => a ∈ D) s ->
  refines D (set_active_set sm s) (mkLedger (accounts L) (entries L) s).
Proof. intros R Hs. split; simpl; try apply R; [done|]. by apply Forall_forall. Qed.

(** ** Handlers *)

Lemma debit_account_ok acct d :
  account_valid acct -> nonce acct < U64_MAX -> 0 <= d <= balance acct ->
  debit_account acct d = Ret (charge acct d).
Proof.
  intros [Hb Hn] Hm Hd. unfold debit_account. rewrite u256_sub_ok by word_lia. simpl.
  unfold increment_nonce. simpl. by rewrite u64_add_ok by word_lia.
Qed.

(** The contract of a handler: the outcome of the checks, and on acceptance a
    machine that refines the effect once the sender is written back. *)
Definition simulates (sm : StateMachine) (L : Ledger) (acct : Account) (tx : Transaction) (m : handler) : Prop :=
  exists sm' acct' r, m = Ret (sm', acct', r) /\
  match spec_error L acct tx with
  | None => r = Ok tt /\ refines D (set_account sm' (tx_sender tx) acct') (spec_effect L acct tx)
  | Some e => r = Err e /\ sm' = sm /\ acct' = (if late_error e then charge acct (debit tx) else acct)
  end.

Lemma simulates_fail sm L acct tx e :
  spec_error L acct tx = Some e -> late_error e = false -> simulates sm L acct tx (fail_with sm acct e).
Proof. intros He Hl. exists sm, acct, (Err e). rewrite He, Hl. done. Qed.

Lemma simulates_fail_late sm L acct tx e :
  spec_error L acct tx = Some e -> late_error e = true ->
  simulates sm L acct tx (fail_with sm (charge acct (debit tx)) e).
Proof. intros He Hl. exists sm, (charge acct (debit tx)), (Err e). rewrite He, Hl. done. Qed.

Lemma ltb_negb a b : (a <? b) = negb (b <=? a).
Proof. apply Z.ltb_antisym. Qed.

Lemma put_account_twice L a x y : put_account (put_account L a x) a y = put_account L a y.
Proof. unfold put_account. simpl. by rewrite insert_insert_eq. Qed.

Lemma put_account_comm L a b x y : a <> b ->
  put_account (put_account L a x) b y = put_account (put_account L b y) a x.
Proof. intros. unfold put_account. simpl. by rewrite insert_insert_ne. Qed.

Section Handlers.
Context (sm : StateMachine) (L : Ledger) (acct : Account) (tx : Transaction).
Context (R : refines D sm L) (Hwf : ledger_wf L) (Hval : 2 * value L < W256).
Context (Hacct : accounts L !! tx_sender tx = Some acct).
Context (Hknown : Forall (fun a => a ∈ D) (tx_addresses tx)).
Context (Hfits : tx_fits tx).

Local Lemma sender_known : tx_sender tx ∈ D.
Proof. exact (Forall_inv Hknown). Qed.

Local Lemma acct_valid : account_valid acct.
Proof.
  apply account_wf_valid; [exact (wf_accounts _ Hwf _ _ Hacct)|].
  pose proof (balance_le_value L _ _ Hwf Hacct). lia.
Qed.

Local Lemma acct_wf : account_wf acct.
Proof. exact (wf_accounts _ Hwf _ _ Hacct). Qed.

(** The sender can be charged whenever the checks pass. *)
Local Lemma charge_ok d : nonce acct = tx_nonce tx -> 0 <= d <= balance acct ->
  debit_account acct d = Ret (charge acct d) /\ account_wf (charge acct d) /\
  value (put_account L (tx_sender tx) (charge acct d)) = value L - d.
Proof.
  intros Hn Hd. destruct Hfits as (_ & _ & Hn' & _). split; [|split].
  - apply debit_account_ok; [apply acct_valid|lia|done].
  - apply (charge_wf acct tx); [apply acct_wf|done|lia|lia].
  - rewrite value_put_account, Hacct. simpl. lia.
Qed.

Local Lemma debit_pos : 0 <= debit tx < W256.
Proof. split; [by apply debit_nonneg|]. by destruct Hfits as (_ & _ & _ & ?). Qed.

(** Writing the charged sender back after a validator entry was written. *)
Local Lemma refines_entry_then_sender v e :
  nonce acct = tx_nonce tx -> debit tx <= balance acct -> v ∈ D ->
  entry_wf e -> ve_address e = v -> value (put_entry (put_account L (tx_sender tx) (charge acct (debit tx))) v e) < W256 ->
  refines D (set_account (set_validator sm v e) (tx_sender tx) (charge acct (debit tx)))
    (put_entry (put_account L (tx_sender tx) (charge acct (debit tx))) v e).
Proof.
  intros Hn Hb Hv He Hve Hval'. pose proof debit_pos as Hdeb.
  destruct (charge_ok (debit tx) Hn ltac:(lia)) as (_ & Hcw & Hcv).
  change (put_entry (put_account L (tx_sender tx) (charge acct (debit tx))) v e)
    with (put_account (put_entry L v e) (tx_sender tx) (charge acct (debit tx))) in *.
  assert (ledger_wf (put_entry L v e)) as Hwf' by by apply put_entry_wf.
  apply refines_put_account_value; [ |apply sender_known|done..].
  apply refines_put_entry; [done..|]. apply entry_wf_valid; [done|].
  pose proof (stake_le_value (put_account (put_entry L v e) (tx_sender tx) (charge acct (debit tx))) v e
    (put_account_wf _ _ _ Hwf' Hcw) (lookup_insert_eq _ _ _)). lia.
Qed.

Local Lemma simulates_ok m sm' acct' :
  m = Ret (sm', acct', Ok tt) -> spec_error L acct tx = None ->
  refines D (set_account sm' (tx_sender tx) acct') (spec_effect L acct tx) ->
  simulates sm L acct tx m.
Proof. intros -> He Hr. exists sm', acct', (Ok tt). rewrite He. done. Qed.

Local Lemma effect_value : spec_error L acct tx = None -> value (spec_effect L acct tx) <= value L.
Proof.
  intros He. pose proof (value_effect L acct tx Hacct He) as Hv.
  assert (0 < ANTI_SPAM_DEPOSIT) by done. destruct Hfits as (Ha & Hf & _).
  destruct (tx_body tx); simpl in Ha; try case_decide; lia.
Qed.

(** Moving an amount: [try_transfer]. *)
Local Lemma transfer_refines r a :
  r ∈ D -> 0 <= a -> debit tx = a + tx_fee tx ->
  spec_error L acct tx = first_error
    [(nonce acct =? tx_nonce tx, InvalidNonce (nonce acct) (tx_nonce tx));
     (debit tx <=? balance acct, InsufficientBalance (balance acct) (debit tx))] ->
  spec_effect L acct tx = pay_to (put_account L (tx_sender tx) (charge acct (debit tx))) (tx_sender tx) r a ->
  simulates sm L acct tx (try_transfer sm acct r a (tx_fee tx) (tx_nonce tx)).
Proof.
  intros Hr Ha Hd He Heff. pose proof debit_pos as Hdeb. pose proof sender_known as Hs.
  unfold try_transfer. destruct (nonce acct =? tx_nonce tx) eqn:Hn; simpl in *; [|by apply simulates_fail].
  rewrite u256_add_ok, <- Hd by lia. simpl. rewrite ltb_negb.
  destruct (debit tx <=? balance acct) eqn:Hb; simpl in *; [|by apply simulates_fail]. zbool.
  destruct (charge_ok (debit tx) Hn ltac:(lia)) as (-> & Hcw & Hcv). simpl.
  rewrite (rf_account _ _ _ R r Hr). simpl.
  change (default (Account_new 0) (accounts L !! r)) with (account_or_new L r).
  pose proof (account_or_new_wf L r Hwf) as Hrw. pose proof Hrw as [Hr0 _].
  pose proof (account_or_new_le_value L r Hwf). pose proof (balance_le_value L _ _ Hwf Hacct).
  destruct Hfits as (_ & Hfee & _).
  rewrite u256_add_ok by lia. simpl. eapply simulates_ok; [done|done|]. rewrite Heff. unfold pay_to.
  set (x := set_balance (account_or_new L r) (balance (account_or_new L r) + a)).
  assert (account_wf x) as Hx by (apply set_balance_wf; [done|lia]).
  assert (refines D (set_account sm r x) (put_account L r x)) as R1.
  { apply refines_put_account; [done..|]. apply account_wf_valid; [done|]. simpl. lia. }
  pose proof (refines_put_account _ _ _ (charge acct (debit tx)) R1 Hs
    ltac:(apply account_wf_valid; [done|simpl; lia])) as R2.
  case_decide as Hrs.
  - subst r. by rewrite put_account_twice in R2.
  - rewrite put_account_comm in R2 by done. unfold credit, account_or_new at 1 2. simpl.
    by rewrite lookup_insert_ne by done.
Qed.

(** Case analysis on the next test of the code and the matching check. *)
Local Ltac check b :=
  let E := fresh "Hc" in destruct b eqn:E; simpl in *; [|by apply simulates_fail].

Local Lemma register_refines k :
  tx_body tx = RegisterValidator k ->
  simulates sm L acct tx (apply_register_validator sm acct (tx_sender tx) k (tx_fee tx) (tx_nonce tx)).
Proof.
  intros Hb. pose proof debit_pos as Hdeb. pose proof sender_known as Hs.
  assert (spec_error L acct tx = first_error
    [(bool_decide (entries L !! tx_sender tx = None), Consensus "already registered"%string);
     (nonce acct =? tx_nonce tx, InvalidNonce (nonce acct) (tx_nonce tx));
     (debit tx <=? balance acct, InsufficientBalance (balance acct) (debit tx))]) as He
    by (unfold spec_error; by rewrite Hb).
  assert (debit tx = tx_fee tx + ANTI_SPAM_DEPOSIT) as Hd by (unfold debit; by rewrite Hb).
  unfold apply_register_validator. rewrite (rf_entry _ _ _ R _ Hs).
  destruct (entries L !! tx_sender tx) as [e|] eqn:Ee; simpl in *; [by apply simulates_fail|].
  check (nonce acct =? tx_nonce tx). rewrite u256_add_ok, <- Hd by lia. simpl. rewrite ltb_negb.
  check (debit tx <=? balance acct). zbool.
  destruct (charge_ok (debit tx) Hc ltac:(lia)) as (-> & Hcw & Hcv). simpl.
  assert (spec_effect L acct tx = put_entry (put_account L (tx_sender tx) (charge acct (debit tx)))
    (tx_sender tx) (mkValidatorEntry (tx_sender tx) k 0 Registered 0)) as Heff
    by (unfold spec_effect; by rewrite Hb).
  eapply simulates_ok; [done|done|]. pose proof (effect_value He) as Hv. rewrite Heff in *.
  apply refines_entry_then_sender; try done. lia.
Qed.

Local Lemma register_and_stake_refines v a :
  tx_body tx = RegisterAndStake v a ->
  simulates sm L acct tx (apply_register_and_stake sm acct (tx_sender tx) v a (tx_fee tx) (tx_nonce tx)).
Proof.
  intros Hb. pose proof debit_pos as Hdeb. pose proof sender_known as Hs.
  assert (spec_error L acct tx = first_error
    [(bool_decide (v = tx_sender tx), Consensus "register-and-stake validator must equal sender"%string);
     (nonce acct =? tx_nonce tx, InvalidNonce (nonce acct) (tx_nonce tx));
     (bool_decide (entries L !! tx_sender tx = None), Consensus "already registered"%string);
     (negb (a =? 0), Consensus "stake amount must be > 0"%string);
     (debit tx <=? balance acct, InsufficientBalance (balance acct) (debit tx))]) as He
    by (unfold spec_error; by rewrite Hb).
  assert (debit tx = tx_fee tx + ANTI_SPAM_DEPOSIT + a) as Hd by (unfold debit; by rewrite Hb).
  assert (0 < ANTI_SPAM_DEPOSIT) as Hds by done.
  assert (0 <= a /\ 0 <= tx_fee tx) as [Ha Hf]
    by (destruct Hfits as (Ha & Hf & _); rewrite Hb in Ha; simpl in Ha; lia).
  unfold apply_register_and_stake. check (bool_decide (v = tx_sender tx)). check (nonce acct =? tx_nonce tx).
  rewrite (rf_entry _ _ _ R _ Hs).
  destruct (entries L !! tx_sender tx) as [e|] eqn:Ee; simpl in *; [by apply simulates_fail|].
  destruct (a =? 0) eqn:Ha0; simpl in *; [by apply simulates_fail|].
  rewrite u256_add_ok by lia. simpl. rewrite u256_add_ok, <- Hd by lia. simpl. rewrite ltb_negb.
  check (debit tx <=? balance acct). zbool.
  destruct (charge_ok (debit tx) ltac:(done) ltac:(lia)) as (-> & Hcw & Hcv). simpl.
  assert (spec_effect L acct tx = put_entry (put_account L (tx_sender tx) (charge acct (debit tx)))
    (tx_sender tx) (mkValidatorEntry (tx_sender tx) (array_repeat 897 x00) a (Staked a) 0)) as Heff
    by (unfold spec_effect; by rewrite Hb).
  eapply simulates_ok; [done|done|]. pose proof (effect_value He) as Hv. rewrite Heff in *.
  apply refines_entry_then_sender; try done; lia.
Qed.

Local Lemma stake_refines v a :
  tx_body tx = Stake v a ->
  simulates sm L acct tx (apply_stake sm acct (tx_sender tx) v a (tx_fee tx) (tx_nonce tx)).
Proof.
  intros Hb. pose proof debit_pos as Hdeb. pose proof sender_known as Hs.
  assert (v ∈ D) as Hv.
  { unfold tx_addresses in Hknown. rewrite Hb in Hknown.
    exact (Forall_inv (Forall_inv_tail Hknown)). }
  assert (spec_error L acct tx = match entries L !! v with
      | None => first_error [(nonce acct =? tx_nonce tx, InvalidNonce (nonce acct) (tx_nonce tx));
          (false, ValidatorNotFound (mkHexBytes (as_bytes v)))]
      | Some e => first_error [(nonce acct =? tx_nonce tx, InvalidNonce (nonce acct) (tx_nonce tx));
          (negb (frozen_or_unstaking (ve_status e)), Consensus "validator is frozen or unstaking"%string);
          (negb (a =? 0), Consensus "stake amount must be > 0"%string);
          (debit tx <=? balance acct, InsufficientBalance (balance acct) (debit tx));
          (ve_stake e + a <? W256, Consensus "stake overflow"%string)]
      end) as He by (unfold spec_error; by rewrite Hb).
  assert (debit tx = tx_fee tx + a) as Hd by (unfold debit; by rewrite Hb).
  assert (0 <= a) as Ha by (destruct Hfits as (Ha & _); by rewrite Hb in Ha).
  unfold apply_stake. rewrite (rf_entry _ _ _ R _ Hv).
  destruct (entries L !! v) as [e|] eqn:Ee; [|check (nonce acct =? tx_nonce tx); by apply simulates_fail].
  check (nonce acct =? tx_nonce tx).
  destruct (frozen_or_unstaking (ve_status e)) eqn:Hst; simpl in *; [by apply simulates_fail|].
  destruct (a =? 0) eqn:Ha0; simpl in *; [by apply simulates_fail|].
  rewrite u256_add_ok, <- Hd by lia. simpl. rewrite ltb_negb.
  check (debit tx <=? balance acct).
  destruct (charge_ok (debit tx) ltac:(zbool; done) ltac:(zbool; lia)) as (-> & Hcw & Hcv). simpl.
  unfold u256_checked_add. destruct (ve_stake e + a <? W256) eqn:Hov; [|by apply simulates_fail_late].
  zbool. destruct (wf_entries _ Hwf v e Ee) as [Hew Hea].
  assert (spec_effect L acct tx = put_entry (put_account L (tx_sender tx) (charge acct (debit tx)))
    v (staked_more e a)) as Heff
    by (unfold spec_effect; rewrite Hb; simpl; by rewrite Ee).
  eapply simulates_ok; [done|done|]. pose proof (effect_value He) as Hval2. rewrite Heff in *.
  apply refines_entry_then_sender; try done; [by apply staked_more_wf|lia].
Qed.

Local Lemma unstake_refines v a :
  tx_body tx = Unstake v a ->
  simulates sm L acct tx (apply_unstake sm acct (tx_sender tx) v a (tx_fee tx) (tx_nonce tx) 0).
Proof.
  intros Hb. pose proof debit_pos as Hdeb. pose proof sender_known as Hs.
  assert (v ∈ D) as Hv.
  { unfold tx_addresses in Hknown. rewrite Hb in Hknown.
    exact (Forall_inv (Forall_inv_tail Hknown)). }
  assert (spec_error L acct tx = match entries L !! v with
      | None => first_error [(nonce acct =? tx_nonce tx, InvalidNonce (nonce acct) (tx_nonce tx));
          (false, ValidatorNotFound (mkHexBytes (as_bytes v)))]
      | Some e => first_error [(nonce acct =? tx_nonce tx, InvalidNonce (nonce acct) (tx_nonce tx));
          (negb (is_frozen (ve_status e)), Consensus "validator is frozen"%string);
          (negb (a =? 0), Consensus "unstake amount must be > 0"%string);
          (a <=? ve_stake e, Consensus "unstake amount exceeds validator stake"%string);
          (debit tx <=? balance acct, InsufficientBalance (balance acct) (debit tx));
          (pending e + a <? W256, Consensus "unstake overflow"%string);
          (pending e + a <=? ve_stake e, Consensus "cumulative unstake exceeds validator stake"%string)]
      end) as He by (unfold spec_error; by rewrite Hb).
  assert (debit tx = tx_fee tx) as Hd by (unfold debit; by rewrite Hb).
  assert (0 <= a) as Ha by (destruct Hfits as (Ha & _); by rewrite Hb in Ha).
  unfold apply_unstake. rewrite (rf_entry _ _ _ R _ Hv).
  destruct (entries L !! v) as [e|] eqn:Ee; [|check (nonce acct =? tx_nonce tx); by apply simulates_fail].
  check (nonce acct =? tx_nonce tx).
  change (match ve_status e with Frozen _ => true | _ => false end) with (is_frozen (ve_status e)).
  destruct (is_frozen (ve_status e)) eqn:Hst; simpl in *; [by apply simulates_fail|].
  destruct (a =? 0) eqn:Ha0; simpl in *; [by apply simulates_fail|].
  rewrite ltb_negb. check (a <=? ve_stake e). rewrite ltb_negb, <- Hd. check (debit tx <=? balance acct).
  destruct (charge_ok (debit tx) ltac:(zbool; done) ltac:(zbool; lia)) as (-> & Hcw & Hcv). simpl.
  destruct (wf_entries _ Hwf v e Ee) as [Hew Hea].
  assert (spec_effect L acct tx = put_entry (put_account L (tx_sender tx) (charge acct (debit tx)))
    v (unstaking_more e a)) as Heff
    by (unfold spec_effect; rewrite Hb; simpl; by rewrite Ee).
  pose proof (stake_le_value L v e Hwf Ee) as Hse.
  assert (spec_error L acct tx = None -> pending e + a <= ve_stake e ->
    simulates sm L acct tx (Ret (set_validator sm v (unstaking_more e a), charge acct (debit tx), Ok tt))) as Hfin.
  { intros Hok Hp. eapply simulates_ok; [done|done|]. pose proof (effect_value Hok) as Hval2.
    rewrite Heff in *. zbool. apply refines_entry_then_sender; try done; [|lia]. by apply unstaking_more_wf. }
  unfold unstaking_more, pending in *. destruct (ve_status e) as [|s| |r x|u|] eqn:Est; simpl in *; try done.
  1-3,5: rewrite ?Z.add_0_l in *; zbool; rewrite (proj2 (Z.ltb_lt _ _)), (proj2 (Z.leb_le _ _)) in He by lia;
    by apply Hfin.
  unfold u256_checked_add. destruct (x + a <? W256) eqn:Hov; simpl in *; [|by apply simulates_fail_late].
  rewrite ltb_negb. destruct (x + a <=? ve_stake e) eqn:Hcum; simpl in *; [|by apply simulates_fail_late].
  zbool. by apply Hfin.
Qed.

Local Lemma stub_refines :
  debit tx = tx_fee tx ->
  spec_error L acct tx = first_error
    [(nonce acct =? tx_nonce tx, InvalidNonce (nonce acct) (tx_nonce tx));
     (debit tx <=? balance acct, InsufficientBalance (balance acct) (debit tx))] ->
  spec_effect L acct tx = put_account L (tx_sender tx) (charge acct (debit tx)) ->
  simulates sm L acct tx (governance_stub sm acct (tx_fee tx) (tx_nonce tx)).
Proof.
  intros Hd He Heff. pose proof debit_pos as Hdeb. pose proof sender_known as Hs.
  unfold governance_stub. check (nonce acct =? tx_nonce tx). rewrite ltb_negb, <- Hd.
  check (debit tx <=? balance acct). zbool.
  destruct (charge_ok (debit tx) Hc ltac:(lia)) as (Hch & Hcw & Hcv).
  unfold debit_account in Hch. rewrite u256_sub_ok in Hch by (pose proof acct_valid as [? ?]; word_lia).
  simpl in Hch. unfold u256_saturating_sub. rewrite Z.max_r by lia. rewrite Hch. simpl.
  eapply simulates_ok; [done|done|]. rewrite Heff. apply refines_put_account_value; try done. lia.
Qed.

(** The dispatch of [apply_block]. *)
Lemma execute_simulates : simulates sm L acct tx (execute sm acct tx).
Proof.
  pose proof Hfits as (Ha & _). pose proof Hknown as Hk. unfold tx_addresses in Hk. unfold execute.
  destruct (tx_body tx) as [r a|k|v a|v a|v a|t a|i t d l|i b|i] eqn:Hb; simpl in Ha.
  - apply transfer_refines; [exact (Forall_inv (Forall_inv_tail Hk))|done| | |];
      unfold spec_error, spec_effect, debit; by rewrite Hb.
  - by apply register_refines.
  - by apply stake_refines.
  - by apply register_and_stake_refines.
  - by apply unstake_refines.
  - apply transfer_refines; [exact (Forall_inv (Forall_inv_tail Hk))|done| | |];
      unfold spec_error, spec_effect, debit; by rewrite Hb.
  - apply stub_refines; unfold spec_error, spec_effect, debit; by rewrite Hb.
  - apply stub_refines; unfold spec_error, spec_effect, debit; by rewrite Hb.
  - apply stub_refines; unfold spec_error, spec_effect, debit; by rewrite Hb.
Qed.
End Handlers.

(** ** The transaction loop *)

Definition exec_refines (s : Exec) (b : BlockStep) : Prop :=
  refines D (ex_machine s) (bs_ledger b) /\ ex_fees s = bs_fees b /\
  ex_count s = bs_applied b /\ ex_failed s = bs_failed b.

Lemma fee_as_u128_small f : 0 <= f < W128 -> fee_as_u128 f = f.
Proof. intros. unfold fee_as_u128, u256_low_u128. rewrite Z.min_l by word_lia. by apply Z.mod_small. Qed.

Lemma count_failed_ok s : 0 <= ex_failed s < W32 - 1 ->
  count_failed s = Ret (mkExec (ex_machine s) (ex_fees s) (ex_count s) (ex_failed s + 1)).
Proof. intros. unfold count_failed. by rewrite u32_add_ok by lia. Qed.

(** The room left in the counters of the loop. *)
Definition exec_room (b : BlockStep) (fees txs : Z) : Prop :=
  0 <= bs_fees b /\ bs_fees b + fees < W128 /\
  0 <= bs_applied b /\ 0 <= bs_failed b /\ bs_applied b + bs_failed b + txs < W32.

Lemma apply_tx_refines c s b tx :
  exec_refines s b -> ledger_wf (bs_ledger b) -> 2 * value (bs_ledger b) < W256 ->
  Forall (fun a => a ∈ D) (tx_addresses tx) -> tx_fits tx -> exec_room b (tx_fee tx) 1 ->
  exists s', apply_tx c s tx = Ret s' /\ exec_refines s' (spec_txs_step c b tx).
Proof.
  intros (R & Ef & Ec & En) Hwf Hval Hk Hfits (Hr1 & Hr2 & Hr3 & Hr4 & Hr5).
  pose proof Hfits as (_ & Hfee & _).
  unfold apply_tx, spec_txs_step, spec_tx, exec_refines. simpl.
  destruct (negb _); simpl. { rewrite count_failed_ok by (simpl; lia). eexists. split; [done|]. simpl. split_and!; [done|lia..]. }
  rewrite (rf_account _ _ _ R) by exact (Forall_inv Hk). simpl.
  destruct (accounts (bs_ledger b) !! tx_sender tx) as [acct|] eqn:Ha; simpl.
  2:{ rewrite count_failed_ok by (simpl; lia). eexists. split; [done|]. simpl. split_and!; [done|lia..]. }
  destruct (execute_simulates _ _ acct tx R Hwf Hval Ha Hk Hfits) as (sm' & acct' & r & -> & Hs). simpl.
  destruct (spec_error (bs_ledger b) acct tx) as [e|] eqn:He.
  - destruct Hs as (-> & -> & ->). simpl. unfold spec_reject.
    pose proof (reject_wf (bs_ledger b) acct tx e Hwf Ha Hfits He) as Hrw.
    pose proof (value_reject (bs_ledger b) acct tx e Ha) as Hrv. unfold spec_reject in *. cbv zeta in Hrw, Hrv |- *.
    set (acct' := if late_error e then charge acct (debit tx) else acct) in *.
    assert (0 <= (if late_error e && (tx_fee tx <=? balance acct - debit tx) then debit tx else 0)) as Hd0.
    { pose proof (debit_nonneg tx Hfits). by destruct (_ && _). }
    revert Hrv Hd0. generalize (if late_error e && (tx_fee tx <=? balance acct - debit tx) then debit tx else 0).
    intros lost Hrv Hd0. clearbody acct'. destruct (tx_fee tx <=? balance acct') eqn:Hle; zbool; simpl.
    2:{ rewrite count_failed_ok by (simpl; lia). eexists. split; [done|]. simpl. split_and!; [done|lia..]. }
    pose proof (wf_accounts _ Hrw _ _ (lookup_insert_eq _ _ _)) as [Hb0 Hn0].
    pose proof (balance_le_value _ _ _ Hrw (lookup_insert_eq _ _ _)) as Hbv. simpl in Hbv, Hb0, Hrv.
    rewrite u256_sub_ok by lia. simpl.
    rewrite fee_as_u128_small, u128_add_ok by lia. simpl. rewrite count_failed_ok by (simpl; lia).
    eexists. split; [done|]. simpl. split_and!; try lia.
    apply refines_put_account; [done|exact (Forall_inv Hk)|]. apply account_wf_valid; [by split|simpl; lia].
  - destruct Hs as (-> & Hs). simpl. rewrite fee_as_u128_small, u128_add_ok by lia. simpl.
    rewrite u32_add_ok by lia. simpl. eexists. split; [done|]. simpl. split_and!; [done|lia..].
Qed.

Lemma apply_txs_refine c txs s b :
  exec_refines s b -> ledger_wf (bs_ledger b) -> 2 * value (bs_ledger b) < W256 ->
  Forall (fun tx => Forall (fun a => a ∈ D) (tx_addresses tx)) txs -> Forall tx_fits txs ->
  exec_room b (sumZ tx_fee txs) (Z.of_nat (length txs)) ->
  exists s', foldM (apply_tx c) s txs = Ret s' /\ exec_refines s' (foldl (spec_txs_step c) b txs).
Proof.
  intros R Hwf Hval Hk Hf. revert s b R Hwf Hval Hk. induction Hf as [|tx txs Hfit Hf IH]; intros s b R Hwf Hval Hk Hroom.
  { exists s. done. }
  pose proof (fees_nonneg txs Hf) as Hsum.
  pose proof (st_fee_range c (bs_ledger b) tx Hfit) as Hfr.
  destruct (apply_tx_refines c s b tx R Hwf Hval) as (s1 & E1 & R1);
    [exact (Forall_inv Hk)|done|unfold exec_room in *; simpl in Hroom; lia|].
  simpl. rewrite E1. simpl. apply IH; [done| | |exact (Forall_inv_tail Hk)|].
  - by apply spec_tx_wf.
  - simpl. pose proof (value_spec_tx c (bs_ledger b) tx). pose proof (destroyed_nonneg c (bs_ledger b) tx Hfit). lia.
  - unfold exec_room in *. simpl in *. destruct (st_applied _); lia.
Qed.

(** ** Fee distribution *)

Lemma stake_pairs_refines sm L :
  refines D sm L -> ledger_wf L -> NoDup (active L) -> value L < W256 ->
  stake_pairs sm = (sumZ fst (active_stakes L), active_stakes L).
Proof.
  intros R Hwf Hn Hv. pose proof (active_stakes_le_value L Hwf Hn) as Hle.
  pose proof (active_stakes_nonneg L Hwf) as Hnn.
  unfold stake_pairs, active_stakes in *. rewrite (rf_active _ _ _ R).
  assert (forall a, a ∈ active L -> a ∈ D) as Hk by apply R. revert Hk Hle Hnn. clear Hn.
  induction (active L) as [|a l IH] using rev_ind; intros Hk Hle Hnn; [done|].
  rewrite omap_app, sumZ_app in Hle. rewrite omap_app in Hnn. simpl in Hle, Hnn.
  assert (a ∈ l ++ [a]) as Ha by (apply elem_of_app; right; by apply list_elem_of_singleton).
  rewrite foldl_app, omap_app, sumZ_app.
  assert (0 <= sumZ fst (match (fun s => (s, a)) <$> stake_of L a with Some b => [b] | None => [] end)) as Hlast.
  { apply sumZ_nonneg. intros p Hp. apply Hnn. apply elem_of_app. by right. }
  rewrite IH.
  - simpl. rewrite (rf_entry _ _ _ R a) by auto. unfold stake_of in *.
    destruct (entries L !! a) as [e|] eqn:Ee; simpl in *; [|by rewrite Z.add_0_r, app_nil_r].
    unfold u256_saturating_add. rewrite Z.min_l by word_lia. by rewrite Z.add_0_r.
  - intros b Hb. apply Hk. apply elem_of_app. by left.
  - lia.
  - intros p Hp. apply Hnn. apply elem_of_app. by left.
Qed.

Lemma payout_active L p : active (payout L p) = active L.
Proof. unfold payout. by destruct (_ =? 0). Qed.

Lemma pay_shares_refine F T ps sm L d :
  refines D sm L -> ledger_wf L -> 0 < T -> 0 <= F -> 0 <= d ->
  (forall p, p ∈ ps -> 0 <= p.1 /\ F * p.1 < W256 /\ p.2 ∈ D) ->
  value L + sumZ (share_of F T) ps < W256 -> d + sumZ (share_of F T) ps < W256 ->
  exists sm', foldM (pay_share F T) (sm, d) ps = Ret (sm', d + sumZ (share_of F T) ps) /\
    refines D sm' (foldl payout L (map (fun p => (p.2, share_of F T p)) ps)).
Proof.
  intros R Hwf HT HF. revert sm L d R Hwf. induction ps as [|[s a] ps IH]; intros sm L d R Hwf Hd Hps Hv Hdv.
  { simpl. rewrite Z.add_0_r. eauto. }
  destruct (Hps (s, a) ltac:(left)) as (Hs & Hm & Ha). simpl in Hs, Hm, Ha.
  assert (0 <= share_of F T (s, a)) as Hsh by (apply Z.div_pos; simpl; nia).
  assert (0 <= sumZ (share_of F T) ps) as Hrest.
  { apply sumZ_nonneg. intros p Hp. destruct (Hps p ltac:(by right)) as (? & _). apply Z.div_pos; nia. }
  simpl in Hv, Hdv. cbn [foldM]. unfold pay_share at 2. cbv beta iota.
  rewrite u256_mul_ok by nia. cbn [mbind outcome_bind]. rewrite u256_div_ok by lia. cbn [mbind outcome_bind].
  change (F * s / T) with (share_of F T (s, a)). simpl. unfold payout at 2. simpl.
  destruct (share_of F T (s, a) =? 0) eqn:E0; zbool; cbn [mbind outcome_bind].
  - destruct (IH sm L d R Hwf Hd) as (sm' & E & R'); [intros; apply Hps; by right|lia|lia|].
    rewrite E. exists sm'. split; [|done]. do 2 f_equal. lia.
  - destruct (refines_credit sm L a (share_of F T (s, a)) R Ha Hwf Hsh) as (sm1 & -> & R1); [lia|]. simpl.
    unfold u256_saturating_add. rewrite Z.min_l by word_lia.
    destruct (IH sm1 (credit L a (share_of F T (s, a))) (d + share_of F T (s, a)) R1) as (sm' & E & R');
      [by apply credit_wf|lia|intros; apply Hps; by right|rewrite value_credit; lia|lia|].
    rewrite E. exists sm'. split; [|done]. do 2 f_equal. lia.
Qed.

Lemma distribute_refines sm L F :
  refines D sm L -> ledger_wf L -> NoDup (active L) -> 0 <= F -> value L + F < W256 -> F * value L < W256 ->
  exists sm', distribute_fees sm F = Ret sm' /\ refines D sm' (spec_distribute L F).
Proof.
  intros R Hwf Hn HF Hv Hm. unfold distribute_fees.
  destruct (F =? 0) eqn:E0; zbool; simpl. { subst. rewrite spec_distribute_zero. eauto. }
  case_bool_decide as Hact.
  { exists sm. split; [done|]. rewrite (rf_active _ _ _ R) in Hact.
    unfold spec_distribute, active_stakes. by rewrite Hact. }
  rewrite (stake_pairs_refines sm L) by (done || lia). unfold spec_distribute.
  destruct (sumZ fst (active_stakes L) =? 0) eqn:ET; [eauto|]. zbool.
  pose proof (active_stakes_sum_pos L Hwf ET) as HT.
  pose proof (shares_le F (sort_by fee_cmp (active_stakes L))) as Hsh. rewrite sorted_stakes_sum in Hsh.
  specialize (Hsh HT). pose proof (value_nonneg L Hwf) as Hv0. set (T := sumZ fst (active_stakes L)) in *.
  assert (forall p, p ∈ sort_by fee_cmp (active_stakes L) -> 0 <= p.1 /\ F * p.1 < W256 /\ p.2 ∈ D) as Hps.
  { intros [s a] Hp. apply sort_by_elem, list_elem_of_omap in Hp as (b & Hb & Eb). unfold stake_of in Eb.
    destruct (entries L !! b) as [e|] eqn:Ee; simpl in Eb; [|done]. injection Eb as <- <-. simpl.
    pose proof (stake_le_value L b e Hwf Ee). split; [lia|]. split; [nia|]. by apply R. }
  destruct (pay_shares_refine F T (sort_by fee_cmp (active_stakes L)) sm L 0) as (sm' & -> & R');
    [done..|lia|lia|]. cbn [mbind outcome_bind].
  unfold payouts. rewrite sorted_stakes_sum. fold T.
  destruct (sort_by fee_cmp (active_stakes L)) as [|[s a] ps] eqn:Es.
  { pose proof (sort_by_perm fee_cmp (active_stakes L)) as Hp. rewrite Es in Hp.
    apply Permutation_nil in Hp. unfold T in ET. by rewrite Hp in ET. }
  rewrite foldl_app, sumZ_payout_shares. set (S0 := sumZ (share_of F T) ((s, a) :: ps)) in *.
  set (L' := foldl payout L (map (fun p => (p.2, share_of F T p)) ((s, a) :: ps))) in *.
  assert (value L' = value L + S0) as HvL'.
  { unfold L'. by rewrite value_payouts, sumZ_payout_shares. }
  assert (ledger_wf L') as Hwf'.
  { apply payouts_wf; [|done]. intros p Hp. apply list_elem_of_fmap in Hp as (q & -> & Hq). simpl.
    destruct (Hps q Hq) as (? & _). apply Z.div_pos; nia. }
  cbn [foldl]. rewrite Z.add_0_l. unfold payout. cbn [fst snd].
  destruct (S0 <? F) eqn:Elt; zbool.
  - rewrite (proj2 (Z.eqb_neq _ _)) by lia.
    assert (0 <= S0) as HS0.
    { apply sumZ_nonneg. intros q Hq. destruct (Hps q Hq) as (? & _). apply Z.div_pos; nia. }
    rewrite u256_sub_ok by lia. cbn [mbind outcome_bind].
    apply refines_credit; [done| |done|lia|lia]. by destruct (Hps (s, a) ltac:(left)) as (_ & _ & ?).
  - rewrite (proj2 (Z.eqb_eq _ _)) by lia. eauto.
Qed.

(** ** Blocks *)

(** What makes a block fit the machine integers on a given ledger. *)
Record block_fits (L : Ledger) (b : Block) : Prop := {
  bf_known : Forall (fun tx => Forall (fun a => a ∈ D) (tx_addresses tx)) (transactions (blk_body b));
  bf_txs : Forall tx_fits (transactions (blk_body b));
  bf_count : Z.of_nat (length (transactions (blk_body b))) < W32;
  bf_fees : sumZ tx_fee (transactions (blk_body b)) < W128;
  bf_value : 2 * value L < W256;
  bf_product : sumZ tx_fee (transactions (blk_body b)) * value L < W256
}.

Lemma apply_block_simulates sm L b :
  refines D sm L -> ledger_wf L -> NoDup (active L) -> block_fits L b ->
  exists sm', apply_block sm b = Ret (sm', Ok (mkReceipt (bs_fees (spec_block L b)) (bs_applied (spec_block L b))
      (bs_failed (spec_block L b)) (merkle_root (leaves (state sm'))))) /\
    refines D sm' (bs_ledger (spec_block L b)).
Proof.
  intros R Hwf Hn [Hk Hf Hcnt Hfees Hval Hprod]. unfold apply_block, spec_block.
  set (c := hdr_chain_id (blk_header b)). set (txs := transactions (blk_body b)) in *.
  destruct (apply_txs_refine c txs (mkExec sm 0 0 0) (mkBlockStep L 0 0 0)) as (s & -> & Rs & Ef & Ec & En);
    [done..|unfold exec_room; simpl; lia|].
  cbn [mbind outcome_bind]. rewrite Ef, Ec, En. fold (spec_txs c L txs) in *.
  pose proof (value_spec_txs c L txs) as Hv. pose proof (destroyed_txs_nonneg c txs L Hf) as Hd.
  pose proof (spec_txs_fees c L txs Hf) as Hfe. pose proof (spec_txs_wf c L txs Hwf Hf) as Hwf'.
  pose proof (fees_nonneg txs Hf) as Hf0. pose proof (value_nonneg _ Hwf') as Hv0.
  destruct (distribute_refines (ex_machine s) (bs_ledger (spec_txs c L txs)) (bs_fees (spec_txs c L txs)))
    as (sm1 & -> & R1); [done|done|by rewrite spec_txs_active|lia|lia|nia|].
  cbn [mbind outcome_bind]. destruct (refines_state_root sm1 _ R1) as (sm2 & -> & R2). simpl. eauto.
Qed.
End Store.
End Refine.
