(* ===== verification/Epoch.v ===== *)
(** * Era-boundary operations of the state machine

    Unstaking release, thawing, election and slashing of [core/state.rs]: their
    effects on the abstract ledger and the proof that the machine has them. *)
From Stdlib Require Import Strings.Byte Strings.String.
From stdpp Require Import base gmap sets list strings countable sorting.
From Stdlib Require Import ZArith Lia.
From S2P Require Import Prelude Types External Toy Trie Account State Ledger Refine.

(** ** Specification *)

(** The entry left when a pending withdrawal completes. *)
Definition released (e : ValidatorEntry) (x : Z) : ValidatorEntry :=
  let s := Z.max 0 (ve_stake e - x) in
  ve_update e s (if MIN_STAKE <=? s then Staked s else Registered).

Definition spec_release (L : Ledger) (v : Address) (era : Z) : Ledger :=
  match entries L !! v with
  | Some e =>
      match ve_status e with
      | Unstaking r x => if r <=? era then put_entry L v (released e x) else L
      | _ => L
      end
  | None => L
  end.

Definition due_to_thaw (L : Ledger) (v : Address) (era : Z) : bool :=
  match entries L !! v with
  | Some e => match ve_status e with Frozen u => u <=? era | _ => false end
  | None => false
  end.

Definition thawed (e : ValidatorEntry) : ValidatorEntry :=
  ve_update e (ve_stake e) (if MIN_STAKE <=? ve_stake e then Thawed else Registered).

Definition spec_thaw (L : Ledger) (v : Address) (era : Z) : Ledger :=
  if due_to_thaw L v era then from_option (fun e => put_entry L v (thawed e)) L (entries L !! v) else L.

(** Candidates with an entry that is neither frozen nor unstaking. *)
Definition eligible (L : Ledger) (candidates : list Address) : list ValidatorEntry :=
  omap (fun a => e ← entries L !! a; if frozen_or_unstaking (ve_status e) then None else Some e) candidates.

Definition spec_elected (L : Ledger) (candidates : list Address) (n era : Z) : list ValidatorEntry :=
  if era =? 0 then take (Z.to_nat n) (eligible L candidates)
  else take (Z.to_nat n) (filter (fun e => MIN_STAKE <= ve_stake e) (sort_by election_cmp (eligible L candidates))).

Definition activated (e : ValidatorEntry) : ValidatorEntry := ve_update e (ve_stake e) (activate (ve_status e)).

Definition spec_elect (L : Ledger) (elected : list ValidatorEntry) : Ledger :=
  foldl (fun L e => put_entry L (ve_address e) (activated e)) L elected.

(** The four amounts of a slashing of [stake]. *)
Definition slash_of (stake : Z) : SlashResult :=
  let slashed := stake * 90 / 100 in
  mkSlashResult slashed (slashed * 90 / 100) (slashed * 10 / 100) (stake - slashed).

Definition spec_slash (L : Ledger) (v reporter : Address) (e : ValidatorEntry) (era : Z) : Ledger :=
  let r := slash_of (ve_stake e) in
  put_entry (credit (credit L burn_address (burn_amount r)) reporter (bounty_amount r))
    v (ve_update e (remaining_stake r) (Frozen (era + 72))).

(** ** Well-formedness and value *)

Lemma released_wf e r x : entry_wf e -> ve_status e = Unstaking r x -> entry_wf (released e x).
Proof.
  intros (Hs & Hst & Hr) E. rewrite E in Hst. unfold entry_wf, released. simpl. split; [lia|]. split; [|done].
  destruct (_ <=? _); simpl; [lia|done].
Qed.

Lemma spec_release_wf L v era : ledger_wf L -> ledger_wf (spec_release L v era).
Proof.
  intros Hwf. unfold spec_release. destruct (entries L !! v) as [e|] eqn:Ee; [|done].
  destruct (wf_entries _ Hwf v e Ee) as [He Ha]. destruct (ve_status e) eqn:Es; try done.
  destruct (_ <=? _); [|done]. apply put_entry_wf; [done|by eapply released_wf|done].
Qed.

Lemma thawed_wf e : entry_wf e -> entry_wf (thawed e).
Proof.
  intros (Hs & Hst & Hr). unfold entry_wf, thawed. simpl. split; [done|]. split; [|done]. by destruct (_ <=? _).
Qed.

Lemma spec_thaw_wf L v era : ledger_wf L -> ledger_wf (spec_thaw L v era).
Proof.
  intros Hwf. unfold spec_thaw. destruct (due_to_thaw _ _ _); [|done].
  destruct (entries L !! v) as [e|] eqn:Ee; simpl; [|done].
  destruct (wf_entries _ Hwf v e Ee) as [He Ha]. apply put_entry_wf; [done|by apply thawed_wf|done].
Qed.

Lemma activated_wf e : entry_wf e -> entry_wf (activated e).
Proof.
  intros (Hs & Hst & Hr). unfold entry_wf, activated. simpl. split; [done|]. split; [|done].
  by destruct (ve_status e).
Qed.

Lemma slash_of_bounds s : 0 <= s ->
  let r := slash_of s in
  0 <= burn_amount r /\ 0 <= bounty_amount r /\ 0 <= remaining_stake r /\
  0 <= slashed_amount r <= s /\ remaining_stake r + slashed_amount r = s /\
  burn_amount r + bounty_amount r <= slashed_amount r <= burn_amount r + bounty_amount r + 1.
Proof.
  intros Hs. simpl.
  assert (forall a p, 0 <= a -> 0 <= p -> 100 * (a * p / 100) <= a * p < 100 * (a * p / 100) + 100 /\ 0 <= a * p / 100) as H.
  { intros a p Ha Hp. pose proof (Z.div_mod (a * p) 100). pose proof (Z.mod_pos_bound (a * p) 100).
    split; [lia|apply Z.div_pos; nia]. }
  pose proof (H s 90 Hs ltac:(lia)). set (sl := s * 90 / 100) in *.
  pose proof (H sl 90 ltac:(lia) ltac:(lia)). pose proof (H sl 10 ltac:(lia) ltac:(lia)). lia.
Qed.

Lemma spec_slash_wf L v reporter e era :
  ledger_wf L -> entries L !! v = Some e -> 0 <= era -> era + 72 < W64 -> ledger_wf (spec_slash L v reporter e era).
Proof.
  intros Hwf Ee He1 He2. destruct (wf_entries _ Hwf v e Ee) as [(Hs & Hst & Hr) Ha].
  destruct (slash_of_bounds (ve_stake e) Hs) as (? & ? & ? & ?).
  unfold spec_slash. apply put_entry_wf; [by repeat apply credit_wf| |done].
  unfold entry_wf. simpl. split; [done|]. split; [|done]. word_lia.
Qed.

Lemma value_spec_slash L v reporter e era :
  entries L !! v = Some e ->
  value (spec_slash L v reporter e era) + (slashed_amount (slash_of (ve_stake e)) -
    burn_amount (slash_of (ve_stake e)) - bounty_amount (slash_of (ve_stake e))) = value L.
Proof.
  intros Ee. unfold spec_slash. rewrite value_put_entry, !value_credit. simpl. rewrite Ee. simpl. lia.
Qed.

(** ** The election *)

Lemma eligible_elem L candidates e :
  e ∈ eligible L candidates <->
  exists a, a ∈ candidates /\ entries L !! a = Some e /\ frozen_or_unstaking (ve_status e) = false.
Proof.
  unfold eligible. rewrite list_elem_of_omap. split; intros (a & Ha & E); exists a; (split; [done|]).
  - destruct (entries L !! a) as [e'|]; simpl in E; [|done].
    destruct (frozen_or_unstaking (ve_status e')) eqn:Es; [done|]. by injection E as ->.
  - destruct E as [-> Es]. simpl. by rewrite Es.
Qed.

Lemma spec_elected_eligible L candidates n era e :
  e ∈ spec_elected L candidates n era -> e ∈ eligible L candidates.
Proof.
  unfold spec_elected. destruct (era =? 0); intros He.
  - by eapply take_elem.
  - by apply take_elem, list_elem_of_filter in He as [_ He%sort_by_elem].
Qed.

Lemma spec_elected_stored L candidates n era e :
  ledger_wf L -> e ∈ spec_elected L candidates n era ->
  ve_address e ∈ candidates /\ entries L !! ve_address e = Some e /\ entry_wf e.
Proof.
  intros Hwf (a & Ha & Ee & _)%spec_elected_eligible%eligible_elem.
  by destruct (wf_entries _ Hwf a e Ee) as [? <-].
Qed.

Lemma eligible_addresses_nodup L candidates :
  ledger_wf L -> NoDup candidates -> NoDup (map ve_address (eligible L candidates)).
Proof.
  intros Hwf. induction 1 as [|a l Ha _ IH]; [constructor|].
  unfold eligible. csimpl. destruct (entries L !! a) as [e|] eqn:Ee; simpl; [|done].
  destruct (frozen_or_unstaking _); [done|]. simpl. constructor; [|done].
  intros (e' & E & He)%list_elem_of_fmap. apply eligible_elem in He as (b & Hb & Eb & _).
  destruct (wf_entries _ Hwf a e Ee) as [_ <-], (wf_entries _ Hwf b e' Eb) as [_ Hb'].
  apply Ha. rewrite E. congruence.
Qed.

Lemma map_take_filter_nodup {A B} (f : A -> B) (P : A -> Prop) `{!forall x, Decision (P x)} n l :
  NoDup (map f l) -> NoDup (map f (take n (filter P l))).
Proof.
  intros Hl. rewrite <- firstn_map. apply NoDup_take. induction l as [|x l IH]; [done|].
  apply NoDup_cons in Hl as [Hx Hl]. rewrite filter_cons. case_decide; [|auto]. simpl. constructor; [|auto].
  intros (y & E & [_ Hy]%list_elem_of_filter)%list_elem_of_fmap. apply Hx. rewrite E.
  apply list_elem_of_fmap. eauto.
Qed.

Lemma spec_elected_nodup L candidates n era :
  ledger_wf L -> NoDup candidates -> NoDup (map ve_address (spec_elected L candidates n era)).
Proof.
  intros Hwf Hn. pose proof (eligible_addresses_nodup L candidates Hwf Hn) as He.
  unfold spec_elected. destruct (era =? 0).
  - rewrite <- firstn_map. by apply NoDup_take.
  - apply map_take_filter_nodup. by rewrite sort_by_perm.
Qed.

Lemma spec_elected_length L candidates n era :
  0 <= n -> Z.of_nat (length (spec_elected L candidates n era)) <= n.
Proof. intros. unfold spec_elected. destruct (era =? 0); rewrite length_take; lia. Qed.

(** From era 1 on the elected are the best [n] of the qualified candidates. *)
Lemma spec_elected_sorted L candidates n era :
  era <> 0 -> StronglySorted (cmp_le election_cmp) (spec_elected L candidates n era).
Proof.
  intros He. unfold spec_elected. rewrite (proj2 (Z.eqb_neq _ _) He).
  apply StronglySorted_take, StronglySorted_filter, sort_by_sorted. apply _.
Qed.

Lemma spec_elected_min L candidates n era e :
  era <> 0 -> e ∈ spec_elected L candidates n era -> MIN_STAKE <= ve_stake e.
Proof.
  intros He. unfold spec_elected. rewrite (proj2 (Z.eqb_neq _ _) He).
  by intros [? _]%take_elem%list_elem_of_filter.
Qed.

Lemma qualified_dropped L candidates n era c :
  era <> 0 -> c ∈ eligible L candidates -> MIN_STAKE <= ve_stake c -> c ∉ spec_elected L candidates n era ->
  c ∈ drop (Z.to_nat n) (filter (fun e => MIN_STAKE <= ve_stake e) (sort_by election_cmp (eligible L candidates))).
Proof.
  intros He Hc Hs. unfold spec_elected. rewrite (proj2 (Z.eqb_neq _ _) He). intros Hnot.
  edestruct (take_drop_elem c) as [Htd _]. destruct Htd as [|Hd]; [|done|exact Hd].
  apply list_elem_of_filter. split; [done|by apply sort_by_elem].
Qed.

Lemma spec_elected_top L candidates n era e c :
  era <> 0 -> e ∈ spec_elected L candidates n era -> c ∈ eligible L candidates ->
  MIN_STAKE <= ve_stake c -> c ∉ spec_elected L candidates n era -> cmp_le election_cmp e c.
Proof.
  intros He Hin Hc Hs Hnot. pose proof (qualified_dropped L candidates n era c He Hc Hs Hnot) as Hd.
  unfold spec_elected in Hin. rewrite (proj2 (Z.eqb_neq _ _) He) in Hin.
  eapply StronglySorted_app_1_elem_of; [|exact Hin|exact Hd]. rewrite take_drop.
  apply StronglySorted_filter, sort_by_sorted. apply _.
Qed.

Lemma spec_elected_full L candidates n era c :
  era <> 0 -> c ∈ eligible L candidates -> MIN_STAKE <= ve_stake c -> c ∉ spec_elected L candidates n era ->
  Z.of_nat (length (spec_elected L candidates n era)) = Z.max 0 n.
Proof.
  intros He Hc Hs Hnot. pose proof (qualified_dropped L candidates n era c He Hc Hs Hnot) as Hd.
  unfold spec_elected. rewrite (proj2 (Z.eqb_neq _ _) He), length_take.
  match type of Hd with _ ∈ drop _ ?l => destruct (decide (length l <= Z.to_nat n)%nat) as [Hl|Hl] end; [|lia].
  rewrite drop_ge in Hd by done. by apply elem_of_nil in Hd.
Qed.

Lemma spec_elect_wf L elected :
  ledger_wf L -> Forall entry_wf elected -> ledger_wf (spec_elect L elected).
Proof.
  intros Hwf He. revert L Hwf. induction He as [|e l He _ IH]; intros L Hwf; [done|].
  apply IH. apply put_entry_wf; [done|by apply activated_wf|done].
Qed.

Lemma spec_elect_accounts L elected : accounts (spec_elect L elected) = accounts L.
Proof. revert L; induction elected as [|e l IH]; intros L; [done|]. unfold spec_elect in *. simpl. by rewrite IH. Qed.

(** ** Value of the era-boundary transitions *)

Lemma value_put_entry_same L v e e' :
  entries L !! v = Some e -> value (put_entry L v e') = value L + (ve_stake e' - ve_stake e).
Proof. intros Ee. rewrite value_put_entry, Ee. simpl. lia. Qed.

Lemma value_spec_thaw L v era : value (spec_thaw L v era) = value L.
Proof.
  unfold spec_thaw. destruct (due_to_thaw _ _ _); [|done].
  destruct (entries L !! v) as [e|] eqn:Ee; simpl; [|done].
  rewrite (value_put_entry_same L v e) by done. simpl. lia.
Qed.

(** A released withdrawal leaves the ledger: nobody is credited. *)
Lemma value_spec_release L v era e r x :
  ledger_wf L -> entries L !! v = Some e -> ve_status e = Unstaking r x -> r <= era ->
  value (spec_release L v era) = value L - x.
Proof.
  intros Hwf Ee Es Hr. unfold spec_release. rewrite Ee, Es, (proj2 (Z.leb_le _ _) Hr).
  destruct (wf_entries _ Hwf v e Ee) as [(? & Hst & _) _]. rewrite Es in Hst.
  rewrite (value_put_entry_same L v e) by done. unfold released. simpl. lia.
Qed.

Lemma value_spec_release_le L v era : ledger_wf L -> value (spec_release L v era) <= value L.
Proof.
  intros Hwf. destruct (entries L !! v) as [e|] eqn:Ee; [|unfold spec_release; by rewrite Ee].
  destruct (wf_entries _ Hwf v e Ee) as [(? & Hst & _) _].
  destruct (ve_status e) as [| | |r x| |] eqn:Es; try (unfold spec_release; by rewrite Ee, Es).
  destruct (decide (r <= era)) as [Hr|Hr].
  - rewrite (value_spec_release L v era e r x) by done. lia.
  - unfold spec_release. rewrite Ee, Es, (proj2 (Z.leb_gt _ _)) by lia. done.
Qed.

Lemma value_spec_slash_le L v reporter e era :
  ledger_wf L -> entries L !! v = Some e -> value (spec_slash L v reporter e era) <= value L.
Proof.
  intros Hwf Ee. pose proof (value_spec_slash L v reporter e era Ee).
  destruct (wf_entries _ Hwf v e Ee) as [(Hs & _) _].
  destruct (slash_of_bounds (ve_stake e) Hs) as (? & ? & ? & ? & ? & ?). lia.
Qed.

Lemma value_spec_elect L elected :
  NoDup (map ve_address elected) ->
  (forall e, e ∈ elected -> entries L !! ve_address e = Some e) -> value (spec_elect L elected) = value L.
Proof.
  revert L. induction elected as [|e l IH]; intros L Hn He; [done|]. simpl in Hn.
  apply NoDup_cons in Hn as [Ha Hn]. unfold spec_elect in *. simpl. rewrite IH; [|done|].
  - rewrite (value_put_entry_same L _ e) by (apply He; left). simpl. lia.
  - intros e' He'. simpl. rewrite lookup_insert_ne; [apply He; by right|].
    intros E. apply Ha. rewrite E. apply list_elem_of_fmap. eauto.
Qed.

(** ** Thawing a list *)

Definition spec_thaw_all (L : Ledger) (addrs : list Address) (era : Z) : Ledger :=
  foldl (fun L v => spec_thaw L v era) L addrs.

Definition thaw_count (L : Ledger) (addrs : list Address) (era : Z) : Z :=
  Z.of_nat (length (List.filter (fun v => due_to_thaw L v era) addrs)).

Lemma spec_thaw_all_wf addrs L era : ledger_wf L -> ledger_wf (spec_thaw_all L addrs era).
Proof. revert L; induction addrs as [|a l IH]; intros L Hwf; [done|]. apply IH. by apply spec_thaw_wf. Qed.

Lemma value_spec_thaw_all addrs L era : value (spec_thaw_all L addrs era) = value L.
Proof.
  revert L; induction addrs as [|a l IH]; intros L; [done|]. unfold spec_thaw_all in *. simpl.
  rewrite IH. apply value_spec_thaw.
Qed.

Lemma due_to_thaw_other L v w era : v <> w -> due_to_thaw (spec_thaw L v era) w era = due_to_thaw L w era.
Proof.
  intros Hne. unfold spec_thaw. destruct (due_to_thaw L v era); [|done].
  destruct (entries L !! v); simpl; [|done]. unfold due_to_thaw. simpl. by rewrite lookup_insert_ne.
Qed.

Lemma thaw_count_other L v l era : v ∉ l -> thaw_count (spec_thaw L v era) l era = thaw_count L l era.
Proof.
  intros Hv. unfold thaw_count. do 2 f_equal. induction l as [|w l IH]; [done|].
  apply not_elem_of_cons in Hv as [Hw Hl]. simpl. rewrite due_to_thaw_other by done. by rewrite IH.
Qed.

Lemma spec_thaw_entry L v w era :
  entries (spec_thaw L v era) !! w =
  if decide (v = w) then (if due_to_thaw L w era then thawed <$> entries L !! w else entries L !! w)
  else entries L !! w.
Proof.
  unfold spec_thaw. case_decide as Hvw.
  - subst w. destruct (due_to_thaw L v era); [|done]. destruct (entries L !! v) as [e|] eqn:Ee; simpl; [|by rewrite Ee].
    by rewrite lookup_insert_eq.
  - destruct (due_to_thaw L v era); [|done]. destruct (entries L !! v); simpl; [by rewrite lookup_insert_ne|done].
Qed.

Lemma entries_thaw_all addrs L era v : NoDup addrs ->
  v ∈ addrs -> entries (spec_thaw_all L addrs era) !! v =
    (if due_to_thaw L v era then thawed <$> entries L !! v else entries L !! v).
Proof.
  assert (forall l M, v ∉ l -> entries (spec_thaw_all M l era) !! v = entries M !! v) as Hother.
  { induction l as [|w l IH]; intros M Hv; [done|]. apply not_elem_of_cons in Hv as [Hw Hl].
    unfold spec_thaw_all in *. simpl. rewrite IH, spec_thaw_entry, decide_False by done. done. }
  intros Hn. revert L. induction Hn as [|w l Hw Hn IH]; intros L Hv; [by apply elem_of_nil in Hv|].
  unfold spec_thaw_all in *. simpl. apply elem_of_cons in Hv as [->|Hv].
  - rewrite Hother by done. by rewrite spec_thaw_entry, decide_True.
  - assert (w <> v) as Hne by (intros ->; done).
    by rewrite IH, due_to_thaw_other, spec_thaw_entry, decide_False.
Qed.

(** ** The machine implements them *)

Section Epoch.
Context `{BuildProfile} `{Blake3} `{Scale} `{!ScaleOk}.
Context (D : gset Address) (HD : collision_free (keys_of D)).
Context (sm : StateMachine) (L : Ledger).
Context (R : refines D sm L) (Hwf : ledger_wf L) (Hval : 2 * value L < W256).

Lemma entry_known v e : entries L !! v = Some e -> v ∈ D.
Proof. intros E. apply (rf_validators_known _ _ _ R). by rewrite E. Qed.

(** Overwriting an entry without raising its stake. *)
Lemma refines_lower_entry v e e' :
  entries L !! v = Some e -> entry_wf e' -> ve_stake e' <= ve_stake e ->
  refines D (set_validator sm v e') (put_entry L v e').
Proof.
  intros Ee He' Hle. pose proof (stake_le_value L v e Hwf Ee).
  apply refines_put_entry; [done|done|by eapply entry_known|]. apply entry_wf_valid; [done|lia].
Qed.

Lemma release_refines v era : v ∈ D ->
  exists sm', process_unstaking_cooldown sm v era = Ret (sm', Ok tt) /\ refines D sm' (spec_release L v era).
Proof.
  intros Hv. unfold process_unstaking_cooldown, spec_release. rewrite (rf_entry _ _ _ R v Hv).
  destruct (entries L !! v) as [e|] eqn:Ee; [|eauto].
  destruct (wf_entries _ Hwf v e Ee) as [He Ha]. pose proof He as (Hs & Hst & Hr).
  destruct (ve_status e) as [|s| |r x|u|] eqn:Es; try (by eauto).
  rewrite ltb_negb. destruct (r <=? era) eqn:Er; simpl; [|eauto].
  pose proof (released_wf e r x He Es) as Hrel. pose proof (stake_le_value L v e Hwf Ee) as Hsv.
  destruct (ve_stake e <=? x) eqn:Ex; zbool.
  - eexists. split; [done|].
    replace (ve_update e 0 Registered) with (released e x)
      by (unfold released; rewrite Z.max_l by lia; done).
    apply (refines_lower_entry v e); [done|done|unfold released; simpl; lia].
  - rewrite u256_sub_ok by lia. simpl. eexists. split; [done|].
    replace (ve_update e (ve_stake e - x) _) with (released e x)
      by (unfold released; rewrite Z.max_r by lia; done).
    apply (refines_lower_entry v e); [done|done|unfold released; simpl; lia].
Qed.

Lemma thaw_refines v era : v ∈ D ->
  (process_thaw sm v era).2 = Ok (due_to_thaw L v era) /\
  refines D (process_thaw sm v era).1 (spec_thaw L v era).
Proof.
  intros Hv. unfold process_thaw, spec_thaw, due_to_thaw. rewrite (rf_entry _ _ _ R v Hv).
  destruct (entries L !! v) as [e|] eqn:Ee; [|done].
  destruct (wf_entries _ Hwf v e Ee) as [He Ha].
  destruct (ve_status e) as [|s| |r x|u|] eqn:Es; try done.
  rewrite ltb_negb. destruct (u <=? era) eqn:Er; simpl; [|done]. split; [done|].
  apply (refines_lower_entry v e); [done|by apply thawed_wf|done].
Qed.

Lemma slash_credit_is_credit_balance a x : 0 <= x < W256 -> slash_credit sm a x = credit_balance sm a x.
Proof.
  intros Hx. unfold slash_credit, credit_balance. destruct (get_account sm a) as [[acct|]|]; simpl; try done.
  unfold u256_saturating_add. rewrite Z.add_0_l, Z.min_l by word_lia. done.
Qed.
End Epoch.

Section Elect.
Context `{BuildProfile} `{Blake3} `{Scale} `{!ScaleOk}.
Context (D : gset Address) (HD : collision_free (keys_of D)).

Lemma thaw_all_refines addrs era sm L c :
  refines D sm L -> ledger_wf L -> 2 * value L < W256 -> Forall (fun a => a ∈ D) addrs -> NoDup addrs ->
  0 <= c -> c + Z.of_nat (length addrs) < W64 ->
  exists sm', foldM (thaw_step era) (sm, c) addrs = Ret (sm', c + thaw_count L addrs era) /\
    refines D sm' (spec_thaw_all L addrs era).
Proof.
  intros R Hwf Hval Hk Hn. revert sm L c R Hwf Hval.
  induction Hn as [|v l Hv Hn IH]; intros sm L c R Hwf Hval Hc Hlen.
  { exists sm. simpl. unfold thaw_count. simpl. by rewrite Z.add_0_r. }
  destruct (thaw_refines D HD sm L R Hwf Hval v era (Forall_inv Hk)) as [E2 R2].
  cbn [foldM]. unfold thaw_step at 2. cbn [length] in Hlen.
  destruct (process_thaw sm v era) as [sm1 r]. simpl in E2, R2. subst r.
  assert (thaw_count L (v :: l) era = (if due_to_thaw L v era then 1 else 0) + thaw_count (spec_thaw L v era) l era) as Ec.
  { rewrite thaw_count_other by done. unfold thaw_count. simpl. destruct (due_to_thaw L v era); simpl; lia. }
  rewrite Ec. unfold spec_thaw_all. cbn [foldl]. fold (spec_thaw_all (spec_thaw L v era) l era).
  destruct (due_to_thaw L v era) eqn:Ed.
  - unfold usize_add. rewrite wrap_check_ok by lia. cbn [mbind outcome_bind].
    destruct (IH (Forall_inv_tail Hk) sm1 (spec_thaw L v era) (c + 1)) as (sm' & E & R');
      [done|by apply spec_thaw_wf|by rewrite value_spec_thaw|lia|lia|].
    exists sm'. rewrite E. split; [|done]. do 2 f_equal. lia.
  - cbn [mbind outcome_bind].
    destruct (IH (Forall_inv_tail Hk) sm1 (spec_thaw L v era) c) as (sm' & E & R');
      [done|by apply spec_thaw_wf|by rewrite value_spec_thaw|lia|lia|].
    exists sm'. rewrite E. split; [|done]. do 2 f_equal.
Qed.

Lemma eligible_refines sm L candidates :
  refines D sm L -> Forall (fun a => a ∈ D) candidates -> eligible_entries sm candidates = eligible L candidates.
Proof.
  intros R Hk. unfold eligible_entries, eligible. induction Hk as [|a l Ha _ IH]; [done|].
  csimpl. rewrite (rf_entry _ _ _ R a Ha). by rewrite IH.
Qed.

Lemma elect_loop_refines elected sm L :
  refines D sm L -> Forall (fun e => ve_address e ∈ D /\ entry_wf e /\ ve_stake e < W256) elected ->
  refines D (foldl (fun self entry =>
      set_validator self (ve_address entry) (ve_update entry (ve_stake entry) (activate (ve_status entry))))
    sm elected) (spec_elect L elected).
Proof.
  intros R He. revert sm L R. induction He as [|e l (Hk & Hw & Hs) _ IH]; intros sm L R; [done|].
  unfold spec_elect in *. simpl. apply IH. apply refines_put_entry; [done..|].
  apply entry_wf_valid; [by apply activated_wf|done].
Qed.

Lemma election_refines sm L candidates n era :
  refines D sm L -> ledger_wf L -> 2 * value L < W256 -> Forall (fun a => a ∈ D) candidates ->
  let elected := spec_elected L candidates n era in
  (run_election sm candidates n era).2 = map ve_address elected /\
  refines D (run_election sm candidates n era).1 (spec_elect L elected).
Proof.
  intros R Hwf Hval Hk elected. unfold run_election.
  assert (elected_entries sm candidates n era = elected) as E.
  { unfold elected_entries, elected, spec_elected. by rewrite (eligible_refines sm L). }
  rewrite E. simpl. split; [done|]. apply elect_loop_refines; [done|].
  apply Forall_forall. intros e He.
  destruct (spec_elected_stored L candidates n era e Hwf He) as (Hc & Ee & Hw).
  pose proof (stake_le_value L _ _ Hwf Ee). split; [|split; [done|lia]].
  apply (rf_validators_known _ _ _ R). by rewrite Ee.
Qed.

(** [apply_slash] on every branch. *)
Lemma slash_refines sm L v reporter era :
  refines D sm L -> ledger_wf L -> 90 * value L < W256 -> 0 <= era -> era + 72 < W64 ->
  v ∈ D -> burn_address ∈ D -> reporter ∈ D ->
  exists sm' r, apply_slash sm (as_bytes v) reporter era = Ret (sm', r) /\
  match entries L !! v with
  | None => sm' = sm /\ r = Err (ValidatorNotFound (mkHexBytes (as_bytes v)))
  | Some e =>
      if is_frozen (ve_status e) then sm' = sm /\ r = Err AlreadyFrozen
      else r = Ok (slash_of (ve_stake e)) /\ refines D sm' (spec_slash L v reporter e era)
  end.
Proof.
  intros R Hwf Hval He1 He2 Hv Hb Hr. unfold apply_slash.
  replace (address_from (as_bytes v)) with v by (by destruct v). rewrite (rf_entry _ _ _ R v Hv).
  destruct (entries L !! v) as [e|] eqn:Ee; [|eauto].
  change (match ve_status e with Frozen _ => true | _ => false end) with (is_frozen (ve_status e)).
  destruct (is_frozen (ve_status e)) eqn:Ef; [eauto|].
  destruct (wf_entries _ Hwf v e Ee) as [(Hs & Hst & Hre) Ha]. pose proof (stake_le_value L v e Hwf Ee) as Hsv.
  pose proof (slash_of_bounds (ve_stake e) Hs) as Hsl. cbv zeta in Hsl. unfold spec_slash.
  assert (forall a p, 0 <= a * p < W256 -> percent a p = Ret (a * p / 100)) as Hp.
  { intros a p Hap. unfold percent. rewrite u256_mul_ok by done. simpl. by apply u256_div_ok. }
  assert (percent (ve_stake e) 90 = Ret (slashed_amount (slash_of (ve_stake e)))) as P1 by (apply Hp; lia).
  assert (percent (slashed_amount (slash_of (ve_stake e))) 90 = Ret (burn_amount (slash_of (ve_stake e)))) as P2
    by (apply Hp; lia).
  assert (percent (slashed_amount (slash_of (ve_stake e))) 10 = Ret (bounty_amount (slash_of (ve_stake e)))) as P3
    by (apply Hp; lia).
  assert (remaining_stake (slash_of (ve_stake e)) = ve_stake e - slashed_amount (slash_of (ve_stake e))) as P4 by done.
  clear Hp. destruct (slash_of (ve_stake e)) as [sl bu bo re]. simpl in *. subst re.
  rewrite P1. simpl. rewrite P2. simpl. rewrite P3. simpl. rewrite u256_sub_ok by lia. simpl.
  rewrite slash_credit_is_credit_balance by lia.
  destruct (refines_credit D HD sm L burn_address bu R Hb Hwf) as (sm1 & -> & R1); [lia|lia|]. simpl.
  rewrite slash_credit_is_credit_balance by lia.
  pose proof (credit_wf L burn_address bu Hwf ltac:(lia)) as Hwf1.
  destruct (refines_credit D HD sm1 _ reporter bo R1 Hr Hwf1) as (sm2 & -> & R2); [lia|rewrite value_credit; lia|].
  simpl. rewrite u64_add_ok by lia. simpl.
  eexists _, _. split; [done|]. split; [done|].
  apply refines_put_entry; [done..|]. apply entry_wf_valid; [|simpl; lia].
  unfold entry_wf. simpl. split; [lia|]. split; [word_lia|done].
Qed.
End Elect.
