(* ===== verification/Scenario.v ===== *)
(** * A concrete chain

    Three addresses, two accounts, one active validator and a block with five
    transactions: the inputs at which the theorems on the state machine are
    instantiated. *)
From Stdlib Require Import Strings.Byte Strings.String.
From stdpp Require Import base gmap sets list strings countable sorting.
From Stdlib Require Import ZArith Lia.
From S2P Require Import Prelude Types External Toy Trie Account State Ledger Refine Epoch.

Import ToyInstances.

Definition alice : Address := address_from (array_repeat 32 x01).
Definition bob : Address := address_from (array_repeat 32 x02).
Definition carol : Address := address_from (array_repeat 32 x03).

Definition known : list Address := [alice; bob; carol; burn_address].
Definition D0 : gset Address := list_to_set known.

Definition alice_acct : Account := Account_new 1000.
Definition bob_acct : Account := Account_new 50.
Definition carol_entry : ValidatorEntry := mkValidatorEntry carol (array_repeat 897 x07) 600 (Staked 600) 0.

Definition accts0 : list (Address * Account) := [(alice, alice_acct); (bob, bob_acct)].

Definition sm0 : StateMachine := set_active_set (set_validator (StateMachine_new accts0) carol carol_entry) [carol].
Definition L0 : Ledger :=
  mkLedger (foldl (fun m p => <[p.1 := p.2]> m) ∅ accts0) {[ carol := carol_entry ]} [carol].

Definition sig0 : Falcon512Signature := mkSignature [].
Definition mk_tx (chain n : Z) (s : Address) (fee : Z) (b : TxBody) : Transaction := mkTransaction chain n s fee b sig0.
Definition mk_header (h : Z) : BlockHeader :=
  mkBlockHeader h EMPTY_HASH EMPTY_HASH EMPTY_HASH 0 carol 7 sig0.

(** A transfer, a stake, a transfer with a stale nonce, one for another chain,
    and one the sender cannot afford. *)
Definition txs0 : list Transaction := [
  mk_tx 7 0 alice 10 (Transfer bob 100);
  mk_tx 7 0 bob 5 (Stake carol 40);
  mk_tx 7 0 alice 10 (Transfer bob 100);
  mk_tx 8 1 alice 10 (Transfer bob 100);
  mk_tx 7 1 alice 10 (Transfer bob 5000)].

Definition block0 : Block := mkBlock (mk_header 1) (mkBlockBody txs0).

Lemma D0_collision_free : collision_free (keys_of D0).
Proof. apply (collision_free_list known). apply (bool_decide_unpack _). vm_compute. exact I. Qed.

Lemma in_D0 a : bool_decide (a ∈ known) = true -> a ∈ D0.
Proof. intros Ha. apply elem_of_list_to_set. by apply bool_decide_eq_true in Ha. Qed.

Lemma known_in_D0 l : bool_decide (Forall (fun a => a ∈ known) l) = true -> Forall (fun a => a ∈ D0) l.
Proof.
  intros Hl. apply bool_decide_eq_true in Hl. eapply Forall_impl; [exact Hl|]. simpl. intros a Ha.
  by apply elem_of_list_to_set.
Qed.

Lemma small_account b : 0 <= b < 2 ^ 64 -> account_valid (Account_new b).
Proof. intros. unfold account_valid. simpl. change (2 ^ 64) with W64 in *. unfold is_u256, is_u64. word_lia. Qed.

Lemma refines0 : refines D0 sm0 L0.
Proof.
  apply (refines_set_active_set D0 _ (put_entry (mkLedger (foldl (fun m p => <[p.1 := p.2]> m) ∅ accts0) ∅ []) carol carol_entry)).
  - apply (refines_put_entry D0 D0_collision_free).
    + apply (refines_new D0 D0_collision_free). repeat constructor; try (by apply in_D0); apply small_account; done.
    + by apply in_D0.
    + unfold entry_valid, carol_entry, is_u256, is_u64. simpl. unfold is_u256. word_lia.
  - by apply known_in_D0.
Qed.

(** Well-formedness of a finite ledger, by evaluation. *)
Definition status_check (e : ValidatorEntry) : bool :=
  match ve_status e with
  | Staked s => (0 <=? s) && (s <=? ve_stake e)
  | Unstaking r x => (0 <=? r) && (r <? W64) && (0 <=? x) && (x <=? ve_stake e)
  | Frozen u => (0 <=? u) && (u <? W64)
  | _ => true
  end.

Definition ledger_check (L : Ledger) : bool :=
  forallb (fun p : Address * Account => (0 <=? balance p.2) && (0 <=? nonce p.2) && (nonce p.2 <? W64))
    (map_to_list (accounts L)) &&
  forallb (fun p : Address * ValidatorEntry =>
      (0 <=? ve_stake p.2) && status_check p.2 && (0 <=? ve_registration_era p.2) &&
      (ve_registration_era p.2 <? W64) && bool_decide (ve_address p.2 = p.1)) (map_to_list (entries L)).

Lemma ledger_check_wf L : ledger_check L = true -> ledger_wf L.
Proof.
  unfold ledger_check. rewrite andb_true_iff, !forallb_forall. intros [HA HE]. split.
  - intros a x Hx. apply elem_of_map_to_list, list_elem_of_In, HA in Hx. simpl in Hx. zbool.
    split; [done|]. by split.
  - intros a e He. apply elem_of_map_to_list, list_elem_of_In, HE in He. simpl in He. zbool.
    split; [|done]. split; [done|]. split; [|by split].
    unfold status_check in *. destruct (ve_status e); zbool; try done; unfold is_u64; lia.
Qed.

Lemma ledger_wf0 : ledger_wf L0.
Proof. apply ledger_check_wf. by vm_compute. Qed.

Lemma active0 : NoDup (active L0).
Proof. apply (bool_decide_unpack _). by vm_compute. Qed.

(** The conditions of a block, by evaluation. *)
Definition fits_check (tx : Transaction) : bool :=
  (0 <=? body_amount (tx_body tx)) && (0 <=? tx_fee tx) && (tx_fee tx <? W128) &&
  (0 <=? tx_nonce tx) && (tx_nonce tx <? U64_MAX) && (debit tx <? W256).

Lemma fits_check_ok txs : forallb fits_check txs = true -> Forall tx_fits txs.
Proof.
  intros Hf. apply Forall_forall. intros tx Htx. rewrite forallb_forall in Hf.
  apply list_elem_of_In, Hf in Htx. unfold fits_check in Htx. zbool. unfold tx_fits. lia.
Qed.

Definition block_check (L : Ledger) (b : Block) : bool :=
  bool_decide (Forall (fun tx => Forall (fun a => a ∈ known) (tx_addresses tx)) (transactions (blk_body b))) &&
  forallb fits_check (transactions (blk_body b)) &&
  (Z.of_nat (length (transactions (blk_body b))) <? W32) &&
  (sumZ tx_fee (transactions (blk_body b)) <? W128) && (2 * value L <? W256) &&
  (sumZ tx_fee (transactions (blk_body b)) * value L <? W256).

Lemma block_check_fits L b : block_check L b = true -> block_fits D0 L b.
Proof.
  unfold block_check. intros Hc. zbool. split; try done.
  - eapply Forall_impl; [eassumption|]. intros tx Htx. apply known_in_D0. by apply bool_decide_eq_true.
  - by apply fits_check_ok.
Qed.

Lemma block0_fits : block_fits D0 L0 block0.
Proof. apply block_check_fits. by vm_compute. Qed.

(** A second machine: [bob] is withdrawing, [alice] is frozen. *)
Definition key0 : array 897 := array_repeat 897 x07.
Definition bob_leaving : ValidatorEntry := mkValidatorEntry bob key0 300 (Unstaking 5 100) 0.
Definition alice_frozen : ValidatorEntry := mkValidatorEntry alice key0 (2 * ONE_MONEX) (Frozen 3) 1.

Definition sm1 : StateMachine := set_validator (set_validator sm0 bob bob_leaving) alice alice_frozen.
Definition L1 : Ledger := put_entry (put_entry L0 bob bob_leaving) alice alice_frozen.

(** A third: two qualified candidates. *)
Definition bob_rich : ValidatorEntry := mkValidatorEntry bob key0 (3 * ONE_MONEX) (Staked (3 * ONE_MONEX)) 2.
Definition alice_rich : ValidatorEntry := mkValidatorEntry alice key0 (3 * ONE_MONEX) Registered 1.

Definition sm2 : StateMachine := set_validator (set_validator sm0 bob bob_rich) alice alice_rich.
Definition L2 : Ledger := put_entry (put_entry L0 bob bob_rich) alice alice_rich.

Lemma entry_check_valid e :
  (0 <=? ve_stake e) && (ve_stake e <? W256) && status_check e && (0 <=? ve_registration_era e) &&
  (ve_registration_era e <? W64) = true -> entry_valid e.
Proof.
  intros Hc. zbool. apply entry_wf_valid; [|done]. split; [done|]. split; [|by split].
  unfold status_check in *. destruct (ve_status e); zbool; try done; unfold is_u64; lia.
Qed.

Lemma refines1 : refines D0 sm1 L1.
Proof.
  apply (refines_put_entry D0 D0_collision_free); [|by apply in_D0|by apply entry_check_valid; vm_compute].
  apply (refines_put_entry D0 D0_collision_free); [apply refines0|by apply in_D0|by apply entry_check_valid; vm_compute].
Qed.

Lemma refines2 : refines D0 sm2 L2.
Proof.
  apply (refines_put_entry D0 D0_collision_free); [|by apply in_D0|by apply entry_check_valid; vm_compute].
  apply (refines_put_entry D0 D0_collision_free); [apply refines0|by apply in_D0|by apply entry_check_valid; vm_compute].
Qed.

Lemma ledger_wf1 : ledger_wf L1.
Proof. apply ledger_check_wf. by vm_compute. Qed.

Lemma ledger_wf2 : ledger_wf L2.
Proof. apply ledger_check_wf. by vm_compute. Qed.
