(* ===== verification/StateProps.v ===== *)
(** * Properties of the state machine

    What [apply_block] and the era-boundary operations of [core/state.rs]
    guarantee, stated on the machine itself. *)
From Stdlib Require Import Strings.Byte Strings.String.
From stdpp Require Import base gmap sets list strings countable sorting.
From Stdlib Require Import ZArith Lia.
From S2P Require Import Prelude Types External Toy Trie Account State Ledger Refine Epoch Scenario.

(** ** Observations of a machine *)

Section Observe.
Context `{BuildProfile} `{Blake3} `{Scale}.

Definition balance_at (sm : StateMachine) (a : Address) : Z :=
  match get_account sm a with Ret (Some x) => balance x | _ => 0 end.

Definition nonce_at (sm : StateMachine) (a : Address) : Z :=
  match get_account sm a with Ret (Some x) => nonce x | _ => 0 end.

Definition stake_at (sm : StateMachine) (a : Address) : Z :=
  match get_validator sm a with Some e => ve_stake e | None => 0 end.

(** All balances and stakes of the addresses of [D]. *)
Definition known_value (D : gset Address) (sm : StateMachine) : Z :=
  sumZ (fun a => balance_at sm a + stake_at sm a) (elements D).

(** The block loop, recording the transactions that were applied. *)
Definition record_tx (c : Z) (s : Exec * list Transaction) (tx : Transaction) : outcome (Exec * list Transaction) :=
  let '(s, acc) := s in
  s' ← apply_tx c s tx;
  Ret (s', if ex_count s' =? ex_count s then acc else acc ++ [tx]).

Definition applied_txs (sm : StateMachine) (b : Block) : outcome (list Transaction) :=
  '(_, l) ← foldM (record_tx (hdr_chain_id (blk_header b))) (mkExec sm 0 0 0, []) (transactions (blk_body b));
  Ret l.

(** A chain of blocks, with all transactions applied by it. *)
Fixpoint run_chain (sm : StateMachine) (bs : list Block) : outcome (StateMachine * list Transaction) :=
  match bs with
  | [] => Ret (sm, [])
  | b :: bs =>
      l ← applied_txs sm b;
      '(sm, _) ← apply_block sm b;
      '(sm, rest) ← run_chain sm bs;
      Ret (sm, l ++ rest)
  end.
End Observe.

(** ** Machine and ledger agree on the observations *)

Section Agree.
Context `{BuildProfile} `{Blake3} `{Scale} `{!ScaleOk}.
Context (D : gset Address) (sm : StateMachine) (L : Ledger) (R : refines D sm L).

Lemma balance_at_ledger a : a ∈ D -> balance_at sm a = from_option balance 0 (accounts L !! a).
Proof. intros Ha. unfold balance_at. rewrite (rf_account _ _ _ R a Ha). by destruct (accounts L !! a). Qed.

Lemma nonce_at_ledger a : a ∈ D -> nonce_at sm a = from_option nonce 0 (accounts L !! a).
Proof. intros Ha. unfold nonce_at. rewrite (rf_account _ _ _ R a Ha). by destruct (accounts L !! a). Qed.

Lemma stake_at_ledger a : a ∈ D -> stake_at sm a = from_option ve_stake 0 (entries L !! a).
Proof. intros Ha. unfold stake_at. rewrite (rf_entry _ _ _ R a Ha). by destruct (entries L !! a). Qed.

(** A map's sum, taken over any duplicate-free list that covers its domain. *)
Lemma map_sum_over {V} (f : V -> Z) (l : list Address) (m : gmap Address V) :
  NoDup l -> (forall a, is_Some (m !! a) -> a ∈ l) ->
  sumZ (fun a => from_option f 0 (m !! a)) l = map_sum f m.
Proof.
  intros Hl. revert m. induction Hl as [|a l Ha Hl IH]; intros m Hm.
  - assert (m = ∅) as ->; [|by rewrite map_sum_empty].
    apply map_empty. intros a. destruct (m !! a) as [v|] eqn:E; [|done].
    destruct (not_elem_of_nil a). apply Hm. by rewrite E.
  - simpl. assert (sumZ (fun b => from_option f 0 (m !! b)) l = sumZ (fun b => from_option f 0 (delete a m !! b)) l) as E.
    { apply sumZ_ext. intros b Hb. rewrite lookup_delete_ne; [done|]. by intros ->. }
    rewrite E, IH.
    + destruct (m !! a) as [v|] eqn:Ea; simpl; [by rewrite (map_sum_delete f m a v Ea)|].
      by rewrite delete_id.
    + intros b [v [Hne Hb]%lookup_delete_Some]. assert (b ∈ a :: l) as Hin by (apply Hm; by eexists).
      apply elem_of_cons in Hin as [->|]; done.
Qed.

Lemma known_value_ledger : known_value D sm = value L.
Proof.
  unfold known_value, value.
  rewrite (sumZ_ext _ (fun a => from_option balance 0 (accounts L !! a) + from_option ve_stake 0 (entries L !! a))).
  2:{ intros a Ha%elem_of_elements. by rewrite balance_at_ledger, stake_at_ledger. }
  assert (forall (f g : Address -> Z) l, sumZ (fun a => f a + g a) l = sumZ f l + sumZ g l) as Hadd
    by (intros f g l; induction l; simpl; lia).
  rewrite Hadd, !map_sum_over; try apply NoDup_elements; [done|..]; intros a Ha; apply elem_of_elements.
  - by apply (rf_validators_known _ _ _ R).
  - by apply (rf_dom_accounts _ _ _ R).
Qed.
End Agree.

(** ** Payouts, per address *)

Lemma balance_credit L b x a :
  from_option balance 0 (accounts (credit L b x) !! a) = from_option balance 0 (accounts L !! a) + if decide (a = b) then x else 0.
Proof.
  unfold credit, put_account, account_or_new. simpl. case_decide as Ha.
  - subst a. rewrite lookup_insert_eq. simpl. destruct (accounts L !! b); simpl; lia.
  - rewrite lookup_insert_ne by done. lia.
Qed.

Lemma nonce_credit L b x a : from_option nonce 0 (accounts (credit L b x) !! a) = from_option nonce 0 (accounts L !! a).
Proof.
  unfold credit, put_account, account_or_new. simpl. destruct (decide (a = b)) as [->|Ha].
  - rewrite lookup_insert_eq. simpl. by destruct (accounts L !! b).
  - by rewrite lookup_insert_ne.
Qed.

Lemma balance_payout L p a :
  from_option balance 0 (accounts (payout L p) !! a) =
  from_option balance 0 (accounts L !! a) + if decide (p.1 = a) then p.2 else 0.
Proof.
  unfold payout. destruct (p.2 =? 0) eqn:E; zbool; [case_decide; lia|]. rewrite balance_credit.
  destruct (decide (a = p.1)), (decide (p.1 = a)); congruence || lia.
Qed.

Lemma balance_payouts ps L a :
  from_option balance 0 (accounts (foldl payout L ps) !! a) =
  from_option balance 0 (accounts L !! a) + sumZ (fun p => if decide (p.1 = a) then p.2 else 0) ps.
Proof.
  revert L; induction ps as [|p ps IH]; intros L; [simpl; lia|]. cbn [foldl sumZ].
  rewrite IH, balance_payout. lia.
Qed.

Lemma share_in_payouts F L s a :
  (s, a) ∈ active_stakes L ->
  (a, share_of F (sumZ fst (active_stakes L)) (s, a)) ∈ payouts F (sort_by fee_cmp (active_stakes L)).
Proof.
  intros Hin. unfold payouts. rewrite sorted_stakes_sum.
  destruct (sort_by fee_cmp (active_stakes L)) as [|p ps] eqn:Es.
  - apply (sort_by_elem fee_cmp) in Hin. rewrite Es in Hin. by apply elem_of_nil in Hin.
  - rewrite <- Es. apply elem_of_app. left. apply list_elem_of_fmap. exists (s, a). split; [done|].
    by apply sort_by_elem.
Qed.

(** A sum over the active validators with an entry, taken over all of them. *)
Lemma sumZ_active_stakes (f : Z * Address -> Z) L l :
  sumZ f (omap (fun a => (fun s => (s, a)) <$> stake_of L a) l) = sumZ (fun a => from_option (fun s => f (s, a)) 0 (stake_of L a)) l.
Proof. induction l as [|a l IH]; [done|]. cbn [omap list_omap sumZ]. destruct (stake_of L a); simpl; by rewrite IH. Qed.

Lemma sumZ_indicator {A} `{EqDecision A} (f : A -> Z) l a : NoDup l ->
  sumZ (fun b => if decide (b = a) then f b else 0) l = if decide (a ∈ l) then f a else 0.
Proof.
  induction 1 as [|b l Hb _ IH]; [done|]. cbn [sumZ]. rewrite IH. destruct (decide (b = a)) as [->|Hne].
  - rewrite (decide_False (P := a ∈ l)), (decide_True (P := a ∈ a :: l)) by (done || left). lia.
  - destruct (decide (a ∈ l)); [rewrite decide_True by (by right); lia|rewrite decide_False; [lia|]].
    intros [->|?]%elem_of_cons; done.
Qed.

(** What an address gets of the payouts: its share, and the remainder if it is first. *)
Lemma payouts_to L F s0 first rest a : NoDup (active L) -> sort_by fee_cmp (active_stakes L) = (s0, first) :: rest ->
  let T := sumZ fst (active_stakes L) in
  let share b := F * from_option ve_stake 0 (entries L !! b) / T in
  sumZ (fun p => if decide (p.1 = a) then p.2 else 0) (payouts F (sort_by fee_cmp (active_stakes L))) =
  (if decide (a ∈ active L) then share a else 0) + (if decide (a = first) then F - sumZ share (active L) else 0).
Proof.
  intros Hn Es T share. pose proof (sorted_stakes_sum L) as Hs. fold T in Hs.
  assert (forall b, from_option (fun s => share_of F T (s, b)) 0 (stake_of L b) = share b) as Hshare.
  { intros b. unfold share_of, share, stake_of. destruct (entries L !! b); simpl; [done|]. by rewrite Z.mul_0_r, Zdiv_0_l. }
  assert (sumZ (share_of F T) (sort_by fee_cmp (active_stakes L)) = sumZ share (active L)) as Htotal.
  { rewrite (sumZ_perm _ _ _ (sort_by_perm fee_cmp _)). unfold active_stakes. rewrite sumZ_active_stakes. by apply sumZ_ext. }
  unfold payouts. rewrite Hs. rewrite sumZ_payout_shares, Htotal. rewrite Es at 1. rewrite sumZ_app, !sumZ_map. cbn [fst snd sumZ].
  f_equal.
  - transitivity (sumZ (fun p => if decide (p.2 = a) then share_of F T p else 0) (sort_by fee_cmp (active_stakes L))); [done|].
    rewrite (sumZ_perm _ _ _ (sort_by_perm fee_cmp _)). unfold active_stakes. rewrite sumZ_active_stakes.
    rewrite <- (sumZ_indicator share) by done. apply sumZ_ext. intros b _. rewrite <- Hshare.
    destruct (stake_of L b); simpl; by case_decide.
  - destruct (decide (first = a)) as [->|Hne]; [rewrite decide_True by done; lia|rewrite decide_False by congruence; lia].
Qed.

(** The first of the sorted stakes: the largest, and of equals the least address. *)
Lemma first_stake L s0 first rest : 0 < sumZ fst (active_stakes L) -> ledger_wf L ->
  sort_by fee_cmp (active_stakes L) = (s0, first) :: rest ->
  first ∈ active L /\ entries L !! first <> None /\
  forall a, a ∈ active L -> let st b := from_option ve_stake 0 (entries L !! b) in
    st a < st first \/ (st a = st first /\ bytes_cmp (array_bytes (as_bytes first)) (array_bytes (as_bytes a)) <> Gt).
Proof.
  intros Hpos Hwf Es.
  assert (forall a s, (s, a) ∈ active_stakes L <-> a ∈ active L /\ exists e, entries L !! a = Some e /\ ve_stake e = s) as Hin.
  { intros a s. unfold active_stakes, stake_of. rewrite list_elem_of_omap. split.
    - intros (b & Hb & E). destruct (entries L !! b) as [e|] eqn:Ee; simplify_eq/=. split; [done|]. by exists e.
    - intros (Ha & e & Ee & <-). exists a. by rewrite Ee. }
  assert ((s0, first) ∈ active_stakes L) as H0 by (apply (sort_by_elem fee_cmp); rewrite Es; left).
  apply Hin in H0 as (Ha & e & Ee & Ese). split; [done|]. split; [by rewrite Ee|].
  pose proof (sort_by_sorted fee_cmp (active_stakes L)) as Hsorted. rewrite Es in Hsorted. apply StronglySorted_inv in Hsorted as [_ Hall].
  rewrite Forall_forall in Hall.
  assert (forall s a, (s, a) ∈ active_stakes L -> s < s0 \/ s = s0 /\ bytes_cmp (array_bytes (as_bytes first)) (array_bytes (as_bytes a)) <> Gt) as Hle.
  { intros s a Hsa. apply (sort_by_elem fee_cmp) in Hsa. rewrite Es in Hsa. apply elem_of_cons in Hsa as [[= -> ->]|Hsa].
    - right. split; [done|]. by rewrite (cmp_refl bytes_cmp).
    - specialize (Hall _ Hsa). unfold cmp_le, fee_cmp, cmp_then in Hall. simpl in Hall. destruct (Z.compare_spec s s0); [right; by split|by left|done]. }
  assert (0 < s0) as Hs0.
  { destruct (Z.lt_ge_cases 0 s0) as [|Hneg]; [done|]. exfalso.
    assert (sumZ fst (active_stakes L) <= sumZ (fun _ : Z * Address => 0) (active_stakes L)) as Hz.
    { apply sumZ_mono. intros [s a] Hsa. specialize (Hle _ _ Hsa). simpl. lia. }
    assert (sumZ (fun _ : Z * Address => 0) (active_stakes L) = 0) by (generalize (active_stakes L); intros l; induction l; simpl; lia). lia. }
  intros a Hact st. unfold st. rewrite Ee. simpl. rewrite Ese. destruct (entries L !! a) as [x|] eqn:Ex; simpl; [|by left].
  apply Hle, Hin. split; [done|]. by exists x.
Qed.

(** ** Nonces *)

Definition nonce_of (L : Ledger) (a : Address) : Z := from_option nonce 0 (accounts L !! a).

Lemma nonce_of_put L a x b : nonce_of (put_account L a x) b = if decide (a = b) then nonce x else nonce_of L b.
Proof.
  unfold nonce_of. simpl. case_decide as E; [subst; by rewrite lookup_insert_eq|by rewrite lookup_insert_ne].
Qed.

Lemma nonce_of_credit L a x b : nonce_of (credit L a x) b = nonce_of L b.
Proof.
  unfold credit. rewrite nonce_of_put. case_decide as E; [|done]. subst. unfold nonce_of, account_or_new.
  by destruct (accounts L !! b).
Qed.

Lemma nonce_of_entry L a e b : nonce_of (put_entry L a e) b = nonce_of L b.
Proof. done. Qed.

Lemma nonce_of_effect L acct tx b :
  nonce_of (spec_effect L acct tx) b = if decide (tx_sender tx = b) then nonce acct + 1 else nonce_of L b.
Proof.
  assert (nonce_of (put_account L (tx_sender tx) (charge acct (debit tx))) b =
    if decide (tx_sender tx = b) then nonce acct + 1 else nonce_of L b) as E by by rewrite nonce_of_put.
  rewrite <- E. clear E. unfold spec_effect, pay_to. simpl.
  destruct (tx_body tx); simpl; try case_decide; rewrite ?nonce_of_credit, ?nonce_of_entry; try done;
    by destruct (entries L !! _).
Qed.

(** A transaction never lowers a nonce; an applied one carries the sender's
    nonce and raises it. *)
Lemma nonce_of_spec_tx c L tx b :
  nonce_of L b <= nonce_of (st_ledger (spec_tx c L tx)) b /\
  (st_applied (spec_tx c L tx) = true ->
   nonce_of L (tx_sender tx) = tx_nonce tx /\
   nonce_of (st_ledger (spec_tx c L tx)) (tx_sender tx) = tx_nonce tx + 1).
Proof.
  unfold spec_tx. destruct (negb _); simpl; [split; [lia|done]|].
  destruct (accounts L !! tx_sender tx) as [acct|] eqn:Ha; simpl; [|split; [lia|done]].
  assert (nonce_of L (tx_sender tx) = nonce acct) as En by (unfold nonce_of; by rewrite Ha).
  destruct (spec_error L acct tx) as [e|] eqn:He.
  - unfold spec_reject. cbv zeta. split; [|destruct (_ <=? balance _); simpl; intros Hd; discriminate Hd].
    destruct (_ <=? balance _); simpl; [|lia]. rewrite nonce_of_put. case_decide; [|lia]. subst b. rewrite En.
    destruct (late_error e); simpl; lia.
  - simpl. destruct (spec_error_None_sender L acct tx He) as [Hn _]. rewrite !nonce_of_effect.
    split; [case_decide; [subst; lia|lia]|]. intros _. rewrite decide_True by done. rewrite En. lia.
Qed.

Lemma nonce_of_payouts ps L b : nonce_of (foldl payout L ps) b = nonce_of L b.
Proof.
  revert L; induction ps as [|p ps IH]; intros L; [done|]. simpl. rewrite IH. unfold payout.
  destruct (_ =? 0); [done|apply nonce_of_credit].
Qed.

Lemma nonce_of_distribute L F b : nonce_of (spec_distribute L F) b = nonce_of L b.
Proof. unfold spec_distribute. destruct (_ =? 0); [done|apply nonce_of_payouts]. Qed.

(** The applied transactions of a list. *)
Fixpoint spec_applied (c : Z) (L : Ledger) (txs : list Transaction) : list Transaction :=
  match txs with
  | [] => []
  | tx :: txs =>
      let r := spec_tx c L tx in
      (if st_applied r then [tx] else []) ++ spec_applied c (st_ledger r) txs
  end.

Definition tx_id (tx : Transaction) : Address * Z := (tx_sender tx, tx_nonce tx).

(** The ids of [txs], run on a ledger with nonces [n], are distinct and not
    below [n]; afterwards the nonces are above them. *)
Definition fresh (n n' : Address -> Z) (txs : list Transaction) : Prop :=
  NoDup (map tx_id txs) /\ (forall a, n a <= n' a) /\
  forall tx, tx ∈ txs -> n (tx_sender tx) <= tx_nonce tx < n' (tx_sender tx).

Lemma fresh_nil n n' : (forall a, n a <= n' a) -> fresh n n' [].
Proof. intros Hn. split; [constructor|]. split; [done|]. intros tx Hx. by apply elem_of_nil in Hx. Qed.

Lemma fresh_app n n1 n2 l1 l2 : fresh n n1 l1 -> fresh n1 n2 l2 -> fresh n n2 (l1 ++ l2).
Proof.
  intros (N1 & M1 & F1) (N2 & M2 & F2). split; [|split].
  - rewrite map_app. apply NoDup_app. split; [done|]. split; [|done].
    intros x (t1 & -> & H1)%list_elem_of_fmap (t2 & E & H2)%list_elem_of_fmap.
    injection E as Es En. pose proof (F1 t1 H1). pose proof (F2 t2 H2). rewrite <- Es, <- En in *. lia.
  - intros a. pose proof (M1 a). pose proof (M2 a). lia.
  - intros tx [Hx|Hx]%elem_of_app.
    + pose proof (F1 tx Hx). pose proof (M2 (tx_sender tx)). lia.
    + pose proof (F2 tx Hx). pose proof (M1 (tx_sender tx)). lia.
Qed.

Lemma fresh_spec_applied c txs s :
  fresh (nonce_of (bs_ledger s)) (nonce_of (bs_ledger (foldl (spec_txs_step c) s txs))) (spec_applied c (bs_ledger s) txs).
Proof.
  revert s; induction txs as [|tx txs IH]; intros s; simpl; [by apply fresh_nil|].
  eapply fresh_app; [|apply (IH (spec_txs_step c s tx))]. simpl.
  pose proof (nonce_of_spec_tx c (bs_ledger s) tx) as Hn.
  destruct (st_applied (spec_tx c (bs_ledger s) tx)) eqn:Ea.
  - split; [simpl; apply NoDup_singleton|]. split; [intros a; apply Hn|].
    intros t ->%list_elem_of_singleton. destruct (Hn (tx_sender tx)) as [_ Hs]. specialize (Hs eq_refl). lia.
  - apply fresh_nil. intros a. apply Hn.
Qed.

(** ** Chains of blocks *)

Section Chain.
Context `{BuildProfile} `{Blake3} `{Scale} `{!ScaleOk}.
Context (D : gset Address) (HD : collision_free (keys_of D)).

Lemma block_fits_mono L L' b : 0 <= value L' <= value L -> block_fits D L b -> block_fits D L' b.
Proof.
  intros Hv [Hk Hf Hc Hfe Hval Hp]. split; try done; [lia|]. pose proof (fees_nonneg _ Hf). nia.
Qed.

Lemma record_refines c txs s b acc :
  exec_refines D s b -> ledger_wf (bs_ledger b) -> 2 * value (bs_ledger b) < W256 ->
  Forall (fun tx => Forall (fun a => a ∈ D) (tx_addresses tx)) txs -> Forall tx_fits txs ->
  exec_room b (sumZ tx_fee txs) (Z.of_nat (length txs)) ->
  exists s', foldM (record_tx c) (s, acc) txs = Ret (s', acc ++ spec_applied c (bs_ledger b) txs).
Proof.
  intros R Hwf Hval Hk Hf. revert s b acc R Hwf Hval Hk.
  induction Hf as [|tx txs Hfit Hf IH]; intros s b acc R Hwf Hval Hk Hroom.
  { exists s. simpl. by rewrite app_nil_r. }
  pose proof (fees_nonneg txs Hf). pose proof (st_fee_range c (bs_ledger b) tx Hfit) as Hfr.
  destruct (apply_tx_refines D HD c s b tx R Hwf Hval) as (s1 & E1 & R1);
    [exact (Forall_inv Hk)|done|unfold exec_room in *; simpl in Hroom; lia|].
  simpl. rewrite E1. simpl.
  destruct (IH s1 (spec_txs_step c b tx) (if ex_count s1 =? ex_count s then acc else acc ++ [tx])) as [s' E'];
    [done| | |exact (Forall_inv_tail Hk)| |].
  - by apply spec_tx_wf.
  - simpl. pose proof (value_spec_tx c (bs_ledger b) tx). pose proof (destroyed_nonneg c (bs_ledger b) tx Hfit). lia.
  - unfold exec_room in *. simpl in *. destruct (st_applied _); lia.
  - exists s'. rewrite E'. do 2 f_equal. destruct R as (_ & _ & Ec & _), R1 as (_ & _ & Ec1 & _). simpl in Ec1.
    rewrite Ec1, Ec. destruct (st_applied (spec_tx c (bs_ledger b) tx)); simpl.
    + rewrite (proj2 (Z.eqb_neq _ _)) by lia. by rewrite <- app_assoc.
    + by rewrite Z.add_0_r, Z.eqb_refl.
Qed.

Lemma applied_txs_ok sm L b :
  refines D sm L -> ledger_wf L -> block_fits D L b ->
  applied_txs sm b = Ret (spec_applied (hdr_chain_id (blk_header b)) L (transactions (blk_body b))).
Proof.
  intros R Hwf [Hk Hf Hcnt Hfees Hval Hprod]. unfold applied_txs.
  destruct (record_refines (hdr_chain_id (blk_header b)) (transactions (blk_body b)) (mkExec sm 0 0 0)
    (mkBlockStep L 0 0 0) []) as [s' ->]; [done..|unfold exec_room; simpl; lia|done].
Qed.

Lemma spec_block_active L b : active (bs_ledger (spec_block L b)) = active L.
Proof.
  unfold spec_block, spec_distribute. simpl. destruct (_ =? 0); [apply spec_txs_active|].
  rewrite <- (spec_txs_active (hdr_chain_id (blk_header b)) L (transactions (blk_body b))).
  generalize (payouts (bs_fees (spec_txs (hdr_chain_id (blk_header b)) L (transactions (blk_body b))))
    (sort_by fee_cmp (active_stakes (bs_ledger (spec_txs (hdr_chain_id (blk_header b)) L (transactions (blk_body b))))))).
  generalize (bs_ledger (spec_txs (hdr_chain_id (blk_header b)) L (transactions (blk_body b)))).
  intros L1 ps. revert L1. induction ps as [|p ps IH]; intros L1; [done|]. simpl. rewrite IH. apply payout_active.
Qed.

Lemma spec_applied_elem c txs L tx : tx ∈ spec_applied c L txs -> tx ∈ txs.
Proof.
  revert L; induction txs as [|t txs IH]; intros L; [done|]. simpl. intros [Hx|Hx]%elem_of_app.
  - destruct (st_applied _); [apply list_elem_of_singleton in Hx as ->; left|by apply elem_of_nil in Hx].
  - right. by eapply IH.
Qed.

Lemma run_chain_ok bs sm L :
  refines D sm L -> ledger_wf L -> NoDup (active L) -> Forall (block_fits D L) bs ->
  exists sm' l L', run_chain sm bs = Ret (sm', l) /\ refines D sm' L' /\
    fresh (nonce_of L) (nonce_of L') l /\ Forall (fun tx => tx_sender tx ∈ D) l.
Proof.
  intros R Hwf Hn Hbs. revert sm L R Hwf Hn Hbs. induction bs as [|b bs IH]; intros sm L R Hwf Hn Hbs.
  { exists sm, [], L. split; [done|]. split; [done|]. split; [by apply fresh_nil|constructor]. }
  pose proof (Forall_inv Hbs) as Hb. simpl. rewrite (applied_txs_ok sm L b) by done. simpl.
  destruct (apply_block_simulates D HD sm L b R Hwf Hn Hb) as (sm1 & -> & R1). simpl.
  assert (ledger_wf (bs_ledger (spec_block L b))) as Hwf1 by (apply spec_block_wf; [done|apply Hb]).
  pose proof (value_spec_block L b) as Hv. pose proof (destroyed_block_nonneg L b (bf_txs _ _ _ Hb)) as Hd.
  pose proof (value_nonneg _ Hwf1) as Hv0.
  destruct (IH sm1 (bs_ledger (spec_block L b)) R1 Hwf1) as (sm' & l & L' & E & R' & F' & K').
  - by rewrite spec_block_active.
  - eapply Forall_impl; [exact (Forall_inv_tail Hbs)|]. intros b'. apply block_fits_mono. lia.
  - rewrite E. simpl. eexists _, _, L'. split; [done|]. split; [done|]. split.
    2:{ apply Forall_app. split; [|done]. apply Forall_forall. intros tx Htx%spec_applied_elem.
        pose proof (bf_known _ _ _ Hb) as Hk. rewrite Forall_forall in Hk. exact (Forall_inv (Hk tx Htx)). }
    eapply fresh_app; [|exact F'].
    destruct (fresh_spec_applied (hdr_chain_id (blk_header b)) (transactions (blk_body b)) (mkBlockStep L 0 0 0))
      as (N & M & F). simpl in N, M, F. fold (spec_txs (hdr_chain_id (blk_header b)) L (transactions (blk_body b))) in M, F.
    unfold spec_block. simpl. split; [done|]. split.
    + intros a. rewrite nonce_of_distribute. apply M.
    + intros tx Htx. rewrite nonce_of_distribute. by apply F.
Qed.
End Chain.

(** ** The properties *)

Section Properties.
Context `{BuildProfile} `{Blake3} `{Scale} `{!ScaleOk}.

(** C1: applying a block never panics or fails on a block that fits, and leaves
    a machine that implements the ledger transition of the block: accounts,
    validator entries, fees, counters and state root, for all known addresses. *)
Theorem apply_block_refines (D : gset Address) (sm : StateMachine) (L : Ledger) (b : Block)
    (HD : collision_free (keys_of D)) (R : refines D sm L) (Hwf : ledger_wf L)
    (Hn : NoDup (active L)) (Hfits : block_fits D L b) :
  exists sm', apply_block sm b = Ret (sm', Ok (mkReceipt (bs_fees (spec_block L b)) (bs_applied (spec_block L b))
      (bs_failed (spec_block L b)) (merkle_root (leaves (state sm'))))) /\
    refines D sm' (bs_ledger (spec_block L b)) /\ ledger_wf (bs_ledger (spec_block L b)).
Proof.
  destruct (apply_block_simulates D HD sm L b R Hwf Hn Hfits) as (sm' & E & R').
  exists sm'. split; [done|]. split; [done|]. apply spec_block_wf; [done|apply Hfits].
Qed.

(** C2: a block creates no value.  The balances and stakes after it, plus what
    the ledger names as destroyed, are those before it. *)
Theorem apply_block_value (D : gset Address) (sm : StateMachine) (L : Ledger) (b : Block)
    (sm' : StateMachine) (r : Result BlockReceipt)
    (HD : collision_free (keys_of D)) (R : refines D sm L) (Hwf : ledger_wf L)
    (Hn : NoDup (active L)) (Hfits : block_fits D L b) (E : apply_block sm b = Ret (sm', r)) :
  known_value D sm' + destroyed_block L b = known_value D sm /\ 0 <= destroyed_block L b.
Proof.
  destruct (apply_block_simulates D HD sm L b R Hwf Hn Hfits) as (sm1 & E1 & R1).
  rewrite E in E1. apply Ret_pair_inj in E1 as [-> _].
  rewrite (known_value_ledger D sm L R), (known_value_ledger D sm1 _ R1).
  split; [apply value_spec_block|]. apply destroyed_block_nonneg, Hfits.
Qed.

(** C3: no replay.  Along any chain of fitting blocks, no two applied
    transactions have the same sender and nonce. *)
Theorem no_replay (D : gset Address) (sm : StateMachine) (L : Ledger) (bs : list Block)
    (HD : collision_free (keys_of D)) (R : refines D sm L) (Hwf : ledger_wf L)
    (Hn : NoDup (active L)) (Hfits : Forall (block_fits D L) bs) :
  exists sm' l, run_chain sm bs = Ret (sm', l) /\ NoDup (map tx_id l) /\
    forall tx, tx ∈ l -> nonce_at sm (tx_sender tx) <= tx_nonce tx < nonce_at sm' (tx_sender tx).
Proof.
  destruct (run_chain_ok D HD bs sm L R Hwf Hn Hfits) as (sm' & l & L' & E & R' & (N & M & F) & K).
  exists sm', l. split; [done|]. split; [done|]. intros tx Htx. rewrite Forall_forall in K. specialize (K tx Htx).
  rewrite (nonce_at_ledger D sm L), (nonce_at_ledger D sm' L') by done. by apply F.
Qed.

(** C4: a transaction that is not applied touches nothing but its sender's
    balance, from which at most the fee is taken; three late errors also take
    what the transaction would have cost and the nonce. *)
Theorem failed_tx_isolated (D : gset Address) (s s' : Exec) (b : BlockStep) (c : Z) (tx : Transaction)
    (HD : collision_free (keys_of D)) (R : exec_refines D s b) (Hwf : ledger_wf (bs_ledger b))
    (Hval : 2 * value (bs_ledger b) < W256) (Hk : Forall (fun a => a ∈ D) (tx_addresses tx))
    (Hfits : tx_fits tx) (Hroom : exec_room b (tx_fee tx) 1)
    (E : apply_tx c s tx = Ret s') (Hfail : ex_count s' = ex_count s) :
  (forall a, a ∈ D -> a <> tx_sender tx -> get_account (ex_machine s') a = get_account (ex_machine s) a) /\
  (forall a, a ∈ D -> get_validator (ex_machine s') a = get_validator (ex_machine s) a) /\
  balance_at (ex_machine s') (tx_sender tx) = balance_at (ex_machine s) (tx_sender tx)
    - (ex_fees s' - ex_fees s) - destroyed c (bs_ledger b) tx /\
  0 <= ex_fees s' - ex_fees s <= tx_fee tx /\ ex_failed s' = ex_failed s + 1.
Proof.
  destruct (apply_tx_refines D HD c s b tx R Hwf Hval Hk Hfits Hroom) as (s1 & E1 & R1).
  rewrite E in E1. apply Ret_inj in E1 as <-. pose proof (Forall_inv Hk) as Hs.
  destruct R as (R & Ef & Ec & En), R1 as (R1 & Ef1 & Ec1 & En1). simpl in *.
  pose proof (st_fee_range c (bs_ledger b) tx Hfits) as Hfr.
  assert (st_applied (spec_tx c (bs_ledger b) tx) = false) as Hna by (destruct (st_applied _); [lia|done]).
  rewrite Hna in *.
  pose proof (value_spec_tx c (bs_ledger b) tx) as Hv.
  assert ((forall a, a <> tx_sender tx -> accounts (st_ledger (spec_tx c (bs_ledger b) tx)) !! a = accounts (bs_ledger b) !! a) /\
    entries (st_ledger (spec_tx c (bs_ledger b) tx)) = entries (bs_ledger b) /\
    from_option balance 0 (accounts (st_ledger (spec_tx c (bs_ledger b) tx)) !! tx_sender tx) =
      from_option balance 0 (accounts (bs_ledger b) !! tx_sender tx)
      + value (st_ledger (spec_tx c (bs_ledger b) tx)) - value (bs_ledger b)) as (Hother & Hent & Hbal).
  { clear -Hna. unfold spec_tx in *. destruct (negb _); simpl in *; [split_and!; [done..|lia]|].
    destruct (accounts (bs_ledger b) !! tx_sender tx) as [acct|] eqn:Ha; simpl in *; [|rewrite Ha; split_and!; [done..|simpl; lia]].
    destruct (spec_error (bs_ledger b) acct tx) as [e|]; simpl in *; [|done]. unfold spec_reject in *.
    destruct (_ <=? _); simpl; [|rewrite Ha; split_and!; [done..|simpl; lia]].
    rewrite value_put_account, lookup_insert_eq, Ha. simpl. split_and!; [|done|lia].
    intros a Hne. by rewrite lookup_insert_ne. }
  split_and!; [| | |lia..].
  - intros a Ha Hne. rewrite (rf_account _ _ _ R1 a Ha), (rf_account _ _ _ R a Ha). by rewrite Hother.
  - intros a Ha. rewrite (rf_entry _ _ _ R1 a Ha), (rf_entry _ _ _ R a Ha). by rewrite Hent.
  - rewrite (balance_at_ledger D _ _ R1), (balance_at_ledger D _ _ R) by done. rewrite Hbal. lia.
Qed.

(** C5: an applied transfer moves the amount to the recipient and the fee out of
    the sender's balance; an applied transfer to oneself loses the amount. *)
Theorem applied_transfer (D : gset Address) (s s' : Exec) (b : BlockStep) (c : Z) (tx : Transaction)
    (recipient : Address) (amount : Z)
    (HD : collision_free (keys_of D)) (R : exec_refines D s b) (Hwf : ledger_wf (bs_ledger b))
    (Hval : 2 * value (bs_ledger b) < W256) (Hk : Forall (fun a => a ∈ D) (tx_addresses tx))
    (Hfits : tx_fits tx) (Hroom : exec_room b (tx_fee tx) 1)
    (Hb : tx_body tx = Transfer recipient amount)
    (E : apply_tx c s tx = Ret s') (Happ : ex_count s' = ex_count s + 1) :
  balance_at (ex_machine s') (tx_sender tx) = balance_at (ex_machine s) (tx_sender tx) - amount - tx_fee tx /\
  nonce_at (ex_machine s') (tx_sender tx) = nonce_at (ex_machine s) (tx_sender tx) + 1 /\
  ex_fees s' = ex_fees s + tx_fee tx /\
  (recipient <> tx_sender tx ->
   balance_at (ex_machine s') recipient = balance_at (ex_machine s) recipient + amount) /\
  (forall a, a ∈ D -> a <> tx_sender tx -> a <> recipient ->
   get_account (ex_machine s') a = get_account (ex_machine s) a).
Proof.
  destruct (apply_tx_refines D HD c s b tx R Hwf Hval Hk Hfits Hroom) as (s1 & E1 & R1).
  rewrite E in E1. apply Ret_inj in E1 as <-. pose proof (Forall_inv Hk) as Hs.
  assert (recipient ∈ D) as Hr.
  { unfold tx_addresses in Hk. rewrite Hb in Hk. exact (Forall_inv (Forall_inv_tail Hk)). }
  destruct R as (R & Ef & Ec & En), R1 as (R1 & Ef1 & Ec1 & En1). simpl in *.
  assert (st_applied (spec_tx c (bs_ledger b) tx) = true) as Ha by (destruct (st_applied _); [done|lia]).
  unfold spec_tx in *. destruct (negb _); simpl in *; [done|].
  destruct (accounts (bs_ledger b) !! tx_sender tx) as [acct|] eqn:Hacct; simpl in *; [|done].
  destruct (spec_error (bs_ledger b) acct tx) as [e|] eqn:He;
    [unfold spec_reject in Ha; destruct (_ <=? _) in Ha; discriminate Ha|]. simpl in *.
  unfold spec_effect, debit in R1. rewrite Hb in R1. unfold pay_to, credit, account_or_new, put_account in R1.
  assert (forall a, a ∈ D -> a <> tx_sender tx -> a <> recipient ->
    get_account (ex_machine s') a = get_account (ex_machine s) a) as Hother.
  { intros a HaD Hn1 Hn2. rewrite (rf_account _ _ _ R1 a HaD), (rf_account _ _ _ R a HaD).
    case_decide; simpl; by rewrite !lookup_insert_ne. }
  rewrite (balance_at_ledger D _ _ R1), (balance_at_ledger D _ _ R), (nonce_at_ledger D _ _ R1),
    (nonce_at_ledger D _ _ R), Hacct by done.
  split_and!; [| |lia| |done].
  - case_decide; simpl; [by rewrite lookup_insert_eq; simpl; lia|].
    rewrite lookup_insert_ne, lookup_insert_eq by done. simpl. lia.
  - case_decide; simpl; [by rewrite lookup_insert_eq|]. by rewrite lookup_insert_ne, lookup_insert_eq by done.
  - intros Hne. rewrite (balance_at_ledger D _ _ R1), (balance_at_ledger D _ _ R) by done.
    rewrite decide_False by done. simpl. rewrite lookup_insert_eq. simpl. rewrite lookup_insert_ne by done.
    destruct (accounts (bs_ledger b) !! recipient); simpl; lia.
Qed.

(** C6: fee distribution, to the unit.  Every active validator is credited its share
    of the fees in proportion to its stake, rounded down; what the rounding leaves,
    which is never negative, goes to one of them, the validator of the largest stake
    and, among equals, of the least address; no other balance changes.  The
    credits add up to the fees, so nobody loses and nothing is created or lost. *)
Theorem distribute_fees_exact (D : gset Address) (sm : StateMachine) (L : Ledger) (F : Z)
    (HD : collision_free (keys_of D)) (R : refines D sm L) (Hwf : ledger_wf L) (Hn : NoDup (active L))
    (HF : 0 <= F) (Hv : value L + F < W256) (Hm : F * value L < W256)
    (Hst : 0 < sumZ fst (active_stakes L)) :
  let share a := F * stake_at sm a / sumZ (stake_at sm) (active_set sm) in
  let rest := F - sumZ share (active_set sm) in
  exists sm' first, distribute_fees sm F = Ret sm' /\
    first ∈ active_set sm /\
    (forall a, a ∈ active_set sm -> stake_at sm a < stake_at sm first \/
       (stake_at sm a = stake_at sm first /\ bytes_cmp (array_bytes (as_bytes first)) (array_bytes (as_bytes a)) <> Gt)) /\
    0 <= rest /\
    (forall a, a ∈ D -> balance_at sm' a =
       balance_at sm a + (if decide (a ∈ active_set sm) then share a else 0) + (if decide (a = first) then rest else 0)) /\
    known_value D sm' = known_value D sm + F /\
    (forall a, a ∈ D -> balance_at sm a <= balance_at sm' a).
Proof.
  intros share rest. destruct (distribute_refines D HD sm L F R Hwf Hn HF Hv Hm) as (sm' & E & R').
  assert (active_set sm = active L) as Eact by apply (rf_active _ _ _ R).
  assert (forall a, a ∈ active L -> stake_at sm a = from_option ve_stake 0 (entries L !! a)) as Hstake
    by (intros a Ha; apply (stake_at_ledger D _ _ R); by apply (rf_active_known _ _ _ R)).
  assert (sumZ (stake_at sm) (active_set sm) = sumZ fst (active_stakes L)) as ET.
  { unfold active_stakes. rewrite sumZ_active_stakes, Eact. apply sumZ_ext. intros a Ha. rewrite Hstake by done.
    unfold stake_of. by destruct (entries L !! a). }
  set (share' := fun b => F * from_option ve_stake 0 (entries L !! b) / sumZ fst (active_stakes L)).
  assert (forall a, a ∈ active L -> share a = share' a) as Eshare by (intros a Ha; unfold share; by rewrite ET, Hstake).
  assert (sumZ share (active L) = sumZ share' (active L)) as Esum by (by apply sumZ_ext).
  destruct (sort_by fee_cmp (active_stakes L)) as [|[s0 first] ps] eqn:Es.
  { pose proof (sorted_stakes_sum L) as Hs. rewrite Es in Hs. simpl in Hs. lia. }
  destruct (first_stake L s0 first ps Hst Hwf Es) as (Hf1 & _ & Hf2).
  assert (forall a, a ∈ D -> balance_at sm' a = balance_at sm a + (if decide (a ∈ active_set sm) then share a else 0) +
    (if decide (a = first) then rest else 0)) as Hbal.
  { intros a Ha. rewrite (balance_at_ledger D _ _ R' a Ha), (balance_at_ledger D _ _ R a Ha).
    unfold spec_distribute. rewrite (proj2 (Z.eqb_neq _ _)) by lia. rewrite balance_payouts, (payouts_to L F s0 first ps) by done.
    change (fun b => F * from_option ve_stake 0 (entries L !! b) / sumZ fst (active_stakes L)) with share'.
    change (F * from_option ve_stake 0 (entries L !! a) / sumZ fst (active_stakes L)) with (share' a).
    unfold rest. rewrite Eact, Esum. destruct (decide (a ∈ active L)); [rewrite Eshare by done|]; lia. }
  assert (0 <= rest) as Hrest.
  { unfold rest. rewrite Eact, Esum. pose proof (shares_le F (active_stakes L) Hst) as Hle. unfold active_stakes at 2 in Hle.
    rewrite sumZ_active_stakes in Hle. rewrite (sumZ_ext _ share') in Hle; [lia|]. intros a _. unfold share_of, share', stake_of.
    destruct (entries L !! a); simpl; [done|]. by rewrite Z.mul_0_r, Zdiv_0_l. }
  exists sm', first. split; [done|]. split; [by rewrite Eact|]. split.
  { intros a Ha. rewrite Eact in Ha. rewrite !Hstake by done. by apply Hf2. }
  split; [done|]. split; [exact Hbal|]. split.
  - rewrite (known_value_ledger D sm L R), (known_value_ledger D sm' _ R'), value_spec_distribute.
    by rewrite (proj2 (Z.eqb_neq _ _)) by lia.
  - intros a Ha. rewrite Hbal by done. assert (a ∈ active_set sm -> 0 <= share a) as Hsh.
    { rewrite Eact. intros Hact. unfold share. rewrite ET, Hstake by done. apply Z.div_pos; [|done]. apply Z.mul_nonneg_nonneg; [done|].
      destruct (entries L !! a) as [e|] eqn:Ee; [|done]. by destruct (wf_entries _ Hwf a e Ee) as [[? _] _]. }
    destruct (decide (a ∈ active_set sm)) as [Hin|]; [specialize (Hsh Hin)|]; destruct (decide (a = first)); lia.
Qed.

(** When a withdrawal is due, the validator keeps its other stake (and
    [Staked] status only from one MONEX on), no account is credited, and the
    withdrawn amount disappears from the known value. *)
Theorem unstaking_release (D : gset Address) (sm : StateMachine) (L : Ledger) (v : Address) (era : Z)
    (e : ValidatorEntry) (r x : Z)
    (HD : collision_free (keys_of D)) (R : refines D sm L) (Hwf : ledger_wf L) (Hval : 2 * value L < W256)
    (Hv : v ∈ D) (Ee : get_validator sm v = Some e) (Es : ve_status e = Unstaking r x) (Hr : r <= era) :
  exists sm', process_unstaking_cooldown sm v era = Ret (sm', Ok tt) /\
    get_validator sm' v = Some (released e x) /\
    (forall a, a ∈ D -> get_account sm' a = get_account sm a) /\
    known_value D sm' = known_value D sm - x.
Proof.
  rewrite (rf_entry _ _ _ R v Hv) in Ee.
  destruct (release_refines D HD sm L R Hwf Hval v era Hv) as (sm' & E & R'). exists sm'. split; [done|].
  rewrite (known_value_ledger D sm L R), (known_value_ledger D sm' _ R').
  rewrite (value_spec_release L v era e r x) by done. rewrite (rf_entry _ _ _ R' v Hv).
  assert (spec_release L v era = put_entry L v (released e x)) as Erel
    by (unfold spec_release; by rewrite Ee, Es, (proj2 (Z.leb_le _ _) Hr)).
  rewrite Erel in *. simpl. rewrite lookup_insert_eq. split; [done|]. split; [|done].
  intros a Ha. by rewrite (rf_account _ _ _ R' a Ha), (rf_account _ _ _ R a Ha).
Qed.

(** [thaw_all] over distinct addresses reports the number of validators
    whose freeze is over, thaws exactly those, and moves no value. *)
Theorem thaw_all_count (D : gset Address) (sm : StateMachine) (L : Ledger) (addrs : list Address) (era : Z)
    (HD : collision_free (keys_of D)) (R : refines D sm L) (Hwf : ledger_wf L) (Hval : 2 * value L < W256)
    (Hk : Forall (fun a => a ∈ D) addrs) (Hn : NoDup addrs) (Hlen : Z.of_nat (length addrs) < W64) :
  exists sm', thaw_all sm addrs era = Ret (sm', thaw_count L addrs era) /\
    known_value D sm' = known_value D sm /\
    forall v, v ∈ addrs -> get_validator sm' v =
      (if due_to_thaw L v era then thawed <$> get_validator sm v else get_validator sm v).
Proof.
  destruct (thaw_all_refines D HD addrs era sm L 0 R Hwf Hval Hk Hn) as (sm' & E & R'); [done|lia|].
  exists sm'. split; [exact E|].
  rewrite (known_value_ledger D sm L R), (known_value_ledger D sm' _ R'). split; [apply value_spec_thaw_all|].
  intros v Hv. rewrite Forall_forall in Hk.
  rewrite (rf_entry _ _ _ R' v (Hk v Hv)), (rf_entry _ _ _ R v (Hk v Hv)). by apply entries_thaw_all.
Qed.

(** C11: an election elects at most [n] distinct candidates; from era 1 on all
    of them have the minimum stake, they are ordered by stake and seniority,
    and a qualified candidate is left out only behind [n] that rank no lower. *)
Theorem election_correct (D : gset Address) (sm : StateMachine) (L : Ledger) (candidates : list Address) (n era : Z)
    (HD : collision_free (keys_of D)) (R : refines D sm L) (Hwf : ledger_wf L) (Hval : 2 * value L < W256)
    (Hk : Forall (fun a => a ∈ D) candidates) (Hn : NoDup candidates) (Hpos : 0 <= n) :
  let elected := spec_elected L candidates n era in
  (run_election sm candidates n era).2 = map ve_address elected /\
  refines D (run_election sm candidates n era).1 (spec_elect L elected) /\
  NoDup (map ve_address elected) /\ Z.of_nat (length elected) <= n /\
  (forall e, e ∈ elected -> ve_address e ∈ candidates /\ frozen_or_unstaking (ve_status e) = false) /\
  (era <> 0 ->
   (forall e, e ∈ elected -> MIN_STAKE <= ve_stake e) /\
   StronglySorted (cmp_le election_cmp) elected /\
   forall c, c ∈ eligible L candidates -> MIN_STAKE <= ve_stake c -> c ∉ elected ->
     Z.of_nat (length elected) = n /\ forall e, e ∈ elected -> cmp_le election_cmp e c).
Proof.
  intros elected. destruct (election_refines D HD sm L candidates n era R Hwf Hval Hk) as [E R'].
  split; [exact E|]. split; [exact R'|]. split; [by apply spec_elected_nodup|].
  split; [by apply spec_elected_length|]. split; [|intros Hera; split; [|split]].
  - intros e He. split; [by apply (spec_elected_stored L candidates n era e Hwf He)|].
    by apply spec_elected_eligible, eligible_elem in He as (a & _ & _ & ?).
  - intros e He. by apply (spec_elected_min L candidates n era).
  - by apply spec_elected_sorted.
  - intros c Hc Hs Hnot. split; [|intros e He; by apply (spec_elected_top L candidates n era e c)].
    unfold elected. rewrite (spec_elected_full L candidates n era c) by done. by apply Z.max_r.
Qed.

End Properties.

(** ** The properties at concrete inputs *)

Import ToyInstances.

Lemma apply_block_refines_witness : exists sm',
  apply_block sm0 block0 = Ret (sm', Ok (mkReceipt 35 2 3 (merkle_root (leaves (state sm'))))) /\
  refines D0 sm' (bs_ledger (spec_block L0 block0)) /\ ledger_wf (bs_ledger (spec_block L0 block0)).
Proof.
  exact (apply_block_refines D0 sm0 L0 block0 D0_collision_free refines0 ledger_wf0 active0 block0_fits).
Defined.

Lemma apply_block_value_witness : exists sm' r, apply_block sm0 block0 = Ret (sm', r) /\
  known_value D0 sm' + destroyed_block L0 block0 = known_value D0 sm0 /\ 0 <= destroyed_block L0 block0.
Proof.
  destruct (apply_block_simulates D0 D0_collision_free sm0 L0 block0 refines0 ledger_wf0 active0 block0_fits)
    as (sm' & E & _).
  eexists sm', _. split; [exact E|].
  exact (apply_block_value D0 sm0 L0 block0 sm' _ D0_collision_free refines0 ledger_wf0 active0 block0_fits E).
Defined.

Lemma no_replay_witness : exists sm' l, run_chain sm0 [block0; block0] = Ret (sm', l) /\ NoDup (map tx_id l) /\
  forall tx, tx ∈ l -> nonce_at sm0 (tx_sender tx) <= tx_nonce tx < nonce_at sm' (tx_sender tx).
Proof.
  apply (no_replay D0 sm0 L0 [block0; block0] D0_collision_free refines0 ledger_wf0 active0).
  constructor; [apply block0_fits|constructor; [apply block0_fits|constructor]].
Defined.

(** The first transaction of [block0], and one with a wrong nonce. *)
Definition exec0 : Exec := mkExec sm0 0 0 0.
Definition step0 : BlockStep := mkBlockStep L0 0 0 0.
Definition tx_good : Transaction := mk_tx 7 0 alice 10 (Transfer bob 100).
Definition tx_stale : Transaction := mk_tx 7 5 alice 10 (Transfer bob 100).

Lemma exec0_refines : exec_refines D0 exec0 step0.
Proof. split; [apply refines0|done]. Qed.

Lemma value0_fits : 2 * value L0 < W256.
Proof. by vm_compute. Qed.

Lemma fits_good : tx_fits tx_good.
Proof. apply (Forall_inv (l := [])). apply (fits_check_ok [tx_good]). by vm_compute. Qed.
Lemma fits_stale : tx_fits tx_stale.
Proof. apply (Forall_inv (l := [])). apply (fits_check_ok [tx_stale]). by vm_compute. Qed.

Lemma room0 fee : 0 <= fee < W64 -> exec_room step0 fee 1.
Proof. intros. unfold exec_room. simpl. assert (1 < W32) by done. word_lia. Qed.

Lemma failed_tx_isolated_witness : exists s', apply_tx 7 exec0 tx_stale = Ret s' /\ ex_count s' = ex_count exec0 /\
  (forall a, a ∈ D0 -> a <> alice -> get_account (ex_machine s') a = get_account sm0 a) /\
  (forall a, a ∈ D0 -> get_validator (ex_machine s') a = get_validator sm0 a) /\
  balance_at (ex_machine s') alice = balance_at sm0 alice - (ex_fees s' - 0) - destroyed 7 L0 tx_stale /\
  0 <= ex_fees s' - 0 <= 10 /\ ex_failed s' = 0 + 1.
Proof.
  assert (Forall (fun a => a ∈ D0) (tx_addresses tx_stale)) as Hk by by apply known_in_D0.
  destruct (apply_tx_refines D0 D0_collision_free 7 exec0 step0 tx_stale exec0_refines ledger_wf0 value0_fits Hk
    fits_stale (room0 10 ltac:(done))) as (s' & E & R').
  assert (ex_count s' = ex_count exec0) as Hc by (destruct R' as (_ & _ & -> & _); by vm_compute).
  exists s'. split; [exact E|]. split; [exact Hc|].
  exact (failed_tx_isolated D0 exec0 s' step0 7 tx_stale D0_collision_free exec0_refines ledger_wf0 value0_fits Hk
    fits_stale (room0 10 ltac:(done)) E Hc).
Defined.

Lemma applied_transfer_witness : exists s', apply_tx 7 exec0 tx_good = Ret s' /\
  balance_at (ex_machine s') alice = balance_at sm0 alice - 100 - 10 /\
  nonce_at (ex_machine s') alice = nonce_at sm0 alice + 1 /\ ex_fees s' = 0 + 10 /\
  (bob <> alice -> balance_at (ex_machine s') bob = balance_at sm0 bob + 100) /\
  (forall a, a ∈ D0 -> a <> alice -> a <> bob -> get_account (ex_machine s') a = get_account sm0 a).
Proof.
  assert (Forall (fun a => a ∈ D0) (tx_addresses tx_good)) as Hk by by apply known_in_D0.
  destruct (apply_tx_refines D0 D0_collision_free 7 exec0 step0 tx_good exec0_refines ledger_wf0 value0_fits Hk
    fits_good (room0 10 ltac:(done))) as (s' & E & R').
  assert (ex_count s' = ex_count exec0 + 1) as Hc by (destruct R' as (_ & _ & -> & _); by vm_compute).
  exists s'. split; [exact E|].
  exact (applied_transfer D0 exec0 s' step0 7 tx_good bob 100 D0_collision_free exec0_refines ledger_wf0 value0_fits Hk
    fits_good (room0 10 ltac:(done)) eq_refl E Hc).
Defined.

(** The shares of 35 units, with the remainder to the first. *)
Lemma distribute_fees_exact_witness : exists sm' first, distribute_fees sm0 35 = Ret sm' /\ first ∈ active_set sm0 /\
  balance_at sm' first = balance_at sm0 first + 35 * stake_at sm0 first / sumZ (stake_at sm0) (active_set sm0) +
    (35 - sumZ (fun a => 35 * stake_at sm0 a / sumZ (stake_at sm0) (active_set sm0)) (active_set sm0)) /\
  known_value D0 sm' = known_value D0 sm0 + 35.
Proof.
  destruct (distribute_fees_exact D0 sm0 L0 35 D0_collision_free refines0 ledger_wf0 active0 ltac:(done) ltac:(by vm_compute)
    ltac:(by vm_compute) ltac:(by vm_compute)) as (sm' & first & E & Hf & _ & _ & Hbal & Hkv & _).
  exists sm', first. split; [exact E|]. split; [exact Hf|]. split; [|exact Hkv].
  rewrite Hbal by (apply (rf_active_known _ _ _ refines0); by rewrite <- (rf_active _ _ _ refines0)).
  by rewrite (decide_True (P := first ∈ _)), (decide_True (P := first = first)).
Defined.

Lemma unstaking_release_witness : exists sm', process_unstaking_cooldown sm1 bob 6 = Ret (sm', Ok tt) /\
  get_validator sm' bob = Some (released bob_leaving 100) /\
  (forall a, a ∈ D0 -> get_account sm' a = get_account sm1 a) /\
  known_value D0 sm' = known_value D0 sm1 - 100.
Proof.
  apply (unstaking_release D0 sm1 L1 bob 6 bob_leaving 5 100 D0_collision_free refines1 ledger_wf1).
  - by vm_compute.
  - by apply in_D0.
  - rewrite (rf_entry _ _ _ refines1 bob) by by apply in_D0. by vm_compute.
  - reflexivity.
  - lia.
Defined.

Lemma thaw_all_count_witness : exists sm', thaw_all sm1 [alice; bob; carol] 4 = Ret (sm', 1) /\
  known_value D0 sm' = known_value D0 sm1 /\
  forall v, v ∈ [alice; bob; carol] -> get_validator sm' v =
    (if due_to_thaw L1 v 4 then thawed <$> get_validator sm1 v else get_validator sm1 v).
Proof.
  apply (thaw_all_count D0 sm1 L1 [alice; bob; carol] 4 D0_collision_free refines1 ledger_wf1).
  - by vm_compute.
  - by apply known_in_D0.
  - apply (bool_decide_unpack _). by vm_compute.
  - done.
Defined.

Lemma election_correct_witness :
  let elected := spec_elected L2 [bob; carol; alice] 1 1 in
  (run_election sm2 [bob; carol; alice] 1 1).2 = map ve_address elected /\
  refines D0 (run_election sm2 [bob; carol; alice] 1 1).1 (spec_elect L2 elected) /\
  NoDup (map ve_address elected) /\ Z.of_nat (length elected) <= 1 /\
  (forall e, e ∈ elected -> ve_address e ∈ [bob; carol; alice] /\ frozen_or_unstaking (ve_status e) = false) /\
  (1 <> 0 ->
   (forall e, e ∈ elected -> MIN_STAKE <= ve_stake e) /\
   StronglySorted (cmp_le election_cmp) elected /\
   forall c, c ∈ eligible L2 [bob; carol; alice] -> MIN_STAKE <= ve_stake c -> c ∉ elected ->
     Z.of_nat (length elected) = 1 /\ forall e, e ∈ elected -> cmp_le election_cmp e c).
Proof.
  apply (election_correct D0 sm2 L2 [bob; carol; alice] 1 1 D0_collision_free refines2 ledger_wf2).
  - by vm_compute.
  - by apply known_in_D0.
  - apply (bool_decide_unpack _). by vm_compute.
  - lia.
Defined.

