(* ===== verification/Supply.v ===== *)
(** * Token supply and transaction fees ([consensus/supply.rs], [core/fee.rs])

    The two supply policies behind the [SupplyPolicy] trait, and the hybrid fee
    behind [FeePolicy].  Traits are type classes; [U256] arithmetic panics. *)
From Stdlib Require Import Strings.Byte.
From stdpp Require Import base gmap sets list.
From Stdlib Require Import ZArith Lia.
From S2P Require Import Prelude Types External Toy.

Definition BLOCKS_PER_YEAR : Z := 6307200.
Definition BASIS_POINTS : Z := U256_limbs 10000 0 0 0.

(** [trait SupplyPolicy] *)
Class SupplyPolicy (P : Type) := {
  block_reward : P -> Z -> Z -> Z -> outcome Z    (* height, current supply, effective maximum *)
}.

Record FixedSupply := FixedSupply_new {}.

#[export] Instance FixedSupply_policy : SupplyPolicy FixedSupply :=
  {| block_reward _ _ _ _ := Ret 0 |}.

Record CappedInflation := mkCappedInflation {
  base_max_supply : Z;
  ceiling_rate : Z;                   (* u32 *)
  headroom_rate : Z                   (* u32 *)
}.

Definition CappedInflation_new : CappedInflation :=
  mkCappedInflation BASE_MAX_SUPPLY SUPPLY_CEILING_RATE SUPPLY_HEADROOM_RATE.
Definition with_params (m c h : Z) : CappedInflation := mkCappedInflation m c h.

Definition compute_reward (current_supply effective_max ceiling_rate headroom_rate : Z) : outcome Z :=
  if effective_max <=? current_supply then Ret 0
  else
    headroom ← u256_sub effective_max current_supply;
    a ← u256_mul headroom headroom_rate;
    annual_headroom ← u256_div a BASIS_POINTS;
    b ← u256_mul effective_max ceiling_rate;
    annual_ceiling ← u256_div b BASIS_POINTS;
    u256_div (Z.min annual_headroom annual_ceiling) BLOCKS_PER_YEAR.

#[export] Instance CappedInflation_policy : SupplyPolicy CappedInflation :=
  {| block_reward self _ current_supply effective_max :=
       compute_reward current_supply effective_max (ceiling_rate self) (headroom_rate self) |}.

(** The supply after each of [n] blocks has been rewarded by a policy. *)
Fixpoint issue `{SupplyPolicy P} (p : P) (n : nat) (height supply effective_max : Z) : outcome Z :=
  match n with
  | O => Ret supply
  | S n =>
      r ← block_reward p height supply effective_max;
      supply ← u256_add supply r;
      issue p n (height + 1) supply effective_max
  end.

(** ** Fees *)

Class FeePolicy (P : Type) := { calculate_fee : P -> Transaction -> outcome Z }.

Record HybridFee := mkHybridFee { flat_fee : Z; per_byte_rate : Z }.

Definition HybridFee_new : HybridFee := mkHybridFee DEFAULT_FLAT_FEE DEFAULT_PER_BYTE_RATE.

Definition encoded_size `{Scale} (tx : Transaction) : Z := Z.of_nat (length (enc sc_tx tx)).

#[export] Instance HybridFee_policy `{Scale} : FeePolicy HybridFee :=
  {| calculate_fee self tx :=
       match tx_body tx with
       | Burn _ _ => Ret BURN_FLAT_FEE
       | _ => m ← u256_mul (per_byte_rate self) (encoded_size tx); u256_add (flat_fee self) m
       end |}.

(** ** The reward formula *)

Lemma BASIS_POINTS_val : BASIS_POINTS = 10000. Proof. done. Qed.
Lemma BLOCKS_PER_YEAR_pos : 0 < BLOCKS_PER_YEAR. Proof. done. Qed.

(** The reward as an integer expression, when nothing overflows. *)
Lemma compute_reward_eq s m c h :
  0 <= s < m -> 0 <= c -> 0 <= h -> m * c < W256 -> m * h < W256 -> m < W256 ->
  compute_reward s m c h = Ret (Z.min ((m - s) * h / 10000) (m * c / 10000) / BLOCKS_PER_YEAR).
Proof.
  intros. unfold compute_reward. rewrite (proj2 (Z.leb_gt _ _)) by lia.
  rewrite u256_sub_ok by lia. cbn [mbind outcome_bind]. rewrite u256_mul_ok by nia. cbn [mbind outcome_bind].
  rewrite u256_div_ok by done. cbn [mbind outcome_bind]. rewrite u256_mul_ok by nia. cbn [mbind outcome_bind].
  rewrite u256_div_ok by done. cbn [mbind outcome_bind]. rewrite u256_div_ok by done. done.
Qed.

Lemma reward_bounds s m c h : 0 <= s < m -> 0 <= c -> 0 <= h ->
  let r := Z.min ((m - s) * h / 10000) (m * c / 10000) / BLOCKS_PER_YEAR in
  0 <= r /\ BLOCKS_PER_YEAR * r * 10000 <= (m - s) * h /\ BLOCKS_PER_YEAR * r * 10000 <= m * c.
Proof.
  intros Hs Hc Hh r. pose proof BLOCKS_PER_YEAR_pos.
  assert (forall z, 0 <= z -> 10000 * (z / 10000) <= z /\ 0 <= z / 10000) as Hdiv.
  { intros z Hz. split; [by apply Z.mul_div_le|by apply Z.div_pos]. }
  destruct (Hdiv ((m - s) * h)) as [H1 H2]; [nia|]. destruct (Hdiv (m * c)) as [H3 H4]; [nia|].
  set (a := (m - s) * h / 10000) in *. set (b := m * c / 10000) in *.
  pose proof (Z.mul_div_le (Z.min a b) BLOCKS_PER_YEAR ltac:(lia)).
  assert (0 <= r) by (apply Z.div_pos; lia). fold r in H0. lia.
Qed.

(** C14: capped inflation never pushes the supply over the maximum. *)
Theorem issue_capped (self : CappedInflation) (n : nat) (height s m : Z)
  (Hs : 0 <= s <= m) (Hc : 0 <= ceiling_rate self) (Hh : 0 <= headroom_rate self <= 10000)
  (Hm : m < W256) (Hmc : m * ceiling_rate self < W256) (Hmh : m * headroom_rate self < W256) :
  exists s', issue self n height s m = Ret s' /\ s <= s' <= m /\
    10000 * BLOCKS_PER_YEAR * (s' - s) <= Z.of_nat n * (m * ceiling_rate self).
Proof.
  revert height s Hs. induction n as [|n IH]; intros height s Hs; cbn [issue].
  { exists s. split; [done|]. lia. }
  simpl block_reward. destruct (decide (s = m)) as [->|Hne].
  - unfold compute_reward. rewrite (proj2 (Z.leb_le _ _)) by lia. cbn [mbind outcome_bind].
    rewrite u256_add_ok, Z.add_0_r by lia. cbn [mbind outcome_bind].
    destruct (IH (height + 1) m) as (s' & E & Hb & Hi); [lia|]. exists s'. split; [done|]. nia.
  - rewrite compute_reward_eq by lia. cbn [mbind outcome_bind].
    pose proof (reward_bounds s m (ceiling_rate self) (headroom_rate self)) as Hr. cbv zeta in Hr.
    destruct Hr as (Hr0 & Hr1 & Hr2); [lia..|].
    set (r := Z.min _ _ / BLOCKS_PER_YEAR) in *. pose proof BLOCKS_PER_YEAR_pos.
    assert (r <= m - s) by (unfold BLOCKS_PER_YEAR in *; nia).
    rewrite u256_add_ok by lia. cbn [mbind outcome_bind].
    destruct (IH (height + 1) (s + r)) as (s' & E & Hb & Hi); [lia|]. exists s'. split; [done|]. nia.
Qed.

Lemma issue_capped_witness : exists s',
  issue CappedInflation_new 1000 0 (BASE_MAX_SUPPLY / 2) BASE_MAX_SUPPLY = Ret s' /\
  BASE_MAX_SUPPLY / 2 <= s' <= BASE_MAX_SUPPLY /\
  10000 * BLOCKS_PER_YEAR * (s' - BASE_MAX_SUPPLY / 2) <=
    Z.of_nat 1000 * (BASE_MAX_SUPPLY * ceiling_rate CappedInflation_new).
Proof. apply (issue_capped CappedInflation_new 1000 0); by vm_compute. Defined.
