(* ===== verification/Finality.v ===== *)
(** * Finality and fork choice ([consensus/finality.rs], [consensus/fork_choice.rs])

    [CommitTracker] accumulates commit votes; it is proved equal, for every
    sequence of votes, to the mathematical two-thirds rule on the set of distinct
    known voters.  [ForkChoice] weighs a chain by its distinct proposers. *)
From Stdlib Require Import Strings.Byte.
From stdpp Require Import base gmap sets list countable sorting.
From Stdlib Require Import ZArith Lia.
From S2P Require Import Prelude Types.

(** The fold of saturating additions over the values of a [HashMap]. *)
Definition saturating_sum (l : list Z) : Z := foldl u256_saturating_add 0 l.

Record CommitTracker := mkTracker {
  commits : gmap Z (list CommitVote);
  stake_weights : gmap Address Z;
  total_stake : Z;                    (* total_active_stake *)
  finalized : gset Z
}.

Definition tracker_new (weights : gmap Address Z) : CommitTracker :=
  mkTracker ∅ weights (saturating_sum (map snd (map_to_list weights))) ∅.

Definition cumulative_weight (self : CommitTracker) (height : Z) : Z :=
  match commits self !! height with
  | None => 0
  | Some votes => saturating_sum (omap (fun v => stake_weights self !! cv_validator v) votes)
  end.

(** [cumul.checked_mul(3).map_or(false, |c3| total.checked_mul(2).map_or(true, |t2| c3 > t2))] *)
Definition over_two_thirds (cumul total : Z) : bool :=
  match u256_checked_mul cumul 3 with
  | None => false
  | Some c3 => match u256_checked_mul total 2 with None => true | Some t2 => t2 <? c3 end
  end.

Definition add_vote (self : CommitTracker) (vote : CommitVote) : CommitTracker * bool :=
  let height := cv_height vote in
  if bool_decide (height ∈ finalized self) then (self, false)
  else if bool_decide (stake_weights self !! cv_validator vote = None) then (self, false)
  else
    let votes := default [] (commits self !! height) in
    let entered := mkTracker (<[height := votes]> (commits self)) (stake_weights self) (total_stake self) (finalized self) in
    if existsb (fun v => bool_decide (cv_validator v = cv_validator vote)) votes then (entered, false)
    else
      let self := mkTracker (<[height := votes ++ [vote]]> (commits self)) (stake_weights self)
                    (total_stake self) (finalized self) in
      if over_two_thirds (cumulative_weight self height) (total_stake self)
      then (mkTracker (commits self) (stake_weights self) (total_stake self) ({[ height ]} ∪ finalized self), true)
      else (self, true).

Definition is_final (self : CommitTracker) (height : Z) : bool := bool_decide (height ∈ finalized self).

(** [BTreeSet::last().unwrap_or(0)] *)
Definition last_finalized_height (self : CommitTracker) : Z := foldr Z.max 0 (elements (finalized self)).

Definition add_votes (self : CommitTracker) (votes : list CommitVote) : CommitTracker :=
  foldl (fun t v => (add_vote t v).1) self votes.

(** ** Fork choice *)

Inductive ForkChoiceResult := PreferA | PreferB | ForkEqual.

(** The unique proposers of a chain; the sum does not depend on the order of
    the [HashSet], the panic of [acc + w] neither. *)
Definition unique_proposers (chain : list Block) : gset Address :=
  list_to_set (map (fun b => hdr_proposer (blk_header b)) chain).

Definition total_stake_backing (chain : list Block) (weights : gmap Address Z) : outcome Z :=
  foldM u256_add 0 (omap (fun a => weights !! a) (elements (unique_proposers chain))).

Definition select_canonical (chain_a chain_b : list Block) (weights : gmap Address Z) : outcome ForkChoiceResult :=
  weight_a ← total_stake_backing chain_a weights;
  weight_b ← total_stake_backing chain_b weights;
  Ret (if weight_b <? weight_a then PreferA else if weight_a <? weight_b then PreferB else ForkEqual).

(** ** The specification: weight of a set of validators *)

Definition weight_of (w : gmap Address Z) (S : gset Address) : Z :=
  sumZ (fun a => default 0 (w !! a)) (elements S).

(** The known validators with a vote for [h] in [vs]. *)
Definition voters (w : gmap Address Z) (vs : list CommitVote) (h : Z) : gset Address :=
  list_to_set (map cv_validator (filter (fun v => cv_height v = h) vs)) ∩ dom w.

Definition weights_ok (w : gmap Address Z) : Prop :=
  map_Forall (fun _ x => 0 <= x) w /\ 3 * weight_of w (dom w) < W256.

Lemma weight_nonneg w S : map_Forall (fun _ x => 0 <= x) w -> 0 <= weight_of w S.
Proof.
  intros Hw. apply sumZ_nonneg. intros a _. destruct (w !! a) as [x|] eqn:E; simpl; [by eapply Hw|done].
Qed.

Lemma weight_insert w a S : a ∉ S -> weight_of w ({[ a ]} ∪ S) = default 0 (w !! a) + weight_of w S.
Proof.
  intros Ha. unfold weight_of. by rewrite (sumZ_perm _ _ _ (elements_union_singleton S a Ha)).
Qed.

Lemma weight_mono w S T : map_Forall (fun _ x => 0 <= x) w -> S ⊆ T -> weight_of w S <= weight_of w T.
Proof.
  intros Hw HST. assert (T = S ∪ T ∖ S) as -> by by apply union_difference_L.
  unfold weight_of. rewrite (sumZ_perm _ (elements (S ∪ T ∖ S)) (elements S ++ elements (T ∖ S))).
  2:{ apply elements_disj_union. set_solver. }
  rewrite sumZ_app. assert (0 <= weight_of w (T ∖ S)) as H by by apply weight_nonneg. unfold weight_of in H. lia.
Qed.

(** Saturating sums are plain sums while these are in range. *)
Lemma saturating_sum_app l x : saturating_sum (l ++ [x]) = u256_saturating_add (saturating_sum l) x.
Proof. unfold saturating_sum. by rewrite foldl_app. Qed.

Lemma saturating_sum_eq l :
  (forall x, x ∈ l -> 0 <= x) -> sumZ (fun x => x) l < W256 -> saturating_sum l = sumZ (fun x => x) l.
Proof.
  induction l as [|x l IH] using rev_ind; intros Hnn Hlt; [done|].
  rewrite sumZ_app in Hlt. simpl in Hlt.
  assert (0 <= x) by (apply Hnn, elem_of_app; right; by apply list_elem_of_singleton).
  rewrite saturating_sum_app, IH, sumZ_app; [|intros y Hy; apply Hnn, elem_of_app; by left|lia].
  simpl. unfold u256_saturating_add. rewrite Z.min_l; word_lia.
Qed.

Lemma total_stake_eq w : weights_ok w -> total_stake (tracker_new w) = weight_of w (dom w).
Proof.
  intros [Hw Hlt]. simpl.
  assert (sumZ (fun x => x) (map snd (map_to_list w)) = weight_of w (dom w)) as E.
  { rewrite sumZ_map. clear Hw Hlt. induction w as [|a x w Ha IH] using map_ind.
    - unfold weight_of. rewrite map_to_list_empty, dom_empty_L, elements_empty. done.
    - rewrite (sumZ_perm _ _ _ (map_to_list_insert w a x Ha)). simpl. rewrite IH, dom_insert_L, weight_insert.
      + rewrite lookup_insert_eq. simpl. f_equal. unfold weight_of. apply sumZ_ext.
        intros b Hb%elem_of_elements. rewrite lookup_insert_ne; [done|]. intros ->.
        apply elem_of_dom in Hb as [? ?]. congruence.
      + by apply not_elem_of_dom. }
  rewrite saturating_sum_eq; [done| |].
  - intros x (p & -> & Hp)%list_elem_of_fmap. destruct p as [a x]. apply elem_of_map_to_list in Hp. by eapply Hw.
  - rewrite E. pose proof (weight_nonneg w (dom w) Hw). lia.
Qed.

(** ** The tracker's invariant *)

Definition votes_at (t : CommitTracker) (h : Z) : list CommitVote := default [] (commits t !! h).
Definition voter_set (t : CommitTracker) (h : Z) : gset Address := list_to_set (map cv_validator (votes_at t h)).

(** After the votes [vs]: recorded voters are known, distinct and among the
    voters of [vs], all of them while the height is open; finality is exactly
    the two-thirds rule on the recorded voters. *)
Record tracks (w : gmap Address Z) (vs : list CommitVote) (t : CommitTracker) : Prop := {
  tr_weights : stake_weights t = w;
  tr_total : total_stake t = weight_of w (dom w);
  tr_nodup h : NoDup (map cv_validator (votes_at t h));
  tr_sub h : voter_set t h ⊆ voters w vs h;
  tr_all h : h ∉ finalized t -> voter_set t h = voters w vs h;
  tr_final h : h ∈ finalized t <-> 2 * weight_of w (dom w) < 3 * weight_of w (voter_set t h)
}.

Lemma cumulative_weight_eq w t h :
  weights_ok w -> stake_weights t = w -> NoDup (map cv_validator (votes_at t h)) -> voter_set t h ⊆ dom w ->
  cumulative_weight t h = weight_of w (voter_set t h).
Proof.
  intros [Hw Hlt] Et Hn Hsub.
  assert (cumulative_weight t h = saturating_sum (omap (fun v => w !! cv_validator v) (votes_at t h))) as ->.
  { unfold cumulative_weight, votes_at. rewrite Et. by destruct (commits t !! h). }
  assert (sumZ (fun x => x) (omap (fun v => w !! cv_validator v) (votes_at t h)) = weight_of w (voter_set t h)) as E.
  { clear -Hn Hsub. unfold voter_set in *. revert Hn Hsub.
    induction (votes_at t h) as [|v l IH]; intros Hn Hsub; [done|].
    simpl in Hn. apply NoDup_cons in Hn as [Hv Hn]. csimpl.
    assert (list_to_set (map cv_validator (v :: l)) = {[ cv_validator v ]} ∪ (list_to_set (map cv_validator l) : gset Address)) as Eset by done.
    rewrite Eset in *. rewrite weight_insert by by rewrite elem_of_list_to_set.
    assert (cv_validator v ∈ dom w) as [x Ex]%elem_of_dom by set_solver.
    rewrite Ex. simpl. rewrite IH; [done|done|set_solver]. }
  rewrite saturating_sum_eq; [done| |].
  - intros x (v & _ & Hx)%list_elem_of_omap. by eapply Hw.
  - rewrite E. pose proof (weight_mono w _ _ Hw Hsub). pose proof (weight_nonneg w (dom w) Hw). lia.
Qed.

Lemma over_two_thirds_eq c T : 0 <= c <= T -> 3 * T < W256 -> over_two_thirds c T = (2 * T <? 3 * c).
Proof.
  intros. unfold over_two_thirds, u256_checked_mul.
  rewrite (proj2 (Z.ltb_lt (c * 3) _)), (proj2 (Z.ltb_lt (T * 2) _)) by lia. f_equal; lia.
Qed.

Lemma tracks_new w : weights_ok w -> tracks w [] (tracker_new w).
Proof.
  intros Hw. split.
  - done.
  - by apply total_stake_eq.
  - intros h. constructor.
  - intros h. unfold voter_set, votes_at. simpl. set_solver.
  - intros h _. unfold voter_set, votes_at, voters. simpl. set_solver.
  - intros h. pose proof (weight_nonneg w (dom w) (proj1 Hw)). simpl.
    unfold voter_set, votes_at. simpl. rewrite lookup_empty. simpl. unfold weight_of at 2. rewrite elements_empty. simpl.
    split; [set_solver|lia].
Qed.

Lemma voters_snoc w vs v h :
  voters w (vs ++ [v]) h =
  if decide (cv_height v = h /\ cv_validator v ∈ dom w) then {[ cv_validator v ]} ∪ voters w vs h else voters w vs h.
Proof.
  unfold voters. rewrite filter_app, map_app, list_to_set_app_L. rewrite filter_cons, filter_nil.
  destruct (decide (cv_height v = h)) as [Hh|Hh].
  - simpl. destruct (decide (cv_validator v ∈ dom w)) as [Hv|Hv].
    + rewrite decide_True by done. set_solver.
    + rewrite decide_False by tauto. set_solver.
  - simpl. rewrite decide_False by tauto. set_solver.
Qed.

Lemma existsb_voter (l : list CommitVote) a :
  existsb (fun v => bool_decide (cv_validator v = a)) l = true <-> a ∈ map cv_validator l.
Proof.
  rewrite existsb_exists, list_elem_of_fmap. split.
  - intros (v & Hv%list_elem_of_In & E%bool_decide_eq_true). eauto.
  - intros (v & -> & Hv). exists v. split; [by apply list_elem_of_In|by apply bool_decide_eq_true].
Qed.

(** Recording an accepted vote. *)
Definition recorded (t : CommitTracker) (v : CommitVote) : CommitTracker :=
  mkTracker (<[cv_height v := votes_at t (cv_height v) ++ [v]]> (commits t)) (stake_weights t) (total_stake t) (finalized t).

Lemma votes_at_recorded t v h :
  votes_at (recorded t v) h = if decide (cv_height v = h) then votes_at t h ++ [v] else votes_at t h.
Proof.
  unfold votes_at, recorded. simpl. case_decide as E; [subst; by rewrite lookup_insert_eq|by rewrite lookup_insert_ne].
Qed.

Lemma voter_set_recorded t v h :
  voter_set (recorded t v) h = if decide (cv_height v = h) then {[ cv_validator v ]} ∪ voter_set t h else voter_set t h.
Proof.
  unfold voter_set. rewrite votes_at_recorded. case_decide; [|done].
  rewrite map_app, list_to_set_app_L. simpl. set_solver.
Qed.

Lemma voter_set_add_mono w vs t v :
  tracks w vs t -> forall h, voter_set t h ⊆ voters w (vs ++ [v]) h.
Proof.
  intros T h. pose proof (tr_sub _ _ _ T h) as Hs. rewrite voters_snoc. case_decide; [|done]. set_solver.
Qed.

(** A repeated vote leaves an entered, unchanged list behind. *)
Lemma tracks_duplicate w vs t v : tracks w vs t -> cv_validator v ∈ dom w -> cv_validator v ∈ voter_set t (cv_height v) ->
  tracks w (vs ++ [v]) (mkTracker (<[cv_height v:=votes_at t (cv_height v)]> (commits t)) w (total_stake t) (finalized t)).
Proof.
  intros T Hk Hin. pose proof (voter_set_add_mono w vs t v T) as Hmono.
  assert (forall h, votes_at (mkTracker (<[cv_height v:=votes_at t (cv_height v)]> (commits t)) w (total_stake t)
    (finalized t)) h = votes_at t h) as Hva.
  { intros h. unfold votes_at. simpl. destruct (decide (cv_height v = h)) as [<-|];
      [by rewrite lookup_insert_eq|by rewrite lookup_insert_ne]. }
  split; unfold voter_set; simpl; try apply T; [done|intros h; rewrite Hva..].
  - apply T.
  - apply Hmono.
  - intros Hh. fold (voter_set t h). rewrite (tr_all _ _ _ T h Hh), voters_snoc. case_decide as Hd; [|done].
    destruct Hd as [Hh' _]. rewrite <- Hh' in *. rewrite <- (tr_all _ _ _ T (cv_height v) Hh). set_solver.
  - apply T.
Qed.

(** A new vote is recorded once, for its own height. *)
Lemma recorded_tracks w vs t v : tracks w vs t -> cv_validator v ∈ dom w -> cv_validator v ∉ voter_set t (cv_height v) ->
  (forall h, NoDup (map cv_validator (votes_at (recorded t v) h))) /\
  (forall h, voter_set (recorded t v) h ⊆ voters w (vs ++ [v]) h) /\
  (forall h, h ∉ finalized t -> voter_set (recorded t v) h = voters w (vs ++ [v]) h).
Proof.
  intros T Hk Hnew. split; [|split].
  - intros h. rewrite votes_at_recorded. case_decide as Eh; [|apply T]. subst h.
    rewrite map_app. apply NoDup_app. split; [apply T|]. split; [|apply NoDup_singleton].
    intros a Ha ->%list_elem_of_singleton. apply Hnew. unfold voter_set. by rewrite elem_of_list_to_set.
  - intros h. rewrite voter_set_recorded, voters_snoc. pose proof (tr_sub _ _ _ T h) as Hs.
    destruct (decide (cv_height v = h)) as [<-|Hne]; [rewrite decide_True by done; set_solver|].
    rewrite decide_False by tauto. done.
  - intros h Hh. rewrite voter_set_recorded, voters_snoc. rewrite (tr_all _ _ _ T h Hh).
    destruct (decide (cv_height v = h)) as [<-|Hne]; [by rewrite decide_True|by rewrite decide_False by tauto].
Qed.

(** The test of the threshold is on the weight of the distinct voters. *)
Lemma recorded_threshold w vs t v : weights_ok w -> tracks w vs t -> cv_validator v ∈ dom w ->
  cv_validator v ∉ voter_set t (cv_height v) ->
  over_two_thirds (cumulative_weight (recorded t v) (cv_height v)) (total_stake t) =
    (2 * weight_of w (dom w) <? 3 * weight_of w (voter_set (recorded t v) (cv_height v))).
Proof.
  intros Hw T Hk Hnew. destruct (recorded_tracks w vs t v T Hk Hnew) as (Hnd & _).
  assert (voter_set (recorded t v) (cv_height v) ⊆ dom w) as Hdom.
  { rewrite voter_set_recorded, decide_True by done. pose proof (tr_sub _ _ _ T (cv_height v)). unfold voters in *. set_solver. }
  rewrite (cumulative_weight_eq w) by (done || apply T || apply Hnd). rewrite (tr_total _ _ _ T).
  apply over_two_thirds_eq; [|apply Hw]. split; [by apply weight_nonneg, Hw|]. by apply weight_mono; [apply Hw|].
Qed.

Lemma add_vote_tracks w vs t v : weights_ok w -> tracks w vs t -> tracks w (vs ++ [v]) (add_vote t v).1.
Proof.
  intros Hw T. unfold add_vote.
  case_bool_decide as Hfin; simpl.
  { pose proof (voter_set_add_mono w vs t v T). split; try apply T; [done|]. intros h Hh.
    rewrite voters_snoc, decide_False; [by apply T|]. by intros [<- _]. }
  rewrite (tr_weights _ _ _ T). case_bool_decide as Hun; simpl.
  { apply not_elem_of_dom in Hun. pose proof (voter_set_add_mono w vs t v T). split; try apply T; [done|]. intros h Hh.
    rewrite voters_snoc, decide_False; [by apply T|]. by intros [_ ?]. }
  change (default [] (commits t !! cv_height v)) with (votes_at t (cv_height v)).
  assert (cv_validator v ∈ dom w) as Hk by (apply elem_of_dom; by apply not_eq_None_Some).
  destruct (existsb _ _) eqn:Hdup; simpl.
  { apply existsb_voter in Hdup. apply tracks_duplicate; [done..|]. unfold voter_set. by rewrite elem_of_list_to_set. }
  assert (cv_validator v ∉ voter_set t (cv_height v)) as Hnew.
  { unfold voter_set. rewrite elem_of_list_to_set. intros Hin. apply existsb_voter in Hin. congruence. }
  replace (mkTracker (<[cv_height v:=votes_at t (cv_height v) ++ [v]]> (commits t)) w (total_stake t) (finalized t))
    with (recorded t v) by (unfold recorded; by rewrite (tr_weights _ _ _ T)).
  destruct (recorded_tracks w vs t v T Hk Hnew) as (Hnd & Hsub & Hall).
  rewrite (recorded_threshold w vs t v Hw T Hk Hnew).
  assert (forall h, cv_height v <> h -> h ∈ finalized t <-> 2 * weight_of w (dom w) < 3 * weight_of w (voter_set (recorded t v) h)) as Hother.
  { intros h Hne. rewrite voter_set_recorded, decide_False by done. apply T. }
  destruct (_ <? _) eqn:Hover; zbool; simpl; (split; simpl; [first [done|apply T]|apply T|exact Hnd|exact Hsub|..]).
  - intros h Hh. apply Hall. set_solver.
  - intros h. unfold voter_set at 1. destruct (decide (cv_height v = h)) as [<-|Hne].
    + split; [intros _; exact Hover|set_solver].
    + rewrite elem_of_union, elem_of_singleton. rewrite <- (Hother h Hne). naive_solver.
  - exact Hall.
  - intros h. destruct (decide (cv_height v = h)) as [<-|Hne]; [|by apply Hother].
    split; [done|]. intros Hlt. exfalso. unfold voter_set, votes_at in *. simpl in *. lia.
Qed.

Lemma add_votes_tracks w vs : weights_ok w -> tracks w vs (add_votes (tracker_new w) vs).
Proof.
  intros Hw. induction vs as [|v vs IH] using rev_ind; [by apply tracks_new|].
  unfold add_votes in *. rewrite foldl_app. simpl. by apply add_vote_tracks.
Qed.

(** C7: for every sequence of votes, a height is final exactly when the distinct
    known validators that voted for it hold more than two thirds of the stake.
    In particular the order and the repetition of votes do not matter. *)
Theorem finality_rule (w : gmap Address Z) (vs : list CommitVote) (h : Z) (Hw : weights_ok w) :
  is_final (add_votes (tracker_new w) vs) h = (2 * weight_of w (dom w) <? 3 * weight_of w (voters w vs h)).
Proof.
  pose proof (add_votes_tracks w vs Hw) as T. unfold is_final. set (t := add_votes (tracker_new w) vs) in *.
  case_bool_decide as Hf; symmetry.
  - apply Z.ltb_lt. apply (tr_final _ _ _ T) in Hf.
    pose proof (weight_mono w _ _ (proj1 Hw) (tr_sub _ _ _ T h)). lia.
  - apply Z.ltb_ge. rewrite <- (tr_all _ _ _ T h Hf).
    destruct (decide (2 * weight_of w (dom w) < 3 * weight_of w (voter_set t h))) as [Hlt|]; [|lia].
    by apply (tr_final _ _ _ T) in Hlt.
Qed.

(** The votes of [vs] with their block hashes replaced. *)
Definition rehash (f : CommitVote -> array 32) (v : CommitVote) : CommitVote :=
  mkCommitVote (cv_height v) (f v) (cv_validator v) (cv_signature v).

Lemma voters_rehash f w vs h : voters w (map (rehash f) vs) h = voters w vs h.
Proof.
  unfold voters. f_equal. f_equal. induction vs as [|v vs IH]; [done|]. cbn [map].
  rewrite !filter_cons. simpl. case_decide; simpl; by rewrite IH.
Qed.

(** Finality does not look at what was voted for: replacing every block hash
    by any other changes no answer of the tracker. *)
Theorem finality_ignores_block_hash (f : CommitVote -> array 32) (w : gmap Address Z) (vs : list CommitVote) (h : Z)
    (Hw : weights_ok w) :
  is_final (add_votes (tracker_new w) (map (rehash f) vs)) h = is_final (add_votes (tracker_new w) vs) h.
Proof.
  pose proof (add_votes_tracks w vs Hw) as T1. pose proof (add_votes_tracks w (map (rehash f) vs) Hw) as T2.
  pose proof (voters_rehash f w vs h) as Ev.
  unfold is_final. apply bool_decide_ext. rewrite (tr_final _ _ _ T1), (tr_final _ _ _ T2).
  destruct (decide (h ∈ finalized (add_votes (tracker_new w) vs))) as [H1|H1];
  destruct (decide (h ∈ finalized (add_votes (tracker_new w) (map (rehash f) vs)))) as [H2|H2].
  - by rewrite <- (tr_final _ _ _ T1), <- (tr_final _ _ _ T2).
  - pose proof H2 as H2'. rewrite (tr_final _ _ _ T2) in H2'. rewrite (tr_all _ _ _ T2 h H2), Ev in *.
    pose proof H1 as H1'. apply (tr_final _ _ _ T1) in H1'.
    pose proof (weight_mono w _ _ (proj1 Hw) (tr_sub _ _ _ T1 h)). split; lia.
  - pose proof H1 as H1'. rewrite (tr_final _ _ _ T1) in H1'. rewrite (tr_all _ _ _ T1 h H1) in *.
    pose proof H2 as H2'. apply (tr_final _ _ _ T2) in H2'.
    pose proof (weight_mono w _ _ (proj1 Hw) (tr_sub _ _ _ T2 h)) as Hm. rewrite Ev in Hm. split; lia.
  - by rewrite (tr_all _ _ _ T1 h H1), (tr_all _ _ _ T2 h H2), Ev.
Qed.

(** ** Fork choice *)

Lemma foldM_u256_add l acc :
  (forall x, x ∈ l -> 0 <= x) -> 0 <= acc -> acc + sumZ (fun x => x) l < W256 ->
  foldM u256_add acc l = Ret (acc + sumZ (fun x => x) l).
Proof.
  revert acc; induction l as [|x l IH]; intros acc Hl Hacc Hlt; simpl; [by rewrite Z.add_0_r|].
  assert (0 <= x) by (apply Hl; left). assert (0 <= sumZ (fun x => x) l).
  { apply sumZ_nonneg. intros y Hy. apply Hl. by right. }
  simpl in Hlt. rewrite u256_add_ok by lia. cbn [mbind outcome_bind].
  rewrite IH; [f_equal; lia|intros; apply Hl; by right|lia|lia].
Qed.

Lemma sumZ_omap_lookup (w : gmap Address Z) (l : list Address) :
  sumZ (fun x => x) (omap (fun a => w !! a) l) = sumZ (fun a => default 0 (w !! a)) l.
Proof. induction l as [|a l IH]; [done|]. csimpl. destruct (w !! a); simpl; lia. Qed.

(** The backing of a chain is the stake of its distinct proposers, and the
    canonical chain is the heavier one; the choice is antisymmetric. *)
Theorem fork_choice_correct (a b : list Block) (w : gmap Address Z)
    (Hw : map_Forall (fun _ x => 0 <= x) w)
    (Ha : weight_of w (unique_proposers a) < W256) (Hb : weight_of w (unique_proposers b) < W256) :
  total_stake_backing a w = Ret (weight_of w (unique_proposers a)) /\
  select_canonical a b w = Ret (match Z.compare (weight_of w (unique_proposers a)) (weight_of w (unique_proposers b)) with
                                | Gt => PreferA | Lt => PreferB | Eq => ForkEqual end) /\
  (select_canonical a b w = Ret PreferA <-> select_canonical b a w = Ret PreferB).
Proof.
  assert (forall c, weight_of w (unique_proposers c) < W256 ->
    total_stake_backing c w = Ret (weight_of w (unique_proposers c))) as Hback.
  { intros c Hc. unfold total_stake_backing, weight_of in *. rewrite <- sumZ_omap_lookup in *.
    apply foldM_u256_add; [|done|lia]. intros x (d & _ & Hx)%list_elem_of_omap. by eapply Hw. }
  assert (forall c d, weight_of w (unique_proposers c) < W256 -> weight_of w (unique_proposers d) < W256 ->
    select_canonical c d w = Ret (match Z.compare (weight_of w (unique_proposers c)) (weight_of w (unique_proposers d)) with
                                  | Gt => PreferA | Lt => PreferB | Eq => ForkEqual end)) as Hsel.
  { intros c d Hc Hd. unfold select_canonical. rewrite !Hback by done. cbn [mbind outcome_bind].
    unfold Z.ltb. rewrite (Z.compare_antisym (weight_of w (unique_proposers c))).
    by destruct (Z.compare _ _). }
  split; [by apply Hback|]. split; [by apply Hsel|]. rewrite !Hsel by done.
  rewrite (Z.compare_antisym (weight_of w (unique_proposers a))). by destruct (Z.compare _ _).
Qed.

(** ** Concrete inputs *)

Definition addr_of (b : byte) : Address := address_from (array_repeat 32 b).
Definition weights_ex : gmap Address Z := {[ addr_of x01 := 40; addr_of x02 := 30; addr_of x03 := 30 ]}.
Definition vote_ex (h : Z) (v : byte) : CommitVote :=
  mkCommitVote h (array_repeat 32 v) (addr_of v) (mkSignature []).

Lemma weights_ex_ok : weights_ok weights_ex.
Proof. split; [apply (bool_decide_unpack _); by vm_compute|by vm_compute]. Qed.

(** Two of three voters, one vote repeated: final; the third height is not. *)
Lemma finality_rule_witness :
  is_final (add_votes (tracker_new weights_ex) [vote_ex 5 x01; vote_ex 5 x01; vote_ex 6 x03; vote_ex 5 x02]) 5 = true /\
  (2 * weight_of weights_ex (dom weights_ex) <?
     3 * weight_of weights_ex (voters weights_ex [vote_ex 5 x01; vote_ex 5 x01; vote_ex 6 x03; vote_ex 5 x02] 5)) = true.
Proof.
  split; [|by vm_compute].
  rewrite (finality_rule weights_ex [vote_ex 5 x01; vote_ex 5 x01; vote_ex 6 x03; vote_ex 5 x02] 5 weights_ex_ok).
  by vm_compute.
Defined.

Lemma finality_ignores_block_hash_witness :
  is_final (add_votes (tracker_new weights_ex) (map (rehash (fun v => cv_block_hash (vote_ex 0 x09)))
    [vote_ex 5 x01; vote_ex 5 x02])) 5 =
  is_final (add_votes (tracker_new weights_ex) [vote_ex 5 x01; vote_ex 5 x02]) 5.
Proof. exact (finality_ignores_block_hash _ weights_ex [vote_ex 5 x01; vote_ex 5 x02] 5 weights_ex_ok). Defined.

Definition block_by (v : byte) : Block :=
  mkBlock (mkBlockHeader 1 (array_repeat 32 x00) (array_repeat 32 x00) (array_repeat 32 x00) 0 (addr_of v) 1 (mkSignature []))
    (mkBlockBody []).

Lemma fork_choice_correct_witness :
  let a := [block_by x01; block_by x01] in
  let b := [block_by x02; block_by x03] in
  total_stake_backing a weights_ex = Ret (weight_of weights_ex (unique_proposers a)) /\
  select_canonical a b weights_ex =
    Ret (match Z.compare (weight_of weights_ex (unique_proposers a)) (weight_of weights_ex (unique_proposers b)) with
         | Gt => PreferA | Lt => PreferB | Eq => ForkEqual end) /\
  (select_canonical a b weights_ex = Ret PreferA <-> select_canonical b a weights_ex = Ret PreferB).
Proof.
  apply (fork_choice_correct [block_by x01; block_by x01] [block_by x02; block_by x03] weights_ex);
    [apply (bool_decide_unpack _)| |]; by vm_compute.
Defined.
