(* ===== verification/Schedule.v ===== *)
(** * Proposer schedule, eras and the election strategy
    ([consensus/proposer.rs], [era.rs], [election.rs], [mod.rs])

    Round-robin proposer selection and its era-bound schedule, the arithmetic of
    eras on 64-bit heights, and the top-N election behind [ValidatorElection]. *)
From Stdlib Require Import Strings.Byte.
From stdpp Require Import base gmap sets list countable sorting.
From Stdlib Require Import ZArith Lia.
From S2P Require Import Prelude Types.

(** [[T]::index]: panics out of range. *)
Definition index {A} (l : list A) (i : Z) : outcome A := unwrap (l !! Z.to_nat i).

(** [trait ProposerSelection] and [RoundRobin] *)
Class ProposerSelection (P : Type) := { select_proposer : P -> Z -> list Address -> outcome Address }.

Record RoundRobin := RoundRobin_new {}.

#[export] Instance RoundRobin_selection : ProposerSelection RoundRobin := {|
  select_proposer _ slot active_set :=
    _ ← assert_ (negb (bool_decide (active_set = [])));
    index active_set (slot mod Z.of_nat (length active_set))
|}.

Record ProposerSchedule := ProposerSchedule_new {
  sch_active_set : list Address;
  sch_era : Z;
  sch_start_height : Z
}.

Definition proposer_for_height (self : ProposerSchedule) (height : Z) : outcome Address :=
  _ ← assert_ (negb (bool_decide (sch_active_set self = [])));
  let slot := u64_saturating_sub height (sch_start_height self) in
  index (sch_active_set self) (slot mod Z.of_nat (length (sch_active_set self))).

Definition is_scheduled_proposer (self : ProposerSchedule) (proposer : Address) (height : Z) : outcome bool :=
  p ← proposer_for_height self height; Ret (bool_decide (p = proposer)).

(** ** Eras *)

Definition ERA_LENGTH : Z := 720.
Definition ERA_MISSED_SLOT_PENALTY : Z := U256_limbs 3722066015023005696 433680868994 0 0.

Definition era_at_height (height : Z) : Z := height / ERA_LENGTH.
Definition is_era_boundary (height : Z) : bool := (0 <? height) && (height mod ERA_LENGTH =? 0).

Inductive ElectionMode := Open | TopN (max_validators : Z).

Definition election_mode_for_era (era : Z) (max_validators : option Z) : ElectionMode :=
  if era =? 0 then Open else TopN (default MAX_VALIDATORS max_validators).

Definition era_start_height `{BuildProfile} (target : Z) : outcome Z := u64_mul target ERA_LENGTH.
Definition era_end_height `{BuildProfile} (target : Z) : outcome Z :=
  t ← u64_add target 1; e ← u64_mul t ERA_LENGTH; u64_sub e 1.

Definition compute_missed_slot_penalty (missed : Z) : outcome Z := u256_mul ERA_MISSED_SLOT_PENALTY missed.

(** [ConsensusConfig]; durations in seconds *)
Record ConsensusConfig := ConsensusConfig_new { block_time : Z; era_length : Z; max_validators : Z }.
Definition ConsensusConfig_default : ConsensusConfig := ConsensusConfig_new 5 720 MAX_VALIDATORS.

(** ** Election strategies *)

Record ValidatorCandidate := ValidatorCandidate_new { vc_address : Address; vc_stake : Z }.

Class ValidatorElection (E : Type) := { elect : E -> list ValidatorCandidate -> Z -> list Address }.

Record TopNElection := TopNElection_new {}.

Definition candidate_cmp (a b : ValidatorCandidate) : comparison :=
  cmp_then (Z.compare (vc_stake b) (vc_stake a))
    (bytes_cmp (array_bytes (as_bytes (vc_address a))) (array_bytes (as_bytes (vc_address b)))).

#[export] Instance TopNElection_election : ValidatorElection TopNElection := {|
  elect _ candidates max :=
    if bool_decide (candidates = []) || (max =? 0) then []
    else map vc_address (take (Z.to_nat max) (sort_by candidate_cmp candidates))
|}.

#[global] Instance ValidatorCandidate_eq_dec : EqDecision ValidatorCandidate.
Proof. solve_decision. Defined.

#[export] Instance candidate_cmp_ok : CmpOk candidate_cmp.
Proof.
  apply cmp_then_ok.
  - apply (cmp_flip_ok (fun a b => Z.compare (vc_stake a) (vc_stake b))), cmp_key_ok.
  - apply (cmp_on_ok (fun c => array_bytes (as_bytes (vc_address c))) bytes_cmp), bytes_cmp_ok.
Qed.

(** Equal rank means equal stake and equal address. *)
Lemma candidate_cmp_eq a b : candidate_cmp a b = Eq -> a = b.
Proof.
  unfold candidate_cmp. destruct (Z.compare_spec (vc_stake b) (vc_stake a)) as [Es|Es|Es]; simpl; try done.
  intros Eb%bytes_cmp_eq%array_eq. destruct a as [[x] s], b as [[y] t]. simpl in *. congruence.
Qed.

(** ** Fairness of the schedule *)

Lemma proposer_for_height_ok s h : sch_active_set s <> [] ->
  exists a, proposer_for_height s h = Ret a /\
    sch_active_set s !! Z.to_nat (u64_saturating_sub h (sch_start_height s) mod Z.of_nat (length (sch_active_set s))) = Some a.
Proof.
  intros Hne. unfold proposer_for_height, index. rewrite bool_decide_false by done. simpl.
  set (n := length (sch_active_set s)). assert (0 < n)%nat as Hn by (unfold n; destruct (sch_active_set s); simpl; [done|lia]).
  set (slot := u64_saturating_sub h (sch_start_height s)).
  pose proof (Z.mod_pos_bound slot (Z.of_nat n) ltac:(lia)) as Hb.
  destruct (lookup_lt_is_Some_2 (sch_active_set s) (Z.to_nat (slot mod Z.of_nat n))) as [a Ha]; [fold n; lia|].
  exists a. rewrite Ha. done.
Qed.

(** The list of proposers of [n] consecutive heights. *)
Fixpoint proposers (s : ProposerSchedule) (h : Z) (n : nat) : outcome (list Address) :=
  match n with
  | O => Ret []
  | S n => a ← proposer_for_height s h; l ← proposers s (h + 1) n; Ret (a :: l)
  end.

Lemma proposers_lookup s n h : sch_active_set s <> [] ->
  exists l, proposers s h n = Ret l /\ length l = n /\
    forall i, (i < n)%nat -> l !! i = sch_active_set s !!
      Z.to_nat (u64_saturating_sub (h + Z.of_nat i) (sch_start_height s) mod Z.of_nat (length (sch_active_set s))).
Proof.
  intros Hne. revert h. induction n as [|n IH]; intros h; cbn [proposers].
  { exists []. split; [done|]. split; [done|]. lia. }
  destruct (proposer_for_height_ok s h Hne) as (a & -> & Ha). cbn [mbind outcome_bind].
  destruct (IH (h + 1)) as (l & -> & Hl & Hi). cbn [mbind outcome_bind].
  exists (a :: l). split; [done|]. split; [simpl; lia|]. intros [|i] Hlt; simpl.
  - by rewrite Z.add_0_r, Ha.
  - rewrite Hi by lia. do 2 f_equal. f_equal. f_equal. lia.
Qed.

(** [n] consecutive slots, starting anywhere, rotate the list once. *)
Lemma rotation_lookup {A} (l : list A) k i : (k < length l)%nat -> (i < length l)%nat ->
  (drop k l ++ take k l) !! i = l !! ((k + i) mod length l)%nat.
Proof.
  intros Hk Hi. destruct (decide (k + i < length l)%nat) as [H|H].
  - rewrite lookup_app_l by (rewrite length_drop; lia). rewrite lookup_drop, Nat.mod_small by done. done.
  - rewrite lookup_app_r by (rewrite length_drop; lia). rewrite length_drop, lookup_take_lt by lia.
    f_equal. replace (k + i)%nat with ((k + i - length l) + 1 * length l)%nat by lia.
    rewrite Nat.Div0.mod_add, Nat.mod_small by lia. lia.
Qed.

(** C17: any window of as many heights as there are validators, after the start
    of the schedule, contains every validator exactly once. *)
Theorem schedule_fair (s : ProposerSchedule) (h : Z)
    (Hne : sch_active_set s <> []) (Hh : sch_start_height s <= h) :
  exists l, proposers s h (length (sch_active_set s)) = Ret l /\ l ≡ₚ sch_active_set s.
Proof.
  destruct (proposers_lookup s (length (sch_active_set s)) h Hne) as (l & E & Hl & Hi).
  exists l. split; [done|]. set (n := length (sch_active_set s)) in *.
  assert (0 < n)%nat as Hn by (unfold n; destruct (sch_active_set s); simpl; [done|lia]).
  set (k := Z.to_nat ((h - sch_start_height s) mod Z.of_nat n)).
  pose proof (Z.mod_pos_bound (h - sch_start_height s) (Z.of_nat n) ltac:(lia)) as Hb.
  assert (k < n)%nat as Hk by (unfold k; lia).
  assert (l = drop k (sch_active_set s) ++ take k (sch_active_set s)) as ->.
  { apply list_eq. intros i. destruct (decide (i < n)%nat) as [Hlt|Hge].
    - rewrite Hi, rotation_lookup by (fold n; lia). f_equal. fold n. unfold u64_saturating_sub.
      rewrite Z.max_r by lia. apply Nat2Z.inj. rewrite Z2Nat.id by (apply Z.mod_pos_bound; lia).
      rewrite Nat2Z.inj_mod, Nat2Z.inj_add. unfold k. rewrite Z2Nat.id by lia.
      rewrite Zplus_mod_idemp_l. f_equal. lia.
    - rewrite !lookup_ge_None_2; [done| |lia]. rewrite length_app, length_drop, length_take. fold n. lia. }
  rewrite Permutation_app_comm. by rewrite take_drop.
Qed.

(** ** Era arithmetic *)

(** On 64-bit heights every height lies between the start and the end of its
    era, and the boundaries are exactly the starts of the eras after the first. *)
Theorem era_bounds `{BuildProfile} (height : Z) (Hh : 0 <= height) (Hlt : height + 720 < W64) :
  exists s e, era_start_height (era_at_height height) = Ret s /\ era_end_height (era_at_height height) = Ret e /\
    s <= height <= e /\ e - s = ERA_LENGTH - 1 /\
    (is_era_boundary height = true <-> height = s /\ 0 < era_at_height height).
Proof.
  unfold era_start_height, era_end_height, era_at_height, is_era_boundary, ERA_LENGTH.
  pose proof (Z.div_mod height 720 ltac:(lia)) as Hdm. pose proof (Z.mod_pos_bound height 720 ltac:(lia)) as Hmb.
  assert (0 <= height / 720) by (apply Z.div_pos; lia).
  unfold u64_mul, u64_sub. rewrite wrap_check_ok by lia. rewrite u64_add_ok by word_lia. cbn [mbind outcome_bind].
  rewrite wrap_check_ok by lia. cbn [mbind outcome_bind]. rewrite wrap_check_ok by lia.
  eexists _, _. split; [done|]. split; [done|]. split; [lia|]. split; [lia|].
  rewrite andb_true_iff, Z.ltb_lt, Z.eqb_eq. lia.
Qed.

(** The two constants called [MISSED_SLOT_PENALTY] differ. *)
Lemma missed_slot_penalties_differ : ERA_MISSED_SLOT_PENALTY < MISSED_SLOT_PENALTY.
Proof. done. Qed.

Lemma missed_slot_penalty_ok missed : is_u64 missed ->
  compute_missed_slot_penalty missed = Ret (ERA_MISSED_SLOT_PENALTY * missed).
Proof.
  intros Hm. apply u256_mul_ok. assert (ERA_MISSED_SLOT_PENALTY * W64 < W256) by done.
  assert (0 < ERA_MISSED_SLOT_PENALTY) by done. unfold is_u64 in *. nia.
Qed.

(** ** The top-N election *)

(** The election returns the [max] best candidates in rank order, and the
    result does not depend on the order in which candidates are listed. *)
Theorem topn_correct (candidates candidates' : list ValidatorCandidate) (max : Z)
    (Hmax : 0 <= max) (Hp : candidates ≡ₚ candidates') :
  elect TopNElection_new candidates max = elect TopNElection_new candidates' max /\
  exists chosen rest, chosen ++ rest ≡ₚ candidates /\ elect TopNElection_new candidates max = map vc_address chosen /\
    StronglySorted (cmp_le candidate_cmp) (chosen ++ rest) /\
    Z.of_nat (length chosen) = Z.min max (Z.of_nat (length candidates)).
Proof.
  assert (sort_by candidate_cmp candidates = sort_by candidate_cmp candidates') as Esort
    by (apply sort_by_unique; [apply _|apply candidate_cmp_eq|done]).
  assert (forall c, elect TopNElection_new c max = map vc_address (take (Z.to_nat max) (sort_by candidate_cmp c))) as Eel.
  { intros c. simpl. case_bool_decide as Hc; simpl; [subst c; simpl; by rewrite firstn_nil|].
    destruct (max =? 0) eqn:E; zbool; [|done]. by subst max. }
  split; [by rewrite !Eel, Esort|].
  exists (take (Z.to_nat max) (sort_by candidate_cmp candidates)), (drop (Z.to_nat max) (sort_by candidate_cmp candidates)).
  rewrite take_drop. split; [apply sort_by_perm|]. split; [apply Eel|].
  split; [apply sort_by_sorted; apply _|]. rewrite length_take, sort_by_length. lia.
Qed.

(** ** Concrete inputs *)

Definition a1 : Address := address_from (array_repeat 32 x01).
Definition a2 : Address := address_from (array_repeat 32 x02).
Definition a3 : Address := address_from (array_repeat 32 x03).

Lemma schedule_fair_witness :
  exists l, proposers (ProposerSchedule_new [a1; a2; a3] 1 720) 724 3 = Ret l /\ l ≡ₚ [a1; a2; a3].
Proof. apply (schedule_fair (ProposerSchedule_new [a1; a2; a3] 1 720) 724); [done|simpl; lia]. Defined.

Lemma era_bounds_witness :
  exists s e, @era_start_height dev_profile (era_at_height 1445) = Ret s /\
    @era_end_height dev_profile (era_at_height 1445) = Ret e /\
    s <= 1445 <= e /\ e - s = ERA_LENGTH - 1 /\
    (is_era_boundary 1445 = true <-> 1445 = s /\ 0 < era_at_height 1445).
Proof. apply (@era_bounds dev_profile 1445); by vm_compute. Defined.

Lemma topn_correct_witness :
  let l := [ValidatorCandidate_new a1 5; ValidatorCandidate_new a2 9; ValidatorCandidate_new a3 5] in
  let l' := [ValidatorCandidate_new a2 9; ValidatorCandidate_new a1 5; ValidatorCandidate_new a3 5] in
  elect TopNElection_new l 2 = elect TopNElection_new l' 2 /\
  exists chosen rest, chosen ++ rest ≡ₚ l /\ elect TopNElection_new l 2 = map vc_address chosen /\
    StronglySorted (cmp_le candidate_cmp) (chosen ++ rest) /\
    Z.of_nat (length chosen) = Z.min 2 (Z.of_nat (length l)).
Proof. apply topn_correct; [lia|apply Permutation_swap]. Defined.
