(* ===== verification/Mempool.v ===== *)
(** * The mempool ([mempool/mod.rs], [mempool/ordering.rs])

    Pending transactions per sender and nonce, a running count, admission,
    priority selection and expiry.  Monotonic instants are integers; the order
    in which the outer [HashMap] is iterated is a parameter. *)
From Stdlib Require Import Strings.Byte Strings.String.
From stdpp Require Import base gmap sets list strings countable sorting.
From Stdlib Require Import ZArith Lia.
From S2P Require Import Prelude Types External Toy.

Definition DEFAULT_MAX_SIZE : Z := 10000.
Definition DEFAULT_TTL_SECS : Z := 600.
Definition DEFAULT_PER_SENDER_CAP : Z := 50.

Record MempoolConfig := mkMempoolConfig {
  max_size : Z;
  ttl : Z;
  min_fee : Z;
  per_sender_cap : Z
}.

Definition MempoolConfig_default : MempoolConfig :=
  mkMempoolConfig DEFAULT_MAX_SIZE DEFAULT_TTL_SECS DEFAULT_MIN_MEMPOOL_FEE DEFAULT_PER_SENDER_CAP.

(** ** Priority *)

Record PoolTx := new_at { pt_tx : Transaction; received_at : Z }.

Definition pt_sender (p : PoolTx) : Address := tx_sender (pt_tx p).
Definition pt_nonce (p : PoolTx) : Z := tx_nonce (pt_tx p).
Definition pt_fee (p : PoolTx) : Z := tx_fee (pt_tx p).

Definition cmp_priority (a b : PoolTx) : comparison :=
  cmp_then (Z.compare (pt_fee b) (pt_fee a))
    (cmp_then (Z.compare (received_at a) (received_at b)) (Z.compare (pt_nonce a) (pt_nonce b))).

#[export] Instance cmp_priority_ok : CmpOk cmp_priority.
Proof.
  apply cmp_then_ok; [apply (cmp_flip_ok (fun a b => Z.compare (pt_fee a) (pt_fee b))), cmp_key_ok|].
  apply cmp_then_ok; apply cmp_key_ok.
Qed.

(** ** The pool *)

Record Mempool := mkMempool {
  config : MempoolConfig;
  txs : gmap Address (gmap Z PoolTx);
  count : Z                           (* usize *)
}.

Definition Mempool_new (c : MempoolConfig) : Mempool := mkMempool c ∅ 0.

Definition sender_map (self : Mempool) (a : Address) : gmap Z PoolTx := default ∅ (txs self !! a).

Section Mempool.
Context `{BuildProfile}.

Definition insert_tx (self : Mempool) (now : Z) (tx : Transaction) : outcome (Mempool * Result unit) :=
  if tx_fee tx <? min_fee (config self) then Ret (self, Err (Consensus "fee too low"%string))
  else if max_size (config self) <=? count self then Ret (self, Err (Consensus "mempool full"%string))
  else
    let sender_txs := sender_map self (tx_sender tx) in
    let entered := mkMempool (config self) (<[tx_sender tx := sender_txs]> (txs self)) (count self) in
    if bool_decide (is_Some (sender_txs !! tx_nonce tx))
    then Ret (entered, Err (InvalidNonce (tx_nonce tx) (tx_nonce tx)))
    else if per_sender_cap (config self) <=? Z.of_nat (size sender_txs)
    then Ret (entered, Err (Consensus "sender at cap"%string))
    else
      let pool_tx := new_at tx now in
      c ← usize_add (count self) 1;
      Ret (mkMempool (config self) (<[tx_sender tx := <[pt_nonce pool_tx := pool_tx]> sender_txs]> (txs self)) c, Ok tt).

Definition remove (self : Mempool) (sender : Address) (nonce' : Z) : outcome (Mempool * bool) :=
  match txs self !! sender with
  | None => Ret (self, false)
  | Some sender_txs =>
      match sender_txs !! nonce' with
      | None => Ret (self, false)
      | Some _ =>
          let sender_txs := delete nonce' sender_txs in
          c ← usize_sub (count self) 1;
          Ret (mkMempool (config self)
                 (if bool_decide (sender_txs = ∅) then delete sender (txs self)
                  else <[sender := sender_txs]> (txs self)) c, true)
      end
  end.

(** The values of a [BTreeMap], in key order. *)
Definition btree_values (m : gmap Z PoolTx) : list PoolTx :=
  map snd (sort_by (fun a b => Z.compare a.1 b.1) (map_to_list m)).

Definition all_txs `{!HashOrder Address} (self : Mempool) : list PoolTx :=
  flat_map (fun a => btree_values (sender_map self a)) (hash_order (dom (txs self))).

(** The selection loop over the sorted transactions. *)
Fixpoint select_loop (cap max_count : Z) (taken : gmap Address Z) (result : list Transaction) (all : list PoolTx) :
    list Transaction :=
  match all with
  | [] => result
  | pt :: all =>
      let sender_count := default 0 (taken !! pt_sender pt) in
      if cap <=? sender_count
      then select_loop cap max_count (<[pt_sender pt := sender_count]> taken) result all
      else
        let result := result ++ [pt_tx pt] in
        let taken := <[pt_sender pt := sender_count + 1]> taken in
        if max_count <=? Z.of_nat (length result) then result
        else select_loop cap max_count taken result all
  end.

Definition remove_step (self : Mempool) (tx : Transaction) : outcome Mempool :=
  '(self, _) ← remove self (tx_sender tx) (tx_nonce tx); Ret self.

Definition select `{!HashOrder Address} (self : Mempool) (max_count : Z) : outcome (Mempool * list Transaction) :=
  if (max_count =? 0) || (count self =? 0) then Ret (self, [])
  else
    let all := sort_by cmp_priority (all_txs self) in
    let result := select_loop (per_sender_cap (config self)) max_count ∅ [] all in
    self ← foldM remove_step self result;
    Ret (self, result).

(** [now.duration_since(received_at) >= ttl]; [duration_since] saturates at zero. *)
Definition expired (c : MempoolConfig) (now : Z) (pt : PoolTx) : bool := ttl c <=? Z.max 0 (now - received_at pt).

Definition retain_fresh (c : MempoolConfig) (now : Z) (m : gmap Z PoolTx) : gmap Z PoolTx :=
  filter (fun kv => expired c now kv.2 = false) m.

Definition evict_expired (self : Mempool) (now : Z) : outcome (Mempool * Z) :=
  let fresh := retain_fresh (config self) now <$> txs self in
  let evicted := map_sum (fun m => Z.of_nat (size m)) (txs self) - map_sum (fun m => Z.of_nat (size m)) fresh in
  c ← usize_sub (count self) evicted;
  Ret (mkMempool (config self) (filter (fun kv => kv.2 <> ∅) fresh) c, evicted).

Definition pool_len (self : Mempool) : Z := count self.
Definition pool_is_empty (self : Mempool) : bool := count self =? 0.
Definition sender_tx_count (self : Mempool) (a : Address) : Z := Z.of_nat (size (sender_map self a)).
Definition contains (self : Mempool) (a : Address) (n : Z) : bool := bool_decide (is_Some (sender_map self a !! n)).
End Mempool.

(** ** Well-formed pools *)

Definition pool_size (m : gmap Address (gmap Z PoolTx)) : Z := map_sum (fun x => Z.of_nat (size x)) m.

Record pool_wf (p : Mempool) : Prop := {
  wf_count : count p = pool_size (txs p);
  wf_room : 0 <= count p <= Z.max 0 (max_size (config p)) /\ max_size (config p) < W64;
  wf_cap a m : txs p !! a = Some m -> Z.of_nat (size m) <= Z.max 0 (per_sender_cap (config p));
  wf_key a m n pt : txs p !! a = Some m -> m !! n = Some pt ->
    pt_sender pt = a /\ pt_nonce pt = n /\ min_fee (config p) <= pt_fee pt
}.

Lemma pool_size_insert m a x :
  pool_size (<[a := x]> m) = pool_size m - Z.of_nat (size (default ∅ (m !! a))) + Z.of_nat (size x).
Proof. unfold pool_size. rewrite map_sum_insert. destruct (m !! a); simpl; rewrite ?map_size_empty; lia. Qed.

Lemma pool_size_delete m a x : m !! a = Some x -> pool_size (delete a m) = pool_size m - Z.of_nat (size x).
Proof. intros E. unfold pool_size. rewrite (map_sum_delete _ m a x E). lia. Qed.

Lemma size_le_pool m a x : m !! a = Some x -> Z.of_nat (size x) <= pool_size m.
Proof. intros E. apply (map_sum_lookup_le (fun x => Z.of_nat (size x)) m a x); [intros; lia|done]. Qed.

Lemma pool_new_wf c : 0 <= max_size c < W64 -> pool_wf (Mempool_new c).
Proof.
  intros Hc. split; simpl; [by unfold pool_size; rewrite map_sum_empty|lia| |].
  - intros a m E. by rewrite lookup_empty in E.
  - intros a m n pt E. by rewrite lookup_empty in E.
Qed.

Section Laws.
Context `{BuildProfile}.

(** Registering an empty entry for a sender changes nothing observable. *)
Lemma enter_wf p a : pool_wf p -> pool_wf (mkMempool (config p) (<[a := sender_map p a]> (txs p)) (count p)).
Proof.
  intros [Hc Hr Hcap Hk]. unfold sender_map. destruct (txs p !! a) as [m|] eqn:E; simpl.
  - rewrite insert_id by done. by destruct p.
  - split; simpl; [|done| |].
    + rewrite pool_size_insert, E. simpl. rewrite map_size_empty. lia.
    + intros b m Hb. destruct (decide (a = b)) as [<-|Hne].
      * rewrite lookup_insert_eq in Hb. injection Hb as <-. rewrite map_size_empty. lia.
      * rewrite lookup_insert_ne in Hb by done. by eapply Hcap.
    + intros b m n pt Hb Hn. destruct (decide (a = b)) as [<-|Hne].
      * rewrite lookup_insert_eq in Hb. injection Hb as <-. by rewrite lookup_empty in Hn.
      * rewrite lookup_insert_ne in Hb by done. by eapply Hk.
Qed.

Lemma insert_tx_wf p now tx p' r : pool_wf p -> insert_tx p now tx = Ret (p', r) -> pool_wf p'.
Proof.
  intros Hwf. pose proof Hwf as [Hc Hr Hcap Hk]. unfold insert_tx.
  destruct (tx_fee tx <? min_fee (config p)) eqn:Efee; [by intros [<- _]%Ret_pair_inj|].
  destruct (max_size (config p) <=? count p) eqn:Efull; [by intros [<- _]%Ret_pair_inj|].
  case_bool_decide as Edup; [intros [<- _]%Ret_pair_inj; by apply enter_wf|].
  destruct (per_sender_cap (config p) <=? _) eqn:Ecap; [intros [<- _]%Ret_pair_inj; by apply enter_wf|].
  zbool. unfold usize_add. rewrite wrap_check_ok by lia. cbn [mbind outcome_bind].
  intros [<- _]%Ret_pair_inj. apply eq_None_not_Some in Edup.
  assert (size (<[tx_nonce tx := new_at tx now]> (sender_map p (tx_sender tx))) = S (size (sender_map p (tx_sender tx)))) as Esz
    by by apply map_size_insert_None.
  split; simpl.
  - rewrite pool_size_insert. change (default ∅ (txs p !! tx_sender tx)) with (sender_map p (tx_sender tx)).
    unfold pt_nonce. simpl. rewrite Esz. lia.
  - lia.
  - intros b m Hb. destruct (decide (tx_sender tx = b)) as [<-|Hne].
    + rewrite lookup_insert_eq in Hb. injection Hb as <-. unfold pt_nonce. simpl. rewrite Esz. lia.
    + rewrite lookup_insert_ne in Hb by done. by eapply Hcap.
  - intros b m n pt Hb Hn. destruct (decide (tx_sender tx = b)) as [<-|Hne].
    + rewrite lookup_insert_eq in Hb. injection Hb as <-. unfold pt_nonce in Hn. simpl in Hn.
      destruct (decide (tx_nonce tx = n)) as [<-|Hn'].
      * rewrite lookup_insert_eq in Hn. injection Hn as <-. split; [done|]. split; [done|]. unfold pt_fee. simpl. lia.
      * rewrite lookup_insert_ne in Hn by done. unfold sender_map in Hn.
        destruct (txs p !! tx_sender tx) as [m|] eqn:E; simpl in Hn; [by eapply Hk|by rewrite lookup_empty in Hn].
    + rewrite lookup_insert_ne in Hb by done. by eapply Hk.
Qed.

Lemma remove_ok p a n : pool_wf p ->
  exists p', remove p a n = Ret (p', contains p a n) /\ pool_wf p' /\ config p' = config p /\
    count p' = count p - (if contains p a n then 1 else 0) /\
    forall b k, sender_map p' b !! k = if decide (b = a /\ k = n) then None else sender_map p b !! k.
Proof.
  intros Hwf. pose proof Hwf as [Hc Hr Hcap Hk]. unfold remove, contains, sender_map.
  destruct (txs p !! a) as [m|] eqn:Ea; simpl.
  2:{ exists p. rewrite bool_decide_false by (rewrite lookup_empty; by intros []). split_and!; try done; [lia|].
      intros b k. case_decide as E; [|done]. destruct E as [-> ->]. rewrite Ea. simpl. by rewrite lookup_empty. }
  destruct (m !! n) as [pt|] eqn:En; simpl.
  2:{ exists p. split_and!; try done; [simpl; lia|].
      intros b k. case_decide as E; [|done]. destruct E as [-> ->]. by rewrite Ea. }
  assert (Z.of_nat (size (delete n m)) = Z.of_nat (size m) - 1) as Esz.
  { rewrite map_size_delete, En. assert (size m <> 0)%nat; [|lia]. intros E0. apply map_size_empty_inv in E0.
    subst. by rewrite lookup_empty in En. }
  pose proof (size_le_pool (txs p) a m Ea) as Hle.
  assert (0 <= Z.of_nat (size (delete n m))) by lia.
  unfold usize_sub. rewrite wrap_check_ok by lia. cbn [mbind outcome_bind].
  eexists. split; [done|].
  assert (forall b k, default ∅ ((if bool_decide (delete n m = ∅) then delete a (txs p) else <[a := delete n m]> (txs p)) !! b) !! k =
    (if decide (b = a /\ k = n) then None else default ∅ (txs p !! b) !! k)) as Hlook.
  { intros b k. destruct (decide (b = a)) as [->|Hb].
    - case_bool_decide as Hemp; rewrite ?lookup_delete_eq, ?lookup_insert_eq; simpl.
      + rewrite lookup_empty, Ea. simpl. case_decide as E; [done|].
        destruct (decide (k = n)) as [->|Hkn]; [tauto|]. rewrite <- (lookup_delete_ne m n k) by done.
        by rewrite Hemp, lookup_empty.
      + rewrite Ea. simpl. case_decide as E; [destruct E as [_ ->]; by rewrite lookup_delete_eq|].
        rewrite lookup_delete_ne; [done|]. intros ->. tauto.
    - rewrite (decide_False (P := b = a /\ k = n)) by tauto. case_bool_decide; [by rewrite lookup_delete_ne|by rewrite lookup_insert_ne]. }
  split; [|split_and!; simpl; [done|lia|exact Hlook]].
  split; simpl.
  - case_bool_decide as Hemp.
    + rewrite (pool_size_delete _ a m Ea). rewrite Hemp, map_size_empty in Esz. lia.
    + rewrite pool_size_insert, Ea. simpl. lia.
  - lia.
  - intros b x Hb. destruct (decide (a = b)) as [<-|Hne].
    + case_bool_decide; [by rewrite lookup_delete_eq in Hb|]. rewrite lookup_insert_eq in Hb. injection Hb as <-.
      pose proof (Hcap a m Ea). lia.
    + case_bool_decide; [rewrite lookup_delete_ne in Hb by done|rewrite lookup_insert_ne in Hb by done]; by eapply Hcap.
  - intros b x k q Hb Hq. destruct (decide (a = b)) as [<-|Hne].
    + case_bool_decide; [by rewrite lookup_delete_eq in Hb|]. rewrite lookup_insert_eq in Hb. injection Hb as <-.
      apply lookup_delete_Some in Hq as [_ Hq]. by eapply Hk.
    + case_bool_decide; [rewrite lookup_delete_ne in Hb by done|rewrite lookup_insert_ne in Hb by done]; by eapply Hk.
Qed.
End Laws.

(** ** Selection *)

(** How many of [l] come from sender [a]. *)
Definition occurrences (a : Address) (l : list PoolTx) : Z := Z.of_nat (length (filter (fun p => pt_sender p = a) l)).

Lemma occurrences_app a l k : occurrences a (l ++ k) = occurrences a l + occurrences a k.
Proof. unfold occurrences. rewrite filter_app, length_app. lia. Qed.

Lemma occurrences_cons a p l : occurrences a (p :: l) = (if decide (pt_sender p = a) then 1 else 0) + occurrences a l.
Proof. unfold occurrences. rewrite filter_cons. case_decide; simpl; lia. Qed.

Lemma occurrences_perm a l k : l ≡ₚ k -> occurrences a l = occurrences a k.
Proof. intros Hp. unfold occurrences. by rewrite Hp. Qed.

Lemma occurrences_nonneg a l : 0 <= occurrences a l.
Proof. unfold occurrences. lia. Qed.

(** While no sender exceeds the cap, the loop just takes a prefix. *)
Lemma select_loop_take cap max all taken res :
  (forall a, 0 <= default 0 (taken !! a) /\ default 0 (taken !! a) + occurrences a all <= Z.max 0 cap) ->
  Z.of_nat (length res) < max ->
  select_loop cap max taken res all = res ++ map pt_tx (take (Z.to_nat (max - Z.of_nat (length res))) all).
Proof.
  revert taken res; induction all as [|pt all IH]; intros taken res Hcap Hlen; simpl.
  { by rewrite firstn_nil, app_nil_r. }
  destruct (Hcap (pt_sender pt)) as [Hc0 Hc]. rewrite occurrences_cons, decide_True in Hc by done.
  pose proof (occurrences_nonneg (pt_sender pt) all). rewrite (proj2 (Z.leb_gt _ _)) by lia.
  rewrite length_app. simpl. replace (Z.to_nat (max - Z.of_nat (length res))) with
    (S (Z.to_nat (max - Z.of_nat (length (res ++ [pt_tx pt]))))) by (rewrite length_app; simpl; lia).
  simpl. destruct (max <=? Z.of_nat (length res + 1)) eqn:Emax; zbool.
  - replace (Z.to_nat _) with 0%nat by (rewrite length_app; simpl; lia). done.
  - rewrite IH.
    + by rewrite <- app_assoc.
    + intros a. destruct (Hcap a) as [Ha0 Ha]. rewrite occurrences_cons in Ha.
      destruct (decide (pt_sender pt = a)) as [<-|Hne].
      * rewrite lookup_insert_eq. simpl. lia.
      * rewrite lookup_insert_ne by done. lia.
    + rewrite length_app. simpl. lia.
Qed.

Section Select.
Context `{BuildProfile} `{!HashOrder Address} `{!HashOrderOk Address}.

Lemma btree_values_perm m : btree_values m ≡ₚ map snd (map_to_list m).
Proof. unfold btree_values. by rewrite sort_by_perm. Qed.

Lemma btree_values_elem m pt : pt ∈ btree_values m <-> exists n, m !! n = Some pt.
Proof.
  rewrite btree_values_perm, list_elem_of_fmap. split.
  - intros ([n q] & -> & Hq%elem_of_map_to_list). eauto.
  - intros [n Hn]. exists (n, pt). by rewrite elem_of_map_to_list.
Qed.

Lemma all_txs_elem p pt : pool_wf p ->
  pt ∈ all_txs p <-> sender_map p (pt_sender pt) !! pt_nonce pt = Some pt.
Proof.
  intros Hwf. unfold all_txs. rewrite list_elem_of_In, in_flat_map. split.
  - intros (a & Ha%list_elem_of_In%hash_order_elem & Hpt%list_elem_of_In%btree_values_elem).
    apply elem_of_dom in Ha as [m Em]. destruct Hpt as [n Hn]. unfold sender_map in *. rewrite Em in Hn. simpl in Hn.
    destruct (wf_key _ Hwf a m n pt Em Hn) as (-> & -> & _). by rewrite Em.
  - intros E. exists (pt_sender pt). rewrite <- !list_elem_of_In, hash_order_elem, btree_values_elem. split; [|by eexists].
    unfold sender_map in E. apply elem_of_dom. destruct (txs p !! pt_sender pt) as [m|]; [by eexists|].
    simpl in E. by rewrite lookup_empty in E.
Qed.

Lemma flat_map_occurrences p a ks : pool_wf p -> NoDup ks ->
  occurrences a (flat_map (fun b => btree_values (sender_map p b)) ks) =
  if decide (a ∈ ks) then Z.of_nat (size (sender_map p a)) else 0.
Proof.
  intros Hwf. induction 1 as [|b ks Hb _ IH]; [done|]. simpl. rewrite occurrences_app, IH.
  assert (occurrences a (btree_values (sender_map p b)) = if decide (b = a) then Z.of_nat (size (sender_map p b)) else 0) as ->.
  { rewrite (occurrences_perm _ _ _ (btree_values_perm _)). unfold occurrences.
    assert (forall pt, pt ∈ map snd (map_to_list (sender_map p b)) -> pt_sender pt = b) as Hs.
    { intros pt ([n q] & -> & Hq%elem_of_map_to_list)%list_elem_of_fmap. unfold sender_map in Hq.
      destruct (txs p !! b) as [m|] eqn:Em; [|simpl in Hq; by rewrite lookup_empty in Hq].
      by destruct (wf_key _ Hwf b m n q Em Hq). }
    destruct (decide (b = a)) as [Hab|Hab].
    - subst b. rewrite list_filter_all; [|apply Forall_forall; auto].
      rewrite length_map. by rewrite length_map_to_list.
    - rewrite list_filter_none; [done|]. apply Forall_forall. intros pt Hpt E. apply Hab. by rewrite <- (Hs pt Hpt). }
  destruct (decide (a ∈ b :: ks)) as [Hin|Hnin].
  - apply elem_of_cons in Hin as [->|Hin].
    + rewrite decide_True by done. rewrite decide_False by done. lia.
    + rewrite (decide_True (P := a ∈ ks)) by done. rewrite decide_False; [lia|]. by intros ->.
  - apply not_elem_of_cons in Hnin as [Hab Hks]. rewrite !decide_False by (done || by intros ->). done.
Qed.

Lemma all_txs_occurrences p a : pool_wf p -> occurrences a (all_txs p) <= Z.max 0 (per_sender_cap (config p)).
Proof.
  intros Hwf. unfold all_txs. rewrite flat_map_occurrences by (done || apply hash_order_nodup).
  case_decide; [|lia]. unfold sender_map. destruct (txs p !! a) as [m|] eqn:E; simpl; [by eapply wf_cap|].
  rewrite map_size_empty. lia.
Qed.

Definition pool_id (pt : PoolTx) : Address * Z := (pt_sender pt, pt_nonce pt).
Definition tx_key (tx : Transaction) : Address * Z := (tx_sender tx, tx_nonce tx).

Lemma sender_map_key p b n q : pool_wf p -> sender_map p b !! n = Some q -> pt_sender q = b /\ pt_nonce q = n.
Proof.
  intros Hwf Hq. unfold sender_map in Hq.
  destruct (txs p !! b) as [m|] eqn:Em; [|simpl in Hq; by rewrite lookup_empty in Hq].
  by destruct (wf_key _ Hwf b m n q Em Hq) as (? & ? & _).
Qed.

Lemma btree_ids_nodup p b : pool_wf p -> NoDup (map pool_id (btree_values (sender_map p b))).
Proof.
  intros Hwf. rewrite (btree_values_perm (sender_map p b)), map_map.
  assert (map (fun x => pool_id x.2) (map_to_list (sender_map p b)) = map (fun n => (b, n)) (map fst (map_to_list (sender_map p b)))) as E.
  { rewrite map_map. apply map_ext_in. intros [n q] Hin%list_elem_of_In%elem_of_map_to_list.
    destruct (sender_map_key p b n q Hwf Hin) as [Hs Hn]. unfold pool_id. simpl. by rewrite Hs, Hn. }
  rewrite E. apply NoDup_fmap_2; [by intros ?? [=]|]. apply NoDup_fst_map_to_list.
Qed.

Lemma all_ids_nodup p : pool_wf p -> NoDup (map pool_id (all_txs p)).
Proof.
  intros Hwf. unfold all_txs. pose proof (hash_order_nodup (dom (txs p))) as Hn.
  induction Hn as [|b ks Hb _ IH]; [constructor|]. simpl. rewrite map_app. apply NoDup_app.
  split; [by apply btree_ids_nodup|]. split; [|done].
  intros x (q & -> & Hq)%list_elem_of_fmap (q' & E & Hq')%list_elem_of_fmap.
  apply btree_values_elem in Hq as [n Hq]. destruct (sender_map_key p b n q Hwf Hq) as [Hs _].
  apply list_elem_of_In, in_flat_map in Hq' as (c & Hc%list_elem_of_In & Hq'%list_elem_of_In%btree_values_elem).
  destruct Hq' as [n' Hq']. destruct (sender_map_key p c n' q' Hwf Hq') as [Hs' _].
  injection E as Es _. rewrite Hs, Hs' in Es. by subst c.
Qed.

Lemma all_txs_length p : pool_wf p -> Z.of_nat (length (all_txs p)) = count p.
Proof.
  intros Hwf. rewrite (wf_count _ Hwf). unfold all_txs.
  assert (forall (m : gmap Address (gmap Z PoolTx)), pool_size m =
    sumZ (fun a => Z.of_nat (size (default ∅ (m !! a)))) (elements (dom m))) as Hsum.
  { clear. unfold pool_size. intros m. induction m as [|a x m Ha IH] using map_ind.
    - by rewrite map_sum_empty, dom_empty_L, elements_empty.
    - rewrite map_sum_insert_None by done. rewrite dom_insert_L.
      rewrite (sumZ_perm _ _ _ (elements_union_singleton (dom m) a ltac:(by apply not_elem_of_dom))). simpl.
      rewrite lookup_insert_eq. simpl. rewrite IH. f_equal. apply sumZ_ext.
      intros b Hb%elem_of_elements. rewrite lookup_insert_ne; [done|]. intros ->.
      apply elem_of_dom in Hb as [? ?]. congruence. }
  rewrite Hsum, <- (sumZ_perm _ _ _ (hash_order_perm (dom (txs p)))).
  induction (hash_order (dom (txs p))) as [|a l IH]; [done|]. simpl. rewrite length_app, Nat2Z.inj_add, IH. f_equal.
  rewrite (btree_values_perm (sender_map p a)), length_map, length_map_to_list. done.
Qed.

Lemma remove_all_ok l p : pool_wf p -> NoDup (map tx_key l) ->
  (forall tx, tx ∈ l -> contains p (tx_sender tx) (tx_nonce tx) = true) ->
  exists p', foldM remove_step p l = Ret p' /\ pool_wf p' /\ config p' = config p /\
    count p' = count p - Z.of_nat (length l) /\
    forall b k, sender_map p' b !! k = if decide ((b, k) ∈ map tx_key l) then None else sender_map p b !! k.
Proof.
  intros Hwf Hn. revert p Hwf. induction l as [|tx l IH]; intros p Hwf Hin.
  { exists p. split; [done|]. split; [done|]. split; [done|]. split; [simpl; lia|].
    intros b k. rewrite decide_False; [done|]. apply not_elem_of_nil. }
  simpl in Hn. apply NoDup_cons in Hn as [Hnew Hn]. cbn [foldM]. unfold remove_step at 2.
  destruct (remove_ok p (tx_sender tx) (tx_nonce tx) Hwf) as (p1 & -> & Hwf1 & Hcfg1 & Hcnt1 & Hl1).
  cbn [mbind outcome_bind]. rewrite (Hin tx) in Hcnt1 by left.
  destruct (IH Hn p1 Hwf1) as (p' & -> & Hwf' & Hcfg' & Hcnt' & Hl').
  { intros t Ht. unfold contains. rewrite Hl1. rewrite decide_False.
    - apply Hin. by right.
    - intros [Es En]. apply Hnew. apply list_elem_of_fmap. exists t. split; [|done]. unfold tx_key. by rewrite Es, En. }
  exists p'. split; [done|]. split; [done|]. split; [congruence|]. split; [simpl; lia|].
  intros b k. rewrite Hl', Hl1. simpl. destruct (decide ((b, k) ∈ map tx_key l)) as [Hbk|Hbk].
  - rewrite decide_True; [done|]. by right.
  - destruct (decide (b = tx_sender tx /\ k = tx_nonce tx)) as [[-> ->]|Hne].
    + rewrite decide_True; [done|]. left.
    + rewrite decide_False; [done|]. intros [E|E]%elem_of_cons; [|done]. injection E as -> ->. tauto.
Qed.

(** [select] takes a prefix of the sorted pool. *)
Lemma select_spec (p : Mempool) (max_count : Z) :
  pool_wf p -> 0 <= max_count ->
  let sorted := sort_by cmp_priority (all_txs p) in
  exists p', select p max_count = Ret (p', map pt_tx (take (Z.to_nat max_count) sorted)) /\ pool_wf p' /\ config p' = config p /\
    count p' = count p - Z.of_nat (length (take (Z.to_nat max_count) sorted)) /\
    forall b k, sender_map p' b !! k =
      if decide ((b, k) ∈ map pool_id (take (Z.to_nat max_count) sorted)) then None else sender_map p b !! k.
Proof.
  intros Hwf Hmax sorted.
  assert (Z.of_nat (length sorted) = count p) as Hlen
    by (unfold sorted; rewrite sort_by_length; by apply all_txs_length).
  unfold select. destruct ((max_count =? 0) || (count p =? 0)) eqn:E0.
  - assert (take (Z.to_nat max_count) sorted = []) as ->.
    { apply orb_true_iff in E0 as [E0|E0]; zbool; [by subst max_count|].
      destruct sorted; [by rewrite firstn_nil|simpl in Hlen; lia]. }
    exists p. do 3 (split; [done|]). split; [simpl; lia|]. intros b k. by rewrite decide_False by apply not_elem_of_nil.
  - zbool. fold sorted. rewrite select_loop_take.
    2:{ intros a. rewrite lookup_empty. simpl. split; [done|]. unfold sorted.
        rewrite (occurrences_perm a _ _ (sort_by_perm cmp_priority (all_txs p))). by apply all_txs_occurrences. }
    2:{ simpl. lia. }
    cbn [length app]. rewrite Z.sub_0_r.
    assert (map tx_key (map pt_tx (take (Z.to_nat max_count) sorted)) = map pool_id (take (Z.to_nat max_count) sorted)) as Ekey
      by by rewrite map_map.
    destruct (remove_all_ok (map pt_tx (take (Z.to_nat max_count) sorted)) p Hwf) as (p' & -> & Hwf' & Hcfg & Hcnt & Hl).
    + rewrite Ekey, <- firstn_map. apply NoDup_take. unfold sorted. rewrite sort_by_perm. by apply all_ids_nodup.
    + intros tx (q & -> & Hq%take_elem)%list_elem_of_fmap. unfold sorted in Hq.
      apply sort_by_elem, all_txs_elem in Hq; [|done]. unfold contains. apply bool_decide_eq_true. by eexists.
    + exists p'. rewrite length_map in Hcnt. rewrite Ekey in Hl. done.
Qed.

(** C12: [select] returns the [max_count] transactions of highest priority, each
    once, in priority order, and removes exactly them; it never panics. *)
Theorem select_correct (p : Mempool) (max_count : Z) (Hwf : pool_wf p) (Hmax : 0 <= max_count) :
  exists p' chosen rest,
    select p max_count = Ret (p', map pt_tx chosen) /\ pool_wf p' /\
    chosen ++ rest ≡ₚ all_txs p /\ StronglySorted (cmp_le cmp_priority) (chosen ++ rest) /\
    Z.of_nat (length chosen) = Z.min max_count (count p) /\ count p' = count p - Z.of_nat (length chosen) /\
    forall a n, contains p' a n = true <-> contains p a n = true /\ (a, n) ∉ map pool_id chosen.
Proof.
  set (sorted := sort_by cmp_priority (all_txs p)).
  assert (Z.of_nat (length sorted) = count p) as Hlen
    by (unfold sorted; rewrite sort_by_length; by apply all_txs_length).
  destruct (select_spec p max_count Hwf Hmax) as (p' & E & Hwf' & _ & Hcnt & Hlook). fold sorted in E, Hcnt, Hlook.
  exists p', (take (Z.to_nat max_count) sorted), (drop (Z.to_nat max_count) sorted). rewrite take_drop.
  split; [done|]. split; [done|]. split; [apply sort_by_perm|]. split; [apply sort_by_sorted; apply _|].
  split; [rewrite length_take; lia|]. split; [done|].
  intros a n. unfold contains. rewrite !bool_decide_eq_true, Hlook. case_decide; split; try tauto; by intros [].
Qed.
End Select.

Section Admission.
Context `{BuildProfile}.

(** The checks of [insert]. *)
Definition admissible (p : Mempool) (tx : Transaction) : Prop :=
  min_fee (config p) <= tx_fee tx /\ count p < max_size (config p) /\
  contains p (tx_sender tx) (tx_nonce tx) = false /\ sender_tx_count p (tx_sender tx) < per_sender_cap (config p).

Lemma entered_lookup p a b n :
  sender_map (mkMempool (config p) (<[a := sender_map p a]> (txs p)) (count p)) b !! n = sender_map p b !! n.
Proof.
  unfold sender_map at 1. simpl. destruct (decide (a = b)) as [<-|Hne];
    [by rewrite lookup_insert_eq|by rewrite lookup_insert_ne].
Qed.

Lemma insert_spec (p : Mempool) (now : Z) (tx : Transaction) : pool_wf p ->
  exists p' r, insert_tx p now tx = Ret (p', r) /\ pool_wf p' /\ (is_ok r = true <-> admissible p tx) /\
    count p' = count p + (if is_ok r then 1 else 0) /\
    forall a n, sender_map p' a !! n =
      if is_ok r && bool_decide (a = tx_sender tx /\ n = tx_nonce tx) then Some (new_at tx now) else sender_map p a !! n.
Proof.
  intros Hwf. assert (forall p' r, insert_tx p now tx = Ret (p', r) -> pool_wf p') as Hpres
    by (intros p' r; by apply insert_tx_wf).
  pose proof Hwf as [Hc Hr Hcap Hk]. unfold insert_tx, admissible, contains, sender_tx_count in *.
  destruct (tx_fee tx <? min_fee (config p)) eqn:Efee; zbool.
  { eexists p, _. split; [done|]. split; [done|]. simpl. split; [split; [done|intros (? & ? & ? & ?); lia]|]. split; [lia|done]. }
  destruct (max_size (config p) <=? count p) eqn:Efull; zbool.
  { eexists p, _. split; [done|]. split; [done|]. simpl. split; [split; [done|intros (? & ? & ? & ?); lia]|]. split; [lia|done]. }
  case_bool_decide as Edup.
  { eexists _, _. split; [done|]. split; [by apply enter_wf|]. simpl.
    split; [split; [done|by intros (_ & _ & ? & _)]|]. split; [lia|apply entered_lookup]. }
  destruct (per_sender_cap (config p) <=? _) eqn:Ecap; zbool.
  { eexists _, _. split; [done|]. split; [by apply enter_wf|]. simpl.
    split; [split; [done|intros (? & ? & ? & ?); lia]|]. split; [lia|apply entered_lookup]. }
  unfold usize_add in *. rewrite wrap_check_ok in Hpres by lia. rewrite wrap_check_ok by lia.
  cbn [mbind outcome_bind] in *. eexists _, _. split; [done|]. split; [by eapply Hpres|]. simpl.
  split; [done|]. split; [done|]. intros a n. unfold sender_map. simpl. unfold pt_nonce. simpl.
  case_bool_decide as Ean.
  - destruct Ean as [-> ->]. rewrite lookup_insert_eq. simpl. by rewrite lookup_insert_eq.
  - destruct (decide (tx_sender tx = a)) as [<-|Hne]; [|by rewrite lookup_insert_ne].
    rewrite lookup_insert_eq. simpl. rewrite lookup_insert_ne; [done|]. intros <-. tauto.
Qed.

(** C13: admission.  A transaction is accepted exactly when its fee is high
    enough, the pool and the sender have room and its nonce is new; an accepted
    one is stored, a rejected one changes no entry.  The pool never exceeds its
    size, whatever is inserted. *)
Theorem insert_correct (p : Mempool) (now : Z) (tx : Transaction) (Hwf : pool_wf p) :
  exists p' r, insert_tx p now tx = Ret (p', r) /\ pool_wf p' /\
    (is_ok r = true <->
       min_fee (config p) <= tx_fee tx /\ count p < max_size (config p) /\
       contains p (tx_sender tx) (tx_nonce tx) = false /\ sender_tx_count p (tx_sender tx) < per_sender_cap (config p)) /\
    count p' = count p + (if is_ok r then 1 else 0) /\ count p' <= Z.max (count p) (max_size (config p)) /\
    forall a n, sender_map p' a !! n =
      if is_ok r && bool_decide (a = tx_sender tx /\ n = tx_nonce tx) then Some (new_at tx now) else sender_map p a !! n.
Proof.
  destruct (insert_spec p now tx Hwf) as (p' & r & E & Hwf' & Hok & Hc & Hl). unfold admissible in Hok.
  exists p', r. do 4 (split; [done|]). split; [|done]. rewrite Hc. destruct r; simpl in *; [|lia].
  destruct (proj1 Hok eq_refl) as (_ & ? & _). lia.
Qed.

Lemma pool_size_drop_empty m : pool_size (filter (fun kv => kv.2 <> ∅) m) = pool_size m.
Proof.
  unfold pool_size. induction m as [|a x m Ha IH] using map_ind; [by rewrite map_filter_empty|].
  rewrite (map_sum_insert_None _ m a x Ha). destruct (decide (x = ∅)) as [->|Hx].
  - rewrite map_filter_insert_False by (simpl; tauto). rewrite delete_id by done. rewrite IH, map_size_empty. lia.
  - rewrite map_filter_insert_True by done. rewrite map_sum_insert_None, IH; [done|].
    apply map_lookup_filter_None. by left.
Qed.

Lemma size_retain_le c now (m : gmap Z PoolTx) : (size (retain_fresh c now m) <= size m)%nat.
Proof. apply map_subseteq_size, map_filter_subseteq. Qed.

Lemma pool_size_retain_le c now m : pool_size (retain_fresh c now <$> m) <= pool_size m.
Proof.
  unfold pool_size, map_sum. rewrite map_to_list_fmap, sumZ_map. apply sumZ_mono. intros [a x] _. simpl.
  pose proof (size_retain_le c now x). lia.
Qed.

Lemma pool_size_nonneg m : 0 <= pool_size m.
Proof. apply map_sum_nonneg. intros; lia. Qed.

(** Expiry.  Exactly the transactions older than the time-to-live leave the
    pool, and their number is reported. *)
Lemma evict_spec (p : Mempool) (now : Z) (Hwf : pool_wf p) :
  exists p' evicted, evict_expired p now = Ret (p', evicted) /\ pool_wf p' /\ config p' = config p /\
    0 <= evicted /\ count p' + evicted = count p /\
    forall a n pt, sender_map p' a !! n = Some pt <->
      sender_map p a !! n = Some pt /\ Z.max 0 (now - received_at pt) < ttl (config p).
Proof.
  pose proof Hwf as [Hc Hr Hcap Hk]. unfold evict_expired.
  set (fresh := retain_fresh (config p) now <$> txs p).
  change (map_sum (fun m => Z.of_nat (size m)) (txs p)) with (pool_size (txs p)).
  change (map_sum (fun m => Z.of_nat (size m)) fresh) with (pool_size fresh).
  pose proof (pool_size_retain_le (config p) now (txs p)) as Hle. fold fresh in Hle.
  pose proof (pool_size_nonneg fresh) as Hnn.
  unfold usize_sub. rewrite wrap_check_ok by word_lia. cbn [mbind outcome_bind]. eexists _, _. split; [done|].
  assert (forall a m, filter (fun kv => kv.2 <> ∅) fresh !! a = Some m ->
    exists m0, txs p !! a = Some m0 /\ m = retain_fresh (config p) now m0) as Hfil.
  { intros a m Hm. apply map_lookup_filter_Some in Hm as [Hm _]. unfold fresh in Hm. rewrite lookup_fmap in Hm.
    destruct (txs p !! a) as [m0|]; simpl in Hm; [|done]. injection Hm as <-. eauto. }
  split; [split; simpl|].
  - rewrite pool_size_drop_empty. lia.
  - lia.
  - intros a m Hm. destruct (Hfil a m Hm) as (m0 & E0 & ->). pose proof (Hcap a m0 E0).
    pose proof (size_retain_le (config p) now m0). lia.
  - intros a m n pt Hm Hn. destruct (Hfil a m Hm) as (m0 & E0 & ->).
    apply map_lookup_filter_Some in Hn as [Hn _]. by apply (Hk a m0).
  - split; [done|]. split; [lia|]. split; [simpl; lia|]. intros a n pt. unfold sender_map. simpl.
    assert (default ∅ (filter (fun kv => kv.2 <> ∅) fresh !! a) = retain_fresh (config p) now (default ∅ (txs p !! a))) as ->.
    { destruct (filter (fun kv => kv.2 <> ∅) fresh !! a) as [m|] eqn:Em; simpl.
      - destruct (Hfil a m Em) as (m0 & -> & ->). done.
      - apply map_lookup_filter_None in Em as [Em|Em]; unfold fresh in Em; rewrite lookup_fmap in Em.
        + destruct (txs p !! a); simpl in *; [done|]. unfold retain_fresh. by rewrite map_filter_empty.
        + destruct (txs p !! a) as [m0|]; simpl in *; [|unfold retain_fresh; by rewrite map_filter_empty].
          specialize (Em _ eq_refl). destruct (decide (retain_fresh (config p) now m0 = ∅)); [done|tauto]. }
    unfold retain_fresh. rewrite map_lookup_filter_Some. simpl. unfold expired. rewrite Z.leb_gt. done.
Qed.
End Admission.

(** ** The life of a pool *)

(** A call on the pool; counts and clocks are unsigned. *)
Inductive PoolOp :=
| OpInsert (now : Z) (tx : Transaction)
| OpRemove (sender : Address) (nonce : Z)
| OpSelect (max_count : nat)
| OpEvict (now : Z).

Section Life.
Context `{BuildProfile} `{!HashOrder Address} `{!HashOrderOk Address}.

Definition pool_step (p : Mempool) (op : PoolOp) : outcome Mempool :=
  match op with
  | OpInsert now tx => '(p, _) ← insert_tx p now tx; Ret p
  | OpRemove a n => '(p, _) ← remove p a n; Ret p
  | OpSelect k => '(p, _) ← select p (Z.of_nat k); Ret p
  | OpEvict now => '(p, _) ← evict_expired p now; Ret p
  end.

Definition pool_run (p : Mempool) (ops : list PoolOp) : outcome Mempool := foldM pool_step p ops.

(** What one call may add to the pool. *)
Definition brings (op : PoolOp) (pt : PoolTx) : Prop :=
  match op with OpInsert now tx => pt = new_at tx now | _ => False end.

Lemma insert_tx_config p now tx p' r : insert_tx p now tx = Ret (p', r) -> config p' = config p.
Proof.
  unfold insert_tx. repeat case_match; try (by intros [<- _]%Ret_pair_inj).
  intros E. apply bind_Ret_inv in E as (c & _ & E). by apply Ret_pair_inj in E as [<- _].
Qed.

(** No call panics or breaks the pool, and nothing appears in it but what is inserted. *)
Lemma pool_step_spec p op : pool_wf p ->
  exists p', pool_step p op = Ret p' /\ pool_wf p' /\ config p' = config p /\
    forall a n pt, sender_map p' a !! n = Some pt -> sender_map p a !! n = Some pt \/ brings op pt.
Proof.
  intros Hwf. destruct op as [now tx|a n|k|now]; simpl.
  - destruct (insert_spec p now tx Hwf) as (p' & r & E & Hwf' & _ & _ & Hl). pose proof (insert_tx_config _ _ _ _ _ E) as Hc.
    rewrite E. exists p'. split; [done|]. split; [done|]. split; [done|]. intros b m pt. rewrite Hl.
    destruct (is_ok r && _); [|by left]. intros [= <-]. by right.
  - destruct (remove_ok p a n Hwf) as (p' & -> & Hwf' & Hc & _ & Hl). exists p'. do 3 (split; [done|]).
    intros b m pt. rewrite Hl. case_decide; [done|by left].
  - destruct (select_spec p (Z.of_nat k) Hwf ltac:(lia)) as (p' & -> & Hwf' & Hc & _ & Hl). exists p'. do 3 (split; [done|]).
    intros b m pt. rewrite Hl. case_decide; [done|by left].
  - destruct (evict_spec p now Hwf) as (p' & ev & -> & Hwf' & Hc & _ & _ & Hl). exists p'. do 3 (split; [done|]).
    intros b m pt Hpt. left. by apply Hl.
Qed.

Lemma pool_run_spec p ops : pool_wf p ->
  exists p', pool_run p ops = Ret p' /\ pool_wf p' /\ config p' = config p /\
    forall a n pt, sender_map p' a !! n = Some pt -> sender_map p a !! n = Some pt \/ exists op, op ∈ ops /\ brings op pt.
Proof.
  unfold pool_run. revert p. induction ops as [|op ops IH]; intros p Hwf; simpl; [exists p; naive_solver|].
  destruct (pool_step_spec p op Hwf) as (p1 & -> & Hwf1 & Hc1 & Hl1). simpl.
  destruct (IH p1 Hwf1) as (p' & -> & Hwf' & Hc & Hl). exists p'. split; [done|]. split; [done|]. split; [congruence|].
  intros a n pt Hpt. destruct (Hl a n pt Hpt) as [[H1|H1]%Hl1|(op' & ? & ?)]; [by left| |];
    right; [exists op|exists op']; (split; [set_solver|done]).
Qed.

(** C26: the pool stays in shape for its whole life.  From a new pool whose size is a
    machine word, any sequence of insertions, removals, selections and evictions
    returns (no counter ever over- or underflows), and then the counter is the
    number of stored transactions, which never exceeds the pool's size; no sender
    has more than its cap; and every entry is a transaction that was inserted,
    filed under its own sender and nonce and paying the minimum fee. *)
Theorem pool_lifetime (c : MempoolConfig) (ops : list PoolOp) (Hc : 0 <= max_size c < W64) :
  exists p, pool_run (Mempool_new c) ops = Ret p /\
  count p = Z.of_nat (length (all_txs p)) /\ count p <= max_size c /\
  (forall a, sender_tx_count p a <= Z.max 0 (per_sender_cap c)) /\
  forall a n pt, sender_map p a !! n = Some pt ->
    tx_sender (pt_tx pt) = a /\ tx_nonce (pt_tx pt) = n /\ min_fee c <= tx_fee (pt_tx pt) /\
    exists now, OpInsert now (pt_tx pt) ∈ ops.
Proof.
  destruct (pool_run_spec (Mempool_new c) ops (pool_new_wf c Hc)) as (p & E & Hwf & Hcfg & Hl). simpl in Hcfg.
  exists p. split; [done|]. split; [by rewrite all_txs_length|]. destruct Hwf as [_ Hr Hcap Hk]. rewrite Hcfg in *.
  split; [lia|]. split.
  - intros a. unfold sender_tx_count, sender_map. destruct (txs p !! a) as [m|] eqn:Em; simpl; [by eapply Hcap|].
    rewrite map_size_empty. lia.
  - intros a n pt Hpt. assert (exists m, txs p !! a = Some m /\ m !! n = Some pt) as (m & Hm & Hn).
    { unfold sender_map in Hpt. destruct (txs p !! a) as [m|]; [by exists m|]. simpl in Hpt. by rewrite lookup_empty in Hpt. }
    destruct (Hk a m n pt Hm Hn) as (? & ? & ?). do 3 (split; [done|]).
    destruct (Hl a n pt Hpt) as [Hnew|(op & Hop & Hb)].
    + unfold sender_map in Hnew. simpl in Hnew. rewrite lookup_empty in Hnew. simpl in Hnew. by rewrite lookup_empty in Hnew.
    + destruct op as [now tx| | |]; try done. simpl in Hb. subst pt. by exists now.
Qed.
End Life.

(** ** Concrete inputs *)

Import ToyInstances.

Definition pool_tx (s : byte) (n fee : Z) : Transaction :=
  mkTransaction 1 n (address_from (array_repeat 32 s)) fee (VoteTx (array_repeat 32 x00) true) (mkSignature []).

Definition small_config : MempoolConfig := mkMempoolConfig 10 600 5 2.

(** Inserts, ignoring the result. *)
Definition put (p : Mempool) (now : Z) (tx : Transaction) : Mempool :=
  match insert_tx p now tx with Ret (p', _) => p' | Panic => p end.

Lemma put_wf p now tx : pool_wf p -> pool_wf (put p now tx).
Proof.
  intros Hwf. unfold put. destruct (insert_tx p now tx) as [[p' r]|] eqn:E; [|done].
  by eapply insert_tx_wf.
Qed.

(** The last insertion exceeds the cap of its sender. *)
Definition pool_ex : Mempool :=
  put (put (put (put (Mempool_new small_config) 100 (pool_tx x01 0 7)) 101 (pool_tx x01 1 9)) 700 (pool_tx x02 0 8))
    702 (pool_tx x01 2 9).

Lemma empty_pool_wf : pool_wf (Mempool_new small_config).
Proof. apply pool_new_wf. simpl. word_lia. Qed.

Lemma pool_ex_wf : pool_wf pool_ex.
Proof. repeat apply put_wf. apply empty_pool_wf. Qed.

Lemma insert_correct_witness : exists p' r, insert_tx pool_ex 703 (pool_tx x02 1 5) = Ret (p', r) /\ pool_wf p' /\
  count p' = count pool_ex + (if is_ok r then 1 else 0).
Proof.
  destruct (insert_correct pool_ex 703 (pool_tx x02 1 5) pool_ex_wf) as (p' & r & E & Hwf & _ & Hc & _).
  exists p', r. split; [exact E|]. split; [exact Hwf|exact Hc].
Defined.

Lemma select_correct_witness : exists p' chosen rest,
    select pool_ex 2 = Ret (p', map pt_tx chosen) /\ pool_wf p' /\
    chosen ++ rest ≡ₚ all_txs pool_ex /\ StronglySorted (cmp_le cmp_priority) (chosen ++ rest) /\
    Z.of_nat (length chosen) = Z.min 2 (count pool_ex) /\ count p' = count pool_ex - Z.of_nat (length chosen) /\
    forall a n, contains p' a n = true <-> contains pool_ex a n = true /\ (a, n) ∉ map pool_id chosen.
Proof. exact (select_correct pool_ex 2 pool_ex_wf ltac:(done)). Defined.

(** Three insertions, the last above the cap of its sender, a removal and a selection. *)
Definition ops_ex : list PoolOp :=
  [OpInsert 100 (pool_tx x01 0 7); OpInsert 101 (pool_tx x01 1 9); OpInsert 102 (pool_tx x01 2 9);
   OpRemove (address_from (array_repeat 32 x01)) 0; OpSelect 1; OpEvict 9000].

Lemma pool_lifetime_witness : exists p, pool_run (Mempool_new small_config) ops_ex = Ret p /\ count p <= 10.
Proof.
  destruct (pool_lifetime small_config ops_ex) as (p & E & _ & Hc & _); [by split|].
  exists p. split; [exact E|exact Hc].
Defined.
