(* ===== verification/Governance.v ===== *)
(** * Governance ([governance/engine.rs], [governance/constants.rs])

    Proposals, votes and parameters in the governance namespace of the state
    tree: submission, voting, cancellation, execution, and the quorum rules. *)
From Stdlib Require Import Strings.Byte Strings.String.
From stdpp Require Import base gmap sets list strings countable sorting.
From Stdlib Require Import ZArith Lia.
From S2P Require Import Prelude Types External Toy Trie Account State Ledger Refine.

Definition VOTING_WINDOW_ERAS : Z := 7.
Definition MAX_ACTIVE_PROPOSALS_PER_PROPOSER : Z := 5.
Definition MAX_PROPOSALS_PER_ERA : Z := 50.
Definition TITLE_MAX_BYTES : Z := 256.
Definition DESC_MAX_BYTES : Z := 4096.

(** ** Tally rules *)

Definition quorum_met (participating total_active : Z) : outcome bool :=
  a ← u256_mul participating 3; b ← u256_mul total_active 2; Ret (b <=? a).

Definition threshold_met (approve total_participating : Z) : outcome bool :=
  a ← u256_mul approve 2; Ret (total_participating <? a).

(** ** Parameter bounds *)

Definition param_bounds : list (GovernanceParam * (Z * Z)) := [
  (MaxValidators, (1, 1000));
  (EraLength, (100, 10000));
  (BlockSizeCapBytes, (1024, 2097152));
  (BlockTxCap, (1, 10000));
  (FlatFee, (0, 10 ^ 33));
  (PerByteRate, (0, 10 ^ 34));
  (AntiSpamDeposit, (0, 10 ^ 33));
  (MissedSlotPenalty, (0, 10 ^ 32));
  (SupplyCeilingRate, (0, 20));
  (SupplyHeadroomRate, (0, 20))].

(** [param_bounds().remove(param)] *)
Definition param_bounds_for (p : GovernanceParam) : option (Z * Z) :=
  snd <$> List.find (fun e => bool_decide (e.1 = p)) param_bounds.

Definition validate_action (a : GovernanceAction) : Result unit :=
  match a with
  | UpdateParam param new_value =>
      match param_bounds_for param with
      | None => Err (GovernanceRejected "unknown governance parameter"%string)
      | Some (lo, hi) =>
          if (new_value <? lo) || (hi <? new_value)
          then Err (GovernanceRejected "new value is out of bounds for this parameter"%string)
          else Ok tt
      end
  | IncreaseShards new_count _ =>
      if new_count =? 0 then Err (GovernanceRejected "shard count must be at least 1"%string) else Ok tt
  end.

(** [for action in actions { self.validate_action(action)?; }] *)
Fixpoint validate_actions (l : list GovernanceAction) : Result unit :=
  match l with
  | [] => Ok tt
  | a :: l => match validate_action a with Ok _ => validate_actions l | Err e => Err e end
  end.

(** [{param:?}] *)
Definition param_name (p : GovernanceParam) : bytes := list_byte_of_string
  match p with
  | MaxValidators => "MaxValidators" | EraLength => "EraLength" | BlockSizeCapBytes => "BlockSizeCapBytes"
  | BlockTxCap => "BlockTxCap" | FlatFee => "FlatFee" | PerByteRate => "PerByteRate"
  | AntiSpamDeposit => "AntiSpamDeposit" | MissedSlotPenalty => "MissedSlotPenalty"
  | SupplyCeilingRate => "SupplyCeilingRate" | SupplyHeadroomRate => "SupplyHeadroomRate"
  end.

Section Governance.
Context `{BuildProfile} `{Blake3} `{Hex} `{Scale}.

(** ** Sub-keys *)

Definition prop_key (proposal_id : array 32) : bytes :=
  list_byte_of_string "prop_" ++ hex_encode (array_bytes proposal_id).
Definition vote_key (proposal_id : array 32) (voter : Address) : bytes :=
  list_byte_of_string "vote_" ++ hex_encode (array_bytes proposal_id) ++ list_byte_of_string "_" ++
  hex_encode (array_bytes (as_bytes voter)).
Definition param_key (p : GovernanceParam) : bytes := list_byte_of_string "gov_param_" ++ param_name p.
Definition GOV_ACTIVE_COUNT : bytes := list_byte_of_string "gov_active_count".
Definition proposer_count_key (proposer : Address) : bytes :=
  list_byte_of_string "gov_proposer_count_" ++ hex_encode (array_bytes (as_bytes proposer)).

(** ** Stored values *)

Definition decode_proposal (bs : bytes) : option Proposal := decode_all sc_proposal bs.

Definition get_proposal (self : StateMachine) (id : array 32) : option Proposal :=
  bs ← governance_get self (prop_key id); decode_proposal bs.

(** [and_then(|v| u64::decode(..).ok()).unwrap_or(0)] *)
Definition stored_count (self : StateMachine) (key : bytes) : Z :=
  default 0 (bs ← governance_get self key; decode_all sc_u64 bs).

Definition proposer_active_count (self : StateMachine) (proposer : Address) : Z :=
  stored_count self (proposer_count_key proposer).
Definition global_active_count (self : StateMachine) : Z := stored_count self GOV_ACTIVE_COUNT.

Definition increment_count (self : StateMachine) (key : bytes) : outcome StateMachine :=
  n ← u64_add (stored_count self key) 1;
  Ret (governance_insert self key (enc sc_u64 n)).

Definition decrement_count (self : StateMachine) (key : bytes) : outcome StateMachine :=
  if 0 <? stored_count self key
  then n ← u64_sub (stored_count self key) 1; Ret (governance_insert self key (enc sc_u64 n))
  else Ret self.

Definition increment_proposer_count (self : StateMachine) (proposer : Address) : outcome StateMachine :=
  increment_count self (proposer_count_key proposer).
Definition decrement_proposer_count (self : StateMachine) (proposer : Address) : outcome StateMachine :=
  decrement_count self (proposer_count_key proposer).
Definition increment_global_count (self : StateMachine) : outcome StateMachine := increment_count self GOV_ACTIVE_COUNT.
Definition decrement_global_count (self : StateMachine) : outcome StateMachine := decrement_count self GOV_ACTIVE_COUNT.

(** Both are stubs in the source. *)
Definition has_active_proposal_for_param (self : StateMachine) (p : GovernanceParam) : bool := false.
Definition has_any_votes (self : StateMachine) (id : array 32) : bool := false.

(** ** Proposal submission *)

(** The parameter locks of the actions. *)
Definition locked_param (self : StateMachine) (actions : list GovernanceAction) : bool :=
  existsb (fun a => match a with UpdateParam p _ => has_active_proposal_for_param self p | _ => false end) actions.

Definition submit_proposal (self : StateMachine) (proposer : Address) (proposal_id : array 32)
    (title description : bytes) (actions : list GovernanceAction) (current_era : Z) :
    outcome (StateMachine * Result unit) :=
  let reject e := Ret (self, Err e) in
  o ← get_account self proposer;
  match o with
  | None => reject (AccountNotFound (mkHexBytes (as_bytes proposer)))
  | Some acct =>
      if balance acct <? PROPOSAL_DEPOSIT then reject (InsufficientBalance (balance acct) PROPOSAL_DEPOSIT)
      else if 256 <? Z.of_nat (length title) then reject (GovernanceRejected "title exceeds 256 bytes"%string)
      else if 4096 <? Z.of_nat (length description)
      then reject (GovernanceRejected "description exceeds 4096 bytes"%string)
      else if bool_decide (actions = []) then reject (GovernanceRejected "proposal must have at least one action"%string)
      else
        match validate_actions actions with
        | Err e => reject e
        | Ok _ =>
            if MAX_ACTIVE_PROPOSALS_PER_PROPOSER <=? proposer_active_count self proposer
            then reject (GovernanceRejected "max 5 active proposals per proposer"%string)
            else if MAX_PROPOSALS_PER_ERA <=? global_active_count self
            then reject (GovernanceRejected "max 50 proposals per era reached"%string)
            else if locked_param self actions
            then reject (GovernanceRejected "an active proposal already targets this parameter"%string)
            else
              (* the debited account is a local copy that is never written back *)
              o ← get_account self proposer;
              acct ← unwrap o;
              _ ← increment_nonce (set_balance acct (u256_saturating_sub (balance acct) PROPOSAL_DEPOSIT));
              let proposal := mkProposal proposal_id proposer title description actions PROPOSAL_DEPOSIT
                                current_era PActive in
              let self := governance_insert self (prop_key proposal_id) (enc sc_proposal proposal) in
              self ← increment_proposer_count self proposer;
              self ← increment_global_count self;
              Ret (self, Ok tt)
        end
  end.

(** ** Votes *)

Definition cast_vote (self : StateMachine) (proposal_id : array 32) (voter : Address) (approve : bool)
    (current_era block_height : Z) : outcome (StateMachine * Result unit) :=
  match get_proposal self proposal_id with
  | None => Ret (self, Err ProposalNotFound)
  | Some proposal =>
      if negb (bool_decide (pr_status proposal = PActive))
      then Ret (self, Err (GovernanceRejected "proposal is not active"%string))
      else
        window_end ← u64_add (pr_submission_era proposal) VOTING_WINDOW_ERAS;
        if (current_era <? pr_submission_era proposal) || (window_end <=? current_era)
        then Ret (self, Err (GovernanceRejected "voting window is closed"%string))
        else
          let stake := from_option ve_stake 0 (get_validator self voter) in
          if stake =? 0 then Ret (self, Err (GovernanceRejected "voter has no stake"%string))
          else
            let vote := mkVote proposal_id voter approve stake block_height in
            Ret (governance_insert self (vote_key proposal_id voter) (enc sc_vote vote), Ok tt)
  end.

(** ** Cancellation *)

Definition with_status (p : Proposal) (s : ProposalStatus) : Proposal :=
  mkProposal (pr_proposal_id p) (pr_proposer p) (pr_title p) (pr_description p) (pr_actions p) (pr_deposit p)
    (pr_submission_era p) s.

Definition cancel_proposal (self : StateMachine) (proposal_id : array 32) (caller : Address) :
    outcome (StateMachine * Result unit) :=
  match get_proposal self proposal_id with
  | None => Ret (self, Err ProposalNotFound)
  | Some proposal =>
      if negb (bool_decide (pr_proposer proposal = caller))
      then Ret (self, Err (GovernanceRejected "only the proposer may cancel"%string))
      else if negb (bool_decide (pr_status proposal = PActive))
      then Ret (self, Err (GovernanceRejected "proposal is not active"%string))
      else if has_any_votes self proposal_id
      then Ret (self, Err (GovernanceRejected "cannot cancel after votes are cast"%string))
      else
        o ← get_account self caller;
        match o with
        | None => Ret (self, Err (AccountNotFound (mkHexBytes (as_bytes caller))))
        | Some _ =>
            (* the refunded account is a local copy that is never written back *)
            let self := governance_insert self (prop_key proposal_id) (enc sc_proposal (with_status proposal PCancelled)) in
            self ← decrement_proposer_count self caller;
            self ← decrement_global_count self;
            Ret (self, Ok tt)
        end
  end.

(** ** Tally and execution *)

Definition tally_proposals (self : StateMachine) (current_era : Z) : Result (list (array 32)) := Ok [].

Definition apply_action (self : StateMachine) (a : GovernanceAction) : StateMachine :=
  match a with
  | UpdateParam param new_value => governance_insert self (param_key param) (enc sc_u256 new_value)
  | IncreaseShards _ _ => self
  end.

Definition execute_one (self : StateMachine) (pid : array 32) : StateMachine :=
  match get_proposal self pid with
  | Some proposal =>
      if bool_decide (pr_status proposal = PApproved) then foldl apply_action self (pr_actions proposal) else self
  | None => self
  end.

Definition execute_approved (self : StateMachine) (ids : list (array 32)) : StateMachine :=
  foldl execute_one self (sort_by (fun a b => bytes_cmp (array_bytes a) (array_bytes b)) ids).

Definition set_proposal_status (self : StateMachine) (id : array 32) (s : ProposalStatus) : StateMachine :=
  match get_proposal self id with
  | Some p => governance_insert self (prop_key id) (enc sc_proposal (with_status p s))
  | None => self
  end.

(** The value of a parameter in the tree. *)
Definition stored_param (self : StateMachine) (p : GovernanceParam) : option Z :=
  bs ← governance_get self (param_key p); decode_all sc_u256 bs.
Definition stored_vote (self : StateMachine) (id : array 32) (voter : Address) : option Vote :=
  bs ← governance_get self (vote_key id voter); decode_all sc_vote bs.
End Governance.

(** ** Lemmas on the store *)

Section Laws.
Context `{BuildProfile} `{Blake3} `{Hex} `{Scale} `{!ScaleOk}.

Lemma governance_get_eq sm k v : governance_get (governance_insert sm k v) k = Some v.
Proof. apply smt_get_insert_eq. Qed.

Lemma governance_get_ne (K : bytes -> Prop) sm k v k' :
  collision_free K -> K (governance_key k) -> K (governance_key k') -> k <> k' ->
  governance_get (governance_insert sm k v) k' = governance_get sm k'.
Proof.
  intros HK Hk Hk' Hne. apply smt_get_insert_ne. intros E. apply HK in E; [|done..]. by injection E.
Qed.

Lemma get_account_governance (K : bytes -> Prop) sm k v a :
  collision_free K -> K (governance_key k) -> K (account_key a) ->
  get_account (governance_insert sm k v) a = get_account sm a.
Proof.
  intros HK Hk Ha. unfold get_account, governance_insert. simpl. rewrite smt_get_insert_ne; [done|].
  intros E. by apply HK in E.
Qed.

Lemma get_validator_governance (K : bytes -> Prop) sm k v a :
  collision_free K -> K (governance_key k) -> K (validator_key a) ->
  get_validator (governance_insert sm k v) a = get_validator sm a.
Proof.
  intros HK Hk Ha. unfold get_validator, governance_insert. simpl. rewrite smt_get_insert_ne; [done|].
  intros E. by apply HK in E.
Qed.

Lemma get_proposal_insert sm id p : proposal_valid p ->
  get_proposal (governance_insert sm (prop_key id) (enc sc_proposal p)) id = Some p.
Proof.
  intros Hp. unfold get_proposal. rewrite governance_get_eq. simpl.
  unfold decode_proposal. by rewrite (decode_all_enc proposal_valid) by (apply sc_proposal_ok || done).
Qed.

Lemma stored_count_insert sm k n : is_u64 n -> stored_count (governance_insert sm k (enc sc_u64 n)) k = n.
Proof.
  intros Hn. unfold stored_count. rewrite governance_get_eq. simpl.
  by rewrite (decode_all_enc is_u64) by (apply sc_u64_ok || done).
Qed.

Lemma prop_count_key id a : prop_key id <> proposer_count_key a. Proof. done. Qed.
Lemma prop_active_key id : prop_key id <> GOV_ACTIVE_COUNT. Proof. done. Qed.
Lemma count_active_key a : proposer_count_key a <> GOV_ACTIVE_COUNT. Proof. done. Qed.

(** The tree keys a submission touches. *)
Definition gov_scope (id : array 32) (proposer : Address) (k : bytes) : Prop :=
  k = governance_key (prop_key id) \/ k = governance_key (proposer_count_key proposer) \/
  k = governance_key GOV_ACTIVE_COUNT \/ k = account_key proposer.

(** What a submission checks. *)
Definition submission_ok (sm : StateMachine) (proposer : Address) (o : option Account)
    (title description : bytes) (actions : list GovernanceAction) : Prop :=
  (exists acct, o = Some acct /\ PROPOSAL_DEPOSIT <= balance acct) /\
  Z.of_nat (length title) <= 256 /\ Z.of_nat (length description) <= 4096 /\ actions <> [] /\
  Forall (fun a => validate_action a = Ok tt) actions /\
  proposer_active_count sm proposer < MAX_ACTIVE_PROPOSALS_PER_PROPOSER /\
  global_active_count sm < MAX_PROPOSALS_PER_ERA.

Lemma validate_actions_ok l : validate_actions l = Ok tt <-> Forall (fun a => validate_action a = Ok tt) l.
Proof.
  induction l as [|a l IH]; simpl; [split; [constructor|done]|].
  destruct (validate_action a) as [[]|e] eqn:E.
  - rewrite IH. split; [by constructor|by intros Hf; apply Forall_inv_tail in Hf].
  - split; [done|]. intros Hf. apply Forall_inv in Hf. congruence.
Qed.

Lemma locked_param_false sm actions : locked_param sm actions = false.
Proof. unfold locked_param. induction actions as [|[p v|n e] l IH]; simpl; done. Qed.

(** The outcome of a call that is refused. *)
Ltac rejected := eexists _, _; split; [done|]; simpl; split; [split; [done|]|done].

Lemma gov_scope_prop id a : gov_scope id a (governance_key (prop_key id)).
Proof. by left. Qed.
Lemma gov_scope_count id a : gov_scope id a (governance_key (proposer_count_key a)).
Proof. by right; left. Qed.
Lemma gov_scope_active id a : gov_scope id a (governance_key GOV_ACTIVE_COUNT).
Proof. by right; right; left. Qed.
Lemma gov_scope_account id a : gov_scope id a (account_key a).
Proof. by right; right; right. Qed.

(** Writes under the three governance keys of a proposal, one after the other: each
    key reads back its own write, and accounts are untouched. *)
Lemma governance_writes sm id a (p : Proposal) s2 s3 :
  collision_free (gov_scope id a) -> proposal_valid p ->
  let sm1 := governance_insert sm (prop_key id) (enc sc_proposal p) in
  (s2 = sm1 \/ exists v, s2 = governance_insert sm1 (proposer_count_key a) v) ->
  (s3 = s2 \/ exists v, s3 = governance_insert s2 GOV_ACTIVE_COUNT v) ->
  get_proposal s3 id = Some p /\
  stored_count sm1 (proposer_count_key a) = proposer_active_count sm a /\
  stored_count s2 GOV_ACTIVE_COUNT = global_active_count sm /\
  proposer_active_count s3 a = stored_count s2 (proposer_count_key a) /\
  get_account s3 a = get_account sm a.
Proof.
  intros HK Hp sm1 HW2 HW3.
  pose proof (gov_scope_prop id a) as K1. pose proof (gov_scope_count id a) as K2.
  pose proof (gov_scope_active id a) as K3. pose proof (gov_scope_account id a) as K4.
  assert (forall k, gov_scope id a (governance_key k) -> k <> prop_key id -> governance_get sm1 k = governance_get sm k) as G1
    by (intros k Hk Hne; apply (governance_get_ne _ _ _ _ _ HK K1 Hk); congruence).
  assert (forall k, gov_scope id a (governance_key k) -> k <> proposer_count_key a -> governance_get s2 k = governance_get sm1 k) as G2
    by (intros k Hk Hne; destruct HW2 as [-> |[v ->]]; [done|]; apply (governance_get_ne _ _ _ _ _ HK K2 Hk); congruence).
  assert (forall k, gov_scope id a (governance_key k) -> k <> GOV_ACTIVE_COUNT -> governance_get s3 k = governance_get s2 k) as G3
    by (intros k Hk Hne; destruct HW3 as [-> |[v ->]]; [done|]; apply (governance_get_ne _ _ _ _ _ HK K3 Hk); congruence).
  split; [|split; [|split; [|split]]].
  - unfold get_proposal. rewrite (G3 _ K1 (prop_active_key _)), (G2 _ K1 (prop_count_key _ _)). by apply (get_proposal_insert sm id).
  - unfold stored_count. by rewrite (G1 _ K2 (not_eq_sym (prop_count_key _ _))).
  - unfold stored_count. by rewrite (G2 _ K3 (not_eq_sym (count_active_key _))), (G1 _ K3 (not_eq_sym (prop_active_key _))).
  - unfold proposer_active_count, stored_count. by rewrite (G3 _ K2 (count_active_key _)).
  - assert (get_account s2 a = get_account sm1 a) as E2
      by (destruct HW2 as [-> |[v ->]]; [done|by apply (get_account_governance _ _ _ _ _ HK K2 K4)]).
    assert (get_account s3 a = get_account s2 a) as E3
      by (destruct HW3 as [-> |[v ->]]; [done|by apply (get_account_governance _ _ _ _ _ HK K3 K4)]).
    rewrite E3, E2. by apply (get_account_governance _ _ _ _ _ HK K1 K4).
Qed.

Lemma increment_count_spec s key : 0 <= stored_count s key < U64_MAX ->
  exists s', increment_count s key = Ret s' /\ stored_count s' key = stored_count s key + 1 /\
    exists v, s' = governance_insert s key v.
Proof.
  intros Hs. unfold increment_count. rewrite u64_add_ok by word_lia. cbn [mbind outcome_bind]. eexists. split; [done|].
  split; [rewrite stored_count_insert by word_lia; lia|by eexists].
Qed.

Lemma decrement_count_spec s key : 0 <= stored_count s key < W64 ->
  exists s', decrement_count s key = Ret s' /\ stored_count s' key = Z.max 0 (stored_count s key - 1) /\
    (s' = s \/ exists v, s' = governance_insert s key v).
Proof.
  intros Hs. unfold decrement_count. destruct (0 <? stored_count s key) eqn:E0; zbool.
  - unfold u64_sub. rewrite wrap_check_ok by lia. cbn [mbind outcome_bind]. eexists. split; [done|].
    split; [rewrite stored_count_insert by (unfold is_u64; lia); lia|]. right. by eexists.
  - exists s. split; [done|]. split; [lia|by left].
Qed.


(** C16: a vote is accepted exactly on an active proposal inside its window of
    seven eras by a voter with stake; it is stored with that stake as weight,
    replacing an earlier vote of the same voter. *)
Theorem cast_vote_correct (sm : StateMachine) (id : array 32) (voter : Address) (approve : bool) (era height : Z)
    (Hheight : is_u64 height)
    (Hprop : forall p, get_proposal sm id = Some p -> 0 <= pr_submission_era p < W64 - 7)
    (Hent : forall e, get_validator sm voter = Some e -> entry_valid e) :
  exists sm' r, cast_vote sm id voter approve era height = Ret (sm', r) /\
    (is_ok r = true <-> exists p e, get_proposal sm id = Some p /\ pr_status p = PActive /\
        pr_submission_era p <= era < pr_submission_era p + 7 /\
        get_validator sm voter = Some e /\ ve_stake e <> 0) /\
    (is_ok r = false -> sm' = sm) /\
    (is_ok r = true -> exists e, get_validator sm voter = Some e /\
        stored_vote sm' id voter = Some (mkVote id voter approve (ve_stake e) height)).
Proof.
  unfold cast_vote. destruct (get_proposal sm id) as [p|] eqn:Ep.
  2:{ eexists _, _. split; [done|]. simpl. split; [split; [done|by intros (? & ? & ? & _)]|done]. }
  case_bool_decide as Es; simpl.
  2:{ rejected. intros (q & e & [= <-] & ? & _). done. }
  pose proof (Hprop p eq_refl) as Hera. unfold VOTING_WINDOW_ERAS.
  rewrite u64_add_ok by lia. cbn [mbind outcome_bind].
  destruct (_ || _) eqn:Ew.
  { rejected.
    intros (q & e & [= <-] & _ & ? & _). apply orb_true_iff in Ew as [Ew|Ew]; zbool; lia. }
  zbool. destruct (get_validator sm voter) as [e|] eqn:Ee; simpl.
  2:{ eexists _, _. split; [done|]. simpl. split; [split; [done|by intros (? & ? & _ & _ & _ & ? & _)]|done]. }
  destruct (ve_stake e =? 0) eqn:E0; zbool.
  { rejected. by intros (q & f & _ & _ & _ & [= <-] & ?). }
  eexists _, _. split; [done|]. simpl. split; [split; [intros _; exists p, e; split_and!; try done; lia|done]|].
  split; [done|]. intros _. exists e. split; [done|]. unfold stored_vote. rewrite governance_get_eq. simpl.
  rewrite (decode_all_enc vote_valid); [done|apply sc_vote_ok|]. destruct (Hent e eq_refl) as (Hst & _). by split.
Qed.

(** A cancellation needs the proposer and an active proposal; afterwards the
    proposal is cancelled for good, and no account has changed. *)
Theorem cancel_proposal_correct (sm : StateMachine) (id : array 32) (caller : Address) (o : option Account)
    (HK : collision_free (gov_scope id caller)) (Ho : get_account sm caller = Ret o)
    (Hprop : forall p, get_proposal sm id = Some p -> proposal_valid p)
    (Hc1 : 0 <= proposer_active_count sm caller < W64) (Hc2 : 0 <= global_active_count sm < W64) :
  exists sm' r, cancel_proposal sm id caller = Ret (sm', r) /\
    (is_ok r = true <-> exists p, get_proposal sm id = Some p /\ pr_proposer p = caller /\ pr_status p = PActive /\ is_Some o) /\
    (is_ok r = false -> sm' = sm) /\
    (is_ok r = true -> exists p, get_proposal sm id = Some p /\
       get_proposal sm' id = Some (with_status p PCancelled) /\
       proposer_active_count sm' caller = Z.max 0 (proposer_active_count sm caller - 1) /\
       global_active_count sm' = Z.max 0 (global_active_count sm - 1) /\
       get_account sm' caller = get_account sm caller).
Proof.
  unfold cancel_proposal. destruct (get_proposal sm id) as [p|] eqn:Ep.
  2:{ eexists _, _. split; [done|]. simpl. split; [split; [done|by intros (? & ? & _)]|done]. }
  case_bool_decide as Ec; simpl.
  2:{ eexists _, _. split; [done|]. simpl. split; [split; [done|by intros (q & [= <-] & ? & _)]|done]. }
  case_bool_decide as Es; simpl.
  2:{ eexists _, _. split; [done|]. simpl. split; [split; [done|by intros (q & [= <-] & _ & ? & _)]|done]. }
  rewrite Ho. cbn [mbind outcome_bind]. destruct o as [acct|].
  2:{ eexists _, _. split; [done|]. simpl. split; [split; [done|by intros (q & _ & _ & _ & [? ?])]|done]. }
  assert (proposal_valid (with_status p PCancelled)) as Hpv by exact (Hprop p eq_refl).
  set (q := with_status p PCancelled) in *. set (sm1 := governance_insert sm (prop_key id) (enc sc_proposal q)).
  destruct (governance_writes sm id caller q sm1 sm1 HK Hpv (or_introl eq_refl) (or_introl eq_refl)) as (_ & Es1 & _). fold sm1 in Es1.
  unfold decrement_proposer_count, decrement_global_count.
  destruct (decrement_count_spec sm1 (proposer_count_key caller)) as (sm2 & -> & Hcount2 & Hsm2); [by rewrite Es1|].
  destruct (governance_writes sm id caller q sm2 sm2 HK Hpv Hsm2 (or_introl eq_refl)) as (_ & _ & Es2 & _).
  cbn [mbind outcome_bind].
  destruct (decrement_count_spec sm2 GOV_ACTIVE_COUNT) as (sm3 & -> & Hcount3 & Hsm3); [by rewrite Es2|]. cbn [mbind outcome_bind].
  destruct (governance_writes sm id caller q sm2 sm3 HK Hpv Hsm2 Hsm3) as (Hget & _ & _ & Hcnt & Hacc).
  eexists _, _. split; [done|]. simpl. split; [split; [intros _; exists p; split_and!; try done; by eexists|done]|].
  split; [done|]. intros _. exists p. split; [done|]. split; [done|]. split; [by rewrite Hcnt, Hcount2, Es1|].
  split; [by rewrite <- Es2|by rewrite Hacc].
Qed.
End Laws.

(** Quorum and threshold, on stakes that cannot overflow: at least two thirds
    of the active stake must vote, more than half of what votes must approve,
    so an approved proposal has more than a third of all active stake. *)
Theorem tally_rules (approve participating total : Z)
    (Ha : 0 <= approve <= participating) (Ht : participating <= total) (Hr : 3 * total < W256) :
  quorum_met participating total = Ret (2 * total <=? 3 * participating) /\
  threshold_met approve participating = Ret (participating <? 2 * approve) /\
  (quorum_met participating total = Ret true -> threshold_met approve participating = Ret true -> total < 3 * approve).
Proof.
  assert (quorum_met participating total = Ret (2 * total <=? 3 * participating)) as Eq.
  { unfold quorum_met. rewrite !u256_mul_ok by lia. cbn [mbind outcome_bind]. do 2 f_equal; lia. }
  assert (threshold_met approve participating = Ret (participating <? 2 * approve)) as Et.
  { unfold threshold_met. rewrite u256_mul_ok by lia. cbn [mbind outcome_bind]. do 2 f_equal; lia. }
  rewrite Eq, Et. split; [done|]. split; [done|]. intros Hq Hth.
  apply Ret_inj in Hq. apply Ret_inj in Hth. zbool. lia.
Qed.

(** ** Concrete inputs *)

Import ToyInstances.

Definition proposer_ex : Address := address_from (array_repeat 32 x01).
Definition voter_ex : Address := address_from (array_repeat 32 x02).
Definition id_ex : array 32 := array_repeat 32 x05.
Definition actions_ex : list GovernanceAction := [UpdateParam EraLength 500; IncreaseShards 2 3].
Definition sm_gov : StateMachine := StateMachine_new [(proposer_ex, Account_new PROPOSAL_DEPOSIT)].

(** The stand-in hash keeps 32 bytes: the four keys in play stay distinct. *)
Lemma gov_scope_ex : collision_free (gov_scope id_ex proposer_ex).
Proof.
  intros x y Hx Hy. unfold gov_scope in *.
  destruct Hx as [->|[->|[->| ->]]], Hy as [->|[->|[->| ->]]]; intros E; try reflexivity;
    exfalso; apply (f_equal array_bytes) in E; vm_compute in E; discriminate E.
Qed.

Definition account_ex : Account := Account_new PROPOSAL_DEPOSIT.

Lemma account_ex_valid : account_valid account_ex.
Proof. unfold account_valid, is_u256, is_u64. simpl. assert (0 < PROPOSAL_DEPOSIT < W256) by done. word_lia. Qed.

Lemma sm_gov_account : get_account sm_gov proposer_ex = Ret (Some account_ex).
Proof.
  unfold get_account, sm_gov, StateMachine_new, account_ex. simpl. rewrite smt_get_insert_eq.
  unfold scale_decode_account, scale_encode_account.
  by rewrite (decode_all_enc account_valid) by (apply sc_account_ok || apply account_ex_valid).
Qed.


(** A machine with the proposal stored and a validator for the voter. *)
Definition prop_ex : Proposal := mkProposal id_ex proposer_ex [x41] [] actions_ex PROPOSAL_DEPOSIT 3 PActive.
Definition entry_ex : ValidatorEntry := mkValidatorEntry voter_ex (array_repeat 897 x07) 600 (Staked 600) 0.
Definition sm_vote : StateMachine :=
  governance_insert (set_validator (StateMachine_new []) voter_ex entry_ex) (prop_key id_ex) (enc sc_proposal prop_ex).

Lemma prop_ex_valid : proposal_valid prop_ex.
Proof.
  unfold proposal_valid. simpl. split; [|split].
  - unfold actions_ex. constructor; [|constructor; [|constructor]]; unfold action_valid, is_u256, is_u64;
      assert (500 < W256) by done; assert (3 < W16) by done; word_lia.
  - unfold is_u256. assert (0 < PROPOSAL_DEPOSIT < W256) by done. lia.
  - unfold is_u64. word_lia.
Qed.

Lemma sm_vote_proposal : get_proposal sm_vote id_ex = Some prop_ex.
Proof. apply get_proposal_insert, prop_ex_valid. Qed.

Lemma entry_ex_valid : entry_valid entry_ex.
Proof.
  unfold entry_valid, is_u256, is_u64. simpl. unfold is_u256, is_u64. assert (600 < W256) by done. word_lia.
Qed.

Lemma sm_vote_entry : get_validator sm_vote voter_ex = Some entry_ex.
Proof.
  unfold sm_vote. rewrite (get_validator_governance (fun k => k = governance_key (prop_key id_ex) \/ k = validator_key voter_ex)).
  - apply get_set_validator_eq, entry_ex_valid.
  - intros x y [-> | ->] [-> | ->] E; try reflexivity;
      exfalso; apply (f_equal array_bytes) in E; vm_compute in E; discriminate E.
  - by left.
  - by right.
Qed.

Lemma cast_vote_correct_witness : exists sm' r, cast_vote sm_vote id_ex voter_ex true 4 77 = Ret (sm', r) /\
    (is_ok r = true <-> exists p e, get_proposal sm_vote id_ex = Some p /\ pr_status p = PActive /\
        pr_submission_era p <= 4 < pr_submission_era p + 7 /\
        get_validator sm_vote voter_ex = Some e /\ ve_stake e <> 0) /\
    (is_ok r = false -> sm' = sm_vote) /\
    (is_ok r = true -> exists e, get_validator sm_vote voter_ex = Some e /\
        stored_vote sm' id_ex voter_ex = Some (mkVote id_ex voter_ex true (ve_stake e) 77)).
Proof.
  apply (cast_vote_correct sm_vote id_ex voter_ex true 4 77).
  - unfold is_u64. word_lia.
  - intros p. rewrite sm_vote_proposal. intros [= <-]. simpl. word_lia.
  - intros e. rewrite sm_vote_entry. intros [= <-]. apply entry_ex_valid.
Defined.

Definition sm_cancel : StateMachine := governance_insert sm_gov (prop_key id_ex) (enc sc_proposal prop_ex).

Lemma cancel_proposal_correct_witness : exists sm' r, cancel_proposal sm_cancel id_ex proposer_ex = Ret (sm', r) /\
    (is_ok r = true <-> exists p, get_proposal sm_cancel id_ex = Some p /\ pr_proposer p = proposer_ex /\
       pr_status p = PActive /\ is_Some (Some account_ex)) /\
    (is_ok r = false -> sm' = sm_cancel) /\
    (is_ok r = true -> exists p, get_proposal sm_cancel id_ex = Some p /\
       get_proposal sm' id_ex = Some (with_status p PCancelled) /\
       proposer_active_count sm' proposer_ex = Z.max 0 (proposer_active_count sm_cancel proposer_ex - 1) /\
       global_active_count sm' = Z.max 0 (global_active_count sm_cancel - 1) /\
       get_account sm' proposer_ex = get_account sm_cancel proposer_ex).
Proof.
  apply (cancel_proposal_correct sm_cancel id_ex proposer_ex (Some account_ex) gov_scope_ex).
  - unfold sm_cancel. rewrite (get_account_governance (gov_scope id_ex proposer_ex)).
    + apply sm_gov_account.
    + apply gov_scope_ex.
    + by left.
    + by right; right; right.
  - intros p. unfold sm_cancel. rewrite (get_proposal_insert sm_gov id_ex prop_ex prop_ex_valid).
    intros [= <-]. apply prop_ex_valid.
  - by vm_compute.
  - by vm_compute.
Defined.

Lemma tally_rules_witness :
  quorum_met 70 100 = Ret (2 * 100 <=? 3 * 70) /\ threshold_met 36 70 = Ret (70 <? 2 * 36) /\
  (quorum_met 70 100 = Ret true -> threshold_met 36 70 = Ret true -> 100 < 3 * 36).
Proof. apply (tally_rules 36 70 100); [lia|lia|by vm_compute]. Defined.
