(* ===== verification/Storage.v ===== *)
(** * Storage ([storage/mod.rs], [storage/tables.rs], [storage/redb.rs])

    [StorageEngine] is the trait as an interface: [StorageOk] states what an
    engine promises of the tables, and the clients ([Genesis], [Engine], [Sync])
    are proved against it.  [RedbEngine] is the code's engine over the [redb]
    crate ([Redb], a parameter); [redb_engine_ok] discharges the promise, and
    [put_atomic] states it of any sequence of writes to an opened file. *)
From Stdlib Require Import Strings.Byte Strings.String.
From stdpp Require Import base gmap sets list strings countable sorting.
From Stdlib Require Import ZArith Lia.
From S2P Require Import Prelude Types.

(** ** Tables ([storage/tables.rs]) *)

Definition ACCOUNTS : string := "accounts".
Definition BLOCKS : string := "blocks".
Definition BLOCK_HASHES : string := "block_hashes".
Definition TXS : string := "transactions".
Definition VOTES : string := "votes".
Definition VALIDATORS : string := "validators".
Definition META : string := "meta".
Definition ALL_TABLES : list string := [ACCOUNTS; BLOCKS; BLOCK_HASHES; TXS; VOTES; VALIDATORS; META].
Definition GENESIS_LOADED_KEY : bytes := list_byte_of_string "genesis_loaded".
Definition CHAIN_ID_KEY : bytes := list_byte_of_string "chain_id".
Definition GENESIS_HASH_KEY : bytes := list_byte_of_string "genesis_hash".

(** The declared tables, for [auto with tables]. *)
Create HintDb tables.

Lemma ACCOUNTS_declared : ACCOUNTS ∈ ALL_TABLES. Proof. by apply (bool_decide_unpack _). Qed.
Lemma BLOCKS_declared : BLOCKS ∈ ALL_TABLES. Proof. by apply (bool_decide_unpack _). Qed.
Lemma BLOCK_HASHES_declared : BLOCK_HASHES ∈ ALL_TABLES. Proof. by apply (bool_decide_unpack _). Qed.
Lemma VALIDATORS_declared : VALIDATORS ∈ ALL_TABLES. Proof. by apply (bool_decide_unpack _). Qed.
Lemma META_declared : META ∈ ALL_TABLES. Proof. by apply (bool_decide_unpack _). Qed.
#[export] Hint Resolve ACCOUNTS_declared BLOCKS_declared BLOCK_HASHES_declared VALIDATORS_declared META_declared : tables.

(** ** The [StorageEngine] trait *)

Class StorageEngine (D : Type) := {
  st_put : D -> string -> bytes -> bytes -> D * Result unit;
  st_get : D -> string -> bytes -> Result (option bytes);
  st_delete : D -> string -> bytes -> D * Result unit;
  st_list_keys : D -> string -> Result (list bytes)
}.

(** The default method [exists]. *)
Definition st_exists `{StorageEngine D} (d : D) (table : string) (key : bytes) : Result bool :=
  match st_get d table key with
  | Ok v => Ok (bool_decide (is_Some v))
  | Err e => Err e
  end.

(** The content of a database: one finite map per table. *)
Definition cells := string -> gmap bytes bytes.

(** Two databases are equivalent when every table has the same rows. *)
Definition same_cells (c c' : cells) : Prop := forall t, c t = c' t.

#[export] Instance same_cells_equiv : Equivalence same_cells.
Proof.
  split.
  - by intros c t.
  - intros c c' E t. by rewrite E.
  - intros c c' c'' E E' t. by rewrite E, E'.
Qed.

Definition cell_update (t : string) (f : gmap bytes bytes -> gmap bytes bytes) (c : cells) : cells :=
  fun t' => if decide (t' = t) then f (c t) else c t'.

#[export] Instance cell_update_proper t f : Proper (same_cells ==> same_cells) (cell_update t f).
Proof. intros c c' E t'. unfold cell_update. by rewrite !E. Qed.

Lemma cell_update_eq t f c : cell_update t f c t = f (c t).
Proof. unfold cell_update. by rewrite decide_True. Qed.

Lemma cell_update_ne t t' f c : t' <> t -> cell_update t f c t' = c t'.
Proof. intros Ht. unfold cell_update. by rewrite decide_False. Qed.

(** The promise: what succeeds does what it says, what fails changes nothing;
    keys are listed in ascending order, each once. *)
Class StorageOk (D : Type) `{StorageEngine D} := {
  st_view : D -> cells;
  st_put_view d t k v d' r : st_put d t k v = (d', r) ->
    same_cells (st_view d') (if is_ok r then cell_update t (insert k v) (st_view d) else st_view d);
  st_delete_view d t k d' r : st_delete d t k = (d', r) ->
    same_cells (st_view d') (if is_ok r then cell_update t (delete k) (st_view d) else st_view d);
  st_get_view d t k o : st_get d t k = Ok o -> o = st_view d t !! k;
  st_list_view d t ks : st_list_keys d t = Ok ks ->
    StronglySorted (cmp_le bytes_cmp) ks /\ NoDup ks /\ (forall k, k ∈ ks <-> is_Some (st_view d t !! k))
}.

(** An engine without I/O errors on the declared tables. *)
Class StorageReliable (D : Type) `{StorageEngine D} : Prop := {
  st_put_total d t k v : t ∈ ALL_TABLES -> exists d', st_put d t k v = (d', Ok tt);
  st_get_total d t k : t ∈ ALL_TABLES -> exists o, st_get d t k = Ok o;
  st_list_total d t : t ∈ ALL_TABLES -> exists ks, st_list_keys d t = Ok ks
}.

Section Client.
Context {D : Type} `{StorageOk D}.

Lemma st_put_ok d t k v d' : st_put d t k v = (d', Ok tt) ->
  same_cells (st_view d') (cell_update t (insert k v) (st_view d)).
Proof. apply (st_put_view d t k v d' (Ok tt)). Qed.

Lemma st_put_err d t k v d' e : st_put d t k v = (d', Err e) -> same_cells (st_view d') (st_view d).
Proof. apply (st_put_view d t k v d' (Err e)). Qed.

Lemma st_put_other d t k v d' r t' k' : st_put d t k v = (d', r) -> t' <> t \/ k' <> k ->
  st_view d' t' !! k' = st_view d t' !! k'.
Proof.
  intros E Hne. apply st_put_view in E. rewrite (E t'). destruct r; simpl; [|done].
  destruct (decide (t' = t)) as [->|Ht]; [|by rewrite cell_update_ne].
  rewrite cell_update_eq. destruct Hne; [done|]. by rewrite lookup_insert_ne.
Qed.

Lemma st_exists_view d t k b : st_exists d t k = Ok b -> b = bool_decide (is_Some (st_view d t !! k)).
Proof. unfold st_exists. destruct (st_get d t k) eqn:E; [|done]. apply st_get_view in E as ->. congruence. Qed.
End Client.

(** ** The [redb] crate

    A database, its write and read transactions with an open table, and the
    operations the engine calls; errors carry their display text.  Beginning and
    committing a write transaction act on the shared database, and so give what it
    is afterwards, also when they fail; [rollback] is what dropping a transaction
    that was not committed does to it. *)
Class Redb := {
  rdb : Type;
  wtxn : Type;
  rtxn : Type;
  rdb_create : bytes -> result string rdb;
  begin_write : rdb -> rdb * result string wtxn;
  open_table_w : wtxn -> string -> result string wtxn;
  table_insert : wtxn -> string -> bytes -> bytes -> result string wtxn;
  table_remove : wtxn -> string -> bytes -> result string wtxn;
  commit : rdb -> wtxn -> rdb * result string unit;
  rollback : rdb -> wtxn -> rdb;
  begin_read : rdb -> result string rtxn;
  open_table_r : rtxn -> string -> result string rtxn;
  table_get : rtxn -> string -> bytes -> result string (option bytes);
  table_iter : rtxn -> string -> result string (list bytes)
}.

(** Documented behaviour: a transaction starts from the committed state, opening
    a table changes no row, a commit publishes its transaction when it succeeds and
    leaves the committed rows when it fails, a transaction that is dropped is
    aborted, iteration is in key order. *)
Class RedbOk `{Redb} := {
  rdb_view : rdb -> cells;
  wtxn_view : wtxn -> cells;
  rtxn_view : rtxn -> cells;
  begin_write_view d d' r : begin_write d = (d', r) ->
    same_cells (rdb_view d') (rdb_view d) /\ forall w, r = Ok w -> same_cells (wtxn_view w) (rdb_view d);
  open_w_view w t w' : open_table_w w t = Ok w' -> same_cells (wtxn_view w') (wtxn_view w);
  insert_view w t k v w' : table_insert w t k v = Ok w' ->
    same_cells (wtxn_view w') (cell_update t (insert k v) (wtxn_view w));
  remove_view w t k w' : table_remove w t k = Ok w' ->
    same_cells (wtxn_view w') (cell_update t (delete k) (wtxn_view w));
  commit_view d w d' r : commit d w = (d', r) ->
    same_cells (rdb_view d') (if is_ok r then wtxn_view w else rdb_view d);
  rollback_view d w : same_cells (rdb_view (rollback d w)) (rdb_view d);
  begin_read_view d r : begin_read d = Ok r -> same_cells (rtxn_view r) (rdb_view d);
  open_r_view r t r' : open_table_r r t = Ok r' -> same_cells (rtxn_view r') (rtxn_view r);
  get_view r t k o : table_get r t k = Ok o -> o = rtxn_view r t !! k;
  iter_view r t ks : table_iter r t = Ok ks ->
    StronglySorted (cmp_le bytes_cmp) ks /\ NoDup ks /\ (forall k, k ∈ ks <-> is_Some (rtxn_view r t !! k))
}.

(** ** [RedbEngine] ([storage/redb.rs]) *)

(** [?] and [map_err] on [Result]. *)
Definition and_then {E A B} (m : result E A) (f : A -> result E B) : result E B :=
  match m with Ok a => f a | Err e => Err e end.
Definition map_err {E F A} (f : E -> F) (m : result E A) : result F A :=
  match m with Ok a => Ok a | Err e => Err (f e) end.

Notation "x '<-!' m ; k" := (and_then m (fun x => k))
  (at level 60, m at next level, right associativity) : mono_scope.

Lemma and_then_Ok {E A B} (m : result E A) (f : A -> result E B) b :
  and_then m f = Ok b <-> exists a, m = Ok a /\ f a = Ok b.
Proof. destruct m; simpl; naive_solver. Qed.

Lemma map_err_Ok {E F A} (f : E -> F) (m : result E A) a : map_err f m = Ok a <-> m = Ok a.
Proof. destruct m; simpl; naive_solver. Qed.

Definition map_db_err (e : string) : LibError := Storage ("redb database: " ++ e).
Definition map_txn_err (e : string) : LibError := Storage ("redb transaction: " ++ e).
Definition map_table_err (e : string) : LibError := Storage ("redb table: " ++ e).
Definition map_store_err (e : string) : LibError := Storage ("redb storage: " ++ e).
Definition map_commit_err (e : string) : LibError := Storage ("redb commit: " ++ e).

Definition resolve_table (name : string) : Result string :=
  if bool_decide (name ∈ ALL_TABLES) then Ok name else Err (Storage ("unknown table: " ++ name)).

Lemma resolve_table_Ok t def : resolve_table t = Ok def -> def = t.
Proof. unfold resolve_table. case_bool_decide; congruence. Qed.

(** Turns a chain of [<-!] that returned into its steps. *)
Ltac steps :=
  repeat match goal with
  | H : and_then _ _ = Ok _ |- _ => apply and_then_Ok in H as (?&?&?)
  | H : map_err _ _ = Ok _ |- _ => rewrite map_err_Ok in H
  | H : resolve_table _ = Ok _ |- _ => apply resolve_table_Ok in H; subst
  end.

Section RedbEngine.
Context `{Redb}.

Record RedbEngine := mkRedbEngine { db : rdb }.

Fixpoint open_all (txn : wtxn) (names : list string) : Result wtxn :=
  match names with
  | [] => Ok txn
  | table_name :: names =>
      def <-! resolve_table table_name;
      txn <-! map_err map_table_err (open_table_w txn def);
      open_all txn names
  end.

(** [txn] is dropped on an error before the commit, which takes it. *)
Definition in_txn (d : rdb) (body : wtxn -> Result wtxn) : rdb * Result unit :=
  let '(d, begun) := begin_write d in
  match begun with
  | Err e => (d, Err (map_txn_err e))
  | Ok txn =>
      match body txn with
      | Err e => (rollback d txn, Err e)
      | Ok txn => let '(d, committed) := commit d txn in (d, map_err map_commit_err committed)
      end
  end.

Definition ensure_tables (d : rdb) : rdb * Result unit := in_txn d (fun txn => open_all txn ALL_TABLES).

Definition redb_open (path : bytes) : Result RedbEngine :=
  d <-! map_err map_db_err (rdb_create path);
  let '(d, r) := ensure_tables d in
  _ <-! r;
  Ok (mkRedbEngine d).

(** What [put] and [delete] share: a write transaction around one operation on one
    table. *)
Definition redb_write (self : RedbEngine) (table : string)
    (op : wtxn -> string -> result string wtxn) : RedbEngine * Result unit :=
  match resolve_table table with
  | Err e => (self, Err e)
  | Ok def =>
      let '(d, r) := in_txn (db self) (fun txn =>
        txn <-! map_err map_table_err (open_table_w txn def);
        map_err map_store_err (op txn def)) in
      (mkRedbEngine d, r)
  end.

Definition redb_put (self : RedbEngine) (table : string) (key value : bytes) : RedbEngine * Result unit :=
  redb_write self table (fun t def => table_insert t def key value).

Definition redb_delete (self : RedbEngine) (table : string) (key : bytes) : RedbEngine * Result unit :=
  redb_write self table (fun t def => table_remove t def key).

Definition redb_get (self : RedbEngine) (table : string) (key : bytes) : Result (option bytes) :=
  def <-! resolve_table table;
  txn <-! map_err map_txn_err (begin_read (db self));
  t <-! map_err map_table_err (open_table_r txn def);
  map_err map_store_err (table_get t def key).

Definition redb_list_keys (self : RedbEngine) (table : string) : Result (list bytes) :=
  def <-! resolve_table table;
  txn <-! map_err map_txn_err (begin_read (db self));
  t <-! map_err map_table_err (open_table_r txn def);
  map_err map_store_err (table_iter t def).

#[global] Instance redb_engine : StorageEngine RedbEngine := {|
  st_put := redb_put;
  st_get := redb_get;
  st_delete := redb_delete;
  st_list_keys := redb_list_keys
|}.

(** ** The engine keeps the promise *)

Context `{!RedbOk}.

(** A transaction publishes what its body has done, or nothing. *)
Lemma in_txn_view (d : rdb) (body : wtxn -> Result wtxn) (f : cells -> cells) d' r : Proper (same_cells ==> same_cells) f ->
  (forall w w', body w = Ok w' -> same_cells (wtxn_view w') (f (wtxn_view w))) ->
  in_txn d body = (d', r) -> same_cells (rdb_view d') (if is_ok r then f (rdb_view d) else rdb_view d).
Proof.
  intros Hf Hbody E. unfold in_txn in E. destruct (begin_write d) as [d1 begun] eqn:Eb.
  destruct (begin_write_view _ _ _ Eb) as [H1 Hw]. destruct begun as [txn|e]; [|by injection E as <- <-].
  destruct (body txn) as [txn'|e] eqn:Ebody.
  - destruct (commit d1 txn') as [d2 committed] eqn:Ec. injection E as <- <-. pose proof (commit_view _ _ _ _ Ec) as Hc.
    destruct committed as [[]|e]; simpl in *; [|by rewrite Hc].
    rewrite Hc, (Hbody _ _ Ebody). apply Hf. by apply Hw.
  - injection E as <- <-. simpl. by rewrite rollback_view.
Qed.

Lemma redb_write_view (self : RedbEngine) (t : string) (op : wtxn -> string -> result string wtxn)
    (f : gmap bytes bytes -> gmap bytes bytes) (self' : RedbEngine) r :
  (forall w w', op w t = Ok w' -> same_cells (wtxn_view w') (cell_update t f (wtxn_view w))) ->
  redb_write self t op = (self', r) ->
  same_cells (rdb_view (db self')) (if is_ok r then cell_update t f (rdb_view (db self)) else rdb_view (db self)).
Proof.
  intros Hop E. unfold redb_write in E. destruct (resolve_table t) as [def|e] eqn:Et; [|by injection E as <- <-].
  apply resolve_table_Ok in Et as ->. destruct (in_txn _ _) as [d r0] eqn:Ei. injection E as <- <-.
  apply (in_txn_view _ _ (cell_update t f) _ _ _) in Ei; [done|]. intros w w' Ew. steps.
  match goal with Ho : open_table_w _ _ = Ok _, Hx : op _ _ = Ok _ |- _ => rewrite (Hop _ _ Hx), (open_w_view _ _ _ Ho) end.
  done.
Qed.

#[global] Program Instance redb_engine_ok : StorageOk RedbEngine := {| st_view := fun s => rdb_view (db s) |}.
Next Obligation.
  intros d t k v d' r. apply redb_write_view. intros w w'. apply insert_view.
Qed.
Next Obligation.
  intros d t k d' r. apply redb_write_view. intros w w'. apply remove_view.
Qed.
Next Obligation.
  simpl. intros d t k o E. unfold redb_get in E. steps.
  match goal with B : begin_read _ = Ok _, O : open_table_r _ _ = Ok _, G : table_get _ _ _ = Ok _ |- _ =>
    apply get_view in G as ->; by rewrite (open_r_view _ _ _ O t), (begin_read_view _ _ B t) end.
Qed.
Next Obligation.
  simpl. intros d t ks E. unfold redb_list_keys in E. steps.
  match goal with B : begin_read _ = Ok _, O : open_table_r _ _ = Ok _, G : table_iter _ _ = Ok _ |- _ =>
    apply iter_view in G; by rewrite (open_r_view _ _ _ O t), (begin_read_view _ _ B t) in G end.
Qed.
End RedbEngine.

(** ** A write is atomic *)

Section Atomic.
Context `{RedbOk}.

Lemma open_all_view (names : list string) (w w' : wtxn) : open_all w names = Ok w' -> same_cells (wtxn_view w') (wtxn_view w).
Proof.
  revert w. induction names as [|t names IH]; simpl; intros w E; [by injection E as <-|]. steps.
  match goal with Ho : open_table_w _ _ = Ok _, Hx : open_all _ _ = Ok _ |- _ => by rewrite (IH _ Hx), (open_w_view _ _ _ Ho) end.
Qed.

(** Opening the engine changes no row of the file. *)
Lemma redb_open_view path d (self : RedbEngine) : rdb_create path = Ok d -> redb_open path = Ok self ->
  same_cells (rdb_view (db self)) (rdb_view d).
Proof.
  intros Hd E. unfold redb_open in E. rewrite Hd in E. simpl in E. unfold ensure_tables in E.
  destruct (in_txn d _) as [d' r] eqn:Ei. apply and_then_Ok in E as (u & -> & [= <-]).
  exact (in_txn_view d _ (fun c => c) d' _ (fun c c' Hc => Hc) (open_all_view ALL_TABLES) Ei).
Qed.

(** A write: a row and its new value, none to delete it. *)
Record row_write := mkWrite { w_table : string; w_key : bytes; w_value : option bytes }.

Definition redb_apply (self : RedbEngine) (w : row_write) : RedbEngine * Result unit :=
  match w_value w with
  | Some v => redb_put self (w_table w) (w_key w) v
  | None => redb_delete self (w_table w) (w_key w)
  end.

(** Writes one after the other, with what each caller was told. *)
Fixpoint redb_applies (self : RedbEngine) (ws : list row_write) : RedbEngine * list (Result unit) :=
  match ws with
  | [] => (self, [])
  | w :: ws => let '(self, r) := redb_apply self w in
               let '(self, rs) := redb_applies self ws in (self, r :: rs)
  end.

(** The specification: the row [k] of [t] after a log of writes and answers, only
    those that were acknowledged counting. *)
Fixpoint acknowledged (t : string) (k : bytes) (log : list (row_write * Result unit)) (o : option bytes) : option bytes :=
  match log with
  | [] => o
  | (w, r) :: log => acknowledged t k log (if is_ok r && bool_decide (w_table w = t /\ w_key w = k) then w_value w else o)
  end.

(** The call that a refused write of [t] failed in. *)
Inductive refused_at (t : string) : LibError -> Prop :=
  | at_resolve : t ∉ ALL_TABLES -> refused_at t (Storage ("unknown table: " ++ t))
  | at_begin d d' e : begin_write d = (d', Err e) -> refused_at t (map_txn_err e)
  | at_open w e : open_table_w w t = Err e -> refused_at t (map_table_err e)
  | at_insert w k v e : table_insert w t k v = Err e -> refused_at t (map_store_err e)
  | at_remove w k e : table_remove w t k = Err e -> refused_at t (map_store_err e)
  | at_commit d w d' e : commit d w = (d', Err e) -> refused_at t (map_commit_err e).

Lemma redb_write_refused (self self' : RedbEngine) t op e : redb_write self t op = (self', Err e) ->
  (forall w x, op w t = Err x -> refused_at t (map_store_err x)) -> refused_at t e.
Proof.
  intros E Hop. unfold redb_write, resolve_table in E. case_bool_decide as Ht; [|injection E as _ <-; by constructor].
  unfold in_txn in E. destruct (begin_write (db self)) as [d1 [txn|x]] eqn:Eb; [|injection E as _ <-; by eapply at_begin].
  destruct (open_table_w txn t) as [txn'|x] eqn:Eo; simpl in E; [|simplify_eq; by eapply at_open].
  destruct (op txn' t) as [txn2|x] eqn:Ex; simpl in E; [|simplify_eq; by eapply Hop].
  destruct (commit d1 txn2) as [d2 [[]|x]] eqn:Ec; simpl in E; simplify_eq. by eapply at_commit.
Qed.

Lemma redb_apply_refused (self self' : RedbEngine) w e : redb_apply self w = (self', Err e) -> refused_at (w_table w) e.
Proof.
  unfold redb_apply. destruct (w_value w); intros E; apply (redb_write_refused _ _ _ _ _ E); intros t x; simpl;
    [apply at_insert|apply at_remove].
Qed.

Lemma redb_apply_undeclared (self self' : RedbEngine) w r : redb_apply self w = (self', r) -> w_table w ∉ ALL_TABLES ->
  r = Err (Storage ("unknown table: " ++ w_table w)).
Proof.
  intros E Ht. unfold redb_apply, redb_put, redb_delete, redb_write, resolve_table in E.
  rewrite bool_decide_eq_false_2 in E by done. destruct (w_value w); by injection E as _ <-.
Qed.

Lemma redb_apply_view (self self' : RedbEngine) w r : redb_apply self w = (self', r) ->
  forall t k, rdb_view (db self') t !! k = acknowledged t k [(w, r)] (rdb_view (db self) t !! k).
Proof.
  intros E t k. simpl.
  set (f := fun m : gmap bytes bytes => match w_value w with Some v => <[w_key w := v]> m | None => delete (w_key w) m end).
  assert (same_cells (rdb_view (db self'))
    (if is_ok r then cell_update (w_table w) f (rdb_view (db self)) else rdb_view (db self))) as Hview.
  { unfold redb_apply in E. unfold f. destruct (w_value w) as [v|];
      [exact (st_put_view self (w_table w) (w_key w) v self' r E)|exact (st_delete_view self (w_table w) (w_key w) self' r E)]. }
  rewrite (Hview t). destruct (is_ok r); [|done]. cbn [andb]. destruct (decide (t = w_table w)) as [->|Ht].
  - rewrite cell_update_eq. unfold f. case_bool_decide as Hk; [destruct Hk as [_ <-]|]; destruct (w_value w);
      by rewrite ?lookup_insert_eq, ?lookup_delete_eq, ?lookup_insert_ne, ?lookup_delete_ne by naive_solver.
  - rewrite cell_update_ne by done. by rewrite bool_decide_eq_false_2 by naive_solver.
Qed.

Lemma redb_applies_view ws : forall (self self' : RedbEngine) rs, redb_applies self ws = (self', rs) ->
  length rs = length ws /\
  (forall t k, rdb_view (db self') t !! k = acknowledged t k (zip ws rs) (rdb_view (db self) t !! k)) /\
  Forall (fun '(w, r) => (w_table w ∉ ALL_TABLES -> is_ok r = false) /\ forall e, r = Err e -> refused_at (w_table w) e) (zip ws rs).
Proof.
  induction ws as [|w ws IH]; simpl; intros self self' rs E; [by injection E as <- <-|].
  destruct (redb_apply self w) as [self1 r] eqn:Ew. destruct (redb_applies self1 ws) as [self2 rs1] eqn:Ews.
  injection E as <- <-. destruct (IH _ _ _ Ews) as (Hlen & Hrow & Hall). split; [simpl; lia|]. split.
  - intros t k. rewrite Hrow, (redb_apply_view _ _ _ _ Ew). reflexivity.
  - simpl. constructor; [|done]. split; [intros Ht; by rewrite (redb_apply_undeclared _ _ _ _ Ew Ht)|].
    intros e ->. by eapply redb_apply_refused.
Qed.

(** C23: the engine keeps exactly the writes it acknowledged.  Let an engine be opened on
    a file and take any puts and deletes.  Every [get] that returns then answers the value
    of the last acknowledged write of that row, or what the file held when there is none;
    every [list_keys] that returns lists the rows so present, ascending and each once.  So
    a write that was refused, at the beginning of its transaction, in it or at its commit,
    has left no trace.  A write is refused only when a call of the crate fails, whose error
    it gives, or its table is not a declared one, which always refuses it. *)
Theorem put_atomic (path : bytes) (d : rdb) (self self' : RedbEngine) (ws : list row_write) (rs : list (Result unit))
    (Hfile : rdb_create path = Ok d) (Hopen : redb_open path = Ok self) (Hrun : redb_applies self ws = (self', rs)) :
  let row t k := acknowledged t k (zip ws rs) (rdb_view d t !! k) in
  length rs = length ws /\
  (forall t k o, redb_get self' t k = Ok o -> o = row t k) /\
  (forall t ks, redb_list_keys self' t = Ok ks ->
     StronglySorted (cmp_le bytes_cmp) ks /\ NoDup ks /\ forall k, k ∈ ks <-> is_Some (row t k)) /\
  Forall (fun '(w, r) => (w_table w ∉ ALL_TABLES -> is_ok r = false) /\ forall e, r = Err e -> refused_at (w_table w) e) (zip ws rs).
Proof.
  intros row. destruct (redb_applies_view _ _ _ _ Hrun) as (Hlen & Hrow & Hall).
  assert (forall t k, rdb_view (db self') t !! k = row t k) as Hr.
  { intros t k. unfold row. by rewrite Hrow, (redb_open_view _ _ _ Hfile Hopen t). }
  split; [done|]. split; [|split; [|done]].
  - intros t k o G. change (st_get self' t k = Ok o) in G. apply st_get_view in G as ->. apply Hr.
  - intros t ks G. change (st_list_keys self' t = Ok ks) in G. apply st_list_view in G as (Hs & Hn & Hk).
    do 2 (split; [done|]). intros k. by rewrite Hk, <- Hr.
Qed.
End Atomic.

(** ** An in-memory database, for examples *)

Abbreviation mem := (gmap string (gmap bytes bytes)).
Definition mem_table (m : mem) (t : string) : gmap bytes bytes := default ∅ (m !! t).
Definition mem_keys (m : mem) (t : string) : list bytes := sort_by bytes_cmp (elements (dom (mem_table m t))).

Lemma mem_update (m : mem) t f : same_cells (mem_table (<[t := f (mem_table m t)]> m)) (cell_update t f (mem_table m)).
Proof.
  intros t'. unfold cell_update. generalize (f (mem_table m t)). intros x. unfold mem_table.
  destruct (decide (t' = t)) as [->|Ht]; [by rewrite lookup_insert_eq|by rewrite lookup_insert_ne].
Qed.

Lemma mem_keys_ok m t :
  StronglySorted (cmp_le bytes_cmp) (mem_keys m t) /\ NoDup (mem_keys m t) /\
  forall k, k ∈ mem_keys m t <-> is_Some (mem_table m t !! k).
Proof.
  unfold mem_keys. repeat split.
  - apply sort_by_sorted. apply _.
  - rewrite sort_by_perm. apply NoDup_elements.
  - intros Hk. rewrite sort_by_elem in Hk. by apply elem_of_elements, elem_of_dom in Hk.
  - intros Hk. rewrite sort_by_elem. by apply elem_of_elements, elem_of_dom.
Qed.

#[local] Instance mem_redb : Redb := {|
  rdb := mem; wtxn := mem; rtxn := mem;
  rdb_create _ := Ok ∅;
  begin_write d := (d, Ok d);
  open_table_w w _ := Ok w;
  table_insert w t k v := Ok (<[t := <[k := v]> (mem_table w t)]> w);
  table_remove w t k := Ok (<[t := delete k (mem_table w t)]> w);
  commit _ w := (w, Ok tt);
  rollback d _ := d;
  begin_read d := Ok d;
  open_table_r r _ := Ok r;
  table_get r t k := Ok (mem_table r t !! k);
  table_iter r t := Ok (mem_keys r t)
|}.

#[local] Program Instance mem_redb_ok : RedbOk :=
  {| rdb_view := mem_table; wtxn_view := mem_table; rtxn_view := mem_table |}.
Solve Obligations with simpl; intros; simplify_eq; first [done | by split; [|intros; simplify_eq] | apply mem_update | apply mem_keys_ok].

#[local] Instance mem_reliable : StorageReliable RedbEngine.
Proof.
  split; simpl; intros; unfold redb_put, redb_write, redb_get, redb_list_keys, resolve_table;
    rewrite bool_decide_eq_true_2 by done; simpl; eauto.
Qed.

Definition mem_new : RedbEngine := mkRedbEngine ∅.

Module MemStorage.
#[export] Existing Instance mem_redb.
#[export] Existing Instance mem_redb_ok.
#[export] Existing Instance mem_reliable.
End MemStorage.

Lemma put_atomic_witness : exists self self' rs,
  redb_open [] = Ok self /\
  redb_applies self [mkWrite META [x01] (Some [x02]); mkWrite META [x03] (Some [x04]); mkWrite META [x03] None;
                     mkWrite "nowhere" [x05] (Some [x06])] = (self', rs) /\
  redb_get self' META [x01] = Ok (Some [x02]) /\ redb_get self' META [x03] = Ok None.
Proof.
  eexists _, _, _. split; [reflexivity|]. split; [reflexivity|].
  destruct (put_atomic (H := mem_redb) [] _ _ _ [mkWrite META [x01] (Some [x02]); mkWrite META [x03] (Some [x04]); mkWrite META [x03] None;
                     mkWrite "nowhere" [x05] (Some [x06])] _ eq_refl eq_refl eq_refl) as (_ & G & _).
  split; [rewrite (G META [x01] (Some [x02]) eq_refl)|rewrite (G META [x03] None eq_refl)]; reflexivity.
Defined.

(** A database whose commits fail: the write is refused and the row is not there. *)
Definition full_disk : Redb := {|
  rdb := mem; wtxn := mem; rtxn := mem;
  rdb_create _ := Ok ∅;
  begin_write d := (d, Ok d);
  open_table_w w _ := Ok w;
  table_insert w t k v := Ok (<[t := <[k := v]> (mem_table w t)]> w);
  table_remove w t k := Ok (<[t := delete k (mem_table w t)]> w);
  commit d _ := (d, Err "no space left on device"%string);
  rollback d _ := d;
  begin_read d := Ok d;
  open_table_r r _ := Ok r;
  table_get r t k := Ok (mem_table r t !! k);
  table_iter r t := Ok (mem_keys r t)
|}.

Example put_refused : exists self', @redb_put full_disk (@mkRedbEngine full_disk ∅) META [x01] [x02] =
    (self', Err (Storage "redb commit: no space left on device"%string)) /\
  @redb_get full_disk self' META [x01] = Ok None.
Proof. eexists. split; reflexivity. Qed.
