(* ===== verification/Genesis.v ===== *)
(** * Genesis and the node's use of storage

    [storage/genesis.rs], and from the node binary ([mononium-cli/src/node.rs])
    the storage helpers run at start-up and the REST handlers.  Decimal parsing
    ([primitive-types]) and JSON parsing ([serde_json]) are parameters; formatted
    error texts are cut to their constant part. *)
From Stdlib Require Import Strings.Byte Strings.String.
From stdpp Require Import base gmap sets list strings countable sorting.
From Stdlib Require Import ZArith Lia.
From S2P Require Import Prelude Types External Trie Account State Storage Toy Ledger Refine Scenario.

(** ** Configuration *)

Record GenesisValidator := mkGenesisValidator { gv_address : bytes; gv_stake : bytes }.

Record GenesisConfig := mkGenesisConfig {
  gc_chain_id : Z;                          (* u64 *)
  gc_genesis_time : bytes;
  gc_initial_accounts : gmap bytes bytes;   (* HashMap<String, String> *)
  gc_initial_validators : list GenesisValidator
}.

(** [anyhow::Error]: a library error, or a message. *)
Inductive AnyError := FromLib (e : LibError) | Anyhow (msg : string).

Class GenesisText := {
  from_dec_str : bytes -> option Z;               (* [U256::from_dec_str] *)
  genesis_from_str : bytes -> option GenesisConfig  (* [serde_json::from_str] *)
}.

Class GenesisTextOk `{GenesisText} : Prop := {
  from_dec_str_u256 s z : from_dec_str s = Some z -> is_u256 z;
  genesis_chain_id j c : genesis_from_str j = Some c -> is_u64 (gc_chain_id c)
}.

(** The run of a fallible write: the store, and [Ok] or the error met. *)
Definition st_bind {D A} (m : D * Result unit) (k : D -> D * Result A) : D * Result A :=
  match m with (d, Ok _) => k d | (d, Err e) => (d, Err e) end.

Notation "d '<-$' m ; k" := (st_bind m (fun d => k))
  (at level 60, m at next level, right associativity) : mono_scope.

(** [for x in l { step(x)?; }] *)
Fixpoint for_each {D A} (step : D -> A -> D * Result unit) (d : D) (l : list A) : D * Result unit :=
  match l with
  | [] => (d, Ok tt)
  | x :: l => d <-$ step d x; for_each step d l
  end.

Section Genesis.
Context `{BuildProfile} `{Blake3} `{Scale} `{Hex} `{GenesisText} `{!HashOrder bytes}.

Definition parse_u256 (s : bytes) : Result Z := ok_or (from_dec_str s) (Storage "invalid decimal U256").

(** Iteration over [&config.initial_accounts]. *)
Definition map_pairs (m : gmap bytes bytes) : list (bytes * bytes) :=
  omap (fun k => v ← m !! k; Some (k, v)) (hash_order (dom m)).

(** The row an entry of the configuration gives. *)
Definition account_row (p : bytes * bytes) : Result (bytes * bytes) :=
  raw_addr <-! parse_hex_addr p.1;
  balance <-! parse_u256 p.2;
  Ok (array_bytes raw_addr, account_encode (Account_new balance)).

Definition validator_row (v : GenesisValidator) : Result (bytes * bytes) :=
  raw_addr <-! parse_hex_addr (gv_address v);
  stake <-! parse_u256 (gv_stake v);
  Ok (array_bytes raw_addr, array_bytes raw_addr ++ to_le_bytes 32 stake).

Definition genesis_block (chain_id : Z) : Block :=
  mkBlock
    (mkBlockHeader 0 (array_repeat 32 x00) (array_repeat 32 x00) (array_repeat 32 x00) 0
       (address_from (array_repeat 32 x00)) chain_id (mkSignature (List.repeat x00 FALCON_SIGNATURE_SIZE)))
    (mkBlockBody []).

Section Engine.
Context {D : Type} `{StorageEngine D}.

Definition put_row {A} (table : string) (row : A -> Result (bytes * bytes)) (engine : D) (x : A) : D * Result unit :=
  match row x with
  | Ok (k, v) => st_put engine table k v
  | Err e => (engine, Err e)
  end.

(** The writes of [load_genesis] after its checks. *)
Definition write_genesis (engine : D) (json_str : bytes) (config : GenesisConfig) : D * Result unit :=
  engine <-$ st_put engine META CHAIN_ID_KEY (to_le_bytes 8 (gc_chain_id config));
  engine <-$ for_each (put_row ACCOUNTS account_row) engine (map_pairs (gc_initial_accounts config));
  engine <-$ for_each (put_row VALIDATORS validator_row) engine (gc_initial_validators config);
  engine <-$ st_put engine META GENESIS_HASH_KEY (array_bytes (blake3 json_str));
  engine <-$ st_put engine BLOCKS (List.repeat x00 8) (enc sc_block (genesis_block (gc_chain_id config)));
  st_put engine META GENESIS_LOADED_KEY (list_byte_of_string "1").

(** [file] is the result of [read_to_string]. *)
Definition load_genesis (engine : D) (file : option bytes) : D * Result unit :=
  match st_exists engine META GENESIS_LOADED_KEY with
  | Err e => (engine, Err e)
  | Ok true => (engine, Err (Storage "genesis already loaded"))
  | Ok false =>
      match file with
      | None => (engine, Err (Storage "cannot read genesis file"))
      | Some json_str =>
          match genesis_from_str json_str with
          | None => (engine, Err (Storage "invalid genesis JSON"))
          | Some config => write_genesis engine json_str config
          end
      end
  end.

(** ** Start-up helpers of the node *)

(** [keys.iter().max()] *)
Fixpoint max_key (m : bytes) (keys : list bytes) : bytes :=
  match keys with
  | [] => m
  | k :: keys => max_key (match bytes_cmp m k with Gt => m | _ => k end) keys
  end.

Definition load_latest_height (engine : D) : outcome (result AnyError Z) :=
  match st_list_keys engine BLOCKS with
  | Err e => Ret (Err (FromLib e))
  | Ok [] => Ret (Ok 0)
  | Ok (k :: keys) =>
      let m := max_key k keys in
      if bool_decide (length m = 8%nat) then Ret (Ok (from_be_bytes m)) else Panic
  end.

Definition verify_state_consistency (self : StateMachine) (engine : D) (height : Z) :
    outcome (StateMachine * result AnyError unit) :=
  if height =? 0 then Ret (self, Ok tt)
  else
    match st_get engine BLOCKS (to_be_bytes 8 height) with
    | Err e => Ret (self, Err (FromLib e))
    | Ok None => Ret (self, Err (Anyhow "block not found during consistency check"))
    | Ok (Some raw) =>
        match decode_all sc_block raw with
        | None => Ret (self, Err (Anyhow "failed to decode block"))
        | Some block =>
            '(actual_root, self) ← state_root self;
            if bool_decide (hdr_global_state_root (blk_header block) = actual_root)
            then Ret (self, Ok tt)
            else Ret (self, Err (Anyhow "state root mismatch"))
        end
    end.

(** One key of the accounts table: skipped unless it is an address with a row
    that decodes. *)
Definition load_account (engine : D) (key : bytes) : option (Address * Account) :=
  raw_addr ← array_of_list 32 key;
  match st_get engine ACCOUNTS key with
  | Ok (Some raw) => acct ← decode_all sc_account raw; Some (address_from raw_addr, acct)
  | _ => None
  end.

Definition load_state_from_storage (engine : D) : result AnyError StateMachine :=
  match st_list_keys engine ACCOUNTS with
  | Err e => Err (FromLib e)
  | Ok account_keys => Ok (StateMachine_new (omap (load_account engine) account_keys))
  end.
End Engine.
End Genesis.

(** ** Writing rows *)

Section Rows.
Context `{BuildProfile} `{Blake3} `{Scale} `{Hex} `{GenesisText} `{!HashOrder bytes}.
Context {D : Type} `{StorageOk D}.

Definition add_rows (rows : list (bytes * bytes)) (m : gmap bytes bytes) : gmap bytes bytes :=
  foldl (fun m r => <[r.1 := r.2]> m) m rows.

(** All rows, or the first error. *)
Fixpoint rows_of {A} (row : A -> Result (bytes * bytes)) (l : list A) : Result (list (bytes * bytes)) :=
  match l with
  | [] => Ok []
  | x :: l => r <-! row x; rs <-! rows_of row l; Ok (r :: rs)
  end.

Lemma for_each_inv {A} (P : D -> Prop) (step : D -> A -> D * Result unit) d l :
  (forall d x, P d -> P (step d x).1) -> P d -> P (for_each step d l).1.
Proof.
  intros Hstep. revert d. induction l as [|x l IH]; intros d Hd; simpl; [done|].
  specialize (Hstep d x Hd). destruct (step d x) as [d' [?|?]]; simpl in *; auto.
Qed.

Lemma put_row_other {A} t (row : A -> Result (bytes * bytes)) d x t' k' :
  t' <> t -> st_view (put_row t row d x).1 t' !! k' = st_view d t' !! k'.
Proof.
  intros Ht. unfold put_row. destruct (row x) as [[k v]|e]; simpl; [|done].
  destruct (st_put d t k v) eqn:E. simpl. eapply st_put_other; eauto.
Qed.

Lemma for_each_other {A} t (row : A -> Result (bytes * bytes)) d l t' k' :
  t' <> t -> st_view (for_each (put_row t row) d l).1 t' !! k' = st_view d t' !! k'.
Proof.
  intros Ht. apply (for_each_inv (fun d' => st_view d' t' !! k' = st_view d t' !! k')); [|done].
  intros d' x E. by rewrite put_row_other.
Qed.

Lemma put_row_ok {A} t (row : A -> Result (bytes * bytes)) d x d' :
  put_row t row d x = (d', Ok tt) -> exists r, row x = Ok r /\
  same_cells (st_view d') (cell_update t (insert r.1 r.2) (st_view d)).
Proof.
  unfold put_row. destruct (row x) as [[k v]|e]; [|done]. intros E. exists (k, v). split; [done|].
  by apply st_put_ok in E.
Qed.

Lemma for_each_ok {A} t (row : A -> Result (bytes * bytes)) d l d' :
  for_each (put_row t row) d l = (d', Ok tt) -> exists rows, rows_of row l = Ok rows /\
  same_cells (st_view d') (cell_update t (add_rows rows) (st_view d)).
Proof.
  revert d. induction l as [|x l IH]; intros d E; simpl in *.
  - simplify_eq. exists []. split; [done|]. intros t'. unfold cell_update. case_decide; [by subst|done].
  - destruct (put_row t row d x) as [d1 [[]|e]] eqn:E1; simpl in E; [|done].
    apply put_row_ok in E1 as (r & Hr & V1). apply IH in E as (rows & Hrows & V).
    exists (r :: rows). rewrite Hr, Hrows. split; [done|]. rewrite V. intros t'. simpl.
    rewrite (cell_update_proper t (add_rows rows) _ _ V1 t'). unfold cell_update.
    repeat case_decide; by simplify_eq.
Qed.

(** On a reliable store a row that parses is written. *)
Lemma for_each_total `{!StorageReliable D} {A} t (row : A -> Result (bytes * bytes)) d l rows :
  t ∈ ALL_TABLES -> rows_of row l = Ok rows -> exists d', for_each (put_row t row) d l = (d', Ok tt).
Proof.
  intros Ht. revert d rows. induction l as [|x l IH]; intros d rows E; simpl in *; [by eexists|].
  apply and_then_Ok in E as ([k v] & Hr & E). apply and_then_Ok in E as (rs & Hrs & E).
  unfold put_row at 1. rewrite Hr. destruct (st_put_total d t k v Ht) as [d1 ->]. simpl. by eapply IH.
Qed.
End Rows.

(** ** Loading the genesis *)

Section Load.
Context `{BuildProfile} `{Blake3} `{Scale} `{Hex} `{GenesisText} `{!HashOrder bytes}.
Context {D : Type} `{StorageOk D}.

Definition is_loaded (d : D) : Prop := is_Some (st_view d META !! GENESIS_LOADED_KEY).

(** The database a successful load leaves. *)
Definition genesis_cells (json : bytes) (config : GenesisConfig) (arows vrows : list (bytes * bytes)) (c : cells) : cells :=
  cell_update META (add_rows [(CHAIN_ID_KEY, to_le_bytes 8 (gc_chain_id config));
                              (GENESIS_HASH_KEY, array_bytes (blake3 json));
                              (GENESIS_LOADED_KEY, list_byte_of_string "1")])
    (cell_update ACCOUNTS (add_rows arows)
      (cell_update VALIDATORS (add_rows vrows)
        (cell_update BLOCKS (insert (List.repeat x00 8) (enc sc_block (genesis_block (gc_chain_id config)))) c))).

Ltac step_ok E :=
  match type of E with
  | st_bind ?m _ = _ =>
      let d := fresh "d" in let F := fresh "F" in
      destruct m as [d [[]|?e]] eqn:F; simpl in E; [|discriminate E]
  end.

Lemma write_genesis_ok d json config d' : write_genesis d json config = (d', Ok tt) ->
  exists arows vrows,
    rows_of account_row (map_pairs (gc_initial_accounts config)) = Ok arows /\
    rows_of validator_row (gc_initial_validators config) = Ok vrows /\
    same_cells (st_view d') (genesis_cells json config arows vrows (st_view d)).
Proof.
  intros E. unfold write_genesis in E. do 5 step_ok E.
  apply st_put_ok in F, F2, F3, E. apply for_each_ok in F0 as (arows & Ha & V0).
  apply for_each_ok in F1 as (vrows & Hv & V1). exists arows, vrows. split; [done|]. split; [done|].
  rewrite E, F3, F2, V1, V0, F. intros t. unfold genesis_cells, cell_update.
  repeat match goal with |- context [decide (?a = ?b)] => destruct (decide (a = b)) end; by simplify_eq.
Qed.

Lemma load_genesis_ok d file d' : load_genesis d file = (d', Ok tt) ->
  exists json config arows vrows, file = Some json /\ genesis_from_str json = Some config /\
    rows_of account_row (map_pairs (gc_initial_accounts config)) = Ok arows /\
    rows_of validator_row (gc_initial_validators config) = Ok vrows /\
    same_cells (st_view d') (genesis_cells json config arows vrows (st_view d)).
Proof.
  unfold load_genesis. destruct (st_exists _ _ _) as [[]|]; [done| |done].
  destruct file as [json|]; [|done]. destruct (genesis_from_str json) as [config|] eqn:Ej; [|done].
  intros (arows & vrows & Ha & Hv & V)%write_genesis_ok. by exists json, config, arows, vrows.
Qed.

Lemma add_rows_elem rows m k v : add_rows rows m !! k = Some v -> (k, v) ∈ rows \/ m !! k = Some v.
Proof.
  revert m. induction rows as [|[k' v'] rows IH]; intros m E; simpl in *; [by right|].
  apply IH in E as [E|E]; [left; by right|]. apply lookup_insert_Some in E as [[-> ->]|[_ E]]; [left; by left|by right].
Qed.

Lemma add_rows_defined rows m k : k ∈ map fst rows \/ is_Some (m !! k) -> is_Some (add_rows rows m !! k).
Proof.
  revert m. induction rows as [|[k' v'] rows IH]; intros m Hk; simpl in *; [by destruct Hk as [?%elem_of_nil|]|].
  apply IH. destruct Hk as [[->|Hk]%elem_of_cons|Hk]; [right; rewrite lookup_insert_eq; by eexists|by left|].
  right. apply lookup_insert_is_Some. destruct (decide (k' = k)); auto.
Qed.

Lemma rows_of_defined {A} (row : A -> Result (bytes * bytes)) l rows x :
  rows_of row l = Ok rows -> x ∈ l -> exists r, row x = Ok r /\ r ∈ rows.
Proof.
  revert rows. induction l as [|y l IH]; intros rows E Hx; [by apply elem_of_nil in Hx|]. simpl in E.
  apply and_then_Ok in E as (r0 & Hr & E). apply and_then_Ok in E as (rs & Hrs & [= <-]).
  apply elem_of_cons in Hx as [->|Hx]; [exists r0; split; [done|by left]|].
  destruct (IH _ Hrs Hx) as (r & ? & ?). exists r. split; [done|by right].
Qed.

(** [P] holds of the store an error leaves. *)
Definition errs {A} (P : D -> Prop) (m : D * Result A) : Prop :=
  match m with (d, Err _) => P d | _ => True end.

Lemma st_bind_errs {A} (P : D -> Prop) (m : D * Result unit) (k : D -> D * Result A) :
  P m.1 -> (forall d, P d -> errs P (k d)) -> errs P (st_bind m k).
Proof. destruct m as [d [?|?]]; simpl; auto. Qed.

(** A load that stops leaves the marker as it was. *)
Lemma write_genesis_marker d json config :
  errs (fun d' => st_view d' META !! GENESIS_LOADED_KEY = st_view d META !! GENESIS_LOADED_KEY)
    (write_genesis d json config).
Proof.
  assert (forall d d1 t k v, META <> t \/ GENESIS_LOADED_KEY <> k ->
    st_view d1 META !! GENESIS_LOADED_KEY = st_view d META !! GENESIS_LOADED_KEY ->
    st_view (st_put d1 t k v).1 META !! GENESIS_LOADED_KEY = st_view d META !! GENESIS_LOADED_KEY) as Hput.
  { intros d0 d1 t k v Hne V. destruct (st_put d1 t k v) eqn:E. simpl. by rewrite (st_put_other _ _ _ _ _ _ _ _ E Hne). }
  unfold write_genesis.
  repeat (apply st_bind_errs;
    [first [apply Hput; [by right|done] | apply Hput; [by left|done] | by rewrite for_each_other]|intros]).
  unfold errs. destruct (st_put _ _ _ _) as [d' [?|e]] eqn:E; [done|]. apply st_put_err in E. by rewrite (E META).
Qed.

Lemma write_genesis_total `{!StorageReliable D} d json config arows vrows :
  rows_of account_row (map_pairs (gc_initial_accounts config)) = Ok arows ->
  rows_of validator_row (gc_initial_validators config) = Ok vrows ->
  exists d', write_genesis d json config = (d', Ok tt).
Proof.
  intros Ha Hv. unfold write_genesis.
  destruct (st_put_total d META CHAIN_ID_KEY (to_le_bytes 8 (gc_chain_id config))) as [d1 ->]; [auto with tables|]; cbn [st_bind].
  destruct (for_each_total ACCOUNTS account_row d1 _ _ ltac:(auto with tables) Ha) as [d2 ->]; cbn [st_bind].
  destruct (for_each_total VALIDATORS validator_row d2 _ _ ltac:(auto with tables) Hv) as [d3 ->]; cbn [st_bind].
  destruct (st_put_total d3 META GENESIS_HASH_KEY (array_bytes (blake3 json))) as [d4 ->]; [auto with tables|]; cbn [st_bind].
  destruct (st_put_total d4 BLOCKS (List.repeat x00 8) (enc sc_block (genesis_block (gc_chain_id config)))) as [d5 ->];
    [auto with tables|]; cbn [st_bind].
  apply st_put_total. auto with tables.
Qed.

(** The genesis is loaded at most once and never by halves.  On a reliable
    store a load succeeds exactly when no genesis was marked loaded and the file
    reads, parses and has only well-formed rows; then the database holds the rows
    of the configuration, the chain id, the file's hash, the genesis block at
    height 0 and the marker, so that every later load is refused without touching
    it.  A load that fails, at whatever write, leaves the marker as it was. *)
Theorem genesis_loaded_once (d : D) (file : option bytes) `{!StorageReliable D} :
  exists d' r, load_genesis d file = (d', r) /\
  (is_loaded d -> r = Err (Storage "genesis already loaded") /\ d' = d) /\
  (r = Ok tt <-> ~ is_loaded d /\ exists json config arows vrows,
     file = Some json /\ genesis_from_str json = Some config /\
     rows_of account_row (map_pairs (gc_initial_accounts config)) = Ok arows /\
     rows_of validator_row (gc_initial_validators config) = Ok vrows /\
     same_cells (st_view d') (genesis_cells json config arows vrows (st_view d))) /\
  (r = Ok tt -> is_loaded d') /\
  (is_ok r = false -> (is_loaded d' <-> is_loaded d)).
Proof.
  destruct (load_genesis d file) as [d' r] eqn:E. exists d', r. split; [done|].
  unfold load_genesis in E. unfold st_exists in E.
  destruct (st_get_total d META GENESIS_LOADED_KEY ltac:(auto with tables)) as [o Hg]. rewrite Hg in E.
  apply st_get_view in Hg as ->. unfold is_loaded at 1 2 4.
  case_bool_decide as Hl; [simplify_eq; naive_solver|].
  destruct file as [json|]; [|simplify_eq; naive_solver].
  destruct (genesis_from_str json) as [config|] eqn:Hc; [|simplify_eq; naive_solver].
  pose proof (write_genesis_marker d json config) as Hm. rewrite E in Hm.
  assert (r = Ok tt <-> ~ is_loaded d /\ exists json0 config0 arows vrows,
    Some json = Some json0 /\ genesis_from_str json0 = Some config0 /\
    rows_of account_row (map_pairs (gc_initial_accounts config0)) = Ok arows /\
    rows_of validator_row (gc_initial_validators config0) = Ok vrows /\
    same_cells (st_view d') (genesis_cells json0 config0 arows vrows (st_view d))) as Hiff.
  { split.
    - intros ->. split; [done|]. apply write_genesis_ok in E as (arows & vrows & ?). naive_solver.
    - intros (_ & json0 & config0 & arows & vrows & [= <-] & Hc' & Ha & Hv & _). simplify_eq.
      destruct (write_genesis_total d json config arows vrows Ha Hv). congruence. }
  split; [done|]. split; [done|]. split.
  - intros Hr. apply Hiff in Hr as (_ & ? & ? & ? & ? & _ & _ & _ & _ & V). unfold is_loaded.
    rewrite (V META). unfold genesis_cells. rewrite cell_update_eq. simpl. rewrite lookup_insert_eq. by eexists.
  - destruct r; [done|]. intros _. unfold is_loaded. simpl in Hm. by rewrite Hm.
Qed.
End Load.

(** ** The state machine rebuilt from storage *)

Section Restart.
Context `{BuildProfile} `{Blake3} `{Scale} `{!ScaleOk} `{Hex} `{GenesisText} `{!GenesisTextOk} `{!HashOrder bytes} `{!HashOrderOk bytes}.
Context {D : Type} `{StorageOk D} `{!StorageReliable D}.

(** The account a row of the table stands for. *)
Definition stored_account (d : D) (a : Address) : option Account :=
  raw ← st_view d ACCOUNTS !! array_bytes (as_bytes a); decode_all sc_account raw.

Lemma load_account_Some d k a x :
  load_account d k = Some (a, x) <-> k = array_bytes (as_bytes a) /\ stored_account d a = Some x.
Proof.
  unfold load_account, stored_account. destruct (st_get_total d ACCOUNTS k ltac:(auto with tables)) as [o Hg].
  rewrite Hg. apply st_get_view in Hg as ->. split.
  - destruct (array_of_list 32 k) as [raw|] eqn:Hk; simpl; [|done]. apply array_of_list_Some in Hk.
    destruct (st_view d ACCOUNTS !! k) as [bs|] eqn:Hr; [|done]. destruct (decode_all sc_account bs) eqn:Hd; simpl; [|done].
    intros [= <- <-]. simpl. subst. by rewrite Hr.
  - intros [-> Hs]. rewrite array_of_list_bytes. simpl.
    destruct (st_view d ACCOUNTS !! _) as [bs|]; simpl in *; [|done]. rewrite Hs. by destruct a.
Qed.

(** The rebuilt state machine has exactly the accounts of the table, for the
    addresses of a scope [A] without hash collisions. *)
Lemma load_state_refines (A : gset Address) (HA : collision_free (keys_of A)) d :
  (forall a x, stored_account d a = Some x -> a ∈ A /\ account_valid x) ->
  exists sm m, load_state_from_storage d = Ok sm /\ refines A sm (mkLedger m ∅ []) /\
    forall a, m !! a = stored_account d a.
Proof.
  intros Hin. unfold load_state_from_storage.
  destruct (st_list_total d ACCOUNTS ltac:(auto with tables)) as [ks Hks]. rewrite Hks.
  apply st_list_view in Hks as (_ & Hnd & Hks).
  set (l := omap (load_account d) ks).
  assert (forall a x, (a, x) ∈ l <-> stored_account d a = Some x) as Hl.
  { intros a x. unfold l. rewrite list_elem_of_omap. setoid_rewrite load_account_Some. split; [naive_solver|].
    intros Hs. exists (array_bytes (as_bytes a)). split; [|done]. apply Hks. unfold stored_account in Hs.
    destruct (st_view d ACCOUNTS !! _); [by eexists|done]. }
  exists (StateMachine_new l), (foldl (fun m p => <[p.1 := p.2]> m) ∅ l). split; [done|]. split.
  - apply refines_new; [done|]. apply Forall_forall. intros [a x] Hax. apply Hin. by apply Hl.
  - intros a. apply option_eq. intros x. rewrite (foldl_insert_lookup fst snd).
    + rewrite <- Hl. split; [intros ([? ?] & ? & <- & <-); done|]. intros Hx. by exists (a, x).
    + intros [b y] [c z] Hb%Hl Hc%Hl E. simpl in *. congruence.
Qed.

Lemma load_state_get (A : gset Address) (HA : collision_free (keys_of A)) d :
  (forall a x, stored_account d a = Some x -> a ∈ A /\ account_valid x) ->
  exists sm, load_state_from_storage d = Ok sm /\ forall a, a ∈ A -> get_account sm a = Ret (stored_account d a).
Proof.
  intros Hin. destruct (load_state_refines A HA d Hin) as (sm & m & E & R & Hm). exists sm. split; [done|].
  intros a Ha. rewrite (rf_account _ _ _ R a Ha). simpl. by rewrite Hm.
Qed.

(** An entry of the configuration that gives address [a] the balance [b]. *)
Definition gives (config : GenesisConfig) (a : Address) (b : Z) : Prop :=
  exists addr_hex bal, gc_initial_accounts config !! addr_hex = Some bal /\
    parse_hex_addr addr_hex = Ok (as_bytes a) /\ from_dec_str bal = Some b.

Lemma map_pairs_elem (m : gmap bytes bytes) p : p ∈ map_pairs m <-> m !! p.1 = Some p.2.
Proof.
  unfold map_pairs. rewrite list_elem_of_omap. destruct p as [k v]. simpl. split.
  - intros (k' & _ & Hk). destruct (m !! k') eqn:E; naive_solver.
  - intros Hm. exists k. rewrite hash_order_elem, elem_of_dom, Hm. split; [by eexists|done].
Qed.

Lemma rows_of_elem {A} (row : A -> Result (bytes * bytes)) l rows r :
  rows_of row l = Ok rows -> r ∈ rows <-> exists x, x ∈ l /\ row x = Ok r.
Proof.
  revert rows. induction l as [|x l IH]; intros rows E; simpl in E.
  - simplify_eq. setoid_rewrite elem_of_nil. naive_solver.
  - apply and_then_Ok in E as (r0 & Hr & E). apply and_then_Ok in E as (rs & Hrs & [= <-]).
    rewrite elem_of_cons, (IH _ Hrs). setoid_rewrite elem_of_cons. split.
    + intros [-> |(y & Hy & E)]; [by exists x; auto|by exists y; auto].
    + intros (y & [-> |Hy] & E); [left; congruence|right; by exists y].
Qed.

Lemma account_row_gives config rows k v :
  rows_of account_row (map_pairs (gc_initial_accounts config)) = Ok rows ->
  (k, v) ∈ rows <-> exists a b, gives config a b /\ k = array_bytes (as_bytes a) /\ v = account_encode (Account_new b).
Proof.
  intros E. rewrite (rows_of_elem _ _ _ _ E). split.
  - intros ([h bal] & Hp & Hr). apply map_pairs_elem in Hp. unfold account_row in Hr.
    apply and_then_Ok in Hr as (raw & Hraw & Hr). apply and_then_Ok in Hr as (b & Hb & [= <- <-]).
    exists (address_from raw), b. split; [|done]. exists h, bal. simpl in *. unfold parse_u256 in Hb.
    destruct (from_dec_str bal); naive_solver.
  - intros (a & b & (h & bal & Hm & Hh & Hb) & -> & ->). exists (h, bal). rewrite map_pairs_elem.
    split; [done|]. unfold account_row, parse_u256. simpl. by rewrite Hh, Hb.
Qed.

Lemma address_bytes_inj (a b : Address) : array_bytes (as_bytes a) = array_bytes (as_bytes b) -> a = b.
Proof. destruct a, b. intros E. f_equal. by apply array_eq. Qed.

Lemma gives_valid config a b : gives config a b -> account_valid (Account_new b).
Proof. intros (? & ? & _ & _ & Hb%from_dec_str_u256). split; [done|]. simpl. split; [lia|apply W64_pos]. Qed.

Definition configured_once (config : GenesisConfig) : Prop :=
  forall a b b', gives config a b -> gives config a b' -> b = b'.

Lemma genesis_rows_lookup config rows k v :
  configured_once config -> rows_of account_row (map_pairs (gc_initial_accounts config)) = Ok rows ->
  add_rows rows ∅ !! k = Some v <->
  exists a b, gives config a b /\ k = array_bytes (as_bytes a) /\ v = account_encode (Account_new b).
Proof.
  intros Honce Hrows. rewrite <- (account_row_gives _ _ _ _ Hrows). unfold add_rows.
  rewrite (foldl_insert_lookup fst snd); [split; [intros ([] & ? & <- & <-); done|by exists (k, v)]|].
  intros [k1 v1] [k2 v2] (a1 & b1 & G1 & -> & ->)%(account_row_gives _ _ _ _ Hrows)
    (a2 & b2 & G2 & -> & ->)%(account_row_gives _ _ _ _ Hrows). simpl. intros <-%address_bytes_inj.
  by rewrite (Honce _ _ _ G1 G2).
Qed.

Lemma stored_account_genesis d config rows a x :
  configured_once config -> rows_of account_row (map_pairs (gc_initial_accounts config)) = Ok rows ->
  st_view d ACCOUNTS = add_rows rows ∅ ->
  stored_account d a = Some x <-> exists b, gives config a b /\ x = Account_new b.
Proof.
  intros Honce Hrows Hv. unfold stored_account. rewrite Hv.
  assert (forall b, gives config a b -> decode_all sc_account (account_encode (Account_new b)) = Some (Account_new b)) as Hdec.
  { intros b G. apply (decode_all_enc account_valid sc_account); [apply sc_account_ok|by eapply gives_valid]. }
  split.
  - destruct (_ !! _) as [bs|] eqn:E; [|done]. simpl.
    apply (genesis_rows_lookup config) in E as (a' & b & G & <-%address_bytes_inj & ->); [|done..].
    rewrite Hdec by done. intros [= <-]. by exists b.
  - intros (b & G & ->). rewrite (proj2 (genesis_rows_lookup config rows _ (account_encode (Account_new b)) Honce Hrows))
      by (by exists a, b). simpl. by apply Hdec.
Qed.

(** After a load into a store without accounts the table stands for the configuration. *)
Lemma genesis_accounts d d' json config : load_genesis d (Some json) = (d', Ok tt) ->
  genesis_from_str json = Some config -> st_view d ACCOUNTS = ∅ -> configured_once config ->
  forall a x, stored_account d' a = Some x <-> exists b, gives config a b /\ x = Account_new b.
Proof.
  intros (json' & config' & rows & vrows & [= <-] & Hc' & Hrows & _ & V)%load_genesis_ok Hconfig Hempty Honce.
  rewrite Hconfig in Hc'. injection Hc' as <-.
  assert (st_view d' ACCOUNTS = add_rows rows ∅) as Hv.
  { rewrite (V ACCOUNTS). unfold genesis_cells. by rewrite cell_update_ne, cell_update_eq, !cell_update_ne, Hempty. }
  intros a x. by apply (stored_account_genesis d' config rows).
Qed.

(** From the genesis file to the node's state.  After a successful load into a
    store without accounts, the state machine the node rebuilds from storage gives
    every address its configured balance with nonce 0 and nothing to any other
    address, whatever order the account map was iterated in, provided no address
    is configured twice with different spellings and balances. *)
Theorem genesis_state (A : gset Address) (d d' : D) (json : bytes) (config : GenesisConfig)
    (HA : collision_free (keys_of A))
    (Hload : load_genesis d (Some json) = (d', Ok tt))
    (Hconfig : genesis_from_str json = Some config)
    (Hempty : st_view d ACCOUNTS = ∅)
    (Hknown : forall a b, gives config a b -> a ∈ A)
    (Honce : configured_once config) :
  exists sm, load_state_from_storage d' = Ok sm /\
  forall a, a ∈ A -> exists o, get_account sm a = Ret o /\
    (forall b, gives config a b -> o = Some (Account_new b)) /\
    ((forall b, ~ gives config a b) -> o = None).
Proof.
  pose proof (genesis_accounts d d' json config Hload Hconfig Hempty Honce) as Hs.
  destruct (load_state_get A HA d') as (sm & Hsm & Hget).
  { intros a x (b & G & ->)%Hs. split; [by eapply Hknown|by eapply gives_valid]. }
  exists sm. split; [done|]. intros a Ha. exists (stored_account d' a). split; [by apply Hget|]. split.
  - intros b G. apply Hs. by exists b.
  - intros Hno. destruct (stored_account d' a) eqn:E; [|done]. apply Hs in E as (b & G & _). by destruct (Hno b).
Qed.
End Restart.

(** ** The height the node resumes from *)

Section Resume.
Context `{BuildProfile} `{Blake3} `{Scale} `{!ScaleOk}.
Context {D : Type} `{StorageOk D} `{!StorageReliable D}.

(** The blocks table is indexed by height: its keys are 8-byte big-endian. *)
Definition indexed_by (d : D) (hs : gset Z) : Prop :=
  (forall h, h ∈ hs -> is_u64 h) /\
  forall k, is_Some (st_view d BLOCKS !! k) <-> exists h, h ∈ hs /\ k = to_be_bytes 8 h.

Lemma is_u64_bytes h : is_u64 h -> 0 <= h < 256 ^ Z.of_nat 8.
Proof. done. Qed.

Lemma bytes_le_refl k : cmp_le bytes_cmp k k.
Proof. unfold cmp_le. rewrite (cmp_refl bytes_cmp). discriminate. Qed.

Lemma max_key_spec m keys :
  max_key m keys ∈ m :: keys /\ forall k, k ∈ m :: keys -> cmp_le bytes_cmp k (max_key m keys).
Proof.
  revert m. induction keys as [|x keys IH]; intros m; simpl.
  - split; [by left|]. intros k ->%list_elem_of_singleton. apply bytes_le_refl.
  - destruct (IH (match bytes_cmp m x with Gt => m | _ => x end)) as [Hin Hmax].
    assert (cmp_le bytes_cmp m (match bytes_cmp m x with Gt => m | _ => x end) /\
            cmp_le bytes_cmp x (match bytes_cmp m x with Gt => m | _ => x end)) as [Hm Hx].
    { destruct (bytes_cmp m x) eqn:E; split; try apply bytes_le_refl; try (unfold cmp_le; by rewrite E).
      by apply (cmp_gt_le bytes_cmp). }
    assert (forall k, cmp_le bytes_cmp k (match bytes_cmp m x with Gt => m | _ => x end) ->
      cmp_le bytes_cmp k (max_key (match bytes_cmp m x with Gt => m | _ => x end) keys)) as Htr.
    { intros k Hk. eapply cmp_le_trans; [exact Hk|]. apply Hmax. by left. }
    split; [|intros k [-> |[-> |Hk]%elem_of_cons]%elem_of_cons; [by apply Htr|by apply Htr|apply Hmax; by right]].
    apply elem_of_cons in Hin as [-> |Hin]; [destruct (bytes_cmp m x); set_solver|set_solver].
Qed.

Lemma latest_height_max (d : D) (hs : gset Z) : indexed_by d hs ->
  exists h, load_latest_height d = Ret (Ok h) /\ (forall h', h' ∈ hs -> h' <= h) /\
  (h ∈ hs \/ hs = ∅ /\ h = 0).
Proof.
  intros Hidx. destruct Hidx as [Hu Hk]. unfold load_latest_height.
  destruct (st_list_total d BLOCKS ltac:(auto with tables)) as [ks Hks]. rewrite Hks.
  apply st_list_view in Hks as (_ & _ & Hks).
  assert (forall k, k ∈ ks <-> exists h, h ∈ hs /\ k = to_be_bytes 8 h) as Hin by (intros; by rewrite Hks).
  destruct ks as [|k ks].
  - assert (hs = ∅) as ->. { apply set_eq. intros h. split; [|set_solver]. intros Hh.
      assert (to_be_bytes 8 h ∈ []) as []%elem_of_nil by (apply Hin; by exists h). }
    exists 0. set_solver.
  - destruct (max_key_spec k ks) as [Hm Hmax]. apply Hin in Hm as (h & Hh & Hm). rewrite Hm in Hmax |- *.
    rewrite bool_decide_eq_true_2 by apply to_be_bytes_length.
    rewrite from_to_be_bytes by (by apply is_u64_bytes, Hu). exists h. split; [done|]. split; [|by left].
    intros h' Hh'. specialize (Hmax (to_be_bytes 8 h')). unfold cmp_le in Hmax.
    rewrite bytes_cmp_be, !from_to_be_bytes in Hmax by (done || (by apply is_u64_bytes, Hu) || by rewrite !to_be_bytes_length).
    apply Z.compare_le_iff, Hmax, Hin. by exists h'.
Qed.

(** The restart check.  For a height above 0 it succeeds exactly when the
    blocks table has a block at that height that decodes and carries the root of
    the rebuilt state; it never changes accounts or validators, and height 0 is
    accepted without looking. *)
Theorem consistency_check_correct (sm : StateMachine) (d : D) (height : Z) (Hwf : smt_wf (state sm)) :
  exists sm' r, verify_state_consistency sm d height = Ret (sm', r) /\
  (forall k, smt_get (state sm') k = smt_get (state sm) k) /\
  (r = Ok tt <-> height = 0 \/ exists raw block,
     st_view d BLOCKS !! to_be_bytes 8 height = Some raw /\ decode_all sc_block raw = Some block /\
     hdr_global_state_root (blk_header block) = merkle_root (leaves (state sm))).
Proof.
  unfold verify_state_consistency. destruct (Z.eqb_spec height 0) as [Hz|Hz]; [exists sm, (Ok tt); naive_solver|].
  destruct (st_get_total d BLOCKS (to_be_bytes 8 height) ltac:(auto with tables)) as [o Hg]. rewrite Hg.
  apply st_get_view in Hg as ->. destruct (_ !! _) as [raw|] eqn:Hr; [|eexists sm, _; naive_solver].
  destruct (decode_all sc_block raw) as [block|] eqn:Hd; [|eexists sm, _; naive_solver].
  unfold state_root. destruct (smt_root_spec (state sm) Hwf) as (t' & -> & Hl & _). simpl.
  assert (forall k, smt_get t' k = smt_get (state sm) k) as Hk by (intros k; unfold smt_get; by rewrite Hl).
  case_bool_decide; eexists (set_state sm t'), _; (split; [done|]); (split; [done|]); naive_solver.
Qed.
End Resume.

(** ** Instances *)

Import ToyInstances MemStorage.

(** Decimal digits, rejected above the width. *)
Fixpoint digits (acc : Z) (s : bytes) : option Z :=
  match s with
  | [] => if acc <? W256 then Some acc else None
  | b :: s => let d := byte_to_Z b - 48 in
              if (0 <=? d) && (d <? 10) then digits (10 * acc + d) s else None
  end.

Definition json_ex : bytes := list_byte_of_string "{genesis}".
Definition account_text (a : Address) : bytes := hex_encode (array_bytes (as_bytes a)).
Definition config_ex : GenesisConfig :=
  mkGenesisConfig 7 []
    {[ str_0x ++ account_text alice := list_byte_of_string "1000"; account_text bob := list_byte_of_string "50" ]}
    [mkGenesisValidator (account_text carol) (list_byte_of_string "600")].

#[local] Instance toy_text : GenesisText := {|
  from_dec_str := digits 0;
  genesis_from_str j := if decide (j = json_ex) then Some config_ex else None
|}.

Lemma digits_range acc s z : 0 <= acc -> digits acc s = Some z -> is_u256 z.
Proof.
  revert acc. induction s as [|b s IH]; intros acc Ha; simpl.
  - destruct (Z.ltb_spec acc W256); [|done]. intros [= <-]. by split.
  - destruct (0 <=? byte_to_Z b - 48) eqn:E; simpl; [|done]. destruct (_ <? 10); simpl; [|done].
    apply Z.leb_le in E. apply IH. lia.
Qed.

#[local] Instance toy_text_ok : GenesisTextOk.
Proof.
  split; simpl.
  - intros s z. by apply digits_range.
  - intros j c. case_decide; [|done]. intros [= <-]. by split.
Qed.

Definition loaded_ex : RedbEngine := (load_genesis mem_new (Some json_ex)).1.

Lemma load_ex : load_genesis mem_new (Some json_ex) = (loaded_ex, Ok tt).
Proof.
  unfold loaded_ex. destruct (load_genesis mem_new (Some json_ex)) as [d r] eqn:E. simpl. f_equal.
  change r with (d, r).2. rewrite <- E. vm_compute. reflexivity.
Qed.

Lemma loaded_blocks : st_view loaded_ex BLOCKS = {[ to_be_bytes 8 0 := enc sc_block (genesis_block 7) ]}.
Proof. apply (bool_decide_unpack _). vm_compute. exact I. Qed.

Lemma genesis_loaded_once_witness : is_loaded loaded_ex /\
  exists d' e, load_genesis loaded_ex (Some json_ex) = (d', Err e) /\ d' = loaded_ex.
Proof.
  destruct (genesis_loaded_once mem_new (Some json_ex)) as (d & r & E & _ & _ & Hl & _).
  rewrite load_ex in E. assert (d = loaded_ex /\ r = Ok tt) as [-> ->] by (split; congruence).
  specialize (Hl eq_refl). split; [exact Hl|].
  destruct (genesis_loaded_once loaded_ex (Some json_ex)) as (d & r & E' & Hno & _).
  destruct (Hno Hl) as [-> ->]. eauto.
Defined.

Definition text_check (s : bytes) (a : Address) : bool :=
  match parse_hex_addr s with Ok r => bool_decide (array_bytes r = array_bytes (as_bytes a)) | Err _ => false end.

Lemma text_check_ok s a : text_check s a = true -> parse_hex_addr s = Ok (as_bytes a).
Proof.
  unfold text_check. destruct (parse_hex_addr s) as [r|]; [|done]. intros E%bool_decide_eq_true.
  f_equal. by apply array_eq.
Qed.

Lemma gives_ex a b : gives config_ex a b -> a = alice /\ b = 1000 \/ a = bob /\ b = 50.
Proof.
  intros (h & bal & Hm & Hh & Hb). unfold config_ex in Hm. simpl in Hm.
  apply lookup_insert_Some in Hm as [[<- <-]|[_ Hm]].
  - left. split; [|vm_compute in Hb; congruence]. apply address_bytes_inj.
    pose proof (text_check_ok (str_0x ++ account_text alice) alice eq_refl) as E.
    assert (Ok (as_bytes a) = Ok (E := LibError) (as_bytes alice)) as [= ->] by (rewrite <- E; symmetry; exact Hh). done.
  - apply lookup_singleton_Some in Hm as [<- <-]. right. split; [|vm_compute in Hb; congruence].
    apply address_bytes_inj.
    pose proof (text_check_ok (account_text bob) bob eq_refl) as E.
    assert (Ok (as_bytes a) = Ok (E := LibError) (as_bytes bob)) as [= ->] by (rewrite <- E; symmetry; exact Hh). done.
Qed.

Lemma genesis_state_witness : exists sm, load_state_from_storage loaded_ex = Ok sm /\
  get_account sm alice = Ret (Some (Account_new 1000)) /\ get_account sm carol = Ret None.
Proof.
  destruct (genesis_state D0 mem_new loaded_ex json_ex config_ex D0_collision_free load_ex) as (sm & Hsm & Hget).
  - vm_compute. reflexivity.
  - vm_compute. reflexivity.
  - intros a b [[-> _]|[-> _]]%gives_ex; by apply in_D0.
  - intros a b b' [[-> ->]|[-> ->]]%gives_ex [[H ->]|[H ->]]%gives_ex; by (done || discriminate H).
  - exists sm. split; [exact Hsm|].
    destruct (Hget alice (in_D0 alice eq_refl)) as (o & -> & Ho & _).
    destruct (Hget carol (in_D0 carol eq_refl)) as (o' & -> & _ & Ho'). split.
    + f_equal. apply Ho. exists (str_0x ++ account_text alice), (list_byte_of_string "1000").
      split; [apply lookup_insert_eq|]. split; [by apply text_check_ok|vm_compute; reflexivity].
    + f_equal. apply Ho'. by intros b [[? _]|[? _]]%gives_ex.
Defined.

Lemma consistency_check_correct_witness : exists sm' r,
  verify_state_consistency (StateMachine_new []) loaded_ex 0 = Ret (sm', r) /\ r = Ok tt.
Proof.
  destruct (consistency_check_correct (StateMachine_new []) loaded_ex 0 smt_new_wf) as (sm' & r & E & _ & Hr).
  exists sm', r. split; [exact E|]. apply Hr. by left.
Defined.
