(* ===== verification/Slashing.v ===== *)
(** * Equivocation evidence ([consensus/slashing.rs])

    [verify_equivocation] with its five checks, and the payload a proposer signs
    ([block_header_unsigned_payload] of [consensus/engine.rs]), which is not the
    payload the evidence check verifies. *)
From Stdlib Require Import Strings.Byte Strings.String.
From stdpp Require Import base gmap sets list strings countable sorting.
From Stdlib Require Import ZArith Lia.
From S2P Require Import Prelude Types External Toy.

Section Slashing.
Context `{Blake3} `{Scale} `{Falcon}.

Definition header_hash (h : BlockHeader) : array 32 := blake3 (enc sc_header h).

Definition verify_equivocation (evidence : EquivocationEvidence) (public_key : array 897) : Result unit :=
  let a := ev_header_a evidence in
  let b := ev_header_b evidence in
  if negb (hdr_height a =? hdr_height b) then Err (EquivocationHeightMismatch (hdr_height a) (hdr_height b))
  else if negb (bool_decide (hdr_parent_hash a = hdr_parent_hash b)) then Err EquivocationParentMismatch
  else if bool_decide (header_hash a = header_hash b) then Err EquivocationIdenticalBlocks
  else if negb (falcon_verify (sig_bytes (ev_signature_a evidence)) public_key (enc sc_header a))
  then Err EquivocationSigAInvalid
  else if negb (falcon_verify (sig_bytes (ev_signature_b evidence)) public_key (enc sc_header b))
  then Err EquivocationSigBInvalid
  else Ok tt.

(** [block_header_unsigned_payload]: the header with a zeroed signature. *)
Definition unsigned_header (h : BlockHeader) : BlockHeader :=
  mkBlockHeader (hdr_height h) (hdr_parent_hash h) (hdr_global_state_root h) (hdr_tx_root h) (hdr_timestamp h)
    (hdr_proposer h) (hdr_chain_id h) (mkSignature (List.repeat x00 FALCON_SIGNATURE_SIZE)).

Definition block_header_unsigned_payload (header : BlockHeader) : bytes := enc sc_header (unsigned_header header).

(** The accusation a piece of evidence proves: two distinct headers for the same
    height and parent, both signed with the key. *)
Definition equivocates (pk : array 897) (a b : BlockHeader) (sa sb : Falcon512Signature) : Prop :=
  hdr_height a = hdr_height b /\ hdr_parent_hash a = hdr_parent_hash b /\ a <> b /\
  falcon_verify (sig_bytes sa) pk (enc sc_header a) = true /\
  falcon_verify (sig_bytes sb) pk (enc sc_header b) = true.

(** The same accusation with the two sides exchanged. *)
Definition swap_evidence (e : EquivocationEvidence) : EquivocationEvidence :=
  mkEvidence (ev_header_b e) (ev_signature_b e) (ev_header_a e) (ev_signature_a e) (ev_proposer e).

Definition set_evidence_proposer (e : EquivocationEvidence) (p : array 32) : EquivocationEvidence :=
  mkEvidence (ev_header_a e) (ev_signature_a e) (ev_header_b e) (ev_signature_b e) p.

Lemma header_hash_inj `{!ScaleOk} a b :
  collision_free (fun x => x = enc sc_header a \/ x = enc sc_header b) -> header_valid a -> header_valid b ->
  header_hash a = header_hash b -> a = b.
Proof.
  intros Hcf Ha Hb E. apply Hcf in E; [|by auto|by auto]. by apply (enc_inj header_valid sc_header _ _ sc_header_ok).
Qed.

Lemma header_eq_dec_hash `{!ScaleOk} a b :
  collision_free (fun x => x = enc sc_header a \/ x = enc sc_header b) -> header_valid a -> header_valid b ->
  header_hash a <> header_hash b <-> a <> b.
Proof. intros Hcf Ha Hb. split; [intros Hne ->; done|]. intros Hne E. by apply Hne, header_hash_inj. Qed.

Ltac finish := repeat split; intros; destruct_and?; subst; simpl in *; try done; try congruence; tauto.

(** C22: evidence is accepted exactly when it proves an equivocation: two distinct
    well-formed headers of one height and parent, each signed with the key as it
    stands.  The verdict does not depend on the order of the two sides nor on the
    proposer the evidence names.  A rejection reports the first failing check. *)
Theorem equivocation_correct `{!ScaleOk} (e : EquivocationEvidence) (pk : array 897) (p : array 32)
    (Hcf : collision_free (fun x => x = enc sc_header (ev_header_a e) \/ x = enc sc_header (ev_header_b e)))
    (Ha : header_valid (ev_header_a e)) (Hb : header_valid (ev_header_b e)) :
  let a := ev_header_a e in let b := ev_header_b e in
  (verify_equivocation e pk = Ok tt <-> equivocates pk a b (ev_signature_a e) (ev_signature_b e)) /\
  is_ok (verify_equivocation (swap_evidence e) pk) = is_ok (verify_equivocation e pk) /\
  verify_equivocation (set_evidence_proposer e p) pk = verify_equivocation e pk /\
  (verify_equivocation e pk = Err EquivocationIdenticalBlocks <-> a = b) /\
  (hdr_height a <> hdr_height b ->
     verify_equivocation e pk = Err (EquivocationHeightMismatch (hdr_height a) (hdr_height b))) /\
  (hdr_height a = hdr_height b -> hdr_parent_hash a <> hdr_parent_hash b ->
     verify_equivocation e pk = Err EquivocationParentMismatch).
Proof.
  intros a b. pose proof (header_eq_dec_hash a b Hcf Ha Hb) as Hh. unfold equivocates, verify_equivocation.
  simpl. fold a b. rewrite (Z.eqb_sym (hdr_height b)).
  destruct (Z.eqb_spec (hdr_height a) (hdr_height b)) as [E1|E1]; simpl; [|finish].
  rewrite (bool_decide_ext (hdr_parent_hash b = _) (hdr_parent_hash a = hdr_parent_hash b)) by (split; congruence).
  rewrite (bool_decide_ext (header_hash b = _) (header_hash a = header_hash b)) by (split; congruence).
  destruct (decide (hdr_parent_hash a = hdr_parent_hash b)) as [E2|E2];
    [rewrite (bool_decide_eq_true_2 _ E2)|rewrite (bool_decide_eq_false_2 _ E2)]; simpl; [|finish].
  destruct (decide (header_hash a = header_hash b)) as [E3|E3];
    [rewrite (bool_decide_eq_true_2 _ E3)|rewrite (bool_decide_eq_false_2 _ E3)].
  - assert (a = b) by (by apply header_hash_inj). finish.
  - apply Hh in E3 as Hne.
    destruct (falcon_verify (sig_bytes (ev_signature_a e)) pk (enc sc_header a)),
      (falcon_verify (sig_bytes (ev_signature_b e)) pk (enc sc_header b)); simpl; finish.
Qed.

(** The signature a proposer puts on its block is no evidence.  The block is
    signed over the header with a zeroed signature field, the evidence check
    verifies the header as it stands, and the two payloads differ for every header
    that carries a signature: under a scheme that accepts only the signed payload,
    evidence made of two signed blocks is rejected. *)
Theorem block_signature_no_evidence `{!ScaleOk} (e : EquivocationEvidence) (pk : array 897)
    (Ha : header_valid (ev_header_a e))
    (Hsig : sig_bytes (hdr_proposer_signature (ev_header_a e)) <> List.repeat x00 FALCON_SIGNATURE_SIZE)
    (Hscheme : forall m, falcon_verify (sig_bytes (ev_signature_a e)) pk m = true ->
       m = block_header_unsigned_payload (ev_header_a e)) :
  enc sc_header (ev_header_a e) <> block_header_unsigned_payload (ev_header_a e) /\
  is_ok (verify_equivocation e pk) = false.
Proof.
  assert (enc sc_header (ev_header_a e) <> block_header_unsigned_payload (ev_header_a e)) as Hne.
  { intros E. apply (enc_inj header_valid sc_header _ _ sc_header_ok Ha) in E.
    - apply Hsig. rewrite E. done.
    - destruct Ha as (? & ? & ? & _). split; [done|]. split; [done|]. split; [done|]. apply List.repeat_length. }
  split; [done|]. unfold verify_equivocation.
  destruct (negb (hdr_height _ =? _)); [done|]. destruct (negb (bool_decide _)); [done|].
  destruct (bool_decide _); [done|].
  destruct (falcon_verify (sig_bytes (ev_signature_a e)) pk (enc sc_header (ev_header_a e))) eqn:E; [|done].
  by apply Hscheme in E.
Qed.
End Slashing.

(** ** Instances *)

Import ToyInstances.

Definition header_ex (root : byte) (sig : byte) : BlockHeader :=
  mkBlockHeader 3 (array_repeat 32 x00) (array_repeat 32 root) (array_repeat 32 x00) 50
    (address_from (array_repeat 32 x01)) 7 (mkSignature (List.repeat sig FALCON_SIGNATURE_SIZE)).

Lemma header_ex_valid r s : header_valid (header_ex r s).
Proof. repeat split; done. Qed.

Definition evidence_ex : EquivocationEvidence :=
  mkEvidence (header_ex x04 x07) (mkSignature [x09]) (header_ex x05 x07) (mkSignature [x09]) (array_repeat 32 x01).

(** A hash that keeps the part of the header in which the example's sides differ. *)
#[local] Instance tail_blake3 : Blake3 := {| blake3 b := Array (resize 32 x00 (drop 40 b)) (toy_hash_len _) |}.

Lemma evidence_ex_distinct : header_hash (ev_header_a evidence_ex) <> header_hash (ev_header_b evidence_ex).
Proof. intros E. assert (bool_decide (header_hash (ev_header_a evidence_ex) = header_hash (ev_header_b evidence_ex)) = false) as F
  by (vm_compute; reflexivity). by rewrite (bool_decide_eq_true_2 _ E) in F. Qed.

Lemma equivocation_correct_witness :
  verify_equivocation evidence_ex (array_repeat 897 x09) = Ok tt /\
  equivocates (array_repeat 897 x09) (ev_header_a evidence_ex) (ev_header_b evidence_ex) (mkSignature [x09]) (mkSignature [x09]).
Proof.
  assert (verify_equivocation evidence_ex (array_repeat 897 x09) = Ok tt) as E by (vm_compute; reflexivity).
  split; [exact E|].
  eapply (equivocation_correct evidence_ex (array_repeat 897 x09) (array_repeat 32 x02)).
  - intros x y [-> | ->] [-> | ->] Ex; try reflexivity; exfalso; [|symmetry in Ex];
      exact (evidence_ex_distinct Ex).
  - apply header_ex_valid.
  - apply header_ex_valid.
  - exact E.
Defined.

(** A verifier that accepts the message itself as its signature. *)
#[local] Instance binding_falcon : Falcon := {| falcon_verify s _ m := bool_decide (s = m) |}.

Definition signed_evidence : EquivocationEvidence :=
  mkEvidence (header_ex x04 x07) (mkSignature (block_header_unsigned_payload (header_ex x04 x07)))
    (header_ex x05 x07) (mkSignature (block_header_unsigned_payload (header_ex x05 x07))) (array_repeat 32 x01).

Lemma block_signature_no_evidence_witness :
  falcon_verify (sig_bytes (ev_signature_a signed_evidence)) (array_repeat 897 x09)
    (block_header_unsigned_payload (ev_header_a signed_evidence)) = true /\
  is_ok (verify_equivocation signed_evidence (array_repeat 897 x09)) = false.
Proof.
  split; [by apply bool_decide_eq_true|].
  apply (block_signature_no_evidence signed_evidence).
  - apply header_ex_valid.
  - intros E. assert (bool_decide (List.repeat x07 809 = List.repeat x00 809) = false) as F by (vm_compute; reflexivity).
    by rewrite (bool_decide_eq_true_2 _ E) in F.
  - intros m Hm. by apply bool_decide_eq_true in Hm.
Defined.
