(* ===== verification/Engine.v ===== *)
(** * The consensus engine ([consensus/engine.rs])

    Block building and validation, the transaction root, and the slot loop: one
    [slot_tick] per tick of the timer, over the state machine, the mempool and a
    store behind the [StorageEngine] interface.  The wall clock is an argument,
    publishing appends to a log of published blocks (a failed publication is only
    logged by the source). *)
From Stdlib Require Import Strings.Byte Strings.String.
From stdpp Require Import base gmap sets list strings countable sorting.
From Stdlib Require Import ZArith Lia.
From S2P Require Import Prelude Types External Toy Trie Account State Ledger Refine Scenario Finality Schedule Mempool Storage Genesis Slashing.

Record ConsensusEngine := mkEngine {
  ce_config : ConsensusConfig;
  schedule : option ProposerSchedule;
  commit_tracker : option CommitTracker;
  local_validator : option Address;         (* LocalValidatorKey *)
  current_height : Z
}.

Definition ConsensusEngine_new (config : ConsensusConfig) : ConsensusEngine := mkEngine config None None None 0.

Definition set_local_validator (self : ConsensusEngine) (key : Address) : ConsensusEngine :=
  mkEngine (ce_config self) (schedule self) (commit_tracker self) (Some key) (current_height self).
Definition set_current_height (self : ConsensusEngine) (height : Z) : ConsensusEngine :=
  mkEngine (ce_config self) (schedule self) (commit_tracker self) (local_validator self) height.
Definition set_schedule (self : ConsensusEngine) (s : ProposerSchedule) : ConsensusEngine :=
  mkEngine (ce_config self) (Some s) (commit_tracker self) (local_validator self) (current_height self).
Definition set_commit_tracker (self : ConsensusEngine) (t : CommitTracker) : ConsensusEngine :=
  mkEngine (ce_config self) (schedule self) (Some t) (local_validator self) (current_height self).

Definition build_schedule (active_set : list Address) (era start_height : Z) : ProposerSchedule :=
  ProposerSchedule_new active_set era start_height.

(** ** Pure helpers *)

Definition is_timestamp_acceptable (block_time local_time tolerance : Z) : bool :=
  let diff := if local_time <? block_time then block_time - local_time else local_time - block_time in
  diff <=? tolerance.

Definition is_timestamp_monotonic (block_time parent_time : Z) : bool := parent_time <=? block_time.

Definition hash_cmp (a b : array 32) : comparison := bytes_cmp (array_bytes a) (array_bytes b).

#[export] Instance hash_cmp_ok : CmpOk hash_cmp.
Proof. apply (cmp_on_ok (fun a : array 32 => array_bytes a) bytes_cmp), bytes_cmp_ok. Qed.

(** What the loop owns or shares: the engine, the state machine and the mempool
    behind their locks, the store, and the blocks handed to the network. *)
Record Node (D : Type) := mkNode {
  n_engine : ConsensusEngine;
  n_state : StateMachine;
  n_mempool : Mempool;
  n_storage : D;
  n_published : list Block
}.
Arguments mkNode {_} _ _ _ _ _.
Arguments n_engine {_} _.
Arguments n_state {_} _.
Arguments n_mempool {_} _.
Arguments n_storage {_} _.
Arguments n_published {_} _.

Section Engine.
Context `{BuildProfile} `{Blake3} `{Scale}.

Definition tx_hash (tx : Transaction) : array 32 := blake3 (enc sc_tx tx).

Definition root_step (root h : array 32) : array 32 := blake3 (array_bytes root ++ array_bytes h).

Definition compute_tx_root (body : BlockBody) : array 32 :=
  match sort_by hash_cmp (map tx_hash (transactions body)) with
  | [] => blake3 []
  | h :: hashes => foldl root_step h hashes
  end.

(** ** Building and validating a block *)

Definition build_block (self : ConsensusEngine) (sm : StateMachine) (txs : list Transaction)
    (parent_block : Block) (proposer : Address) (timestamp : Z) (proposer_signature : Falcon512Signature) :
    outcome (Block * StateMachine) :=
  height ← u64_add (hdr_height (blk_header parent_block)) 1;
  let parent_hash := header_hash (blk_header parent_block) in
  let body := mkBlockBody txs in
  '(global_state_root, sm) ← state_root sm;
  let tx_root := compute_tx_root body in
  Ret (mkBlock (mkBlockHeader height parent_hash global_state_root tx_root timestamp proposer
                  (hdr_chain_id (blk_header parent_block)) proposer_signature) body, sm).

(** [_timestamp_tolerance] is unused in the source as well. *)
Definition validate_block `{Falcon} (self : ConsensusEngine) (block current_tip : Block)
    (schedule : ProposerSchedule) (timestamp_tolerance : Z) (proposer_public_key : option (array 897)) :
    outcome bool :=
  let header := blk_header block in
  if negb (bool_decide (hdr_parent_hash header = header_hash (blk_header current_tip))) then Ret false
  else
    scheduled ← is_scheduled_proposer schedule (hdr_proposer header) (hdr_height header);
    if negb scheduled then Ret false
    else
      next ← u64_add (hdr_height (blk_header current_tip)) 1;
      if negb (hdr_height header =? next) then Ret false
      else
        match proposer_public_key with
        | Some pk =>
            if negb (falcon_verify (sig_bytes (hdr_proposer_signature header)) pk
                       (block_header_unsigned_payload header))
            then Ret false else Ret true
        | None => Ret true
        end.

(** ** The slot loop *)

Context `{!HashOrder Address}.

Definition list_validator_addresses (self : StateMachine) : list Address := hash_order (validators self).

(** The era boundary: thaw, elect, install the active set. *)
Definition era_transition (sm : StateMachine) (current_era : Z) : outcome (StateMachine * list Address) :=
  let all_addrs := list_validator_addresses sm in
  '(sm, _) ← thaw_all sm all_addrs current_era;
  let '(sm, active) := run_election sm all_addrs MAX_VALIDATORS current_era in
  Ret (set_active_set sm active, active).

Definition enter_era (self : ConsensusEngine) (sm : StateMachine) (height : Z) :
    outcome (ConsensusEngine * StateMachine) :=
  if is_era_boundary height then
    let current_era := era_at_height height in
    '(sm, addrs) ← era_transition sm current_era;
    if bool_decide (addrs = []) then Ret (self, sm)
    else Ret (set_schedule self (ProposerSchedule_new addrs current_era height), sm)
  else Ret (self, sm).

(** The schedule of the slot; the fallback is installed when there is none. *)
Definition slot_schedule (self : ConsensusEngine) (height : Z) : ConsensusEngine * ProposerSchedule :=
  match schedule self with
  | Some s => (self, s)
  | None =>
      let addr := default (address_from (array_repeat 32 x00)) (local_validator self) in
      let fallback := ProposerSchedule_new [addr] (era_at_height height) height in
      (set_schedule self fallback, fallback)
  end.

Definition is_our_slot (self : ConsensusEngine) (s : ProposerSchedule) (height : Z) : outcome bool :=
  match local_validator self with
  | None => Ret true
  | Some local => is_scheduled_proposer s local height
  end.

Definition sig_fake : Falcon512Signature := mkSignature (List.repeat xcd FALCON_SIGNATURE_SIZE).

Section Store.
Context {D : Type} `{StorageEngine D}.

(** [produce_block]: machine, pool, store and the block published, if any. *)
Definition produce_block (self : ConsensusEngine) (now : Z) (sm : StateMachine) (mp : Mempool) (storage : D)
    (height : Z) (s : ProposerSchedule) : outcome (StateMachine * Mempool * D * option Block) :=
  let parent_height := u64_saturating_sub height 1 in
  match st_get storage BLOCKS (to_be_bytes 8 parent_height) with
  | Ok (Some parent_bytes) =>
      match decode_all sc_block parent_bytes with
      | None => Ret (sm, mp, storage, None)
      | Some parent_block =>
          '(mp, txs) ← select mp 500;
          proposer ← proposer_for_height s height;
          '(block, sm) ← build_block self sm txs parent_block proposer now sig_fake;
          '(sm, r) ← apply_block sm block;
          match r with
          | Err _ => Ret (sm, mp, storage, None)
          | Ok _ =>
              match st_put storage BLOCKS (to_be_bytes 8 height) (enc sc_block block) with
              | (storage, Ok _) => Ret (sm, mp, storage, Some block)
              | (storage, Err _) => Ret (sm, mp, storage, None)
              end
          end
      end
  | _ => Ret (sm, mp, storage, None)
  end.

(** One tick of [start_consensus_loop]. *)
Definition slot_tick (now : Z) (n : Node D) : outcome (Node D) :=
  height ← u64_add (current_height (n_engine n)) 1;
  '(self, sm) ← enter_era (n_engine n) (n_state n) height;
  let '(self, s) := slot_schedule self height in
  ours ← is_our_slot self s height;
  if ours : bool then
    '(sm, mp, storage, published) ← produce_block self now sm (n_mempool n) (n_storage n) height s;
    Ret (mkNode (set_current_height self height) sm mp storage
           (n_published n ++ match published with Some b => [b] | None => [] end))
  else Ret (mkNode self sm (n_mempool n) (n_storage n) (n_published n)).

(** The loop over a sequence of clock readings. *)
Definition run_slots (n : Node D) (clock : list Z) : outcome (Node D) :=
  foldM (fun n now => slot_tick now n) n clock.
End Store.
End Engine.

(** ** The transaction root *)

Section TxRoot.
Context `{Blake3} `{Scale}.

(** The byte strings hashed to compute the root of a list. *)
Fixpoint fold_inputs (h : array 32) (hashes : list (array 32)) : list bytes :=
  match hashes with
  | [] => []
  | x :: hashes => (array_bytes h ++ array_bytes x) :: fold_inputs (root_step h x) hashes
  end.

Definition root_inputs (txs : list Transaction) : list bytes :=
  map (enc sc_tx) txs ++
  match sort_by hash_cmp (map tx_hash txs) with [] => [] | h :: hashes => fold_inputs h hashes end.

Lemma fold_inputs_app h l x :
  fold_inputs h (l ++ [x]) = fold_inputs h l ++ [array_bytes (foldl root_step h l) ++ array_bytes x].
Proof. revert h. induction l as [|y l IH]; intros h; simpl; [done|]. by rewrite IH. Qed.

Lemma root_fold_inj (P : bytes -> Prop) : collision_free P ->
  forall l l' h h', (forall x, x ∈ fold_inputs h l -> P x) -> (forall x, x ∈ fold_inputs h' l' -> P x) ->
  length l = length l' -> foldl root_step h l = foldl root_step h' l' -> h = h' /\ l = l'.
Proof.
  intros Hcf l. induction l as [|x l IH] using rev_ind; intros l' h h' HP HP' Hl E.
  - by destruct l'.
  - destruct l' as [|x' l' _] using rev_ind; [rewrite length_app in Hl; simpl in Hl; lia|].
    rewrite !length_app in Hl. simpl in Hl. rewrite !foldl_app in E. simpl in E.
    setoid_rewrite fold_inputs_app in HP. setoid_rewrite fold_inputs_app in HP'.
    setoid_rewrite elem_of_app in HP. setoid_rewrite elem_of_app in HP'.
    apply Hcf in E; [|apply HP; right; by left|apply HP'; right; by left].
    apply app_inj_1 in E as [E1%array_eq E2%array_eq]; [|by rewrite !array_length].
    destruct (IH l' h h') as [-> ->]; [auto|auto|lia|done|]. by subst.
Qed.

(** The transaction root commits to the set of transactions and to nothing
    else: the order of the body does not matter, and two bodies of one size with
    the same root hold the same transactions, unless the hash collides. *)
Theorem tx_root_binding `{!ScaleOk} (l l' : list Transaction)
    (Hcf : collision_free (fun x => x ∈ root_inputs l \/ x ∈ root_inputs l'))
    (Hl : Forall tx_wire_valid l) (Hl' : Forall tx_wire_valid l') (Hlen : length l = length l') :
  compute_tx_root (mkBlockBody l) = compute_tx_root (mkBlockBody l') <-> l ≡ₚ l'.
Proof.
  unfold compute_tx_root. simpl. split.
  - intros E.
    assert (sort_by hash_cmp (map tx_hash l) = sort_by hash_cmp (map tx_hash l')) as Es.
    { assert (length (sort_by hash_cmp (map tx_hash l)) = length (sort_by hash_cmp (map tx_hash l'))) as Hsl
        by (rewrite !sort_by_length, !length_map; done).
      unfold root_inputs in Hcf.
      destruct (sort_by hash_cmp (map tx_hash l)) as [|h k], (sort_by hash_cmp (map tx_hash l')) as [|h' k']; try done.
      injection Hsl as Hsl. destruct (root_fold_inj _ Hcf k k' h h') as [-> ->]; [| |done..];
        intros x Hx; [left|right]; apply elem_of_app; by right. }
    assert (map tx_hash l ≡ₚ map tx_hash l') as Hp
      by (rewrite <- (sort_by_perm hash_cmp (map tx_hash l)), Es; apply sort_by_perm).
    assert (forall x, x ∈ l ++ l' -> enc sc_tx x ∈ root_inputs l \/ enc sc_tx x ∈ root_inputs l') as Hin.
    { intros x [Hx|Hx]%elem_of_app; [left|right]; apply elem_of_app; left; apply list_elem_of_fmap; by exists x. }
    assert (forall x y, x ∈ l ++ l' -> y ∈ l ++ l' -> tx_hash x = tx_hash y -> x = y) as Hinj.
    { intros x y Hx Hy Exy. apply Hcf in Exy; [|by apply Hin..].
      assert (Forall tx_wire_valid (l ++ l')) as Hv by (by apply Forall_app).
      rewrite Forall_forall in Hv. apply (enc_inj tx_wire_valid sc_tx); auto. apply sc_tx_ok. }
    apply Permutation_map_inv in Hp as (l3 & E3 & Hp). rewrite Hp.
    assert (l = l3) as El; [|by rewrite El].
    apply (list_eq_same_length _ _ (length l)); [by rewrite Hlen, Hp|done|]. intros i x y _ Hx Hy.
    apply Hinj; [apply elem_of_app; left; by eapply list_elem_of_lookup_2|
                 apply elem_of_app; right; rewrite Hp; by eapply list_elem_of_lookup_2|].
    assert (map tx_hash l !! i = map tx_hash l3 !! i) as Ei by by rewrite E3.
    rewrite !list_lookup_fmap, Hx, Hy in Ei. by injection Ei.
  - intros Hp. assert (sort_by hash_cmp (map tx_hash l) = sort_by hash_cmp (map tx_hash l')) as ->; [|done].
    apply (sort_by_unique hash_cmp); [|by rewrite Hp]. intros x y E. apply array_eq. by apply bytes_cmp_eq.
Qed.
End TxRoot.

(** ** Building and validating *)

Section Blocks.
Context `{BuildProfile} `{Blake3} `{Scale} `{Falcon}.

Lemma scheduled_iff s a h : sch_active_set s <> [] ->
  exists p, proposer_for_height s h = Ret p /\ is_scheduled_proposer s a h = Ret (bool_decide (p = a)).
Proof.
  intros Hne. destruct (proposer_for_height_ok s h Hne) as (p & E & _). exists p. split; [done|].
  unfold is_scheduled_proposer. by rewrite E.
Qed.

Lemma build_block_ok self sm txs parent proposer now sig : smt_wf (state sm) ->
  is_u64 (hdr_height (blk_header parent)) -> hdr_height (blk_header parent) + 1 < W64 ->
  exists sm', leaves (state sm') = leaves (state sm) /\ smt_wf (state sm') /\
    validators sm' = validators sm /\ active_set sm' = active_set sm /\
    build_block self sm txs parent proposer now sig =
      Ret (mkBlock (mkBlockHeader (hdr_height (blk_header parent) + 1) (header_hash (blk_header parent))
             (merkle_root (leaves (state sm))) (compute_tx_root (mkBlockBody txs)) now proposer
             (hdr_chain_id (blk_header parent)) sig) (mkBlockBody txs), sm').
Proof.
  intros Hwf Hh Hlt. unfold build_block, state_root.
  destruct (smt_root_spec (state sm) Hwf) as (t & -> & Hl & Hwf'). exists (set_state sm t).
  split; [done|]. split; [done|]. split; [done|]. split; [done|].
  rewrite u64_add_ok by (unfold is_u64 in Hh; lia). done.
Qed.

(** C19: what a proposer builds, its peers accept.  Building on a parent below the
    last height never panics; the block follows its parent in height, hash and
    chain, holds the given transactions under their root, carries the state root
    from before its transactions, and passes [validate_block] against that parent
    and schedule when the proposer is the scheduled one: always without the
    proposer's key, with the key exactly if the signature verifies. *)
Theorem built_block_validates (self : ConsensusEngine) (sm : StateMachine) (txs : list Transaction) (parent : Block)
    (s : ProposerSchedule) (now : Z) (sig : Falcon512Signature) (proposer : Address) (tolerance : Z) (pk : option (array 897))
    (Hwf : smt_wf (state sm)) (Hh : is_u64 (hdr_height (blk_header parent)))
    (Hlt : hdr_height (blk_header parent) + 1 < W64)
    (Hsched : proposer_for_height s (hdr_height (blk_header parent) + 1) = Ret proposer) :
  exists block sm', build_block self sm txs parent proposer now sig = Ret (block, sm') /\
  transactions (blk_body block) = txs /\ hdr_tx_root (blk_header block) = compute_tx_root (blk_body block) /\
  hdr_global_state_root (blk_header block) = merkle_root (leaves (state sm)) /\
  leaves (state sm') = leaves (state sm) /\
  validate_block self block parent s tolerance pk =
    Ret (match pk with
         | None => true
         | Some k => falcon_verify (sig_bytes sig) k (block_header_unsigned_payload (blk_header block))
         end).
Proof.
  destruct (build_block_ok self sm txs parent proposer now sig Hwf Hh Hlt) as (sm' & Hl & _ & _ & _ & E).
  eexists _, sm'. split; [exact E|]. do 4 (split; [done|]).
  unfold validate_block, is_scheduled_proposer. cbn [blk_header hdr_parent_hash hdr_height hdr_proposer].
  rewrite bool_decide_eq_true_2 by done. simpl. rewrite Hsched. simpl.
  rewrite bool_decide_eq_true_2 by done. simpl. rewrite u64_add_ok by (unfold is_u64 in Hh; lia). simpl.
  rewrite Z.eqb_refl. simpl. destruct pk as [k|]; [|done]. by destruct (falcon_verify _ k _).
Qed.

(** [validate_block] with a non-empty schedule and a tip below the last height
    always returns, and accepts exactly the blocks that name the tip as parent,
    have the next height, come from the scheduled proposer and, when its key is
    known, carry its signature.  The timestamp and the tolerance play no part, nor
    do the transactions, the roots and the chain identifier. *)
Theorem validate_block_correct (self : ConsensusEngine) (block tip : Block) (s : ProposerSchedule)
    (tolerance : Z) (pk : option (array 897))
    (Hs : sch_active_set s <> []) (Hh : is_u64 (hdr_height (blk_header tip)))
    (Hlt : hdr_height (blk_header tip) + 1 < W64) :
  let header := blk_header block in
  exists b, validate_block self block tip s tolerance pk = Ret b /\
  (b = true <->
     hdr_parent_hash header = header_hash (blk_header tip) /\
     hdr_height header = hdr_height (blk_header tip) + 1 /\
     proposer_for_height s (hdr_height header) = Ret (hdr_proposer header) /\
     (forall k, pk = Some k ->
        falcon_verify (sig_bytes (hdr_proposer_signature header)) k (block_header_unsigned_payload header) = true)) /\
  forall body time root, validate_block self
    (mkBlock (mkBlockHeader (hdr_height header) (hdr_parent_hash header) root (hdr_tx_root header) time
      (hdr_proposer header) (hdr_chain_id header) (hdr_proposer_signature header)) body) tip s tolerance None =
    validate_block self block tip s 0 None.
Proof.
  intros header. unfold validate_block. cbn [blk_header hdr_parent_hash hdr_height hdr_proposer]. fold header.
  destruct (scheduled_iff s (hdr_proposer header) (hdr_height header) Hs) as (p & Ep & ->). rewrite Ep. simpl.
  rewrite u64_add_ok by (unfold is_u64 in Hh; lia). simpl.
  destruct (decide (hdr_parent_hash header = header_hash (blk_header tip))) as [E1|E1];
    [rewrite (bool_decide_eq_true_2 _ E1)|rewrite (bool_decide_eq_false_2 _ E1)]; simpl; [|eexists; naive_solver].
  destruct (decide (p = hdr_proposer header)) as [E2|E2];
    [rewrite (bool_decide_eq_true_2 _ E2)|rewrite (bool_decide_eq_false_2 _ E2)]; simpl;
    [|eexists; split; [done|split; [|done]]; split; [done|intros (_ & _ & [= ?] & _); done]].
  destruct (Z.eqb_spec (hdr_height header) (hdr_height (blk_header tip) + 1)) as [E3|E3]; simpl; [|eexists; naive_solver].
  destruct pk as [k|]; [|eexists; split; [done|]; split; [|done]; split; [|done]; intros _; naive_solver].
  destruct (falcon_verify _ k _) eqn:Ef; simpl; eexists; (split; [done|]; split; [|done]); split; try done.
  - intros _. rewrite E2. repeat split; [done..|]. intros k' [= <-]. done.
  - intros (_ & _ & _ & Hk). by rewrite Hk in Ef.
Qed.
End Blocks.

(** ** The slot loop *)

Section Slots.
Context `{BuildProfile} `{Blake3} `{Scale} `{!HashOrder Address}.
Context {D : Type} `{StorageOk D}.

Definition row (d : D) (height : Z) : option bytes := st_view d BLOCKS !! to_be_bytes 8 height.

(** The block stored at a height, as a reader decodes it. *)
Definition stored_block (d : D) (height : Z) : option Block := raw ← row d height; decode_all sc_block raw.

Lemma row_put_ne d h raw d' r h' : is_u64 h -> is_u64 h' -> h' <> h ->
  st_put d BLOCKS (to_be_bytes 8 h) raw = (d', r) -> row d' h' = row d h'.
Proof.
  intros Hh Hh' Hne E. unfold row. apply (st_put_other _ _ _ _ _ _ _ _ E). right. intros Ek. apply Hne.
  by apply (to_be_bytes_inj 8).
Qed.

Lemma row_put_eq d h raw d' : st_put d BLOCKS (to_be_bytes 8 h) raw = (d', Ok tt) -> row d' h = Some raw.
Proof. intros E. apply st_put_ok in E. unfold row. by rewrite (E BLOCKS), cell_update_eq, lookup_insert_eq. Qed.

(** What [produce_block] does to the store and the network: nothing, or one block
    built on the stored parent is written at [height] and published. *)
Lemma produce_block_inv self now sm mp d height s sm' mp' d' pub :
  produce_block self now sm mp d height s = Ret (sm', mp', d', pub) ->
  match pub with
  | None => st_view d' BLOCKS = st_view d BLOCKS
  | Some b => exists p proposer txs sm0 sm1,
      stored_block d (u64_saturating_sub height 1) = Some p /\
      proposer_for_height s height = Ret proposer /\
      build_block self sm0 txs p proposer now sig_fake = Ret (b, sm1) /\
      st_put d BLOCKS (to_be_bytes 8 height) (enc sc_block b) = (d', Ok tt)
  end.
Proof.
  intros E. unfold produce_block in E.
  destruct (st_get d BLOCKS _) as [[raw|]|] eqn:Hg; [|by simplify_eq..]. apply st_get_view in Hg.
  destruct (decode_all sc_block raw) as [p|] eqn:Hp; [|by simplify_eq].
  apply bind_Ret_inv in E as ([mp1 txs] & Es & E). apply bind_Ret_inv in E as (proposer & Epr & E).
  apply bind_Ret_inv in E as ([b sm1] & Eb & E). apply bind_Ret_inv in E as ([sm2 r] & Ea & E).
  destruct r as [r|e]; [|by simplify_eq].
  destruct (st_put d BLOCKS _ _) as [d1 [[]|e]] eqn:Ep; simplify_eq.
  - exists p, proposer, txs, sm, sm1. split; [|done]. unfold stored_block, row. rewrite <- Hg. done.
  - by apply st_put_err in Ep as ->.
Qed.

(** The shape of a tick: the engine moves to [height] exactly in its own slot. *)
Lemma slot_tick_inv now n n' : slot_tick now n = Ret n' -> exists height,
  u64_add (current_height (n_engine n)) 1 = Ret height /\
  ((exists self sm0 s mp0 pub,
      produce_block self now sm0 mp0 (n_storage n) height s = Ret (n_state n', n_mempool n', n_storage n', pub) /\
      current_height (n_engine n') = height /\
      n_published n' = n_published n ++ match pub with Some b => [b] | None => [] end) \/
   (current_height (n_engine n') = current_height (n_engine n) /\
      n_storage n' = n_storage n /\ n_published n' = n_published n)).
Proof.
  intros E. unfold slot_tick in E. apply bind_Ret_inv in E as (height & Eh & E). exists height. split; [done|].
  apply bind_Ret_inv in E as ([self sm] & Ee & E).
  assert (current_height self = current_height (n_engine n)) as Hc.
  { unfold enter_era in Ee. destruct (is_era_boundary height); [|by simplify_eq].
    apply bind_Ret_inv in Ee as ([? addrs] & _ & Ee). case_bool_decide; by simplify_eq. }
  destruct (slot_schedule self height) as [self' s] eqn:Es.
  assert (current_height self' = current_height self) as Hc'.
  { unfold slot_schedule in Es. destruct (schedule self); by simplify_eq. }
  apply bind_Ret_inv in E as (ours & _ & E). destruct ours.
  - left. apply bind_Ret_inv in E as ([[[sm' mp'] d'] pub] & Ep & E). simplify_eq. simpl. eauto 10.
  - right. simplify_eq. simpl. rewrite Hc'. done.
Qed.

(** A chain in the blocks table: above the genesis every row is the encoding of a
    block built on the block stored below it. *)
Definition linked (d : D) : Prop :=
  forall h raw, 0 < h < W64 -> row d h = Some raw -> exists b p,
    raw = enc sc_block b /\ stored_block d (h - 1) = Some p /\
    hdr_parent_hash (blk_header b) = header_hash (blk_header p) /\
    hdr_height (blk_header b) = (hdr_height (blk_header p) + 1) mod W64 /\
    hdr_chain_id (blk_header b) = hdr_chain_id (blk_header p) /\
    hdr_tx_root (blk_header b) = compute_tx_root (blk_body b).

(** The engine's height is the height of the tip: nothing is stored above it. *)
Definition at_tip (n : Node D) : Prop :=
  is_u64 (current_height (n_engine n)) /\
  forall h, current_height (n_engine n) < h < W64 -> row (n_storage n) h = None.

Lemma build_block_inv self sm txs p proposer now sig b sm' :
  build_block self sm txs p proposer now sig = Ret (b, sm') ->
  hdr_parent_hash (blk_header b) = header_hash (blk_header p) /\
  hdr_height (blk_header b) = (hdr_height (blk_header p) + 1) mod W64 /\
  hdr_chain_id (blk_header b) = hdr_chain_id (blk_header p) /\
  hdr_tx_root (blk_header b) = compute_tx_root (blk_body b) /\ transactions (blk_body b) = txs /\
  hdr_proposer (blk_header b) = proposer.
Proof.
  unfold build_block. intros E. apply bind_Ret_inv in E as (h & Hh & E). apply u64_add_Ret in Hh as [-> _].
  apply bind_Ret_inv in E as ([root sm1] & _ & E). by simplify_eq.
Qed.

Lemma slot_tick_linked now n n' : slot_tick now n = Ret n' -> at_tip n -> linked (n_storage n) ->
  current_height (n_engine n) < U64_MAX ->
  at_tip n' /\ linked (n_storage n') /\ current_height (n_engine n') <= current_height (n_engine n) + 1.
Proof.
  intros E [Hu Htip] Hlk Hmax. destruct (slot_tick_inv _ _ _ E) as (height & Eh & [Hours|(Hc & Hd & _)]).
  2:{ rewrite Hc. split; [by split; rewrite ?Hc, ?Hd|]. rewrite Hd. split; [done|]. lia. }
  destruct Hours as (self & sm0 & s & mp0 & pub & Ep & Hc & _). unfold is_u64, U64_MAX in *.
  rewrite u64_add_ok in Eh by lia. injection Eh as <-. rewrite Hc.
  apply produce_block_inv in Ep. destruct pub as [b|].
  - destruct Ep as (p & proposer & txs & sm1 & sm2 & Hp & _ & Eb & Eput).
    set (c := current_height (n_engine n)) in *.
    replace (u64_saturating_sub (c + 1) 1) with c in Hp by (unfold u64_saturating_sub; lia).
    assert (forall h', is_u64 h' -> h' <> c + 1 -> row (n_storage n') h' = row (n_storage n) h') as Hne.
    { intros h' Hh' Hneq. eapply row_put_ne; [|exact Hh'|exact Hneq|exact Eput]. unfold is_u64. lia. }
    split; [|split; [|lia]].
    + split; [rewrite Hc; unfold is_u64; lia|]. intros h Hh. rewrite Hc in Hh.
      rewrite Hne by (unfold is_u64; lia). apply Htip. lia.
    + intros h raw Hh Hr. unfold stored_block. rewrite (Hne (h - 1)).
      2:{ unfold is_u64; lia. } 2:{ intros Eq. rewrite Hne in Hr by (unfold is_u64; lia). rewrite Htip in Hr by lia. done. }
      destruct (decide (h = c + 1)) as [->|Hneq].
      * rewrite (row_put_eq _ _ _ _ Eput) in Hr. injection Hr as <-. rewrite Z.add_simpl_r.
        exists b, p. apply build_block_inv in Eb as (? & ? & ? & ? & _). done.
      * rewrite Hne in Hr by (unfold is_u64; lia). by apply Hlk.
  - split; [|split; [|lia]].
    + split; [rewrite Hc; unfold is_u64; lia|]. intros h Hh. rewrite Hc in Hh. unfold row. rewrite Ep. apply Htip. lia.
    + intros h raw Hh. unfold stored_block, row. rewrite Ep. by apply Hlk.
Qed.

(** C18: the stored chain stays linked.  Starting with the engine at the tip of a
    linked blocks table, whatever the loop meets (era boundaries, failed reads and
    writes, slots of other proposers), after any number of slots every stored
    block still names the hash of the block stored below it, continues its height
    and chain identifier and carries the root of its own transactions; no earlier
    row has changed. *)
Theorem chain_stays_linked (n n' : Node D) (clock : list Z)
    (Hrun : run_slots n clock = Ret n') (Htip : at_tip n) (Hlk : linked (n_storage n))
    (Hroom : current_height (n_engine n) + Z.of_nat (length clock) < W64) :
  linked (n_storage n') /\ at_tip n' /\
  forall h, 0 <= h <= current_height (n_engine n) -> row (n_storage n') h = row (n_storage n) h.
Proof.
  unfold run_slots in Hrun. revert n Hrun Htip Hlk Hroom.
  induction clock as [|now clock IH]; intros n Hrun Htip Hlk Hroom; simpl in *; [by simplify_eq|].
  apply bind_Ret_inv in Hrun as (n1 & E1 & Hrun).
  destruct (slot_tick_linked _ _ _ E1 Htip Hlk) as (Htip1 & Hlk1 & Hle); [unfold U64_MAX; lia|].
  destruct (IH n1 Hrun Htip1 Hlk1) as (Hlk' & Htip' & Hrows); [lia|]. split; [done|]. split; [done|].
  intros h Hh. destruct Htip as [Hu _]. unfold is_u64 in Hu.
  destruct (slot_tick_inv _ _ _ E1) as (height & Eh & [(self & sm0 & s & mp0 & pub & Ep & Hc & _)|(Hc & Hd & _)]).
  2:{ rewrite Hrows by (rewrite Hc; lia). by rewrite Hd. }
  rewrite u64_add_ok in Eh by lia. injection Eh as <-. rewrite Hrows by (rewrite Hc; lia).
  apply produce_block_inv in Ep. destruct pub as [b|]; [|by unfold row; rewrite Ep].
  destruct Ep as (? & ? & ? & ? & ? & _ & _ & _ & Eput).
  eapply row_put_ne; [| | |exact Eput]; unfold is_u64; lia.
Qed.
End Slots.

(** ** Progress and its absence *)

Section Progress.
Context `{BuildProfile} `{Blake3} `{Scale} `{!HashOrder Address}.
Context {D : Type} `{StorageOk D}.

(** No row from the engine's own height on: the parent of the next block is missing. *)
Definition parent_missing (n : Node D) : Prop :=
  is_u64 (current_height (n_engine n)) /\
  forall h, current_height (n_engine n) <= h < W64 -> row (n_storage n) h = None.

Lemma parent_missing_tick now n n' : parent_missing n -> current_height (n_engine n) < U64_MAX ->
  slot_tick now n = Ret n' ->
  parent_missing n' /\ n_published n' = n_published n /\ st_view (n_storage n') BLOCKS = st_view (n_storage n) BLOCKS /\
  current_height (n_engine n') <= current_height (n_engine n) + 1.
Proof.
  intros [Hu Hmiss] Hmax E. unfold is_u64, U64_MAX in *.
  destruct (slot_tick_inv _ _ _ E) as (height & Eh & [(self & sm0 & s & mp0 & pub & Ep & Hc & Hpub)|(Hc & Hd & Hpub)]).
  2:{ rewrite Hpub, Hd. split; [split; rewrite ?Hc, ?Hd; [done|by apply Hmiss]|]. split; [done|]. split; [done|]. lia. }
  rewrite u64_add_ok in Eh by lia. injection Eh as <-. apply produce_block_inv in Ep.
  set (c := current_height (n_engine n)) in *. destruct pub as [b|].
  { destruct Ep as (p & _ & _ & _ & _ & Hp & _). replace (u64_saturating_sub (c + 1) 1) with c in Hp
      by (unfold u64_saturating_sub; lia). unfold stored_block in Hp. by rewrite Hmiss in Hp by lia. }
  rewrite app_nil_r in Hpub. split; [|split; [done|split; [done|lia]]].
  split; rewrite Hc; [unfold is_u64; lia|]. intros h Hh. unfold row. rewrite Ep. apply Hmiss. lia.
Qed.

(** One lost block stops the node for good.  The loop advances its height even
    when [produce_block] fails.  Once a slot at the tip has passed without its
    block reaching the store, no later slot publishes or stores any block, however
    long the loop runs: every attempt looks for a parent that was never written. *)
Theorem lost_block_halts (n n1 n' : Node D) (now : Z) (clock : list Z)
    (Htip : at_tip n) (Htick : slot_tick now n = Ret n1)
    (Hmoved : current_height (n_engine n1) = current_height (n_engine n) + 1)
    (Hlost : row (n_storage n1) (current_height (n_engine n1)) = None)
    (Hrun : run_slots n1 clock = Ret n')
    (Hroom : current_height (n_engine n1) + Z.of_nat (length clock) < W64) :
  n_published n' = n_published n1 /\ st_view (n_storage n') BLOCKS = st_view (n_storage n1) BLOCKS /\
  n_published n1 = n_published n.
Proof.
  destruct Htip as [Hu Htip]. unfold is_u64 in Hu.
  assert (parent_missing n1 /\ n_published n1 = n_published n) as [Hm Hpub].
  { destruct (slot_tick_inv _ _ _ Htick) as (height & Eh & [(self & sm0 & s & mp0 & pub & Ep & Hc & Hpub)|(Hc & Hd & Hpub)]).
    2:{ rewrite Hmoved in Hc. lia. }
    rewrite u64_add_ok in Eh by lia. injection Eh as <-. apply produce_block_inv in Ep. destruct pub as [b|].
    { destruct Ep as (p & ? & ? & ? & ? & _ & _ & _ & Eput). rewrite Hmoved, (row_put_eq _ _ _ _ Eput) in Hlost. done. }
    split; [|by rewrite Hpub, app_nil_r]. split; [rewrite Hmoved; unfold is_u64; lia|].
    intros h Hh. unfold row. rewrite Ep. apply Htip. lia. }
  split; [|split; [|done]]; clear Htick Hlost Hpub Hmoved Htip Hu;
    unfold run_slots in Hrun; revert n1 Hrun Hm Hroom; induction clock as [|t clock IH]; intros n1 Hrun Hm Hroom;
    simpl in Hrun, Hroom; try (by simplify_eq); apply bind_Ret_inv in Hrun as (n2 & E2 & Hrun);
    destruct (parent_missing_tick _ _ _ Hm ltac:(unfold U64_MAX; lia) E2) as (Hm2 & Hp2 & Hv2 & Hle);
    rewrite (IH n2 Hrun Hm2) by lia; done.
Qed.

(** A validator waits for ever.  Between era boundaries, a node whose local
    validator is not the scheduled proposer of the next height leaves everything
    as it is at every tick: nothing in the loop advances it past another
    proposer's slot. *)
Theorem observer_stalls (n : Node D) (s : ProposerSchedule) (local : Address) (clock : list Z)
    (Hsched : schedule (n_engine n) = Some s) (Hne : sch_active_set s <> [])
    (Hlocal : local_validator (n_engine n) = Some local)
    (Hroom : 0 <= current_height (n_engine n) < U64_MAX)
    (Hera : is_era_boundary (current_height (n_engine n) + 1) = false)
    (Hother : proposer_for_height s (current_height (n_engine n) + 1) <> Ret local) :
  run_slots n clock = Ret n.
Proof.
  assert (forall now, slot_tick now n = Ret n) as Htick.
  { intros now. unfold slot_tick. unfold U64_MAX in Hroom. rewrite u64_add_ok by lia. simpl.
    unfold enter_era. rewrite Hera. simpl. unfold slot_schedule. rewrite Hsched. unfold is_our_slot. rewrite Hlocal.
    unfold is_scheduled_proposer. destruct (proposer_for_height_ok s (current_height (n_engine n) + 1) Hne) as (p & E & _).
    rewrite E in *. simpl. rewrite bool_decide_eq_false_2 by congruence. by destruct n. }
  unfold run_slots. induction clock as [|now clock IH]; [done|]. simpl. rewrite Htick. exact IH.
Qed.

Lemma state_root_refines (K : gset Address) (L : Ledger) sm sm' r :
  refines K sm L -> state_root sm = Ret (r, sm') -> refines K sm' L.
Proof. intros R E. destruct (refines_state_root K sm L R) as (sm1 & E1 & R1). congruence. Qed.

(** Progress.  In its own slot, at a height inside the era, with the parent in
    the store, a well-formed pool and transactions that fit, a node on a reliable
    store always produces: the tick returns, the best transactions of the pool
    form the body of a block that continues the parent, it is stored at the next
    height and published, and the state machine implements the ledger after that
    block. *)
Lemma slot_produces `{!ScaleOk} `{!HashOrderOk Address} `{!StorageReliable D} (K : gset Address) (L : Ledger) (n : Node D) (p : Block) (now : Z)
    (HK : collision_free (keys_of K)) (R : refines K (n_state n) L) (Hwf : ledger_wf L) (Hnd : NoDup (active L))
    (Hpool : pool_wf (n_mempool n))
    (Hc : is_u64 (current_height (n_engine n))) (Hmax : current_height (n_engine n) + 1 < W64)
    (Hera : is_era_boundary (current_height (n_engine n) + 1) = false)
    (Hne : sch_active_set (slot_schedule (n_engine n) (current_height (n_engine n) + 1)).2 <> [])
    (Hours : is_our_slot (n_engine n) (slot_schedule (n_engine n) (current_height (n_engine n) + 1)).2
               (current_height (n_engine n) + 1) = Ret true)
    (Hp : stored_block (n_storage n) (current_height (n_engine n)) = Some p)
    (Hph : hdr_height (blk_header p) = current_height (n_engine n))
    (Hfits : forall mp txs header, select (n_mempool n) 500 = Ret (mp, txs) ->
               block_fits K L (mkBlock header (mkBlockBody txs))) :
  let height := current_height (n_engine n) + 1 in
  exists n' b, slot_tick now n = Ret n' /\ current_height (n_engine n') = height /\
    n_published n' = n_published n ++ [b] /\ row (n_storage n') height = Some (enc sc_block b) /\
    select (n_mempool n) 500 = Ret (n_mempool n', transactions (blk_body b)) /\
    hdr_height (blk_header b) = height /\ hdr_parent_hash (blk_header b) = header_hash (blk_header p) /\
    hdr_global_state_root (blk_header b) = merkle_root (leaves (state (n_state n))) /\
    proposer_for_height (slot_schedule (n_engine n) height).2 height = Ret (hdr_proposer (blk_header b)) /\
    refines K (n_state n') (bs_ledger (spec_block L b)).
Proof.
  intros height. unfold is_u64 in Hc. unfold slot_tick. rewrite u64_add_ok by lia. cbn [mbind outcome_bind].
  fold height in Hera, Hne, Hours |- *. unfold enter_era. rewrite Hera. cbn [mbind outcome_bind].
  destruct (slot_schedule (n_engine n) height) as [self s] eqn:Es. cbn [snd] in Hne, Hours.
  assert (is_our_slot self s height = Ret true) as ->.
  { unfold slot_schedule in Es. destruct (schedule (n_engine n)); by simplify_eq. }
  cbn [mbind outcome_bind]. unfold produce_block.
  replace (u64_saturating_sub height 1) with (current_height (n_engine n))
    by (unfold u64_saturating_sub, height; lia).
  destruct (st_get_total (n_storage n) BLOCKS (to_be_bytes 8 (current_height (n_engine n))) ltac:(auto with tables)) as [o Hg].
  rewrite Hg. apply st_get_view in Hg. unfold stored_block, row in Hp. rewrite <- Hg in Hp.
  destruct o as [raw|]; [|done]. cbn [mbind option_bind] in Hp. rewrite Hp.
  destruct (select_spec (n_mempool n) 500 Hpool ltac:(lia)) as (mp & Esel & _).
  specialize (fun h => Hfits _ _ h Esel). rewrite Esel. cbn [mbind outcome_bind].
  destruct (proposer_for_height_ok s height Hne) as (proposer & Epr & _). rewrite Epr. cbn [mbind outcome_bind].
  set (txs := map pt_tx _) in *.
  destruct (build_block_ok self (n_state n) txs p proposer now sig_fake (rf_wf _ _ _ R)) as (sm1 & Hl & Hwf1 & Hv & Ha & Eb);
    [unfold is_u64; lia|lia|].
  assert (refines K sm1 L) as R1.
  { unfold build_block in Eb. apply bind_Ret_inv in Eb as (? & _ & Eb). apply bind_Ret_inv in Eb as ([? ?] & Er & Eb).
    simplify_eq. by eapply state_root_refines. }
  rewrite Eb. cbn [mbind outcome_bind].
  match goal with |- context [apply_block sm1 ?b] => set (blk := b) end.
  destruct (apply_block_simulates K HK sm1 L blk R1 Hwf Hnd (Hfits _)) as (sm2 & -> & R2). cbn [mbind outcome_bind].
  destruct (st_put_total (n_storage n) BLOCKS (to_be_bytes 8 height) (enc sc_block blk) ltac:(auto with tables)) as [d' Ep].
  rewrite Ep. cbn [mbind outcome_bind]. eexists _, blk. split; [done|]. split; [done|]. split; [done|].
  split; [by apply (row_put_eq _ _ _ _ Ep)|]. split; [done|]. split; [unfold height; simpl; lia|]. done.
Qed.
End Progress.

(** ** Instances *)

Import ToyInstances MemStorage.

Definition pay_ex (n : Z) : Transaction := mk_tx 7 n alice 10 (Transfer bob 100).

Module TxRootExample.
(** A hash that starts with the length of its input. *)
#[local] Instance len_blake3 : Blake3 :=
  {| blake3 b := Array (resize 32 x00 (byte_of_Z (Z.of_nat (length b)) :: drop 8 b)) (toy_hash_len _) |}.

Definition wire_ex (n : Z) : Transaction :=
  mkTransaction 7 n alice 10 (Transfer bob 100) (mkSignature (List.repeat x05 FALCON_SIGNATURE_SIZE)).

Lemma wire_ex_valid n : is_u64 n -> tx_wire_valid (wire_ex n).
Proof.
  intros Hn. split; [by split|]. split; [done|]. split; [split; vm_compute; done|].
  split; [split; [split; vm_compute; done|done]|done].
Qed.

Definition inputs_ex : list bytes := root_inputs [wire_ex 0; wire_ex 1] ++ root_inputs [wire_ex 1; wire_ex 0].

Lemma inputs_ex_distinct : forallb (fun x => forallb (fun y =>
  bool_decide (x = y) || negb (bool_decide (blake3 x = blake3 y))) inputs_ex) inputs_ex = true.
Proof. vm_compute. reflexivity. Qed.

Lemma tx_root_binding_witness :
  compute_tx_root (mkBlockBody [wire_ex 0; wire_ex 1]) = compute_tx_root (mkBlockBody [wire_ex 1; wire_ex 0]).
Proof.
  apply (tx_root_binding [wire_ex 0; wire_ex 1] [wire_ex 1; wire_ex 0]).
  - intros x y Hx Hy E. pose proof inputs_ex_distinct as F. rewrite forallb_forall in F.
    assert (forall z, z ∈ root_inputs [wire_ex 0; wire_ex 1] \/ z ∈ root_inputs [wire_ex 1; wire_ex 0] -> In z inputs_ex) as Hin
      by (intros z Hz; by apply list_elem_of_In, elem_of_app).
    specialize (F x (Hin x Hx)). rewrite forallb_forall in F. specialize (F y (Hin y Hy)).
    apply orb_true_iff in F as [F|F]; [by apply bool_decide_eq_true in F|].
    rewrite (bool_decide_eq_true_2 _ E) in F. discriminate F.
  - repeat constructor; by apply wire_ex_valid.
  - repeat constructor; by apply wire_ex_valid.
  - reflexivity.
  - apply perm_swap.
Defined.
End TxRootExample.

Definition solo_schedule : ProposerSchedule := ProposerSchedule_new [alice] 0 0.
Definition engine_ex : ConsensusEngine := ConsensusEngine_new ConsensusConfig_default.
Definition parent_ex : Block := genesis_block 7.

Lemma sm0_wf : smt_wf (state sm0).
Proof. apply (rf_wf D0 sm0 L0 refines0). Qed.

Lemma built_block_validates_witness : exists block sm',
  build_block engine_ex sm0 [pay_ex 0] parent_ex alice 50 sig0 = Ret (block, sm') /\
  validate_block engine_ex block parent_ex solo_schedule 2 None = Ret true.
Proof.
  destruct (built_block_validates engine_ex sm0 [pay_ex 0] parent_ex solo_schedule 50 sig0 alice 2 None sm0_wf)
    as (block & sm' & E & _ & _ & _ & _ & V); [by split|done|vm_compute; reflexivity|].
  exists block, sm'. split; [exact E|exact V].
Defined.

Lemma validate_block_correct_witness : exists b,
  validate_block engine_ex (genesis_block 7) parent_ex solo_schedule 2 None = Ret b /\ b = false.
Proof.
  destruct (validate_block_correct engine_ex (genesis_block 7) parent_ex solo_schedule 2 None) as (b & E & Hb & _);
    [done|by split|done|].
  exists b. split; [exact E|]. destruct b; [|done]. destruct (proj1 Hb eq_refl) as (_ & Hh & _). discriminate Hh.
Defined.

(** A node at genesis with one pending transaction. *)
Definition pool0 : Mempool := put (Mempool_new small_config) 700 (pay_ex 0).
Definition node_at (e : ConsensusEngine) : Node RedbEngine := mkNode e sm0 pool0 loaded_ex [].
Definition node_ex : Node RedbEngine := node_at engine_ex.

Lemma loaded_row h : 0 < h < W64 -> row loaded_ex h = None.
Proof.
  intros Hh. unfold row. rewrite loaded_blocks. apply lookup_singleton_ne. intros E.
  apply to_be_bytes_inj in E; [lia|done|apply is_u64_bytes; unfold is_u64; lia].
Qed.

Lemma loaded_parent : stored_block loaded_ex 0 = Some parent_ex.
Proof.
  unfold stored_block, row. rewrite loaded_blocks, lookup_singleton_eq. cbn [mbind option_bind].
  apply (decode_all_enc block_wire_valid); [apply sc_block_ok|]. split; [|constructor].
  split; [by split|]. split; [by split|]. split; [by split|]. apply List.repeat_length.
Qed.

(** The result of a run that returns. *)
Definition ret_or {A} (m : outcome A) (a : A) : A := match m with Ret x => x | Panic => a end.

Lemma ret_or_ok {A} (m : outcome A) a : match m with Ret _ => true | Panic => false end = true -> m = Ret (ret_or m a).
Proof. by destruct m. Qed.

Definition after_ex : Node RedbEngine := ret_or (run_slots node_ex [50; 55]) node_ex.

Lemma chain_stays_linked_witness : run_slots node_ex [50; 55] = Ret after_ex /\ linked (n_storage after_ex).
Proof.
  assert (run_slots node_ex [50; 55] = Ret after_ex) as E by (apply ret_or_ok; vm_compute; reflexivity).
  split; [exact E|]. apply (chain_stays_linked node_ex after_ex [50; 55] E).
  - split; [by split|]. intros h Hh. by apply loaded_row.
  - intros h raw Hh Hr. simpl in Hr. by rewrite loaded_row in Hr.
  - done.
Defined.

(** A node whose height is ahead of its store. *)
Definition node_gap : Node RedbEngine := node_at (set_current_height engine_ex 5).
Definition gap1 : Node RedbEngine := ret_or (slot_tick 50 node_gap) node_gap.
Definition gap2 : Node RedbEngine := ret_or (run_slots gap1 [55; 60]) gap1.

Lemma lost_block_halts_witness : run_slots gap1 [55; 60] = Ret gap2 /\ n_published gap2 = [].
Proof.
  assert (run_slots gap1 [55; 60] = Ret gap2) as E by (apply ret_or_ok; vm_compute; reflexivity).
  split; [exact E|].
  destruct (lost_block_halts node_gap gap1 gap2 50 [55; 60]) as (-> & _ & ->).
  - split; [by split|]. intros h Hh. apply loaded_row. simpl in Hh. lia.
  - apply ret_or_ok. vm_compute. reflexivity.
  - vm_compute. reflexivity.
  - vm_compute. reflexivity.
  - exact E.
  - vm_compute. reflexivity.
  - reflexivity.
Defined.

Lemma observer_stalls_witness :
  run_slots (node_at (set_schedule (set_local_validator engine_ex bob) solo_schedule)) [50; 55; 60] =
  Ret (node_at (set_schedule (set_local_validator engine_ex bob) solo_schedule)).
Proof.
  by apply (observer_stalls _ solo_schedule bob).
Defined.
