(* ===== verification/Peers.v ===== *)
(** * Peer scores and rate limits ([network/peer_score.rs], [network/topics.rs])

    Scores of peers with their bans, and the per-peer rate limiter.  Peers and
    socket addresses are keys of a map; instants are nanoseconds given by the
    caller. *)
From Stdlib Require Import Strings.Byte Strings.String.
From stdpp Require Import base gmap sets list strings countable sorting.
From Stdlib Require Import ZArith Lia.
From S2P Require Import Prelude Types Toy.

Definition BAN_DURATION : Z := 720.
Definition BAN_THRESHOLD : Z := -20.
Definition MAX_SCORE : Z := 100.
Definition MIN_SCORE : Z := -100.

Record PeerScore := mkPeerScore {
  score : Z;                          (* i32 *)
  banned_at_height : option Z;
  last_positive : Z                   (* Instant *)
}.

Definition PeerScore_new (now : Z) : PeerScore := mkPeerScore 0 None now.

Definition should_ban (self : PeerScore) : bool := score self <? BAN_THRESHOLD.
Definition apply_ban (self : PeerScore) (current_height : Z) : PeerScore :=
  mkPeerScore (score self) (Some current_height) (last_positive self).

(** [clamp(MIN_SCORE, MAX_SCORE)] of the sum; the sum cannot leave [i32]. *)
Definition adjust (self : PeerScore) (now delta : Z) : PeerScore :=
  mkPeerScore (Z.min MAX_SCORE (Z.max MIN_SCORE (score self + delta))) (banned_at_height self)
    (if 0 <? delta then now else last_positive self).

Definition is_banned `{BuildProfile} (self : PeerScore) (current_height : Z) : outcome bool :=
  match banned_at_height self with
  | Some h => until ← u64_add h BAN_DURATION; Ret (current_height <? until)
  | None => Ret false
  end.

Inductive ScoreEvent :=
| ValidBlockPropagated
| ValidVotePropagated
| SuccessfulSyncBatch
| SyncBatchHashMismatch
| SyncBatchVerifyFail
| EmptySyncResponse
| SyncTimeout
| InvalidBlockGossiped
| InvalidVoteGossiped
| ConnectDisconnectLoop
| DuplicateBlockGossip.

Definition delta (e : ScoreEvent) : Z :=
  match e with
  | ValidBlockPropagated => 1
  | ValidVotePropagated => 1
  | SuccessfulSyncBatch => 2
  | SyncBatchHashMismatch => -10
  | SyncBatchVerifyFail => -20
  | EmptySyncResponse => -2
  | SyncTimeout => -4
  | InvalidBlockGossiped => -10
  | InvalidVoteGossiped => -10
  | ConnectDisconnectLoop => -10
  | DuplicateBlockGossip => -2
  end.

Section Repo.
Context {PeerId : Type} `{Countable PeerId} `{BuildProfile}.

(** [PeerScoreRepo] *)
Abbreviation PeerScoreRepo := (gmap PeerId PeerScore).

Definition get_or_create (self : PeerScoreRepo) (peer : PeerId) (now : Z) : PeerScore :=
  default (PeerScore_new now) (self !! peer).

Definition apply_event (self : PeerScoreRepo) (peer : PeerId) (now : Z) (event : ScoreEvent) : PeerScoreRepo :=
  <[peer := adjust (get_or_create self peer now) now (delta event)]> self.

Definition repo_is_banned (self : PeerScoreRepo) (peer : PeerId) (current_height : Z) : outcome bool :=
  match self !! peer with Some s => is_banned s current_height | None => Ret false end.

Definition repo_new : PeerScoreRepo := ∅.
Definition repo_score (self : PeerScoreRepo) (peer : PeerId) : option Z := score <$> self !! peer.
Definition repo_len (self : PeerScoreRepo) : nat := size self.
Definition repo_is_empty (self : PeerScoreRepo) : bool := bool_decide (self = ∅).

Definition auto_ban_one (current_height : Z) (s : PeerScore) : PeerScore :=
  if should_ban s && bool_decide (banned_at_height s = None) then apply_ban s current_height else s.

Definition auto_ban (self : PeerScoreRepo) (current_height : Z) : PeerScoreRepo :=
  auto_ban_one current_height <$> self.

(** What the network layer does to the repository. *)
Inductive RepoOp := OnEvent (peer : PeerId) (now : Z) (e : ScoreEvent) | OnAutoBan (current_height : Z).

Definition repo_op (self : PeerScoreRepo) (op : RepoOp) : PeerScoreRepo :=
  match op with
  | OnEvent peer now e => apply_event self peer now e
  | OnAutoBan h => auto_ban self h
  end.

(** The events and scans that concern a peer, on its own score. *)
Definition score_op (peer : PeerId) (s : option PeerScore) (op : RepoOp) : option PeerScore :=
  match op with
  | OnEvent p now e =>
      if decide (p = peer) then Some (adjust (default (PeerScore_new now) s) now (delta e)) else s
  | OnAutoBan h => auto_ban_one h <$> s
  end.

Lemma repo_op_lookup self op peer : repo_op self op !! peer = score_op peer (self !! peer) op.
Proof.
  destruct op as [p now e|h]; simpl.
  - unfold apply_event. case_decide; [subst; by rewrite lookup_insert_eq|by rewrite lookup_insert_ne].
  - unfold auto_ban. by rewrite lookup_fmap.
Qed.

Lemma repo_ops_lookup ops self peer :
  foldl repo_op self ops !! peer = foldl (score_op peer) (self !! peer) ops.
Proof. revert self. induction ops as [|op ops IH]; intros self; simpl; [done|]. by rewrite IH, repo_op_lookup. Qed.

(** Scores stay in range and peers do not influence each other.  From an empty
    repository, after any events and ban scans, every score lies within the
    bounds, a score below the threshold leads to a ban at the next scan, and what
    is recorded for a peer depends only on its own events and the scans. *)
Theorem scores_bounded (ops : list RepoOp) (peer : PeerId) (current_height : Z) :
  let r := foldl repo_op (∅ : PeerScoreRepo) ops in
  (forall s, r !! peer = Some s -> MIN_SCORE <= score s <= MAX_SCORE) /\
  (forall s, r !! peer = Some s -> score s < BAN_THRESHOLD ->
     exists h, banned_at_height <$> auto_ban r current_height !! peer = Some (Some h)) /\
  r !! peer = foldl (score_op peer) None ops.
Proof.
  intros r. unfold r. rewrite repo_ops_lookup, lookup_empty. split; [|split; [|done]].
  - assert (forall o : option PeerScore, (forall s, o = Some s -> MIN_SCORE <= score s <= MAX_SCORE) ->
      forall s, foldl (score_op peer) o ops = Some s -> MIN_SCORE <= score s <= MAX_SCORE) as Hgen.
    { induction ops as [|op ops IH]; intros o Ho; simpl; [done|]. apply IH. intros s Hs.
      destruct op as [p now e|h]; simpl in Hs.
      - case_decide; [|by apply Ho]. simplify_eq. simpl. unfold MIN_SCORE, MAX_SCORE. lia.
      - destruct o as [s0|]; [|done]. simpl in Hs. simplify_eq. unfold auto_ban_one.
        destruct (should_ban s0 && _); simpl; by apply Ho. }
    by apply Hgen.
  - intros s Hs Hlow. unfold auto_ban. rewrite lookup_fmap, repo_ops_lookup, lookup_empty, Hs. simpl.
    unfold auto_ban_one, should_ban. rewrite (proj2 (Z.ltb_lt _ _) Hlow). simpl.
    case_bool_decide as Hb; [by exists current_height|]. destruct (banned_at_height s) as [h|]; [by exists h|done].
Qed.

(** A ban happens once.  A peer banned at height [h] is banned exactly for the
    heights below [h + BAN_DURATION], and no later event or scan changes that: a
    peer whose ban has run out is never banned again, however low its score. *)
Theorem ban_only_once (r : PeerScoreRepo) (peer : PeerId) (s : PeerScore) (h : Z) (ops : list RepoOp) (current_height : Z)
    (Hr : r !! peer = Some s) (Hb : banned_at_height s = Some h) (Hroom : 0 <= h /\ h + BAN_DURATION < W64) :
  repo_is_banned (foldl repo_op r ops) peer current_height = Ret (current_height <? h + BAN_DURATION).
Proof.
  unfold repo_is_banned. rewrite repo_ops_lookup, Hr.
  assert (exists s', foldl (score_op peer) (Some s) ops = Some s' /\ banned_at_height s' = Some h) as (s' & -> & Hb').
  { clear Hr. revert s Hb. induction ops as [|op ops IH]; intros s Hb; simpl; [by exists s|].
    destruct op as [p now e|hh]; simpl.
    - case_decide; [by apply IH|by apply IH].
    - apply IH. unfold auto_ban_one. rewrite (bool_decide_eq_false_2 (_ = None)) by (rewrite Hb; done).
      by rewrite andb_false_r. }
  unfold is_banned. rewrite Hb'. unfold BAN_DURATION in *. rewrite u64_add_ok by lia. done.
Qed.
End Repo.

(** ** Topics *)

Record TopicConfig := mkTopic { tc_name : string; max_message_size : Z; max_rate_per_peer : Z }.

(** [format!("mononium/txs/{chain_id}")] with the decimal text given. *)
Definition standard_topics (chain_id : string) : list TopicConfig := [
  mkTopic ("mononium/txs/" +:+ chain_id) 1048576 100;
  mkTopic ("mononium/blocks/" +:+ chain_id) 512000 10;
  mkTopic ("mononium/votes/" +:+ chain_id) 1024 50;
  mkTopic ("mononium/evidence/" +:+ chain_id) 5120 5].

Definition validate_size (self : TopicConfig) (size : Z) : bool := size <=? max_message_size self.

(** ** The rate limiter *)

Section RateLimiter.
Context {SocketAddr : Type} `{Countable SocketAddr} `{BuildProfile}.

Record RateLimiter := mkRateLimiter {
  max_per_window : Z;                 (* u32 *)
  window : Z;                         (* nanoseconds *)
  counters : gmap SocketAddr (Z * Z)  (* count since instant *)
}.

Definition RateLimiter_new (max : Z) : RateLimiter := mkRateLimiter max 1000000000 ∅.

(** The entry of a peer, created or reset when its window has expired;
    [duration_since] saturates at zero. *)
Definition current_entry (self : RateLimiter) (peer : SocketAddr) (now : Z) : Z * Z :=
  let entry := default (0, now) (counters self !! peer) in
  if window self <=? Z.max 0 (now - entry.2) then (0, now) else entry.

Definition set_entry (self : RateLimiter) (peer : SocketAddr) (e : Z * Z) : RateLimiter :=
  mkRateLimiter (max_per_window self) (window self) (<[peer := e]> (counters self)).

Definition check (self : RateLimiter) (now : Z) (peer : SocketAddr) : RateLimiter * bool :=
  let entry := current_entry self peer now in
  (set_entry self peer entry, entry.1 <? max_per_window self).

Definition increment (self : RateLimiter) (now : Z) (peer : SocketAddr) : outcome RateLimiter :=
  let entry := current_entry self peer now in
  n ← u32_add entry.1 1;
  Ret (set_entry self peer (n, entry.2)).

(** [check] and [increment] each read the clock. *)
Definition allow (self : RateLimiter) (now now' : Z) (peer : SocketAddr) : outcome (RateLimiter * bool) :=
  let '(self, allowed) := check self now peer in
  if allowed then self ← increment self now' peer; Ret (self, true) else Ret (self, false).

(** A series of calls for one peer: the number of messages let through. *)
Fixpoint count_allowed (self : RateLimiter) (peer : SocketAddr) (calls : list (Z * Z)) : outcome Z :=
  match calls with
  | [] => Ret 0
  | (now, now') :: calls =>
      '(self, allowed) ← allow self now now' peer;
      n ← count_allowed self peer calls;
      Ret (if allowed : bool then n + 1 else n)
  end.

(** What is still allowed in a span that starts at [t0]: a counter started within
    the span is not reset before its end, an older one is reset at most once. *)
Definition budget (max t0 : Z) (e : Z * Z) : Z :=
  if t0 <=? e.2 then Z.max 0 (max - e.1) else Z.max 0 (max - e.1) + max.

Definition limiter_ok (self : RateLimiter) : Prop :=
  0 <= max_per_window self < W32 /\ 0 < window self /\
  forall p c s, counters self !! p = Some (c, s) -> 0 <= c <= max_per_window self.

Lemma set_entry_ok self peer n s : limiter_ok self -> 0 <= n <= max_per_window self -> limiter_ok (set_entry self peer (n, s)).
Proof.
  intros (Hmax & Hw & Hc) Hn. split; [done|]. split; [done|]. intros p c t. simpl.
  rewrite lookup_insert_Some. intros [[_ E]|[_ E]]; [by simplify_eq|by eapply Hc].
Qed.

(** One call: it never panics, keeps the limits, and pays for what it lets through. *)
Lemma allow_budget self peer now now' t0 c s : limiter_ok self -> counters self !! peer = Some (c, s) ->
  t0 <= now < t0 + window self -> t0 <= now' < t0 + window self ->
  exists self' b c' s', allow self now now' peer = Ret (self', b) /\ limiter_ok self' /\
    max_per_window self' = max_per_window self /\ window self' = window self /\
    counters self' !! peer = Some (c', s') /\
    (if b : bool then 1 else 0) + budget (max_per_window self) t0 (c', s') <= budget (max_per_window self) t0 (c, s).
Proof.
  intros Hok Hl Hn Hn'. pose proof Hok as (Hmax & Hw & Hc). pose proof (Hc peer c s Hl) as Hcs.
  assert (exists c1 s1, current_entry self peer now = (c1, s1) /\ 0 <= c1 <= max_per_window self /\
    (c1 = c /\ s1 = s \/ c1 = 0 /\ s1 = now /\ window self <= now - s)) as (c1 & s1 & E1 & Hc1 & Hcase).
  { unfold current_entry. rewrite Hl. simpl. destruct (Z.leb_spec (window self) (Z.max 0 (now - s))).
    - exists 0, now. split; [done|]. split; [lia|]. right. lia.
    - exists c, s. auto. }
  unfold allow, check. rewrite E1. simpl. pose proof (set_entry_ok self peer c1 s1 Hok Hc1) as Hok1.
  destruct (Z.ltb_spec c1 (max_per_window self)) as [Hlt|Hge].
  - unfold increment.
    assert (exists c2 s2, current_entry (set_entry self peer (c1, s1)) peer now' = (c2, s2) /\ 0 <= c2 < max_per_window self /\
      (c2 = c1 /\ s2 = s1 \/ c2 = 0 /\ s2 = now' /\ window self <= now' - s1)) as (c2 & s2 & E2 & Hc2 & Hcase2).
    { unfold current_entry. simpl. rewrite lookup_insert_eq. simpl.
      destruct (Z.leb_spec (window self) (Z.max 0 (now' - s1))).
      - exists 0, now'. split; [done|]. split; [lia|]. right. lia.
      - exists c1, s1. split; [done|]. split; [lia|by left]. }
    rewrite E2. simpl. rewrite u32_add_ok by lia. cbn [mbind outcome_bind].
    eexists _, true, (c2 + 1), s2. split; [done|].
    split; [apply (set_entry_ok (set_entry self peer (c1, s1))); [done|simpl; lia]|].
    split; [done|]. split; [done|]. split; [simpl; by rewrite lookup_insert_eq|].
    unfold budget. simpl. repeat match goal with |- context [?a <=? ?b] => destruct (Z.leb_spec a b) end; lia.
  - eexists _, false, c1, s1. split; [done|]. split; [done|]. split; [done|]. split; [done|].
    split; [simpl; by rewrite lookup_insert_eq|]. unfold budget. simpl.
    repeat match goal with |- context [?a <=? ?b] => destruct (Z.leb_spec a b) end; lia.
Qed.

Lemma count_allowed_budget calls self peer t0 c s : limiter_ok self -> counters self !! peer = Some (c, s) ->
  Forall (fun p => t0 <= p.1 < t0 + window self /\ t0 <= p.2 < t0 + window self) calls ->
  exists n, count_allowed self peer calls = Ret n /\ 0 <= n <= budget (max_per_window self) t0 (c, s).
Proof.
  revert self c s. induction calls as [|[now now'] calls IH]; intros self c s Hok Hl Hf; simpl.
  - exists 0. split; [done|]. destruct Hok as (Hmax & _). unfold budget. simpl. destruct (_ <=? _); lia.
  - apply Forall_cons in Hf as [[H1 H2] Hf]. simpl in *.
    destruct (allow_budget self peer now now' t0 c s Hok Hl H1 H2) as (self' & b & c' & s' & -> & Hok' & Hm & Hw & Hl' & Hb).
    cbn [mbind outcome_bind]. rewrite <- Hw in Hf. destruct (IH self' c' s' Hok' Hl' Hf) as (n & -> & Hn).
    rewrite Hm in Hn. cbn [mbind outcome_bind]. exists (if b then n + 1 else n). split; [done|]. destruct b; lia.
Qed.

(** The limit of the rate limiter.  In any span shorter than a window, whatever
    the history of a peer, at most twice [max_per_window] of its messages pass
    (the windows are fixed, not sliding); for a peer seen first within the span,
    at most [max_per_window]; and no call ever panics. *)
Theorem rate_limited (self : RateLimiter) (peer : SocketAddr) (calls : list (Z * Z)) (t0 : Z)
    (Hok : limiter_ok self)
    (Hspan : Forall (fun p => t0 <= p.1 < t0 + window self /\ t0 <= p.2 < t0 + window self) calls) :
  exists n, count_allowed self peer calls = Ret n /\ 0 <= n <= 2 * max_per_window self /\
  (counters self !! peer = None -> n <= max_per_window self).
Proof.
  pose proof Hok as (Hmax & Hw & Hc). destruct (counters self !! peer) as [[c s]|] eqn:Hl.
  - destruct (count_allowed_budget calls self peer t0 c s Hok Hl Hspan) as (n & -> & Hn).
    exists n. split; [done|]. pose proof (Hc peer c s Hl). split; [|done].
    unfold budget in Hn. simpl in Hn. destruct (_ <=? _); lia.
  - destruct calls as [|[now now'] calls]; [exists 0; split; [done|]; lia|].
    set (self0 := set_entry self peer (0, now)).
    assert (count_allowed self peer ((now, now') :: calls) = count_allowed self0 peer ((now, now') :: calls)) as ->.
    { simpl. unfold allow, check. assert (current_entry self peer now = (0, now)) as ->.
      { unfold current_entry. rewrite Hl. simpl. by destruct (_ <=? _). }
      assert (current_entry self0 peer now = (0, now)) as ->.
      { unfold current_entry, self0. simpl. rewrite lookup_insert_eq. simpl. by destruct (_ <=? _). }
      unfold self0, set_entry. simpl. by rewrite insert_insert_eq. }
    assert (limiter_ok self0) as Hok0 by (apply set_entry_ok; [done|lia]).
    destruct (count_allowed_budget ((now, now') :: calls) self0 peer t0 0 now Hok0) as (n & -> & Hn);
      [unfold self0; simpl; by rewrite lookup_insert_eq|done|].
    exists n. split; [done|]. unfold budget in Hn. simpl in Hn. inversion Hspan as [|? ? [[H1 _] _]]; subst. simpl in *.
    destruct (Z.leb_spec t0 now); lia.
Qed.
End RateLimiter.

(** ** Instances *)

Import ToyInstances.

Definition bad_ops : list (RepoOp (PeerId := Z)) :=
  [OnEvent 1 5 SyncBatchVerifyFail; OnEvent 1 6 SyncTimeout; OnAutoBan 100].

Lemma ban_only_once_witness :
  repo_is_banned (foldl repo_op (foldl repo_op ∅ bad_ops) (bad_ops ++ [OnAutoBan 5000])) 1 900 = Ret false.
Proof.
  apply (ban_only_once (foldl repo_op ∅ bad_ops) 1 (mkPeerScore (-24) (Some 100) 5) 100).
  - vm_compute. reflexivity.
  - reflexivity.
  - split; [done|reflexivity].
Defined.

Lemma rate_limited_witness : exists n,
  count_allowed (RateLimiter_new (SocketAddr := Z) 2) 4 [(0, 0); (10, 11); (12, 12)] = Ret n /\ n <= 2.
Proof.
  destruct (rate_limited (RateLimiter_new (SocketAddr := Z) 2) 4 [(0, 0); (10, 11); (12, 12)] 0) as (n & E & _ & Hn).
  - split; [by split|]. split; [done|]. intros p c s Hc. discriminate Hc.
  - repeat (constructor; [simpl; lia|]). constructor.
  - exists n. split; [exact E|]. apply Hn. reflexivity.
Defined.
