(* ===== verification/Sync.v ===== *)
(** * Block synchronisation ([network/messages.rs], [sync.rs], [sync_protocol.rs])

    The batch hash and the request limits, the responder that serves blocks from
    storage, and the requester's catch-up loop.  The network is an argument: the
    loop is a step function fed with the event each request ends in. *)
From Stdlib Require Import Strings.Byte Strings.String.
From stdpp Require Import base gmap sets list strings countable sorting.
From Stdlib Require Import ZArith Lia.
From S2P Require Import Prelude Types External Toy Trie Account State Ledger Refine Scenario Finality Schedule Mempool Storage Genesis Slashing Engine.

(** ** Messages ([network/messages.rs]) *)

Inductive SyncDirection := Forward | Backward.

Record BlockSyncRequest := mkSyncReq {
  start_height : Z;
  max_blocks : Z;                     (* u16 *)
  direction : SyncDirection;
  known_block_hash : option (array 32)
}.

Record BlockSyncResponse := mkSyncResp {
  rs_blocks : list Block;
  highest_height : Z;
  rs_batch_hash : array 32
}.

Record BlockByHashRequest := mkHashReq { block_hashes : list (array 32) }.
Record BlockByHashResponse := mkHashResp { hs_blocks : list Block }.

Inductive SyncRequest := BlockSync (r : BlockSyncRequest) | BlockByHash (r : BlockByHashRequest).
Inductive SyncResponse := RBlockSync (r : BlockSyncResponse) | RBlockByHash (r : BlockByHashResponse).

(** The evidence of the wire format: its signatures have 666 bytes. *)
Record NetworkEvidence := mkNetworkEvidence {
  ne_header_a : BlockHeader;
  ne_signature_a : array 666;
  ne_header_b : BlockHeader;
  ne_signature_b : array 666;
  ne_proposer : array 32
}.

Inductive GossipMessage :=
| GossipTxs (txs : list Transaction)
| GossipBlock (b : Block)
| GossipVote (v : CommitVote)
| GossipEvidence (e : NetworkEvidence).

Definition MAX_SYNC_BLOCKS : Z := 500.
Definition MAX_BY_HASH_BLOCKS : Z := 100.

Definition validate_sync_request (req : BlockSyncRequest) : result string unit :=
  if (max_blocks req =? 0) || (MAX_SYNC_BLOCKS <? max_blocks req) then Err "max_blocks must be 1..=500"%string else Ok tt.

Definition validate_by_hash_request (req : BlockByHashRequest) : result string unit :=
  if bool_decide (block_hashes req = []) || (MAX_BY_HASH_BLOCKS <? Z.of_nat (length (block_hashes req)))
  then Err "block_hashes must be 1..=100"%string else Ok tt.

(** ** The cursor *)

Record HeightRange := mkRange { hr_start : Z; hr_end : Z; hr_peer_id : string }.

Record SyncCursor := mkCursor {
  last_verified_height : Z;
  last_verified_hash : array 32;
  target_height : Z;
  pending_range : option HeightRange
}.

Definition SyncCursor_new (genesis_hash : array 32) : SyncCursor := mkCursor 0 genesis_hash 0 None.

Definition advance (self : SyncCursor) (to_height : Z) (to_hash : array 32) : outcome SyncCursor :=
  _ ← assert_ (last_verified_height self <? to_height);
  Ret (mkCursor to_height to_hash (target_height self) (pending_range self)).

Definition set_target (self : SyncCursor) (height : Z) : SyncCursor :=
  mkCursor (last_verified_height self) (last_verified_hash self) height (pending_range self).
Definition set_pending (self : SyncCursor) (range : HeightRange) : SyncCursor :=
  mkCursor (last_verified_height self) (last_verified_hash self) (target_height self) (Some range).
Definition clear_pending (self : SyncCursor) : SyncCursor :=
  mkCursor (last_verified_height self) (last_verified_hash self) (target_height self) None.

Definition gap (self : SyncCursor) : Z := u64_saturating_sub (target_height self) (last_verified_height self).
Definition needs_checkpoint `{BuildProfile} (self : SyncCursor) (era_length : Z) : outcome bool :=
  two ← u64_mul 2 era_length; Ret (two <=? gap self).

(** [SyncCursor::load]: the content of the file, and the JSON parser. *)
Definition load_cursor (parse : bytes -> option SyncCursor) (file : option bytes) (genesis_hash : array 32) : SyncCursor :=
  match file with
  | None => SyncCursor_new genesis_hash
  | Some json => default (SyncCursor_new genesis_hash) (parse json)
  end.

Section Sync.
Context `{BuildProfile} `{Blake3} `{Scale}.

(** The hasher is fed the anchor and then every encoded block. *)
Definition compute_batch_hash (genesis_hash : array 32) (blocks : list Block) : array 32 :=
  if bool_decide (blocks = []) then genesis_hash
  else blake3 (array_bytes genesis_hash ++ flat_map (enc sc_block) blocks).

(** ** The responder ([network/sync_protocol.rs]) *)

Section Store.
Context {D : Type} `{StorageEngine D}.

(** A stored row that reads and decodes. *)
Definition fetch_block (storage : D) (key : bytes) : option Block :=
  match st_get storage BLOCKS key with
  | Ok (Some block_bytes) => decode_all sc_block block_bytes
  | _ => None
  end.

(** The forward loop, from [offset] on; [n] iterations are left. *)
Fixpoint collect_forward (storage : D) (start offset : Z) (n : nat) : outcome (list Block) :=
  match n with
  | O => Ret []
  | S n =>
      height ← u64_add start offset;
      match fetch_block storage (to_be_bytes 8 height) with
      | Some block => blocks ← collect_forward storage start (offset + 1) n; Ret (block :: blocks)
      | None => Ret []
      end
  end.

Fixpoint collect_backward (storage : D) (start offset : Z) (n : nat) : list Block :=
  match n with
  | O => []
  | S n =>
      let height := u64_saturating_sub start (1 + offset) in
      if height =? 0 then []
      else
        match fetch_block storage (to_be_bytes 8 height) with
        | Some block => block :: collect_backward storage start (offset + 1) n
        | None => []
        end
  end.

(** The anchor check: a stored block below the start with another hash. *)
Definition anchor_mismatch (storage : D) (req : BlockSyncRequest) : bool :=
  match known_block_hash req with
  | None => false
  | Some anchor_hash =>
      match fetch_block storage (to_be_bytes 8 (u64_saturating_sub (start_height req) 1)) with
      | Some block => negb (bool_decide (header_hash (blk_header block) = anchor_hash))
      | None => false
      end
  end.

Definition serve_block_sync (req : BlockSyncRequest) (storage : D) (genesis_hash : array 32)
    (highest_known_height : Z) : outcome (option SyncResponse) :=
  match validate_sync_request req with
  | Err _ => Ret None
  | Ok _ =>
      if anchor_mismatch storage req
      then Ret (Some (RBlockSync (mkSyncResp [] highest_known_height genesis_hash)))
      else
        let max := Z.to_nat (Z.min (max_blocks req) MAX_SYNC_BLOCKS) in
        blocks ← match direction req with
                 | Forward => collect_forward storage (start_height req) 0 max
                 | Backward => Ret (rev (collect_backward storage (start_height req) 0 max))
                 end;
        Ret (Some (RBlockSync (mkSyncResp blocks highest_known_height (compute_batch_hash genesis_hash blocks))))
  end.

Definition lookup_by_hash (storage : D) (hash : array 32) : option Block :=
  match st_get storage BLOCK_HASHES (array_bytes hash) with
  | Ok (Some height_bytes) =>
      if bool_decide (length height_bytes = 8%nat) then fetch_block storage height_bytes else None
  | _ => None
  end.

Definition serve_block_by_hash (req : BlockByHashRequest) (storage : D) : option SyncResponse :=
  match validate_by_hash_request req with
  | Err _ => None
  | Ok _ => Some (RBlockByHash (mkHashResp (omap (lookup_by_hash storage) (block_hashes req))))
  end.

Definition serve_sync_request (request : SyncRequest) (storage : D) (genesis_hash : array 32)
    (highest_known_height : Z) : outcome (option SyncResponse) :=
  match request with
  | BlockSync req => serve_block_sync req storage genesis_hash highest_known_height
  | BlockByHash req => Ret (serve_block_by_hash req storage)
  end.

(** ** The requester ([network/sync.rs]) *)

Definition MAX_CONSECUTIVE_FAILURES : Z := 10.
Definition BATCH_SIZE : Z := Z.min 100 MAX_SYNC_BLOCKS.

(** What a request ends in. *)
Inductive SyncEvent := NoResponse | TimedOut | Responded (r : SyncResponse).

(** The state of the loop; [sy_saved] are the cursors handed to [save]. *)
Record SyncState := mkSync {
  sy_cursor : SyncCursor;
  sy_storage : D;
  sy_failures : Z;
  sy_saved : list SyncCursor
}.

(** How an iteration leaves the loop body: on, or out with an error. *)
Inductive Flow := Continue | Fail (msg : string).

Definition next_request (cursor : SyncCursor) : outcome SyncRequest :=
  start ← u64_add (last_verified_height cursor) 1;
  Ret (BlockSync (mkSyncReq start BATCH_SIZE Forward (Some (last_verified_hash cursor)))).

(** [consecutive_failures += 1; if .. >= MAX {return Err}; continue] *)
Definition one_failure (st : SyncState) (msg : string) : SyncState * Flow :=
  let st := mkSync (sy_cursor st) (sy_storage st) (sy_failures st + 1) (sy_saved st) in
  (st, if MAX_CONSECUTIVE_FAILURES <=? sy_failures st then Fail msg else Continue).

(** The two failure paths that do not test the limit. *)
Definition soft_failure (st : SyncState) : SyncState * Flow :=
  (mkSync (sy_cursor st) (sy_storage st) (sy_failures st + 1) (sy_saved st), Continue).

Fixpoint continuous (prev_hash : array 32) (blocks : list Block) : bool :=
  match blocks with
  | [] => true
  | block :: blocks =>
      bool_decide (hdr_parent_hash (blk_header block) = prev_hash) && continuous (header_hash (blk_header block)) blocks
  end.

Definition put_block (storage : D) (block : Block) : D * Result unit :=
  st_put storage BLOCKS (to_be_bytes 8 (hdr_height (blk_header block))) (enc sc_block block).

(** A batch that passed the checks: store it, advance, save. *)
Definition accept_batch (st : SyncState) (blocks : list Block) (last_block : Block) : outcome (SyncState * Flow) :=
  match for_each put_block (sy_storage st) blocks with
  | (storage, Err _) =>
      Ret (mkSync (sy_cursor st) storage (sy_failures st) (sy_saved st), Fail "sync: storage error"%string)
  | (storage, Ok _) =>
      cursor ← advance (sy_cursor st) (hdr_height (blk_header last_block)) (header_hash (blk_header last_block));
      Ret (mkSync cursor storage 0 (sy_saved st ++ [cursor]), Continue)
  end.

Definition sync_step (st : SyncState) (ev : SyncEvent) : outcome (SyncState * Flow) :=
  match ev with
  | NoResponse => Ret (one_failure st "sync: too many consecutive failures"%string)
  | TimedOut => Ret (one_failure st "sync: too many consecutive timeouts"%string)
  | Responded (RBlockByHash _) => Ret (soft_failure st)
  | Responded (RBlockSync bsr) =>
      match last (rs_blocks bsr) with
      | None => Ret (one_failure st "sync: peer returned empty batches"%string)
      | Some last_block =>
          if negb (bool_decide (compute_batch_hash (last_verified_hash (sy_cursor st)) (rs_blocks bsr) = rs_batch_hash bsr))
          then Ret (one_failure st "sync: batch hash mismatch"%string)
          else if negb (continuous (last_verified_hash (sy_cursor st)) (rs_blocks bsr))
          then Ret (soft_failure st)
          else accept_batch st (rs_blocks bsr) last_block
      end
  end.

(** [while cursor.gap() > 0 {..}] on the events of the run; the loop waits when
    they are used up. *)
Fixpoint sync_run (st : SyncState) (events : list SyncEvent) : outcome (SyncState * option (result string unit)) :=
  if gap (sy_cursor st) =? 0 then Ret (st, Some (Ok tt))
  else
    match events with
    | [] => Ret (st, None)
    | ev :: events =>
        '(st, flow) ← sync_step st ev;
        match flow with
        | Fail msg => Ret (st, Some (Err msg))
        | Continue => sync_run st events
        end
    end.

(** The start of [run_sync_loop], once a peer has reported its tip. *)
Definition start_sync (cursor : SyncCursor) (tip_height : Z) (storage : D) (events : list SyncEvent) :
    outcome (SyncState * option (result string unit)) :=
  if tip_height <=? last_verified_height cursor then Ret (mkSync cursor storage 0 [], Some (Ok tt))
  else sync_run (mkSync (set_target cursor tip_height) storage 0 []) events.
End Store.
End Sync.

(** ** Serving *)

Section Serving.
Context `{BuildProfile} `{Blake3} `{Scale}.
Context {D : Type} `{StorageOk D} `{!StorageReliable D}.

Lemma fetch_block_stored d h : fetch_block d (to_be_bytes 8 h) = stored_block d h.
Proof.
  unfold fetch_block, stored_block, row.
  destruct (st_get_total d BLOCKS (to_be_bytes 8 h) ltac:(auto with tables)) as [o Hg]. rewrite Hg.
  apply st_get_view in Hg as ->. by destruct (_ !! _).
Qed.

(** [l] is the run of stored blocks at [f 0, f 1, ..], cut at [n] or at the first gap. *)
Definition run_of (d : D) (f : Z -> Z) (n : nat) (l : list Block) : Prop :=
  (length l <= n)%nat /\
  (forall i b, l !! i = Some b -> stored_block d (f (Z.of_nat i)) = Some b) /\
  ((length l < n)%nat -> stored_block d (f (Z.of_nat (length l))) = None).

Lemma run_of_cons d f n b l : stored_block d (f 0) = Some b -> run_of d (fun i => f (i + 1)) n l ->
  run_of d f (S n) (b :: l).
Proof.
  intros Hb (Hl & Hi & Hend). split; [simpl; lia|]. split.
  - intros [|i] c; simpl; [intros [= <-]; done|]. intros Hc. apply Hi in Hc.
    by replace (Z.of_nat (S i)) with (Z.of_nat i + 1) by lia.
  - intros Hn. simpl in *. replace (Z.of_nat (S (length l))) with (Z.of_nat (length l) + 1) by lia. apply Hend. lia.
Qed.

Lemma run_of_nil d f n : ((0 < n)%nat -> stored_block d (f 0) = None) -> run_of d f n [].
Proof. intros Hn. split; [simpl; lia|]. split; [done|]. intros Hlt. apply Hn. simpl in Hlt. lia. Qed.

Lemma run_of_ext d f g n l : (forall i, f i = g i) -> run_of d f n l -> run_of d g n l.
Proof. intros E (? & ? & ?). unfold run_of. setoid_rewrite <- E. done. Qed.

Lemma collect_forward_run d start offset n : 0 <= start -> 0 <= offset -> start + offset + Z.of_nat n <= W64 ->
  exists l, collect_forward d start offset n = Ret l /\ run_of d (fun i => start + offset + i) n l.
Proof.
  revert offset. induction n as [|n IH]; intros offset Hs Ho Hw.
  - exists []. split; [done|]. apply run_of_nil. lia.
  - cbn [collect_forward]. rewrite u64_add_ok by lia. cbn [mbind outcome_bind]. rewrite fetch_block_stored.
    destruct (stored_block d (start + offset)) as [b|] eqn:Hb.
    + destruct (IH (offset + 1)) as (l & -> & Hl); [lia..|]. exists (b :: l). split; [done|].
      apply run_of_cons; [by rewrite Z.add_0_r|]. eapply run_of_ext; [|exact Hl]. intros i. simpl. lia.
    + exists []. split; [done|]. apply run_of_nil. intros _. by rewrite Z.add_0_r.
Qed.

(** What the responder serves.  For a request within the limits whose anchor is
    not contradicted, the forward answer is the longest run of stored blocks from
    the start height, up to the requested number, with the batch hash over them; a
    contradicted anchor gives an empty batch, a bad limit gives no answer; and the
    responder never panics while the heights fit. *)
Theorem serve_forward_correct (d : D) (req : BlockSyncRequest) (g : array 32) (tip : Z)
    (Hdir : direction req = Forward) (Hstart : 0 <= start_height req)
    (Hroom : start_height req + Z.max 0 (max_blocks req) <= W64) (Hmax : 0 <= max_blocks req) :
  exists r, serve_sync_request (BlockSync req) d g tip = Ret r /\
  (~ (1 <= max_blocks req <= 500) -> r = None) /\
  (1 <= max_blocks req <= 500 -> exists blocks,
     r = Some (RBlockSync (mkSyncResp blocks tip (compute_batch_hash g blocks))) /\
     ((exists a b, known_block_hash req = Some a /\ stored_block d (u64_saturating_sub (start_height req) 1) = Some b /\
         header_hash (blk_header b) <> a) -> blocks = []) /\
     (~ (exists a b, known_block_hash req = Some a /\ stored_block d (u64_saturating_sub (start_height req) 1) = Some b /\
         header_hash (blk_header b) <> a) ->
        run_of d (fun i => start_height req + i) (Z.to_nat (max_blocks req)) blocks)).
Proof.
  cbn [serve_sync_request]. unfold serve_block_sync, validate_sync_request, MAX_SYNC_BLOCKS.
  destruct (Z.eqb_spec (max_blocks req) 0) as [E0|E0]; simpl; [eexists; split; [done|]; split; [done|lia]|].
  destruct (Z.ltb_spec 500 (max_blocks req)) as [E1|E1]; simpl; [eexists; split; [done|]; split; [done|lia]|].
  assert (anchor_mismatch d req = true <-> exists a b, known_block_hash req = Some a /\
    stored_block d (u64_saturating_sub (start_height req) 1) = Some b /\ header_hash (blk_header b) <> a) as Ha.
  { unfold anchor_mismatch. destruct (known_block_hash req) as [a|]; [|naive_solver]. rewrite fetch_block_stored.
    destruct (stored_block d _) as [b|]; [|naive_solver]. rewrite negb_true_iff, bool_decide_eq_false. naive_solver. }
  destruct (anchor_mismatch d req).
  - eexists. split; [done|]. split; [lia|]. intros _. exists []. split; [done|]. split; [done|]. naive_solver.
  - rewrite Hdir, Z.min_l by lia. destruct (collect_forward_run d (start_height req) 0 (Z.to_nat (max_blocks req)))
      as (l & -> & Hl); [lia..|]. cbn [mbind outcome_bind]. eexists. split; [done|]. split; [lia|]. intros _.
    exists l. split; [done|]. split; [naive_solver|]. intros _. eapply run_of_ext; [|exact Hl]. intros i. simpl. lia.
Qed.
End Serving.

(** ** Accepting a batch *)

Section Accepting.
Context `{BuildProfile} `{Blake3} `{Scale}.
Context {D : Type} `{StorageOk D}.

(** Consecutive blocks name each other's hash, from an anchor on. *)
Fixpoint chained (prev : array 32) (blocks : list Block) : Prop :=
  match blocks with
  | [] => True
  | b :: blocks => hdr_parent_hash (blk_header b) = prev /\ chained (header_hash (blk_header b)) blocks
  end.

Lemma continuous_iff prev blocks : continuous prev blocks = true <-> chained prev blocks.
Proof.
  revert prev. induction blocks as [|b blocks IH]; intros prev; simpl; [done|].
  rewrite andb_true_iff, bool_decide_eq_true, IH. done.
Qed.

(** The frontier of the cursor is a stored block. *)
Definition frontier_stored (st : SyncState (D := D)) : Prop :=
  exists b, row (sy_storage st) (last_verified_height (sy_cursor st)) = Some (enc sc_block b) /\
  last_verified_hash (sy_cursor st) = header_hash (blk_header b).

Lemma put_blocks_last d blocks b d' : last blocks = Some b -> for_each put_block d blocks = (d', Ok tt) ->
  row d' (hdr_height (blk_header b)) = Some (enc sc_block b).
Proof.
  revert d. induction blocks as [|x blocks IH]; intros d Hl E; [done|]. cbn [for_each] in E.
  destruct (put_block d x) as [d1 [[]|e]] eqn:E1; [|done]. cbn [st_bind] in E.
  destruct blocks as [|y blocks].
  - simpl in Hl, E. simplify_eq. by apply row_put_eq in E1.
  - apply (IH d1); [done|exact E].
Qed.

Lemma for_each_put_block_err d blocks t' k : t' <> BLOCKS ->
  st_view (for_each put_block d blocks).1 t' !! k = st_view d t' !! k.
Proof.
  intros Ht. apply (for_each_inv (fun d' => st_view d' t' !! k = st_view d t' !! k)); [|done].
  intros d' b E. unfold put_block. destruct (st_put d' BLOCKS _ _) eqn:Ep. simpl.
  rewrite (st_put_other _ _ _ _ _ _ t' k Ep); [done|by left].
Qed.

(** A step that only counts a failure. *)
Ltac reject :=
  split; [split; [discriminate|intros (?&?&?&([= <-]&?&?&?)&?&?); (congruence || intuition discriminate)]|];
  intros ? ? Est; left; unfold one_failure, soft_failure in Est; by simplify_eq.

(** Only the blocks table is written. *)
Lemma sync_step_tables (st st' : SyncState (D := D)) (ev : SyncEvent) flow t k : sync_step st ev = Ret (st', flow) -> t <> BLOCKS ->
  st_view (sy_storage st') t !! k = st_view (sy_storage st) t !! k.
Proof.
  intros E Ht. destruct ev as [| |[bsr|r]]; cbn [sync_step] in E; unfold one_failure, soft_failure in E; try by simplify_eq.
  destruct (last (rs_blocks bsr)) as [b|]; [|by simplify_eq]. do 2 (case_match; [by simplify_eq|]). unfold accept_batch in E.
  pose proof (for_each_put_block_err (sy_storage st) (rs_blocks bsr) t k) as Hother.
  destruct (for_each put_block (sy_storage st) (rs_blocks bsr)) as [d' [[]|e]]; cbn [fst] in Hother; [|simplify_eq; by apply Hother].
  apply bind_Ret_inv in E as (cursor & _ & E). simplify_eq. by apply Hother.
Qed.

(** C24: the requester only moves along hash-linked batches.  A step that returns
    either leaves the cursor where it is, or it met a non-empty batch with the
    right batch hash whose blocks are linked from the old frontier; then the
    cursor stands at the last block of the batch, strictly higher than before and
    stored under its height.  Only the blocks table is written, and only in that
    case or when a write fails half-way.  The step panics exactly when such a
    batch, written completely, ends at a height not above the frontier. *)
Theorem sync_step_sound (st : SyncState (D := D)) (ev : SyncEvent) :
  let good bsr b := ev = Responded (RBlockSync bsr) /\ last (rs_blocks bsr) = Some b /\
    compute_batch_hash (last_verified_hash (sy_cursor st)) (rs_blocks bsr) = rs_batch_hash bsr /\
    chained (last_verified_hash (sy_cursor st)) (rs_blocks bsr) in
  (sync_step st ev = Panic <-> exists bsr b d', good bsr b /\
     for_each put_block (sy_storage st) (rs_blocks bsr) = (d', Ok tt) /\
     hdr_height (blk_header b) <= last_verified_height (sy_cursor st)) /\
  (forall st' flow, sync_step st ev = Ret (st', flow) ->
     (sy_cursor st' = sy_cursor st /\ (flow = Continue -> sy_storage st' = sy_storage st)) \/
     (exists bsr b, good bsr b /\ flow = Continue /\ frontier_stored st' /\ sy_failures st' = 0 /\
        last_verified_height (sy_cursor st') = hdr_height (blk_header b) /\
        last_verified_height (sy_cursor st) < last_verified_height (sy_cursor st'))) /\
  (forall st' flow t k, sync_step st ev = Ret (st', flow) -> t <> BLOCKS ->
     st_view (sy_storage st') t !! k = st_view (sy_storage st) t !! k).
Proof.
  intros good. apply and_assoc. split; [|intros; by eapply sync_step_tables].
  destruct ev as [| |[bsr|r]]; simpl; [reject..| |reject].
  destruct (last (rs_blocks bsr)) as [b|] eqn:Hlast; [|reject].
  destruct (decide (compute_batch_hash (last_verified_hash (sy_cursor st)) (rs_blocks bsr) = rs_batch_hash bsr)) as [Eh|Eh];
    [rewrite bool_decide_eq_true_2 by done|rewrite bool_decide_eq_false_2 by done]; cbn [negb]; [|reject].
  pose proof (continuous_iff (last_verified_hash (sy_cursor st)) (rs_blocks bsr)) as Hc.
  destruct (continuous (last_verified_hash (sy_cursor st)) (rs_blocks bsr)); cbn [negb]; [|reject].
  assert (chained (last_verified_hash (sy_cursor st)) (rs_blocks bsr)) as Hch by tauto. unfold accept_batch.
  destruct (for_each put_block (sy_storage st) (rs_blocks bsr)) as [d' [[]|e]] eqn:Ef.
  2:{ split; [split; [done|intros (?&?&?&([= <-]&_)&?&_); congruence]|]. intros st' flow E; left; simplify_eq; naive_solver. }
  unfold advance, assert_. destruct (Z.ltb_spec (last_verified_height (sy_cursor st)) (hdr_height (blk_header b))) as [Hlt|Hge];
    cbn [mbind outcome_bind].
  - split; [split; [done|intros (?&?&?&([= <-]&?&_)&_&?); simplify_eq; lia]|].
    intros st' flow E. simplify_eq. right. exists bsr, b. split; [done|]. split; [done|]. split; [|done].
    exists b. split; [|done]. by apply (put_blocks_last _ _ _ _ Hlast Ef).
  - split; [split; [|done]; intros _; exists bsr, b, d'; done|]. intros; done.
Qed.
End Accepting.

(** ** Termination of the catch-up loop *)

Section Termination.
Context `{BuildProfile} `{Blake3} `{Scale}.
Context {D : Type} `{StorageEngine D}.

(** An answer that is counted as a failure without a test of the limit. *)
Definition soft_answer (st : SyncState (D := D)) (ev : SyncEvent) : bool :=
  match ev with
  | Responded (RBlockByHash _) => true
  | Responded (RBlockSync bsr) =>
      let anchor := last_verified_hash (sy_cursor st) in
      bool_decide (rs_blocks bsr <> []) && bool_decide (compute_batch_hash anchor (rs_blocks bsr) = rs_batch_hash bsr) &&
      negb (continuous anchor (rs_blocks bsr))
  | _ => false
  end.

(** How many of them a run meets. *)
Fixpoint soft_count (st : SyncState (D := D)) (events : list SyncEvent) : Z :=
  if gap (sy_cursor st) =? 0 then 0
  else
    match events with
    | [] => 0
    | ev :: events =>
        match sync_step st ev with
        | Ret (st', Continue) => (if soft_answer st ev then 1 else 0) + soft_count st' events
        | _ => 0
        end
    end.

Definition sync_measure (st : SyncState (D := D)) : Z :=
  11 * gap (sy_cursor st) + Z.max 0 (MAX_CONSECUTIVE_FAILURES - sy_failures st).

Lemma one_failure_measure st msg st' : one_failure (D := D) st msg = (st', Continue) -> 0 <= sy_failures st ->
  sync_measure st' + 1 <= sync_measure st /\ 0 <= sy_failures st'.
Proof.
  unfold one_failure. cbn [sy_failures]. destruct (Z.leb_spec MAX_CONSECUTIVE_FAILURES (sy_failures st + 1)) as [|Hlt]; [intros E; discriminate E|].
  intros [= <-] Hf. unfold sync_measure. simpl. lia.
Qed.

Lemma soft_failure_measure st st' : soft_failure (D := D) st = (st', Continue) -> 0 <= sy_failures st ->
  sync_measure st' <= sync_measure st /\ 0 <= sy_failures st'.
Proof. unfold soft_failure. intros [= <-] Hf. unfold sync_measure. simpl. lia. Qed.

(** An iteration that goes on lowers the measure, unless the answer was soft. *)
Lemma sync_step_measure st ev st' : sync_step st ev = Ret (st', Continue) -> gap (sy_cursor st) <> 0 ->
  0 <= sy_failures st ->
  sync_measure st' + 1 <= sync_measure st + (if soft_answer st ev then 1 else 0) /\ 0 <= sy_failures st'.
Proof.
  intros E Hg Hf.
  destruct ev as [| |[bsr|r]]; cbn [sync_step soft_answer] in E |- *.
  - apply Ret_inj in E. apply one_failure_measure in E; [lia|done].
  - apply Ret_inj in E. apply one_failure_measure in E; [lia|done].
  - destruct (last (rs_blocks bsr)) as [b|] eqn:Hlast.
    2:{ apply Ret_inj in E. apply one_failure_measure in E; [|done]. case_match; lia. }
    rewrite (bool_decide_eq_true_2 (rs_blocks bsr <> [])) by (intros El; by rewrite El in Hlast).
    case_bool_decide as Eh; cbn [negb andb] in *; [|apply Ret_inj in E; apply one_failure_measure in E; [lia|done]].
    destruct (continuous _ _); cbn [negb] in *; [|apply Ret_inj in E; apply soft_failure_measure in E; [lia|done]].
    unfold accept_batch in E. destruct (for_each put_block _ _) as [d' [[]|e]]; [|done].
    apply bind_Ret_inv in E as (cursor & Ec & [= <-]). unfold advance, assert_ in Ec.
    destruct (Z.ltb_spec (last_verified_height (sy_cursor st)) (hdr_height (blk_header b))) as [Hlt|]; [|done].
    injection Ec as <-. unfold sync_measure, gap, u64_saturating_sub, MAX_CONSECUTIVE_FAILURES in *. simpl. lia.
  - apply Ret_inj in E. apply soft_failure_measure in E; [lia|done].
Qed.

(** C34: when the catch-up loop ends.  Every request that ends in anything but a soft
    answer brings the loop closer to its end: with [gap] blocks to go it can use up
    at most [11 * gap + 10] of them, so a longer run has finished, failed or
    panicked.  Soft answers (of the other kind, or a batch with the right hash
    whose blocks do not link) are counted as failures but never tested against the
    limit: a peer that gives nothing else keeps the loop going for ever. *)
Theorem sync_terminates (st : SyncState (D := D)) (Hf : 0 <= sy_failures st) :
  (forall events, 11 * gap (sy_cursor st) + 10 + soft_count st events < Z.of_nat (length events) ->
     forall st', sync_run st events <> Ret (st', None)) /\
  (gap (sy_cursor st) <> 0 -> forall k r,
     sync_run st (List.repeat (Responded (RBlockByHash r)) k) =
       Ret (mkSync (sy_cursor st) (sy_storage st) (sy_failures st + Z.of_nat k) (sy_saved st), None)).
Proof.
  split.
  - assert (forall events st st', 0 <= sy_failures st -> sync_run st events = Ret (st', None) ->
      Z.of_nat (length events) <= sync_measure st + soft_count st events) as Hrun.
    { clear st Hf. induction events as [|ev events IH]; intros st st' Hf E; cbn [sync_run soft_count length] in *;
        (destruct (Z.eqb_spec (gap (sy_cursor st)) 0) as [|Hg]; [done|]).
      - unfold sync_measure, gap, u64_saturating_sub. lia.
      - apply bind_Ret_inv in E as ([st1 [|msg]] & Es & E); [|done]. rewrite Es.
        destruct (sync_step_measure _ _ _ Es Hg Hf) as [Hm Hf1]. apply IH in E; [|done]. lia. }
    intros events Hlen st' E. apply Hrun in E; [|done]. unfold sync_measure, MAX_CONSECUTIVE_FAILURES in E. lia.
  - intros Hg k r. revert st Hf Hg. induction k as [|k IH]; intros st Hf Hg; cbn [List.repeat sync_run];
      rewrite (proj2 (Z.eqb_neq _ _)) by done.
    + rewrite Z.add_0_r. by destruct st.
    + cbn [sync_step mbind outcome_bind soft_failure]. rewrite IH by (cbn [sy_failures sy_cursor]; (done || lia)).
      cbn [sy_cursor sy_storage sy_failures sy_saved]. do 3 f_equal. lia.
Qed.
End Termination.

(** ** Syncing from honest peers *)

Section Honest.
Context `{BuildProfile} `{Blake3} `{Scale}.
Context {D : Type} `{StorageOk D} `{!StorageReliable D}.

(** The batch hash input of an anchor and a batch. *)
Definition batch_input (anchor : array 32) (blocks : list Block) : bytes :=
  array_bytes anchor ++ flat_map (enc sc_block) blocks.

(** The honest answer of the store [d] to the next request of a cursor. *)
Definition honest_response (d : D) (cursor : SyncCursor) (g : array 32) (tip : Z) : outcome (option SyncResponse) :=
  req ← next_request cursor; serve_sync_request req d g tip.

(** A peer on the same network: it answers [r], has the block below the requested
    range, and no hash in play collides. *)
Definition honest (cursor : SyncCursor) (g : array 32) (d : D) (r : SyncResponse) : Prop :=
  exists tip b, honest_response d cursor g tip = Ret (Some r) /\
  stored_block d (last_verified_height cursor) = Some b /\ header_hash (blk_header b) <> g /\
  forall blocks, r = RBlockSync (mkSyncResp blocks tip (compute_batch_hash g blocks)) ->
    collision_free (fun x => x = batch_input g blocks \/ x = batch_input (last_verified_hash cursor) blocks).

Lemma honest_rejected (st : SyncState (D := D)) g d r :
  0 <= last_verified_height (sy_cursor st) < U64_MAX -> honest (sy_cursor st) g d r ->
  exists msg, sync_step st (Responded r) = Ret (one_failure st msg).
Proof.
  intros Hu (tip & b & Hresp & Hb & Hg & Hcf). unfold honest_response, next_request in Hresp.
  apply bind_Ret_inv in Hresp as (req & Hreq & Hresp). apply bind_Ret_inv in Hreq as (start & Hstart & Hreq).
  simplify_eq. cbn [serve_sync_request] in Hresp. unfold serve_block_sync in Hresp.
  destruct (validate_sync_request _); [|done]. unfold anchor_mismatch in Hresp.
  cbn [known_block_hash start_height direction] in Hresp.
  unfold U64_MAX in Hu. rewrite u64_add_ok in Hstart by lia. injection Hstart as <-.
  replace (u64_saturating_sub (last_verified_height (sy_cursor st) + 1) 1) with (last_verified_height (sy_cursor st)) in Hresp
    by (unfold u64_saturating_sub; lia).
  rewrite fetch_block_stored, Hb in Hresp.
  destruct (decide (header_hash (blk_header b) = last_verified_hash (sy_cursor st))) as [Ea|Ea];
    [rewrite bool_decide_eq_true_2 in Hresp by done|rewrite bool_decide_eq_false_2 in Hresp by done]; cbn [negb] in Hresp.
  - apply bind_Ret_inv in Hresp as (blocks & _ & Hresp). simplify_eq. simpl.
    destruct (last blocks) as [l|] eqn:Hl; [|by eexists]. specialize (Hcf blocks eq_refl).
    rewrite bool_decide_eq_false_2; [by eexists|]. unfold compute_batch_hash.
    rewrite bool_decide_eq_false_2 by (intros ->; done). intros E. apply Hcf in E; [|by right|by left].
    unfold batch_input in E. apply app_inv_tail, array_eq in E. congruence.
  - simplify_eq. simpl. by eexists.
Qed.

(** The catch-up loop cannot catch up from honest peers.  The responder hashes
    a batch from the hash of the genesis file, the requester from its own frontier,
    and the anchor check compares with the hash of a block header: so every honest
    answer is rejected, and after ten of them the loop gives up with an error, its
    cursor and its store as they were. *)
Theorem honest_sync_fails (cursor : SyncCursor) (tip : Z) (storage : D) (g : array 32) (peers : list (D * SyncResponse))
    (Hu : 0 <= last_verified_height cursor) (Htip : is_u64 tip) (Hbehind : last_verified_height cursor < tip)
    (Hpeers : Forall (fun p => honest (set_target cursor tip) g p.1 p.2) peers)
    (Hmany : MAX_CONSECUTIVE_FAILURES <= Z.of_nat (length peers)) :
  exists st' msg, start_sync cursor tip storage (map (fun p => Responded p.2) peers) = Ret (st', Some (Err msg)) /\
  sy_storage st' = storage /\ sy_cursor st' = set_target cursor tip /\ sy_failures st' = MAX_CONSECUTIVE_FAILURES /\
  sy_saved st' = [].
Proof.
  unfold start_sync. rewrite (proj2 (Z.leb_gt _ _) Hbehind).
  assert (forall st, sy_cursor st = set_target cursor tip -> sy_storage st = storage -> sy_saved st = [] ->
    sy_failures st < MAX_CONSECUTIVE_FAILURES -> MAX_CONSECUTIVE_FAILURES <= sy_failures st + Z.of_nat (length peers) ->
    exists st' msg, sync_run st (map (fun p => Responded p.2) peers) = Ret (st', Some (Err msg)) /\
    sy_storage st' = storage /\ sy_cursor st' = set_target cursor tip /\ sy_failures st' = MAX_CONSECUTIVE_FAILURES /\
    sy_saved st' = []) as Hgen.
  2:{ by apply Hgen. }
  clear Hmany. induction Hpeers as [|[d r] peers Hr Hpeers IH]; intros st Hc Hd Hs Hlt Hm; [simpl in Hm; lia|].
  cbn [map sync_run snd]. cbn [length] in Hm. simpl in Hr.
  rewrite Hc. unfold gap. cbn [target_height last_verified_height set_target].
  rewrite (proj2 (Z.eqb_neq _ _)) by (unfold u64_saturating_sub; lia). rewrite <- Hc in Hr.
  destruct (honest_rejected st g d r) as [msg ->]; [|done|].
  { rewrite Hc. cbn [last_verified_height set_target]. unfold is_u64, U64_MAX in *. lia. }
  unfold one_failure. cbn [mbind outcome_bind sy_cursor sy_storage sy_failures sy_saved].
  destruct (Z.leb_spec MAX_CONSECUTIVE_FAILURES (sy_failures st + 1)) as [Hge|Hlt'].
  - eexists _, msg. split; [done|]. cbn [sy_storage sy_cursor sy_failures sy_saved]. split; [done|]. split; [done|].
    split; [lia|done].
  - apply IH; cbn [sy_storage sy_cursor sy_failures sy_saved]; (done || lia).
Qed.
End Honest.

(** ** Instances *)

Import ToyInstances MemStorage.

Definition chain_store : RedbEngine := n_storage after_ex.
Definition forward_req (a : option (array 32)) : BlockSyncRequest := mkSyncReq 1 10 Forward a.

Lemma serve_forward_correct_witness : exists blocks,
  serve_sync_request (BlockSync (forward_req None)) chain_store (array_repeat 32 x09) 2 =
    Ret (Some (RBlockSync (mkSyncResp blocks 2 (compute_batch_hash (array_repeat 32 x09) blocks)))) /\
  run_of chain_store (fun i => 1 + i) 10 blocks.
Proof.
  destruct (serve_forward_correct chain_store (forward_req None) (array_repeat 32 x09) 2) as (r & E & _ & Hr);
    [reflexivity|discriminate|discriminate|discriminate|].
  destruct Hr as (blocks & -> & _ & Hrun); [split; discriminate|]. exists blocks. split; [exact E|]. apply Hrun.
  intros (a & b & Ha & _). discriminate Ha.
Defined.

(** A peer at genesis, asked by a node that knows the hash of the genesis file. *)
Definition file_hash : array 32 := array_repeat 32 x09.
Definition cursor_ex : SyncCursor := SyncCursor_new file_hash.
Definition peers_ex : list (RedbEngine * SyncResponse) :=
  List.repeat (loaded_ex, RBlockSync (mkSyncResp [] 4 file_hash)) 10.

Lemma peer_honest : honest (set_target cursor_ex 4) file_hash loaded_ex (RBlockSync (mkSyncResp [] 4 file_hash)).
Proof.
  exists 4, parent_ex. split; [vm_compute; reflexivity|]. split; [exact loaded_parent|]. split.
  - intros E. assert (bool_decide (header_hash (blk_header parent_ex) = file_hash) = false) as F by (vm_compute; reflexivity).
    rewrite (bool_decide_eq_true_2 _ E) in F. discriminate F.
  - intros blocks _ x y [-> | ->] [-> | ->] _; reflexivity.
Qed.

Lemma honest_sync_fails_witness : exists st' msg,
  start_sync cursor_ex 4 mem_new (map (fun p => Responded p.2) peers_ex) = Ret (st', Some (Err msg)) /\
  sy_failures st' = 10.
Proof.
  destruct (honest_sync_fails cursor_ex 4 mem_new file_hash peers_ex) as (st' & msg & E & _ & _ & Hf & _);
    [discriminate|split; [discriminate|reflexivity]|reflexivity| |discriminate|].
  - repeat (constructor; [exact peer_honest|]). constructor.
  - exists st', msg. split; [exact E|exact Hf].
Defined.

Lemma sync_terminates_witness : exists o,
  sync_run (mkSync (set_target cursor_ex 1) loaded_ex 0 []) (List.repeat TimedOut 22) = o /\ forall st', o <> Ret (st', None).
Proof.
  destruct (sync_terminates (mkSync (set_target cursor_ex 1) loaded_ex 0 [])) as [H _]; [discriminate|].
  eexists. split; [reflexivity|]. apply H. vm_compute. reflexivity.
Defined.
