(* ===== verification/Config.v ===== *)
(** * Node configuration ([config/mod.rs], [config/constants.rs], [node.rs], [main.rs])

    The configuration file's sections with their defaults, the overlay of the
    command line, the accessors, and the validation run at start-up.  Reading the
    file and the YAML and TOML parsers are arguments; a Rust [String] is a
    [string], the display of a parser's error is cut. *)
From Stdlib Require Import Strings.Byte Strings.String.
From stdpp Require Import base gmap sets list strings countable sorting.
From Stdlib Require Import ZArith Lia.
From S2P Require Import Prelude Types.

(** ** Defaults ([config/constants.rs]) *)

Definition DEFAULT_P2P_PORT : Z := 30333.
Definition DEFAULT_RPC_PORT : Z := 9944.
Definition DEFAULT_REST_PORT : Z := 9933.
Definition DEFAULT_UNLOCK_TIMEOUT_SECS : Z := 20.
Definition DEFAULT_MAX_TX_PER_ACCOUNT : Z := 50.
Definition DEFAULT_STORAGE_MODE : string := "full".
Definition DEFAULT_COMPACT_ERAS : Z := 2.

Definition starts_with_slash (s : string) : bool := String.prefix "/" s.
Definition ends_with_slash (s : string) : bool :=
  bool_decide (String.get (String.length s - 1) s = String.get 0 "/").

(** [Path::join] of Unix paths: an absolute argument replaces the base. *)
Definition path_join (base part : string) : string :=
  if starts_with_slash part then part
  else if bool_decide (base = EmptyString) || ends_with_slash base then base ++ part
  else base ++ "/" ++ part.

(** The environment: [HOME] and [USERPROFILE]. *)
Record Env := mkEnv { env_home : option string; env_userprofile : option string }.

Definition home_dir (env : Env) : string :=
  match env_home env with
  | Some h => h
  | None => default "." (env_userprofile env)
  end.

Definition default_data_dir (env : Env) : string := path_join (path_join (home_dir env) ".mononium") "data".
Definition default_key_dir (env : Env) : string := path_join (path_join (home_dir env) ".mononium") "keys".
Definition default_config_dir (env : Env) : string := path_join (home_dir env) ".mononium".

(** ** Command line ([NodeArgs] of [main.rs], [CliOverrides]) *)

Record NodeArgs := mkNodeArgs {
  arg_config : option string;
  arg_genesis : option string;
  arg_key : option string;
  arg_key_file : option string;
  arg_observer : bool;
  arg_p2p_port : option Z;            (* u16 *)
  arg_rpc_port : option Z;
  arg_rest_port : option Z;
  arg_bootnode : list string;
  arg_data_dir : option string;
  arg_storage_mode : option string;
  arg_log_level : option string;
  arg_log_format : option string;
  arg_unlock_timeout : option Z       (* u64 *)
}.

Record CliOverrides := mkOverrides {
  cli_genesis : option string;
  cli_key : option string;
  cli_key_file : option string;
  cli_observer : option bool;
  cli_p2p_port : option Z;
  cli_rpc_port : option Z;
  cli_rest_port : option Z;
  cli_bootnodes : option (list string);
  cli_data_dir : option string;
  cli_storage_mode : option string;
  cli_compact_eras : option Z;        (* u32 *)
  cli_full_node_rpc : option (list string);
  cli_log_level : option string;
  cli_log_json : option bool;
  cli_unlock_timeout : option Z
}.

Definition build_cli_overrides (args : NodeArgs) : CliOverrides :=
  let bootnodes := if bool_decide (arg_bootnode args = []) then None else Some (arg_bootnode args) in
  mkOverrides (arg_genesis args) (arg_key args) (arg_key_file args)
    (if arg_observer args then Some true else None)
    (arg_p2p_port args) (arg_rpc_port args) (arg_rest_port args) bootnodes
    (arg_data_dir args) (arg_storage_mode args) None None (arg_log_level args)
    ((fun f => bool_decide (f = "json"%string)) <$> arg_log_format args) (arg_unlock_timeout args).

(** ** The configuration and its sections *)

Record NodeSection := mkNodeSection { ns_data_dir : option string; ns_unlock_timeout : option Z }.
Record CryptoSec := mkCryptoSec { cs_argon2_memory_mib : option Z; cs_argon2_iterations : option Z }.
Record NetworkSection := mkNetworkSection {
  net_p2p_port : option Z;
  net_rpc_port : option Z;
  net_rest_port : option Z;
  net_bootnodes : option (list string);
  net_enable_mdns : bool
}.
Record StorageSection := mkStorageSection {
  ss_mode : option string;
  ss_compact_eras : option Z;
  ss_full_node_rpc : option (list string)
}.
Record MempoolSection := mkMempoolSection { ms_max_tx_per_account : option Z }.
Record LogSection := mkLogSection { ls_level : option string; ls_json : option bool; ls_file : option string }.

Record NodeConfig := mkNodeConfig {
  key : option string;
  key_file : option string;
  observer : bool;
  genesis : option string;
  node : NodeSection;
  crypto : CryptoSec;
  network : NetworkSection;
  storage : StorageSection;
  mempool : MempoolSection;
  log : LogSection
}.

Definition NodeSection_default : NodeSection := mkNodeSection None None.
Definition CryptoSec_default : CryptoSec := mkCryptoSec None None.
Definition default_mdns : bool := true.
Definition NetworkSection_default : NetworkSection := mkNetworkSection None None None None true.
Definition StorageSection_default : StorageSection := mkStorageSection None None None.
Definition MempoolSection_default : MempoolSection := mkMempoolSection None.
Definition LogSection_default : LogSection := mkLogSection None None None.
Definition NodeConfig_default : NodeConfig :=
  mkNodeConfig None None false None NodeSection_default CryptoSec_default NetworkSection_default
    StorageSection_default MempoolSection_default LogSection_default.

(** [NodeConfig::load]: [file] is what [read_to_string] gave, [ext] the extension
    of the path, empty when it has none. *)
Class ConfigText := {
  yaml_from_str : string -> option NodeConfig;
  toml_from_str : string -> option NodeConfig
}.

Definition load `{ConfigText} (file : option string) (ext : string) : Result NodeConfig :=
  match file with
  | None => Err (Storage "cannot read config")
  | Some content =>
      if bool_decide (ext = "yaml") || bool_decide (ext = "yml")
      then ok_or (yaml_from_str content) (Storage "invalid YAML config")
      else if bool_decide (ext = "toml") then ok_or (toml_from_str content) (Storage "invalid TOML config")
      else Err (Storage ("unsupported config format: '." ++ ext ++ "' (expected .yaml, .yml, or .toml)"))
  end.

(** [if let Some(v) = cli { field = Some(v) }] *)
Definition over {A} (cli field : option A) : option A :=
  match cli with Some v => Some v | None => field end.

Definition merge_cli (self : NodeConfig) (cli : CliOverrides) : NodeConfig :=
  mkNodeConfig
    (over (cli_key cli) (key self))
    (over (cli_key_file cli) (key_file self))
    (default (observer self) (cli_observer cli))
    (over (cli_genesis cli) (genesis self))
    (mkNodeSection (over (cli_data_dir cli) (ns_data_dir (node self)))
                   (over (cli_unlock_timeout cli) (ns_unlock_timeout (node self))))
    (crypto self)
    (mkNetworkSection (over (cli_p2p_port cli) (net_p2p_port (network self)))
                      (over (cli_rpc_port cli) (net_rpc_port (network self)))
                      (over (cli_rest_port cli) (net_rest_port (network self)))
                      (over (cli_bootnodes cli) (net_bootnodes (network self)))
                      (net_enable_mdns (network self)))
    (mkStorageSection (over (cli_storage_mode cli) (ss_mode (storage self)))
                      (over (cli_compact_eras cli) (ss_compact_eras (storage self)))
                      (over (cli_full_node_rpc cli) (ss_full_node_rpc (storage self))))
    (mempool self)
    (mkLogSection (over (cli_log_level cli) (ls_level (log self)))
                  (over (cli_log_json cli) (ls_json (log self)))
                  (ls_file (log self))).

(** ** Accessors *)

Definition genesis_path (self : NodeConfig) : option string := genesis self.
Definition data_dir (env : Env) (self : NodeConfig) : string := default (default_data_dir env) (ns_data_dir (node self)).
Definition unlock_timeout (self : NodeConfig) : Z := default DEFAULT_UNLOCK_TIMEOUT_SECS (ns_unlock_timeout (node self)).
Definition p2p_port (self : NodeConfig) : Z := default DEFAULT_P2P_PORT (net_p2p_port (network self)).
Definition rpc_port (self : NodeConfig) : Z := default DEFAULT_RPC_PORT (net_rpc_port (network self)).
Definition rest_port (self : NodeConfig) : Z := default DEFAULT_REST_PORT (net_rest_port (network self)).
Definition bootnodes (self : NodeConfig) : list string := default [] (net_bootnodes (network self)).
Definition enable_mdns (self : NodeConfig) : bool := net_enable_mdns (network self).
Definition storage_mode (self : NodeConfig) : string := default DEFAULT_STORAGE_MODE (ss_mode (storage self)).
Definition compact_eras (self : NodeConfig) : Z := default DEFAULT_COMPACT_ERAS (ss_compact_eras (storage self)).
Definition full_node_rpc (self : NodeConfig) : list string := default [] (ss_full_node_rpc (storage self)).
Definition max_tx_per_account (self : NodeConfig) : Z := default DEFAULT_MAX_TX_PER_ACCOUNT (ms_max_tx_per_account (mempool self)).
Definition log_level (self : NodeConfig) : string := default "info" (ls_level (log self)).
Definition log_json (self : NodeConfig) : bool := default true (ls_json (log self)).
Definition log_file (self : NodeConfig) : option string := ls_file (log self).

(** ** Validation *)

(** The ports are formatted into the messages; their text is cut. *)
Definition validate_identity (self : NodeConfig) : Result unit :=
  match key self, key_file self, observer self with
  | None, None, false => Err (Storage "one of key, key_file, or observer must be set")
  | Some _, Some _, _ => Err (Storage "key and key_file are mutually exclusive")
  | _, _, true =>
      if bool_decide (is_Some (key self)) || bool_decide (is_Some (key_file self))
      then Err (Storage "observer cannot be combined with key or key_file") else Ok tt
  | _, _, _ => Ok tt
  end.

Definition validate (self : NodeConfig) : Result unit :=
  match validate_identity self with
  | Err e => Err e
  | Ok _ =>
      if bool_decide (genesis self = None)
      then Err (Storage "genesis path must be configured (use --genesis or config file)")
      else
        let p2p := p2p_port self in
        let rest := rest_port self in
        let rpc := rpc_port self in
        if negb (p2p =? 0) && (p2p =? rest) then Err (Storage "p2p_port and rest_port must differ")
        else if negb (p2p =? 0) && (p2p =? rpc) then Err (Storage "p2p_port and rpc_port must differ")
        else if negb (rest =? 0) && (rest =? rpc) then Err (Storage "rest_port and rpc_port must differ")
        else Ok tt
  end.

(** The configuration steps of [run_node]: load, overlay, validate.  [file] is
    the outcome of [NodeConfig::load] when a path is given. *)
Definition startup_config `{ConfigText} (args : NodeArgs) (file : option string) (ext : string) : Result NodeConfig :=
  match (match arg_config args with Some _ => load file ext | None => Ok NodeConfig_default end) with
  | Err e => Err e
  | Ok config =>
      let config := merge_cli config (build_cli_overrides args) in
      match validate config with Ok _ => Ok config | Err e => Err e end
  end.

(** ** Properties *)

(** How many identities a configuration names. *)
Definition identities (c : NodeConfig) : nat :=
  length (filter (fun b : bool => b) [bool_decide (is_Some (key c)); bool_decide (is_Some (key_file c)); observer c]).

(** Two listeners that both start use different ports. *)
Definition ports_distinct (c : NodeConfig) : Prop :=
  (p2p_port c <> 0 -> p2p_port c <> rest_port c) /\ (p2p_port c <> 0 -> p2p_port c <> rpc_port c) /\
  (rest_port c <> 0 -> rest_port c <> rpc_port c).

#[export] Instance ports_distinct_dec c : Decision (ports_distinct c).
Proof. unfold ports_distinct. apply _. Defined.

Lemma validate_identity_ok c : validate_identity c = Ok tt <-> identities c = 1%nat.
Proof. unfold validate_identity, identities. destruct (key c), (key_file c), (observer c); simpl; split; done. Qed.

Lemma validate_identity_err c e : validate_identity c = Err e -> identities c <> 1%nat.
Proof. intros E H. apply validate_identity_ok in H. congruence. Qed.

Lemma validate_ok c : validate c = Ok tt <->
  identities c = 1%nat /\ is_Some (genesis c) /\ ports_distinct c.
Proof.
  unfold validate. unfold ports_distinct. rewrite <- validate_identity_ok, <- not_eq_None_Some.
  destruct (validate_identity c) as [[]|e]; [|naive_solver].
  destruct (bool_decide_reflect (genesis c = None)) as [|Hg]; [naive_solver|].
  destruct (Z.eqb_spec (p2p_port c) 0), (Z.eqb_spec (rest_port c) 0), (Z.eqb_spec (p2p_port c) (rest_port c)),
    (Z.eqb_spec (p2p_port c) (rpc_port c)), (Z.eqb_spec (rest_port c) (rpc_port c)); simpl; naive_solver.
Qed.

(** The configuration the file gives: the default when no path is given. *)
Definition base_config `{ConfigText} (args : NodeArgs) (file : option string) (ext : string) (f : NodeConfig) : Prop :=
  match arg_config args with Some _ => load file ext = Ok f | None => f = NodeConfig_default end.

(** Start-up goes on exactly with a valid configuration: the file loads (the
    defaults stand in when none is given), and after the overlay exactly one of
    key, key file and observer is set, a genesis path is known, and no two of the
    three listeners share a port.  What the node then reads is the flag if given,
    else the file's value, else the default; the observer switch can be turned on
    by the flag and never off; the retention, mDNS and per-account limit come from
    the file alone. *)
Theorem startup_config_correct `{ConfigText} (env : Env) (args : NodeArgs) (file : option string) (ext : string) :
  (is_ok (startup_config args file ext) = true <->
     exists f, base_config args file ext f /\
       let c := merge_cli f (build_cli_overrides args) in
       identities c = 1%nat /\ is_Some (genesis c) /\ ports_distinct c) /\
  forall c, startup_config args file ext = Ok c ->
  exists f, base_config args file ext f /\
  identities c = 1%nat /\ is_Some (genesis_path c) /\ ports_distinct c /\
  observer c = arg_observer args || observer f /\
  genesis_path c = over (arg_genesis args) (genesis f) /\
  key_file c = over (arg_key_file args) (key_file f) /\
  data_dir env c = default (default (default_data_dir env) (ns_data_dir (node f))) (arg_data_dir args) /\
  p2p_port c = default (p2p_port f) (arg_p2p_port args) /\
  rpc_port c = default (rpc_port f) (arg_rpc_port args) /\
  rest_port c = default (rest_port f) (arg_rest_port args) /\
  bootnodes c = (if decide (arg_bootnode args = []) then bootnodes f else arg_bootnode args) /\
  storage_mode c = default (storage_mode f) (arg_storage_mode args) /\
  compact_eras c = compact_eras f /\ enable_mdns c = enable_mdns f /\ max_tx_per_account c = max_tx_per_account f.
Proof.
  unfold startup_config, base_config. 
  destruct (match arg_config args with Some _ => load file ext | None => Ok NodeConfig_default end) as [f|e] eqn:Ef.
  2:{ split; [|done]. split; [done|]. intros (f & Hf & _). destruct (arg_config args); congruence. }
  assert (match arg_config args with Some _ => load file ext = Ok f | None => f = NodeConfig_default end) as Hf
    by (destruct (arg_config args); congruence).
  pose proof (validate_ok (merge_cli f (build_cli_overrides args))) as Hv.
  destruct (validate _) as [[]|e].
  - destruct Hv as [(Hi & Hg & Hp) _]; [done|]. split; [split; [by exists f|done]|].
    intros c [= <-]. exists f. do 4 (split; [assumption|]). destruct args, f. simpl.
    unfold genesis_path, data_dir, p2p_port, rpc_port, rest_port, bootnodes, storage_mode. simpl.
    repeat match goal with |- context [over ?o _] => is_var o; destruct o end;
        (destruct (decide (arg_bootnode0 = [])) as [->|Hb]; [|rewrite (bool_decide_eq_false_2 _ Hb)]);
    destruct arg_observer0; done.
  - split; [|done]. split; [done|]. intros (f' & Hf' & Hc).
    assert (f' = f) as -> by (destruct (arg_config args); congruence). by apply Hv in Hc.
Qed.

(** ** Example: a validator started from a file, its REST port moved by a flag *)

#[local] Instance toy_config_text : ConfigText := {|
  yaml_from_str s := if bool_decide (s = "validator"%string)
    then Some (mkNodeConfig None (Some "val1"%string) false (Some "genesis.json"%string) NodeSection_default
                 CryptoSec_default (mkNetworkSection (Some 0) None (Some 9944) None false) StorageSection_default
                 MempoolSection_default LogSection_default)
    else None;
  toml_from_str _ := None
|}.

Definition args_ex (rest : option Z) : NodeArgs :=
  mkNodeArgs (Some "node.yaml"%string) None None None false None None rest [] (Some "/srv"%string) None None
    (Some "json"%string) None.

(** Without the flag the REST and RPC servers would share a port. *)
Example shared_port_rejected :
  startup_config (args_ex None) (Some "validator"%string) "yaml" = Err (Storage "rest_port and rpc_port must differ").
Proof. reflexivity. Qed.

Lemma startup_config_correct_witness : exists c,
  startup_config (args_ex (Some 8080)) (Some "validator"%string) "yaml" = Ok c /\ rest_port c = 8080 /\
  data_dir (mkEnv None None) c = "/srv"%string /\ p2p_port c = 0 /\ identities c = 1%nat.
Proof.
  destruct (startup_config_correct (mkEnv None None) (args_ex (Some 8080)) (Some "validator"%string) "yaml") as [_ H].
  eexists. split; [reflexivity|].
  destruct (H _ eq_refl) as (f & Hf & Hi & _ & _ & _ & _ & _ & Hd & Hp & _ & Hr & _).
  injection Hf as <-. split; [exact Hr|]. split; [exact Hd|]. split; [exact Hp|exact Hi].
Defined.
