(* ===== verification/Rest.v ===== *)
(** * The REST API of the node ([mononium-cli/src/node.rs])

    The handlers behind [build_router], each a function of the shared
    application state; a handler holds the lock on it from start to end.  JSON
    conversion of library types and the text forms of numbers are parameters;
    routing and transport are axum's.  Formatted error texts keep their constant
    part. *)
From Stdlib Require Import Strings.Byte Strings.String.
From stdpp Require Import base gmap sets list strings countable sorting.
From Stdlib Require Import ZArith Lia.
From S2P Require Import Prelude Types External Toy Trie Account State Ledger Refine Scenario Schedule Mempool Storage Genesis Finality Slashing Engine.

(** ** JSON values ([serde_json::Value]) *)

#[warnings="-register-all"]
Inductive Json :=
| JNull
| JBool (b : bool)
| JNumber (z : Z)
| JString (s : bytes)
| JArray (l : list Json)
| JObject (fields : list (string * Json)).

(** Derived serialisers, which may fail, and the text forms of [primitive-types]
    and of a derived [Debug]. *)
Class Serde := {
  block_to_value : Block -> option Json;
  header_to_value : BlockHeader -> option Json;
  u256_dec : Z -> bytes;                 (* [to_string()] *)
  u256_hex : Z -> bytes;                 (* [{:x}] *)
  status_debug : ValidatorStatus -> bytes (* [{:?}] *)
}.

(** [{:#x}] *)
Definition u256_hex_alt `{Serde} (z : Z) : bytes := str_0x ++ u256_hex z.

(** ** Application state and responses *)

Record AppState (D : Type) := mkApp {
  app_engine : D;
  app_state : StateMachine;
  app_mempool : Mempool;
  app_height : Z
}.
Arguments mkApp {_} _ _ _ _.
Arguments app_engine {_} _.
Arguments app_state {_} _.
Arguments app_mempool {_} _.
Arguments app_height {_} _.

Record HealthResponse := mkHealth { he_status : string; he_height : Z }.
Record BalanceResponse := mkBalance { br_address : bytes; br_balance : bytes; br_nonce : Z }.
Record ValidatorResponse := mkValidatorResp { vr_address : bytes; vr_exists : bool; vr_status : bytes; vr_stake : bytes }.
Record ValidatorInfo := mkValidatorInfo { vi_address : bytes; vi_stake : bytes }.
Record TxSubmitResponse := mkTxSubmit { ts_tx_hash : bytes; ts_status : string }.

(** [err_response(code, msg)] *)
Record ErrorResponse := mkError { er_code : Z; er_msg : string }.
Definition err_response (code : Z) (msg : string) : ErrorResponse := mkError code msg.
Abbreviation Response A := (result ErrorResponse A).

Section Handlers.
Context `{BuildProfile} `{Blake3} `{Scale} `{Hex} `{Serde}.

(** ** Reading blocks *)

Section Store.
Context {D : Type} `{StorageEngine D}.

Definition load_block_json (engine : D) (height : Z) : Result Json :=
  raw <-! (o <-! st_get engine BLOCKS (to_be_bytes 8 height); ok_or o (BlockNotFound height));
  block <-! ok_or (decode_all sc_block raw) (CodecError "block decode");
  ok_or (block_to_value block) (CodecError "block JSON").

(** [load_latest_height(..).unwrap_or(guard.current_height)] *)
Definition known_height (guard : AppState D) : outcome Z :=
  r ← load_latest_height (app_engine guard);
  Ret (match r with Ok h => h | Err _ => app_height guard end).

Definition health_handler (guard : AppState D) : outcome HealthResponse :=
  height ← known_height guard; Ret (mkHealth "ok" height).

Definition height_handler (guard : AppState D) : outcome Z := known_height guard.

Definition era_handler (guard : AppState D) : outcome Z :=
  height ← known_height guard; Ret (era_at_height height).

Definition genesis_handler (guard : AppState D) : bytes :=
  match st_get (app_engine guard) BLOCKS (to_be_bytes 8 0) with
  | Ok (Some raw) =>
      match decode_all sc_block raw with
      | Some block => hex_encode (array_bytes (header_hash (blk_header block)))
      | None => []
      end
  | _ => []
  end.

Definition validator_info (engine : D) (key : bytes) : option ValidatorInfo :=
  if negb (bool_decide (length key = 32%nat)) then None
  else
    match st_get engine VALIDATORS key with
    | Ok (Some raw) =>
        entry ← decode_all sc_entry raw;
        Some (mkValidatorInfo (hex_encode key) (u256_hex_alt (ve_stake entry)))
    | _ => None
    end.

Definition validators_handler (guard : AppState D) : list ValidatorInfo :=
  let keys := match st_list_keys (app_engine guard) VALIDATORS with Ok keys => keys | Err _ => [] end in
  omap (validator_info (app_engine guard)) keys.

Definition block_latest_handler (guard : AppState D) : outcome (Response Json) :=
  height ← known_height guard;
  if height =? 0 then Ret (Err (err_response 404 "no blocks yet"))
  else Ret (map_err (fun _ => err_response 500 "load error") (load_block_json (app_engine guard) height)).

Definition block_by_height_handler (guard : AppState D) (height : Z) : Response Json :=
  map_err (fun _ => err_response 404 "block not found") (load_block_json (app_engine guard) height).

(** The block of a key, if its header has the hash. *)
Definition block_with_hash (engine : D) (hash key : bytes) : option Block :=
  if negb (bool_decide (length key = 8%nat)) then None
  else
    match st_get engine BLOCKS key with
    | Ok (Some raw) =>
        block ← decode_all sc_block raw;
        if bool_decide (array_bytes (header_hash (blk_header block)) = hash) then Some block else None
    | _ => None
    end.

(** The first key whose block has the hash; its conversion is unwrapped. *)
Fixpoint search_hash (engine : D) (hash : bytes) (keys : list bytes) : outcome (Response Json) :=
  match keys with
  | [] => Ret (Err (err_response 404 "block not found by hash"))
  | key :: keys =>
      match block_with_hash engine hash key with
      | Some block => json ← unwrap (block_to_value block); Ret (Ok json)
      | None => search_hash engine hash keys
      end
  end.

Definition block_by_hash_handler (guard : AppState D) (hash_hex : bytes) : outcome (Response Json) :=
  match hex_decode (trim_start_0x hash_hex) with
  | None => Ret (Err (err_response 400 "invalid hex hash"))
  | Some hash =>
      if negb (bool_decide (length hash = 32%nat)) then Ret (Err (err_response 400 "hash must be 32 bytes"))
      else
        match st_list_keys (app_engine guard) BLOCKS with
        | Err _ => Ret (Err (err_response 500 "storage error"))
        | Ok keys => search_hash (app_engine guard) hash keys
        end
  end.
End Store.

(** ** Reading the state machine *)

Context {D : Type}.

Definition path_address (address_str : bytes) : Response Address :=
  raw <-! map_err (fun _ => err_response 400 "invalid address") (parse_raw_address address_str);
  Ok (address_from raw).

Definition balance_handler (guard : AppState D) (address_str : bytes) : outcome (Response BalanceResponse) :=
  match path_address address_str with
  | Err e => Ret (Err e)
  | Ok addr =>
      o ← get_account (app_state guard) addr;
      Ret (Ok (match o with
               | Some acct => mkBalance address_str (u256_dec (balance acct)) (nonce acct)
               | None => mkBalance address_str [x30] 0
               end))
  end.

Definition nonce_handler (guard : AppState D) (address_str : bytes) : outcome (Response Z) :=
  match path_address address_str with
  | Err e => Ret (Err e)
  | Ok addr => o ← get_account (app_state guard) addr; Ret (Ok (from_option nonce 0 o))
  end.

Definition validator_handler (guard : AppState D) (address_str : bytes) : Response ValidatorResponse :=
  addr <-! path_address address_str;
  Ok (match get_validator (app_state guard) addr with
      | Some v => mkValidatorResp address_str true (status_debug (ve_status v)) (u256_dec (ve_stake v))
      | None => mkValidatorResp address_str false (list_byte_of_string "unknown") [x30]
      end).

(** ** Submitting *)

Definition tx_submit_handler (guard : AppState D) (now : Z) (tx : Transaction) :
    outcome (AppState D * Response TxSubmitResponse) :=
  let tx_hash := hex_encode (take 8 (array_bytes (blake3 (enc sc_tx tx)))) in
  '(mp, result) ← insert_tx (app_mempool guard) now tx;
  let guard := mkApp (app_engine guard) (app_state guard) mp (app_height guard) in
  match result with
  | Ok _ => Ret (guard, Ok (mkTxSubmit tx_hash "in_mempool"))
  | Err _ => Ret (guard, Err (err_response 400 "tx rejected"))
  end.
End Handlers.

(** The handlers' view of a running node; [start] is the height at start-up. *)
Definition app_of {D} (start : Z) (n : Node D) : AppState D := mkApp (n_storage n) (n_state n) (n_mempool n) start.

(** ** Blocks over the API *)

Section Views.
Context `{BuildProfile} `{Blake3} `{Scale} `{!ScaleOk} `{Hex} `{Serde}.
Context {D : Type} `{StorageOk D} `{!StorageReliable D}.

Lemma load_block_json_ok (d : D) h j : load_block_json d h = Ok j <->
  exists b, stored_block d h = Some b /\ block_to_value b = Some j.
Proof.
  unfold load_block_json, stored_block, row.
  destruct (st_get_total d BLOCKS (to_be_bytes 8 h) ltac:(auto with tables)) as [o Hg]. rewrite Hg.
  apply st_get_view in Hg as <-. destruct o as [raw|]; simpl; [|naive_solver].
  destruct (decode_all sc_block raw) as [b|]; simpl; [|naive_solver].
  destruct (block_to_value b) eqn:E; simpl; naive_solver.
Qed.

Lemma block_with_hash_Some (d : D) hash key b : block_with_hash d hash key = Some b <->
  length key = 8%nat /\ decode_all sc_block <$> st_view d BLOCKS !! key = Some (Some b) /\
  array_bytes (header_hash (blk_header b)) = hash.
Proof.
  unfold block_with_hash. case_bool_decide as Hl; simpl; [|naive_solver].
  destruct (st_get_total d BLOCKS key ltac:(auto with tables)) as [o Hg]. rewrite Hg.
  apply st_get_view in Hg as <-. destruct o as [raw|]; simpl; [|naive_solver].
  destruct (decode_all sc_block raw) as [b'|]; simpl; [|naive_solver].
  case_bool_decide; naive_solver.
Qed.

(** On a table indexed by height, a key's block is the block stored at the height. *)
Lemma block_with_hash_at (d : D) hash h b : block_with_hash d hash (to_be_bytes 8 h) = Some b <->
  stored_block d h = Some b /\ array_bytes (header_hash (blk_header b)) = hash.
Proof.
  rewrite block_with_hash_Some. unfold stored_block, row. rewrite to_be_bytes_length.
  destruct (st_view d BLOCKS !! _) as [raw|]; cbn [fmap option_fmap option_map mbind option_bind].
  - split; [by intros (_ & [= E] & ?)|]. intros [E ?]. by rewrite E.
  - by split; [intros (_ & ? & _)|intros [? _]].
Qed.

Lemma search_hash_spec (d : D) hash keys :
  (forall key b, key ∈ keys -> block_with_hash d hash key = Some b -> is_Some (block_to_value b)) ->
  exists r, search_hash d hash keys = Ret r /\
  match r with
  | Ok j => exists before key after b, keys = before ++ key :: after /\ block_with_hash d hash key = Some b /\
      block_to_value b = Some j /\ forall k, k ∈ before -> block_with_hash d hash k = None
  | Err e => er_code e = 404 /\ forall k, k ∈ keys -> block_with_hash d hash k = None
  end.
Proof.
  induction keys as [|key keys IH]; intros Hser; simpl.
  - eexists; split; [done|]. split; [done|]. by intros k ?%elem_of_nil.
  - destruct (block_with_hash d hash key) as [b|] eqn:E.
    + destruct (Hser key b ltac:(by left) E) as [j Ej]. rewrite Ej. simpl. eexists; split; [done|].
      exists [], key, keys, b. repeat split; try done. by intros k ?%elem_of_nil.
    + destruct IH as (r & Er & Hr); [intros k b Hk; apply Hser; by right|]. rewrite Er. exists r. split; [done|].
      destruct r as [j|e].
      * destruct Hr as (before & k & after & b & -> & Hb & Hj & Hbef). exists (key :: before), k, after, b.
        repeat split; try done. intros k' [->|Hk']%elem_of_cons; auto.
      * destruct Hr as [Hc Hr]. split; [done|]. intros k' [->|Hk']%elem_of_cons; auto.
Qed.

(** The block queries of the API.  On a blocks table indexed by height, with
    blocks that serialise, no query panics; the height reported is the greatest
    stored one and the era is that height's; a block is served by height exactly
    when it is stored there; the latest block is the block of that height, except
    that height 0 counts as no block. *)
Theorem rest_chain_view (guard : AppState D) (hs : gset Z) (Hidx : indexed_by (app_engine guard) hs) :
  exists h, height_handler guard = Ret h /\ (forall h', h' ∈ hs -> h' <= h) /\ (h ∈ hs \/ hs = ∅ /\ h = 0) /\
  health_handler guard = Ret (mkHealth "ok" h) /\ era_handler guard = Ret (era_at_height h) /\
  (forall h' j, block_by_height_handler guard h' = Ok j <->
     exists b, stored_block (app_engine guard) h' = Some b /\ block_to_value b = Some j) /\
  (forall h' e, block_by_height_handler guard h' = Err e -> er_code e = 404) /\
  exists r, block_latest_handler guard = Ret r /\
  match r with
  | Ok j => h <> 0 /\ exists b, stored_block (app_engine guard) h = Some b /\ block_to_value b = Some j
  | Err e => h = 0 /\ er_code e = 404 \/
      er_code e = 500 /\ forall b, stored_block (app_engine guard) h = Some b -> block_to_value b = None
  end.
Proof.
  destruct (latest_height_max (app_engine guard) hs Hidx) as (h & Eh & Hmax & Hin). exists h.
  unfold height_handler, health_handler, era_handler, block_latest_handler, known_height. rewrite Eh. simpl.
  do 5 (split; [done|]). unfold block_by_height_handler. split; [intros h' j; by rewrite map_err_Ok, load_block_json_ok|].
  split; [intros h' e; destruct (load_block_json _ h'); simpl; by intros [= <-]|].
  destruct (Z.eqb_spec h 0) as [Hz|Hz]; [eexists; split; [done|]; by left|].
  eexists. split; [done|]. destruct (load_block_json (app_engine guard) h) as [j|e] eqn:E; simpl.
  - split; [done|]. by apply load_block_json_ok.
  - right. split; [done|]. intros b Hb. destruct (block_to_value b) as [j|] eqn:Ej; [|done].
    assert (load_block_json (app_engine guard) h = Ok j) by (apply load_block_json_ok; eauto). congruence.
Qed.

(** The search by hash is sound, complete and ordered.  A text that is not 32
    hexadecimal bytes is a 400; otherwise the answer is the block of the least
    stored height whose header has that hash, the genesis included, and a 404
    exactly when there is none. *)
Theorem block_by_hash_correct (guard : AppState D) (hs : gset Z) (hash_hex : bytes)
    (Hidx : indexed_by (app_engine guard) hs)
    (Hser : forall h b, stored_block (app_engine guard) h = Some b -> is_Some (block_to_value b)) :
  exists r, block_by_hash_handler guard hash_hex = Ret r /\
  match hex_decode (trim_start_0x hash_hex) with
  | Some hash =>
      if decide (length hash = 32%nat) then
        match r with
        | Ok j => exists h b, h ∈ hs /\ stored_block (app_engine guard) h = Some b /\
            array_bytes (header_hash (blk_header b)) = hash /\ block_to_value b = Some j /\
            forall h' b', h' ∈ hs -> h' < h -> stored_block (app_engine guard) h' = Some b' ->
              array_bytes (header_hash (blk_header b')) <> hash
        | Err e => er_code e = 404 /\ forall h b, h ∈ hs -> stored_block (app_engine guard) h = Some b ->
            array_bytes (header_hash (blk_header b)) <> hash
        end
      else exists e, r = Err e /\ er_code e = 400
  | None => exists e, r = Err e /\ er_code e = 400
  end.
Proof.
  unfold block_by_hash_handler. destruct (hex_decode _) as [hash|]; [|eexists; split; [done|]; by eexists].
  destruct (decide (length hash = 32%nat)) as [Hl|Hl];
    [rewrite bool_decide_eq_true_2 by done|rewrite bool_decide_eq_false_2 by done; eexists; split; [done|]; by eexists].
  simpl. destruct (st_list_total (app_engine guard) BLOCKS ltac:(auto with tables)) as [keys Hk].
  rewrite Hk. apply st_list_view in Hk as (Hsort & _ & Hk). destruct Hidx as [Hu Hidx].
  assert (forall key, key ∈ keys <-> exists h, h ∈ hs /\ key = to_be_bytes 8 h) as Hkeys by (intros; by rewrite Hk).
  destruct (search_hash_spec (app_engine guard) hash keys) as (r & Er & Hr).
  { intros key b (h & Hh & ->)%Hkeys [Hb _]%block_with_hash_at. by eapply Hser. }
  exists r. split; [done|]. destruct r as [j|e].
  - destruct Hr as (before & key & after & b & Ekeys & Hb & Hj & Hbef).
    destruct (proj1 (Hkeys key)) as (h & Hh & ->); [rewrite Ekeys; set_solver|].
    apply block_with_hash_at in Hb as [Hb Hhash]. exists h, b. do 4 (split; [done|]).
    intros h' b' Hh' Hlt Hb' Eh'. assert (to_be_bytes 8 h' ∈ keys) as Hin by (apply Hkeys; by exists h').
    rewrite Ekeys in Hin, Hsort. apply elem_of_app in Hin as [Hin|Hin].
    + specialize (Hbef _ Hin). assert (block_with_hash (app_engine guard) hash (to_be_bytes 8 h') = Some b') as Hb''
        by (by apply block_with_hash_at). congruence.
    + apply StronglySorted_app_1_r in Hsort. apply elem_of_cons in Hin as [Hin|Hin].
      { apply to_be_bytes_inj in Hin; [lia|by apply is_u64_bytes, Hu..]. }
      apply StronglySorted_inv in Hsort as [_ Hsort]. rewrite Forall_forall in Hsort. specialize (Hsort _ Hin).
      unfold cmp_le in Hsort. rewrite bytes_cmp_be, !from_to_be_bytes in Hsort
        by (rewrite ?to_be_bytes_length; (done || (by apply is_u64_bytes, Hu))).
      apply Hsort, Z.compare_gt_iff. lia.
  - destruct Hr as [Hc Hr]. split; [done|]. intros h b Hh Hb Ehash.
    assert (block_with_hash (app_engine guard) hash (to_be_bytes 8 h) = Some b) as E by (by apply block_with_hash_at).
    rewrite Hr in E by (apply Hkeys; by exists h). done.
Qed.
End Views.

(** ** The validators of the genesis *)

Section GenesisValidators.
Context `{BuildProfile} `{Blake3} `{Scale} `{Hex} `{GenesisText} `{!HashOrder bytes} `{Serde}.
Context {D : Type} `{StorageOk D}.

(** A decoded entry spends at least its address and its public key. *)
Definition entries_are_long : Prop :=
  forall bs e r, dec sc_entry bs = Some (e, r) -> (32 + FALCON_PUBLIC_KEY_SIZE <= length bs)%nat.

Lemma validator_rows_short l rows k v : rows_of validator_row l = Ok rows -> (k, v) ∈ rows -> length v = 64%nat.
Proof.
  intros E Hin. destruct (rows_of_elem validator_row l rows (k, v) E) as [Hr _]. apply Hr in Hin as (x & _ & Hx).
  unfold validator_row in Hx. apply and_then_Ok in Hx as (raw & _ & Hx). apply and_then_Ok in Hx as (stake & _ & Hx).
  assert (v = array_bytes raw ++ to_le_bytes 32 stake) as -> by congruence. by rewrite length_app, array_length, to_le_bytes_length.
Qed.

(** Validators configured in the genesis are never seen.  The loader stores an
    address and a stake where the API reads an encoded entry, so right after a
    load the validator list is empty, whatever the genesis configures; the rows
    are in the table all the same. *)
Theorem genesis_validators_hidden (d d' : D) (file : option bytes) (sm : StateMachine) (mp : Mempool) (h : Z)
    (Hlong : entries_are_long) (Hfresh : forall k, st_view d VALIDATORS !! k = None)
    (Hload : load_genesis d file = (d', Ok tt)) :
  validators_handler (mkApp d' sm mp h) = [] /\
  exists json config, file = Some json /\ genesis_from_str json = Some config /\
    forall v raw, v ∈ gc_initial_validators config -> parse_hex_addr (gv_address v) = Ok raw ->
      is_Some (st_view d' VALIDATORS !! array_bytes raw).
Proof.
  destruct (load_genesis_ok d file d' Hload) as (json & config & arows & vrows & -> & Hj & _ & Hv & V).
  assert (st_view d' VALIDATORS = add_rows vrows (st_view d VALIDATORS)) as Hrows.
  { rewrite (V VALIDATORS). unfold genesis_cells.
    by rewrite cell_update_ne, cell_update_ne, cell_update_eq, cell_update_ne by discriminate. }
  split.
  - unfold validators_handler. destruct (st_list_keys _ _) as [keys|]; [|done].
    induction keys as [|k keys IH]; [done|]. simpl.
    assert (validator_info d' k = None) as ->; [|exact IH]. unfold validator_info.
    case_bool_decide; simpl; [|done]. destruct (st_get d' VALIDATORS k) as [[raw|]|] eqn:Hg; try done.
    apply st_get_view in Hg. rewrite Hrows in Hg. symmetry in Hg. apply add_rows_elem in Hg as [Hin|Hg]; [|by rewrite Hfresh in Hg].
    apply (validator_rows_short _ _ _ _ Hv) in Hin. unfold decode_all.
    destruct (dec sc_entry raw) as [[e r]|] eqn:Hd; [|done]. apply Hlong in Hd. unfold FALCON_PUBLIC_KEY_SIZE in Hd. lia.
  - exists json, config. split; [done|]. split; [done|]. intros v raw Hin Hraw. rewrite Hrows.
    destruct (rows_of_defined validator_row _ _ v Hv Hin) as ([k x] & Hr & Hkx).
    unfold validator_row in Hr. apply and_then_Ok in Hr as (raw' & Hraw' & Hr). apply and_then_Ok in Hr as (stake & _ & Hr).
    apply add_rows_defined. left. apply list_elem_of_fmap. exists (k, x). split; [|done]. cbn [fst]. congruence.
Qed.
End GenesisValidators.

(** ** From the API into a block *)

Section Submit.
Context `{BuildProfile} `{Blake3} `{Scale} `{!ScaleOk} `{Hex} `{!HashOrder Address} `{!HashOrderOk Address}.
Context {D : Type} `{StorageOk D} `{!StorageReliable D}.

Definition with_pool (n : Node D) (mp : Mempool) : Node D :=
  mkNode (n_engine n) (n_state n) mp (n_storage n) (n_published n).

Lemma tx_submit_ok (guard guard' : AppState D) now tx resp : pool_wf (app_mempool guard) ->
  tx_submit_handler guard now tx = Ret (guard', Ok resp) ->
  pool_wf (app_mempool guard') /\ app_engine guard' = app_engine guard /\ app_state guard' = app_state guard /\
  sender_map (app_mempool guard') (tx_sender tx) !! tx_nonce tx = Some (new_at tx now).
Proof.
  intros Hwf E. unfold tx_submit_handler in E.
  destruct (insert_spec (app_mempool guard) now tx Hwf) as (mp & r & Ei & Hwf' & _ & _ & Hl).
  rewrite Ei in E. cbn [mbind outcome_bind] in E. destruct r as [[]|e]; simplify_eq. simpl.
  do 3 (split; [done|]). rewrite Hl. cbn [is_ok andb]. by rewrite bool_decide_eq_true_2.
Qed.

(** A small pool goes into the next block whole. *)
Lemma select_small (p : Mempool) (max_count : Z) pt : pool_wf p -> count p <= max_count ->
  sender_map p (pt_sender pt) !! pt_nonce pt = Some pt ->
  exists p' txs, select p max_count = Ret (p', txs) /\ pt_tx pt ∈ txs /\ contains p' (pt_sender pt) (pt_nonce pt) = false.
Proof.
  intros Hwf Hc Hpt. pose proof (wf_room _ Hwf) as [Hr _].
  destruct (select_spec p max_count Hwf ltac:(lia)) as (p' & E & _ & _ & _ & Hl).
  rewrite firstn_all2 in E, Hl by (rewrite sort_by_length; pose proof (all_txs_length p Hwf); lia).
  assert (pt ∈ sort_by cmp_priority (all_txs p)) as Hin by (by apply sort_by_elem, all_txs_elem).
  exists p', (map pt_tx (sort_by cmp_priority (all_txs p))). split; [done|].
  split; [apply list_elem_of_fmap; by exists pt|].
  unfold contains. rewrite Hl, decide_True; [done|]. apply list_elem_of_fmap. by exists pt.
Qed.

(** C27: a submitted transaction is in the next block.  If the API answers that a
    transaction is in the mempool, the pool holds at most 500 transactions, and the
    node is at its own slot inside an era with the parent stored and transactions
    that fit the ledger, then the next tick returns, and stores and publishes at
    the next height a block that continues the parent and contains the
    transaction; the transaction leaves the pool, and the state machine implements
    the ledger after that block. *)
Theorem submitted_tx_included (K : gset Address) (L : Ledger) (n : Node D) (p : Block) (start t0 now : Z)
    (tx : Transaction) (guard' : AppState D) (resp : TxSubmitResponse)
    (HK : collision_free (keys_of K)) (R : refines K (n_state n) L) (Hwf : ledger_wf L) (Hnd : NoDup (active L))
    (Hpool : pool_wf (n_mempool n)) (Hsub : tx_submit_handler (app_of start n) t0 tx = Ret (guard', Ok resp))
    (Hroom : count (app_mempool guard') <= 500)
    (Hc : is_u64 (current_height (n_engine n))) (Hmax : current_height (n_engine n) + 1 < W64)
    (Hera : is_era_boundary (current_height (n_engine n) + 1) = false)
    (Hne : sch_active_set (slot_schedule (n_engine n) (current_height (n_engine n) + 1)).2 <> [])
    (Hours : is_our_slot (n_engine n) (slot_schedule (n_engine n) (current_height (n_engine n) + 1)).2
               (current_height (n_engine n) + 1) = Ret true)
    (Hp : stored_block (n_storage n) (current_height (n_engine n)) = Some p)
    (Hph : hdr_height (blk_header p) = current_height (n_engine n))
    (Hfits : forall mp txs header, select (app_mempool guard') 500 = Ret (mp, txs) ->
               block_fits K L (mkBlock header (mkBlockBody txs))) :
  let height := current_height (n_engine n) + 1 in
  exists n' b, slot_tick now (with_pool n (app_mempool guard')) = Ret n' /\
    n_published n' = n_published n ++ [b] /\ row (n_storage n') height = Some (enc sc_block b) /\
    hdr_height (blk_header b) = height /\ hdr_parent_hash (blk_header b) = header_hash (blk_header p) /\
    tx ∈ transactions (blk_body b) /\ contains (n_mempool n') (tx_sender tx) (tx_nonce tx) = false /\
    refines K (n_state n') (bs_ledger (spec_block L b)).
Proof.
  intros height. destruct (tx_submit_ok (app_of start n) _ _ _ _ Hpool Hsub) as (Hwf' & _ & _ & Hin).
  destruct (select_small _ 500 (new_at tx t0) Hwf' Hroom Hin) as (mp & txs & Esel & Htx & Hgone).
  destruct (slot_produces K L (with_pool n (app_mempool guard')) p now HK R Hwf Hnd Hwf' Hc Hmax Hera Hne Hours Hp Hph Hfits)
    as (n' & b & E & _ & Hpub & Hrow & Hsel & Hh & Hph' & _ & _ & R').
  exists n', b. do 5 (split; [done|]). cbn [n_mempool with_pool] in Hsel. rewrite Esel in Hsel.
  injection Hsel as -> ->. done.
Qed.
End Submit.

(** ** Instances *)

Import ToyInstances MemStorage.

#[local] Instance toy_serde : Serde := {|
  block_to_value b := Some (JObject [("height"%string, JNumber (hdr_height (blk_header b)))]);
  header_to_value h := Some (JNumber (hdr_height h));
  u256_dec z := to_be_bytes 32 z;
  u256_hex z := hex_encode (to_be_bytes 32 z);
  status_debug _ := list_byte_of_string "status"
|}.

Definition app_ex : AppState RedbEngine := app_of 0 node_ex.

Lemma loaded_indexed : indexed_by loaded_ex {[ 0 ]}.
Proof.
  split; [by intros h ->%elem_of_singleton|]. intros k.
  rewrite loaded_blocks, lookup_singleton_is_Some. split; [intros <-; exists 0; split; [by apply elem_of_singleton|reflexivity]|].
  by intros (h & ->%elem_of_singleton & ->).
Qed.

Lemma rest_chain_view_witness : exists h r, height_handler app_ex = Ret h /\ h = 0 /\
  block_latest_handler app_ex = Ret r /\ is_ok r = false.
Proof.
  destruct (rest_chain_view app_ex {[ 0 ]} loaded_indexed) as (h & E & _ & Hin & _ & _ & _ & _ & r & Er & Hr).
  assert (h = 0) as Hz by (destruct Hin as [->%elem_of_singleton|[_ ->]]; reflexivity).
  exists h, r. split; [exact E|]. split; [exact Hz|]. split; [exact Er|].
  destruct r as [j|e]; [|reflexivity]. destruct Hr as [Hne _]. by destruct Hne.
Defined.

Definition genesis_hash_text : bytes := str_0x ++ hex_encode (array_bytes (header_hash (blk_header (genesis_block 7)))).

Lemma block_by_hash_correct_witness : exists r, block_by_hash_handler app_ex genesis_hash_text = Ret r /\ is_ok r = true.
Proof.
  destruct (block_by_hash_correct app_ex {[ 0 ]} genesis_hash_text loaded_indexed) as (r & E & Hr);
    [intros h b _; by eexists|].
  exists r. split; [exact E|]. destruct r as [j|e]; [reflexivity|].
  assert (hex_decode (trim_start_0x genesis_hash_text) = Some (array_bytes (header_hash (blk_header (genesis_block 7))))) as Eh
    by (vm_compute; reflexivity).
  rewrite Eh in Hr. rewrite decide_True in Hr by apply array_length. destruct Hr as [_ Hno].
  exfalso. apply (Hno 0 (genesis_block 7)); [by apply elem_of_singleton|exact loaded_parent|reflexivity].
Defined.

Lemma c_array_dec_length n bs a r : dec (c_array n) bs = Some (a, r) -> length bs = (n + length r)%nat.
Proof.
  simpl. intros E. destruct (array_of_list n (take n bs)) as [a'|] eqn:Ea; [|done]. simplify_eq/=.
  apply array_of_list_Some in Ea. rewrite <- (take_drop n bs) at 1. rewrite length_app, <- Ea, array_length. reflexivity.
Qed.

Lemma c_pair_dec {A B} (c : codec A) (d : codec B) bs p r : dec (c_pair c d) bs = Some (p, r) ->
  exists r', dec c bs = Some (p.1, r') /\ dec d r' = Some (p.2, r).
Proof. simpl. destruct (dec c bs) as [[x r']|]; [|done]. simpl. destruct (dec d r') as [[y r'']|] eqn:E; [|done]. intros [= <- <-]. by exists r'. Qed.

Lemma c_iso_dec {A B} (f : A -> B) (g : B -> A) (c : codec B) bs x r : dec (c_iso f g c) bs = Some (x, r) ->
  exists y, dec c bs = Some (y, r).
Proof. simpl. destruct (dec c bs) as [[y r']|]; [|done]. intros [= _ <-]. by exists y. Qed.

Lemma toy_entries_long : entries_are_long.
Proof.
  intros bs e r E. apply c_iso_dec in E as [p E]. apply c_pair_dec in E as (r1 & E1 & E).
  apply c_iso_dec in E1 as [a E1]. apply c_pair_dec in E as (r2 & E2 & _).
  apply c_array_dec_length in E1, E2. unfold FALCON_PUBLIC_KEY_SIZE. lia.
Qed.

Lemma genesis_validators_hidden_witness : validators_handler (mkApp loaded_ex sm0 pool0 0) = [] /\
  is_Some (st_view loaded_ex VALIDATORS !! array_bytes (as_bytes carol)).
Proof.
  destruct (genesis_validators_hidden mem_new loaded_ex (Some json_ex) sm0 pool0 0 toy_entries_long
              (fun k => lookup_empty k) load_ex) as (Hnil & json & config & [= <-] & Hj & Hrows).
  split; [exact Hnil|]. assert (config = config_ex) as -> by (injection Hj as <-; reflexivity).
  apply (Hrows (mkGenesisValidator (account_text carol) (list_byte_of_string "600"))); [by left|].
  apply text_check_ok. vm_compute. reflexivity.
Defined.

Definition node_empty : Node RedbEngine := with_pool node_ex (Mempool_new small_config).
Definition guard_ex : AppState RedbEngine := mkApp loaded_ex sm0 pool0 0.

Lemma pool0_insert : insert_tx (Mempool_new small_config) 700 (pay_ex 0) = Ret (pool0, Ok tt).
Proof. vm_compute. reflexivity. Qed.

Lemma submit_ex : exists resp, tx_submit_handler (app_of 0 node_empty) 700 (pay_ex 0) = Ret (guard_ex, Ok resp).
Proof.
  unfold tx_submit_handler. change (app_mempool (app_of 0 node_empty)) with (Mempool_new small_config).
  rewrite pool0_insert. cbn [mbind outcome_bind]. eexists. reflexivity.
Qed.

Lemma submitted_tx_included_witness : exists resp n' b,
  tx_submit_handler (app_of 0 node_empty) 700 (pay_ex 0) = Ret (guard_ex, Ok resp) /\
  slot_tick 50 (with_pool node_empty pool0) = Ret n' /\ n_published n' = [b] /\ pay_ex 0 ∈ transactions (blk_body b).
Proof.
  destruct submit_ex as [resp Hsub]. exists resp.
  destruct (submitted_tx_included D0 L0 node_empty parent_ex 0 700 50 (pay_ex 0) guard_ex resp D0_collision_free refines0 ledger_wf0)
    as (n' & b & E & Hpub & _ & _ & _ & Hin & _).
  - clear; repeat constructor; set_solver.
  - apply empty_pool_wf.
  - exact Hsub.
  - vm_compute. discriminate.
  - by split.
  - done.
  - done.
  - done.
  - done.
  - exact loaded_parent.
  - done.
  - intros mp txs header Hsel. apply block_check_fits.
    assert (exists mp', select pool0 500 = Ret (mp', [pay_ex 0])) as [mp' E] by (eexists; vm_compute; reflexivity).
    change (app_mempool guard_ex) with pool0 in Hsel. rewrite E in Hsel. injection Hsel as _ <-. vm_compute. reflexivity.
  - exists n', b. split; [exact Hsub|]. split; [exact E|]. split; [exact Hpub|exact Hin].
Defined.
