(* ===== verification/Router.v ===== *)
(** * The HTTP surface of a node ([build_router] of [mononium-cli/src/node.rs])

    Routes, the bodies of answers and the rejections around the handlers of [Rest]:
    from a request to the bytes of an answer.  Routing and extraction are axum's and
    the text of JSON is serde_json's, as type classes; numbers in paths are parsed and
    printed here, as the standard library does. *)
From Stdlib Require Import Strings.Byte Strings.String.
From stdpp Require Import base gmap sets list strings countable sorting.
From Stdlib Require Import ZArith Lia.
From S2P Require Import Prelude Types External Toy Trie Account State Ledger Refine Scenario Schedule Mempool Storage Genesis Finality Slashing Engine Rest.

(** ** Decimal numbers ([u64::to_string], [u64::from_str]) *)

Definition digit (d : Z) : byte := byte_of_Z (48 + d).

Fixpoint dec_digits (n : nat) (z : Z) (rest : bytes) : bytes :=
  match n with
  | O => rest
  | S n => if z <? 10 then digit z :: rest else dec_digits n (z / 10) (digit (z mod 10) :: rest)
  end.

(** A [u64] has at most 20 digits. *)
Definition u64_to_string (z : Z) : bytes := dec_digits 20 z [].

Definition digit_value (b : byte) : option Z :=
  let d := byte_to_Z b - 48 in if (0 <=? d) && (d <? 10) then Some d else None.

Fixpoint parse_digits (acc : Z) (s : bytes) : option Z :=
  match s with
  | [] => Some acc
  | b :: s =>
      d ← digit_value b;
      let acc := acc * 10 + d in
      if acc <? W64 then parse_digits acc s else None
  end.

(** A leading plus sign is accepted. *)
Definition u64_from_str (s : bytes) : option Z :=
  match s with
  | [] => None
  | x2b :: [] => None
  | x2b :: s => parse_digits 0 s
  | _ => parse_digits 0 s
  end.

Lemma digit_value_digit d : 0 <= d < 10 -> digit_value (digit d) = Some d.
Proof.
  intros Hd. assert (d = 0 \/ d = 1 \/ d = 2 \/ d = 3 \/ d = 4 \/ d = 5 \/ d = 6 \/ d = 7 \/ d = 8 \/ d = 9) as Hc by lia.
  repeat destruct Hc as [->|Hc]; (reflexivity || subst d; reflexivity).
Qed.

Lemma parse_dec_digits n : forall z rest, 0 <= z < 10 ^ Z.of_nat n -> z < W64 -> (0 < n)%nat ->
  parse_digits 0 (dec_digits n z rest) = parse_digits z rest.
Proof.
  induction n as [|n IH]; intros z rest Hz Hw Hn; [lia|]. cbn [dec_digits].
  destruct (Z.ltb_spec z 10) as [Hlt|Hge].
  - cbn [parse_digits]. rewrite digit_value_digit by lia. cbn [mbind option_bind].
    rewrite (proj2 (Z.ltb_lt (0 * 10 + z) W64)) by lia. done.
  - rewrite Nat2Z.inj_succ, Z.pow_succ_r in Hz by lia.
    assert (0 <= z / 10 < 10 ^ Z.of_nat n) by (split; [apply Z.div_pos; lia|apply Z.div_lt_upper_bound; lia]).
    assert (z / 10 <= z) by (apply Z.div_le_upper_bound; lia).
    assert (z = 10 * (z / 10) + z mod 10 /\ 0 <= z mod 10 < 10) as [Ez Hm]
      by (split; [apply Z.div_mod; lia|apply Z.mod_pos_bound; lia]).
    assert (1 <= z / 10) by (apply Z.div_le_lower_bound; lia).
    rewrite IH; [|done|lia|destruct n; [change (10 ^ Z.of_nat 0) with 1 in *; lia|lia]].
    cbn [parse_digits]. rewrite digit_value_digit by done. cbn [mbind option_bind].
    replace (z / 10 * 10 + z mod 10) with z by lia. by rewrite (proj2 (Z.ltb_lt z W64)).
Qed.

Lemma dec_digits_digit n : forall z rest, 0 <= z -> (0 < n)%nat ->
  exists d s, 0 <= d < 10 /\ dec_digits n z rest = digit d :: s.
Proof.
  induction n as [|n IH]; intros z rest Hz Hn; [lia|]. cbn [dec_digits].
  destruct (Z.ltb_spec z 10); [exists z, rest; split; [lia|done]|].
  destruct n as [|n]; [exists (z mod 10), rest; split; [apply Z.mod_pos_bound; lia|done]|].
  apply IH; [apply Z.div_pos; lia|lia].
Qed.

(** Printed heights are read back. *)
Lemma u64_roundtrip z : is_u64 z -> u64_from_str (u64_to_string z) = Some z.
Proof.
  intros [Hz Hw]. unfold u64_to_string. destruct (dec_digits_digit 20 z [] Hz ltac:(lia)) as (d & s & Hd & E).
  assert (parse_digits 0 (dec_digits 20 z []) = Some z) as Hp
    by (rewrite parse_dec_digits; [done|split; [done|eapply Z.lt_trans; [exact Hw|reflexivity]]|done|lia]).
  rewrite E in *. unfold u64_from_str.
  destruct (decide (digit d = x2b)) as [Ed|Ed].
  { apply (f_equal digit_value) in Ed. rewrite digit_value_digit in Ed by done. discriminate Ed. }
  destruct (digit d); (exact Hp || done).
Qed.

(** ** JSON texts *)

(** Values a document can hold: numbers are [u64] here. *)
Fixpoint json_ok (j : Json) : bool :=
  match j with
  | JNumber z => (0 <=? z) && (z <? W64)
  | JArray l => forallb json_ok l
  | JObject fields => forallb (fun p => json_ok p.2) fields
  | _ => true
  end.

(** [v[k]]: null where there is nothing. *)
Definition json_get (j : Json) (k : string) : Json :=
  match j with
  | JObject fields =>
      match list_find (fun p => p.1 = k) fields with Some (_, p) => p.2 | None => JNull end
  | _ => JNull
  end.
Definition as_str (j : Json) : option bytes := match j with JString s => Some s | _ => None end.
Definition as_u64 (j : Json) : option Z := match j with JNumber z => Some z | _ => None end.

(** [serde_json]: compact and pretty printing, and reading.  Reading keeps a value up
    to what [json_normal] forgets, the order of fields. *)
Class JsonText := {
  json_to_string : Json -> bytes;
  json_to_string_pretty : Json -> bytes;
  json_from_str : bytes -> option Json;
  json_normal : Json -> Json
}.

Class JsonTextOk `{JsonText} : Prop := {
  json_roundtrip j : json_ok j = true -> json_from_str (json_to_string j) = Some (json_normal j);
  json_normal_get fields k : NoDup (map fst fields) ->
    json_get (json_normal (JObject fields)) k = json_normal (json_get (JObject fields) k);
  json_normal_null : json_normal JNull = JNull;
  json_normal_bool b : json_normal (JBool b) = JBool b;
  json_normal_number z : json_normal (JNumber z) = JNumber z;
  json_normal_string s : json_normal (JString s) = JString s
}.

(** ** Routes ([axum]) *)

Inductive HttpMethod := GET | POST.
#[export] Instance http_method_eq_dec : EqDecision HttpMethod.
Proof. solve_decision. Defined.

(** [/block/{height}] is [[Lit "block"; Capture]]. *)
Inductive Segment := Lit (s : string) | Capture.
#[export] Instance segment_eq_dec : EqDecision Segment.
Proof. solve_decision. Defined.

Fixpoint captures (pattern : list Segment) (path : list bytes) : option (list bytes) :=
  match pattern, path with
  | [], [] => Some []
  | Lit s :: pattern, x :: path => if decide (x = list_byte_of_string s) then captures pattern path else None
  | Capture :: pattern, x :: path => cons x <$> captures pattern path
  | _, _ => None
  end.

(** An answer over HTTP: its status and body. *)
Record Answer := mkAnswer { an_status : Z; an_body : bytes }.
Definition is_success (a : Answer) : bool := (200 <=? an_status a) && (an_status a <? 300).

Section Routing.
Context {E : Type}.
Abbreviation Table := (list (HttpMethod * list Segment * E)).

(** Matching a path against a table, or the answer when nothing matches. *)
Class Axum := { route : Table -> HttpMethod -> list bytes -> result Answer (E * list bytes) }.

(** A pattern without captures comes first; a pattern that alone matches is taken; a
    refusal is an error. *)
Class AxumOk `{Axum} : Prop := {
  route_literal table m pattern e path : NoDup (map fst table) -> (m, pattern, e) ∈ table -> Capture ∉ pattern ->
    captures pattern path = Some [] -> route table m path = Ok (e, []);
  route_capture table m pattern e path cs : NoDup (map fst table) -> (m, pattern, e) ∈ table ->
    captures pattern path = Some cs ->
    (forall m' pattern' e', (m', pattern', e') ∈ table -> is_Some (captures pattern' path) -> pattern' = pattern) ->
    route table m path = Ok (e, cs);
  route_sound table m path e cs : route table m path = Ok (e, cs) ->
    exists pattern, (m, pattern, e) ∈ table /\ captures pattern path = Some cs;
  route_refused table m path a : route table m path = Err a -> is_success a = false
}.
End Routing.
Arguments Axum _ : clear implicits.
Arguments AxumOk _ {_}.

(** What an extractor answers to a path or body it cannot read. *)
Class Rejections := { path_rejection : bytes -> Answer; json_rejection : bytes -> Answer }.
Class RejectionsOk `{Rejections} : Prop := {
  path_rejected s : is_success (path_rejection s) = false;
  json_rejected s : is_success (json_rejection s) = false
}.

(** [serde_json] on a submitted transaction. *)
Class TxText := { tx_from_json : bytes -> option Transaction }.

Inductive Endpoint :=
| HealthEp | BlockLatestEp | BlockByHeightEp | BlockByHashEp | BalanceEp | HeightEp | EraEp | GenesisEp | NonceEp
| ValidatorsEp | ValidatorEp | TxEp.
#[export] Instance endpoint_eq_dec : EqDecision Endpoint.
Proof. solve_decision. Defined.

Definition build_router : list (HttpMethod * list Segment * Endpoint) := [
  (GET, [Lit "health"], HealthEp);
  (GET, [Lit "block"; Lit "latest"], BlockLatestEp);
  (GET, [Lit "block"; Capture], BlockByHeightEp);
  (GET, [Lit "block"; Lit "hash"; Capture], BlockByHashEp);
  (GET, [Lit "balance"; Capture], BalanceEp);
  (GET, [Lit "height"], HeightEp);
  (GET, [Lit "era"], EraEp);
  (GET, [Lit "genesis"], GenesisEp);
  (GET, [Lit "nonce"; Capture], NonceEp);
  (GET, [Lit "validators"], ValidatorsEp);
  (GET, [Lit "validator"; Capture], ValidatorEp);
  (POST, [Lit "tx"], TxEp)].

(** ** Bodies ([#[derive(Serialize)]] of the response types) *)

Section Bodies.
Context `{JsonText}.

Definition text (s : string) : Json := JString (list_byte_of_string s).

Definition json_answer (j : Json) : Answer := mkAnswer 200 (json_to_string j).
Definition error_answer (e : ErrorResponse) : Answer := mkAnswer (er_code e) (json_to_string (JObject [("error"%string, text (er_msg e))])).

Definition health_body (r : HealthResponse) : Json :=
  JObject [("status"%string, text (he_status r)); ("height"%string, JNumber (he_height r))].
Definition height_body (height : Z) : Json := JObject [("height"%string, JNumber height)].
Definition era_body (era : Z) : Json := JObject [("era"%string, JNumber era)].
Definition genesis_body (hash : bytes) : Json := JObject [("genesis_hash"%string, JString hash)].
Definition balance_body (r : BalanceResponse) : Json :=
  JObject [("address"%string, JString (br_address r)); ("balance"%string, JString (br_balance r)); ("nonce"%string, JNumber (br_nonce r))].
Definition nonce_body (nonce : Z) : Json := JObject [("nonce"%string, JNumber nonce)].
Definition validator_body (r : ValidatorResponse) : Json :=
  JObject [("address"%string, JString (vr_address r)); ("exists"%string, JBool (vr_exists r));
           ("status"%string, JString (vr_status r)); ("stake"%string, JString (vr_stake r))].
Definition validator_info_body (v : ValidatorInfo) : Json :=
  JObject [("address"%string, JString (vi_address v)); ("stake"%string, JString (vi_stake v))].
Definition validators_body (l : list ValidatorInfo) : Json := JObject [("validators"%string, JArray (map validator_info_body l))].
Definition tx_body_json (r : TxSubmitResponse) : Json :=
  JObject [("tx_hash"%string, JString (ts_tx_hash r)); ("status"%string, text (ts_status r))].

(** [Result<Json<T>, Response>] *)
Definition answer {A} (body : A -> Json) (r : Response A) : Answer :=
  match r with Ok a => json_answer (body a) | Err e => error_answer e end.
End Bodies.

(** ** Serving a request *)

Section Serve.
Context `{BuildProfile} `{Blake3} `{Scale} `{Hex} `{Serde} `{JsonText} `{Rejections} `{TxText}.
Context {D : Type} `{StorageEngine D}.

Definition reply (guard : AppState D) (a : Answer) : outcome (AppState D * Answer) := Ret (guard, a).

(** An endpoint on the captures of its path; the last case is no path of the table. *)
Definition endpoint (guard : AppState D) (now : Z) (e : Endpoint) (caps : list bytes) (body : bytes) :
    outcome (AppState D * Answer) :=
  match e, caps with
  | HealthEp, [] => r ← health_handler guard; reply guard (json_answer (health_body r))
  | HeightEp, [] => r ← height_handler guard; reply guard (json_answer (height_body r))
  | EraEp, [] => r ← era_handler guard; reply guard (json_answer (era_body r))
  | GenesisEp, [] => reply guard (json_answer (genesis_body (genesis_handler guard)))
  | ValidatorsEp, [] => reply guard (json_answer (validators_body (validators_handler guard)))
  | BlockLatestEp, [] => r ← block_latest_handler guard; reply guard (answer id r)
  | BlockByHeightEp, [s] =>
      match u64_from_str s with
      | Some height => reply guard (answer id (block_by_height_handler guard height))
      | None => reply guard (path_rejection s)
      end
  | BlockByHashEp, [s] => r ← block_by_hash_handler guard s; reply guard (answer id r)
  | BalanceEp, [s] => r ← balance_handler guard s; reply guard (answer balance_body r)
  | NonceEp, [s] => r ← nonce_handler guard s; reply guard (answer nonce_body r)
  | ValidatorEp, [s] => reply guard (answer validator_body (validator_handler guard s))
  | TxEp, [] =>
      match tx_from_json body with
      | Some tx => '(guard, r) ← tx_submit_handler guard now tx; reply guard (answer tx_body_json r)
      | None => reply guard (json_rejection body)
      end
  | _, _ => reply guard (mkAnswer 500 [])
  end.

Context `{!Axum Endpoint}.

Definition serve (guard : AppState D) (now : Z) (m : HttpMethod) (path : list bytes) (body : bytes) :
    outcome (AppState D * Answer) :=
  match route build_router m path with
  | Err refusal => reply guard refusal
  | Ok (e, caps) => endpoint guard now e caps body
  end.
End Serve.

(** ** Requests and handlers *)

Section Dispatch.
Context `{BuildProfile} `{Blake3} `{Scale} `{Hex} `{Serde} `{JsonText} `{Rejections} `{TxText}.
Context {D : Type} `{StorageEngine D}.
Context `{!Axum Endpoint} `{!AxumOk Endpoint}.

Lemma router_distinct : NoDup (map fst build_router).
Proof. apply (bool_decide_unpack _). vm_compute. reflexivity. Qed.

(** A row of the table. *)
Ltac in_router := apply (bool_decide_unpack _); vm_compute; reflexivity.

Lemma serve_literal (guard : AppState D) now m e body (names : list string) :
  (m, map Lit names, e) ∈ build_router -> serve guard now m (map list_byte_of_string names) body = endpoint guard now e [] body.
Proof.
  intros Hin. unfold serve. rewrite (route_literal build_router m (map Lit names) e); [done|apply router_distinct|done| |].
  - intros (s & Es & _)%list_elem_of_fmap. discriminate Es.
  - clear. induction names as [|s names IH]; [done|]. cbn [map captures]. by rewrite decide_True.
Qed.

Lemma serve_capture (guard : AppState D) now m e body pattern path cs :
  (m, pattern, e) ∈ build_router -> captures pattern path = Some cs ->
  forallb (fun r => bool_decide (r.1.2 = pattern) || negb (bool_decide (is_Some (captures r.1.2 path)))) build_router = true ->
  serve guard now m path body = endpoint guard now e cs body.
Proof.
  intros Hin Hc Hother. unfold serve.
  rewrite (route_capture build_router m pattern e path cs); [done|apply router_distinct|done|done|].
  intros m' p' e' Hin' Hs. rewrite forallb_forall in Hother. specialize (Hother (m', p', e') (proj1 (list_elem_of_In _ _) Hin')).
  cbn [fst snd] in Hother. apply orb_true_iff in Hother as [E|E]; [by apply bool_decide_eq_true in E|].
  by rewrite bool_decide_eq_true_2 in E.
Qed.

(** A path of a name and a parameter; [/block] has a sibling, [/block/latest]. *)
Lemma serve_named (guard : AppState D) now name e s body : (GET, [Lit name; Capture], e) ∈ build_router ->
  name <> "block"%string -> serve guard now GET [list_byte_of_string name; s] body = endpoint guard now e [s] body.
Proof.
  intros Hin Hne. apply (serve_capture guard now GET e body [Lit name; Capture]); [done|cbn; by rewrite decide_True|].
  unfold build_router in Hin. repeat (apply elem_of_cons in Hin as [Hin|Hin]; [try discriminate Hin|]); try (by apply elem_of_nil in Hin);
    injection Hin as -> ->; try done; vm_compute; reflexivity.
Qed.

(** The last segment of a path under [/block]. *)
Lemma serve_block (guard : AppState D) now body (s : bytes) : s <> list_byte_of_string "latest" ->
  serve guard now GET [list_byte_of_string "block"; s] body = endpoint guard now BlockByHeightEp [s] body.
Proof.
  intros Hs. apply (serve_capture guard now GET BlockByHeightEp body [Lit "block"; Capture]); [in_router|done|].
  unfold build_router. cbn [forallb fst snd].
  assert (captures [Lit "block"; Lit "latest"] [list_byte_of_string "block"; s] = None) as ->
    by (cbn [captures]; rewrite decide_True by done; by rewrite decide_False).
  assert (captures [Lit "block"; Lit "hash"; Capture] [list_byte_of_string "block"; s] = None) as ->
    by (cbn [captures]; rewrite decide_True by done; by case_decide).
  vm_compute. reflexivity.
Qed.

(** The transaction a request submits, if it is a submission that can be read. *)
Definition submits (m : HttpMethod) (path : list bytes) (body : bytes) : option Transaction :=
  match route build_router m path with
  | Ok (TxEp, []) => tx_from_json body
  | _ => None
  end.

Lemma get_submits_nothing path body : submits GET path body = None.
Proof.
  unfold submits. destruct (route build_router GET path) as [[e cs]|] eqn:Er; [|done].
  destruct (route_sound _ _ _ _ _ Er) as (pattern & Hin & _). destruct e; try done.
  unfold build_router in Hin. repeat (apply elem_of_cons in Hin as [Hin|Hin]; [discriminate Hin|]). by apply elem_of_nil in Hin.
Qed.

(** What a request does to the shared state: a submission is the handler's, anything
    else changes nothing. *)
Lemma serve_inv (guard : AppState D) now m path body guard' a : serve guard now m path body = Ret (guard', a) ->
  match submits m path body with
  | Some tx => exists r, tx_submit_handler guard now tx = Ret (guard', r)
  | None => guard' = guard
  end.
Proof.
  unfold serve, submits. destruct (route build_router m path) as [[e cs]|refusal]; [|by intros [-> _]%Ret_pair_inj].
  intros Ee. destruct (decide (e = TxEp)) as [->|Hne].
  - destruct cs as [|c cs]; cbn [endpoint] in Ee; unfold reply in Ee; [|by apply Ret_pair_inj in Ee as [-> _]].
    destruct (tx_from_json body) as [tx|]; [|by apply Ret_pair_inj in Ee as [-> _]].
    apply bind_Ret_inv in Ee as ([guard1 r] & Et & Ee). apply Ret_pair_inj in Ee as [-> _]. by exists r.
  - replace (match e with TxEp => _ | _ => None end) with (@None Transaction) by (by destruct e).
    destruct e; try done; destruct cs as [|c [|c' cs]]; cbn [endpoint] in Ee; unfold reply in Ee;
      repeat (first [apply bind_Ret_inv in Ee as (? & _ & Ee)|case_match]); by apply Ret_pair_inj in Ee as [-> _].
Qed.

Lemma serve_frame (guard : AppState D) now m path body guard' a : serve guard now m path body = Ret (guard', a) ->
  app_engine guard' = app_engine guard /\ app_state guard' = app_state guard /\ app_height guard' = app_height guard.
Proof.
  intros E%serve_inv. destruct (submits m path body) as [tx|]; [|by subst]. destruct E as [r Et].
  unfold tx_submit_handler in Et. apply bind_Ret_inv in Et as ([mp result] & _ & Et).
  destruct result; by apply Ret_pair_inj in Et as [<- _].
Qed.

(** Every request reaches its handler, and no query changes the node.  Each path
    of the table is served by its handler, [/block/latest] before any height;
    a height is read as [u64::from_str] reads it, so that printed heights are
    found; paths that match nothing are refused; no GET changes the shared state, and
    a POST at most its mempool. *)
Theorem router_dispatch (guard : AppState D) (now : Z) (body : bytes) :
  (forall (names : list string) e, (GET, map Lit names, e) ∈ build_router ->
     serve guard now GET (map list_byte_of_string names) body = endpoint guard now e [] body) /\
  (forall name e s, (GET, [Lit name; Capture], e) ∈ build_router -> name <> "block"%string ->
     serve guard now GET [list_byte_of_string name; s] body = endpoint guard now e [s] body) /\
  (forall s, serve guard now GET [list_byte_of_string "block"; list_byte_of_string "hash"; s] body =
     endpoint guard now BlockByHashEp [s] body) /\
  (forall h, is_u64 h -> serve guard now GET [list_byte_of_string "block"; u64_to_string h] body =
     Ret (guard, answer id (block_by_height_handler guard h))) /\
  (forall m path guard' a, serve guard now m path body = Ret (guard', a) ->
     ((forall pattern e, (m, pattern, e) ∈ build_router -> captures pattern path = None) -> is_success a = false) /\
     (m = GET -> guard' = guard) /\
     app_engine guard' = app_engine guard /\ app_state guard' = app_state guard /\ app_height guard' = app_height guard).
Proof.
  split; [intros names e Hin; by apply serve_literal|]. split; [intros; by apply serve_named|].
  split; [intros s; apply (serve_capture guard now GET BlockByHashEp body [Lit "block"; Lit "hash"; Capture]);
    [in_router|done|vm_compute; reflexivity]|].
  split.
  { intros h Hh. pose proof (u64_roundtrip h Hh) as Hr. rewrite serve_block by (intros E; rewrite E in Hr; discriminate Hr).
    cbn [endpoint]. by rewrite Hr. }
  intros m path guard' a E. split; [|split].
  - intros Hno. unfold serve in E. destruct (route build_router m path) as [[e cs]|refusal] eqn:Er.
    + destruct (route_sound _ _ _ _ _ Er) as (pattern & Hin & Hcs). by rewrite (Hno _ _ Hin) in Hcs.
    + apply Ret_pair_inj in E as [_ <-]. by apply (route_refused _ _ _ _ Er).
  - intros ->. pose proof (serve_inv _ _ _ _ _ _ _ E) as Hi. by rewrite get_submits_nothing in Hi.
  - by apply (serve_frame _ _ _ _ _ _ _ E).
Qed.
End Dispatch.

(** ** Instances *)

Lemma nodup_fst {A B} (l : list (A * B)) a b b' : NoDup (map fst l) -> (a, b) ∈ l -> (a, b') ∈ l -> b = b'.
Proof.
  induction l as [|[x y] l IH]; intros Hn Hb Hb'; [by apply elem_of_nil in Hb|]. cbn [map] in Hn.
  apply NoDup_cons in Hn as [Hx Hn]. apply elem_of_cons in Hb as [Hb|Hb]; apply elem_of_cons in Hb' as [Hb'|Hb']; simplify_eq.
  - done.
  - destruct Hx. apply list_elem_of_fmap. by exists (x, b').
  - destruct Hx. apply list_elem_of_fmap. by exists (x, b).
  - by apply IH.
Qed.

Lemma list_byte_of_string_inj s s' : list_byte_of_string s = list_byte_of_string s' -> s = s'.
Proof. intros E. by rewrite <- (string_of_list_byte_of_string s), E, string_of_list_byte_of_string. Qed.

Lemma literal_unique p p' path : Capture ∉ p -> Capture ∉ p' -> captures p path = Some [] -> captures p' path = Some [] -> p = p'.
Proof.
  revert p' path. induction p as [|[s|] p IH]; intros p' path Hp Hp' E E'; [| |set_solver].
  - destruct path; [|done]. destruct p' as [|[s'|] p']; [done|done|set_solver].
  - destruct path as [|x path]; [done|]. destruct p' as [|[s'|] p']; [done| |set_solver]. cbn [captures] in E, E'.
    case_decide as Hx; [|done]. case_decide as Hx'; [|done]. rewrite Hx in Hx'. apply list_byte_of_string_inj in Hx' as ->.
    f_equal. apply (IH p' path); [set_solver..|done|done].
Qed.

Module ToyHttp.
Import ToyInstances.

(** A literal route if there is one, else the first that matches. *)
#[export] Instance toy_axum (E : Type) : Axum E := {|
  route table m path :=
    match list_find (fun r => r.1.1 = m /\ (Capture ∉ r.1.2) /\ captures r.1.2 path = Some []) table with
    | Some (_, r) => Ok (r.2, [])
    | None =>
        match list_find (fun r => r.1.1 = m /\ is_Some (captures r.1.2 path)) table with
        | Some (_, r) => Ok (r.2, default [] (captures r.1.2 path))
        | None => Err (mkAnswer 404 [])
        end
    end
|}.

#[export] Instance toy_axum_ok (E : Type) : AxumOk E.
Proof.
  split; cbn [route toy_axum].
  - intros table m pattern e path Hn Hin Hlit Hc. destruct (list_find _ table) as [[i [[m' p'] e']]|] eqn:Ef.
    + apply list_find_Some in Ef as (Hi & (Em & Hl & Hc') & _). apply list_elem_of_lookup_2 in Hi. simpl in *. subst m'.
      assert (p' = pattern) as -> by (by eapply literal_unique). by rewrite (nodup_fst table (m, pattern) e' e).
    + apply list_find_None in Ef. rewrite Forall_forall in Ef. by destruct (Ef _ Hin).
  - intros table m pattern e path cs Hn Hin Hc Hother.
    destruct (list_find _ table) as [[i [[m' p'] e']]|] eqn:Ef.
    + apply list_find_Some in Ef as (Hi & (Em & Hl & Hc') & _). apply list_elem_of_lookup_2 in Hi. simpl in *. subst m'.
      assert (p' = pattern) as -> by (by eapply Hother). rewrite (nodup_fst table (m, pattern) e' e) by done. congruence.
    + destruct (list_find _ table) as [[i [[m' p'] e']]|] eqn:Ef2 in |- *.
      * apply list_find_Some in Ef2 as (Hi & (Em & Hs) & _). apply list_elem_of_lookup_2 in Hi. simpl in *. subst m'.
        assert (p' = pattern) as -> by (by eapply Hother). rewrite (nodup_fst table (m, pattern) e' e) by done. by rewrite Hc.
      * apply list_find_None in Ef2. rewrite Forall_forall in Ef2. destruct (Ef2 _ Hin). by split.
  - intros table m path e cs. destruct (list_find _ table) as [[i [[m' p'] e']]|] eqn:Ef.
    + apply list_find_Some in Ef as (Hi & (Em & Hl & Hc') & _). apply list_elem_of_lookup_2 in Hi. simpl in *. subst m'.
      intros [= -> <-]. by exists p'.
    + destruct (list_find _ table) as [[i [[m' p'] e']]|] eqn:Ef2 in |- *; [|done].
      apply list_find_Some in Ef2 as (Hi & (Em & [c Hc]) & _). apply list_elem_of_lookup_2 in Hi. simpl in *. subst m'.
      rewrite Hc. intros [= -> <-]. by exists p'.
  - intros table m path a. repeat (case_match; try done). by intros [= <-].
Qed.

(** JSON as the positive of its tree. *)
Abbreviation leaf := (bool + Z + bytes + string)%type.

Fixpoint json_tree (j : Json) : gen_tree leaf :=
  match j with
  | JNull => GenNode 0 []
  | JBool b => GenLeaf (inl (inl (inl b)))
  | JNumber z => GenLeaf (inl (inl (inr z)))
  | JString s => GenLeaf (inl (inr s))
  | JArray l => GenNode 1 (map json_tree l)
  | JObject fields => GenNode 2 (map (fun p => GenNode 3 [GenLeaf (inr p.1); json_tree p.2]) fields)
  end.

Fixpoint tree_json (t : gen_tree leaf) : Json :=
  match t with
  | GenLeaf (inl (inl (inl b))) => JBool b
  | GenLeaf (inl (inl (inr z))) => JNumber z
  | GenLeaf (inl (inr s)) => JString s
  | GenNode 1 l => JArray (map tree_json l)
  | GenNode 2 l => JObject (map (fun t => match t with GenNode _ [GenLeaf (inr k); t] => (k, tree_json t) | _ => (""%string, JNull) end) l)
  | _ => JNull
  end.

Lemma tree_json_tree : forall j, tree_json (json_tree j) = j.
Proof.
  fix IH 1. intros [|b|z|s|l|fields]; try reflexivity; simpl; f_equal.
  - induction l as [|j l IHl]; [done|]. simpl. by rewrite (IH j), IHl.
  - induction fields as [|[k j] fields IHf]; [done|]. simpl. by rewrite (IH j), IHf.
Qed.

#[export] Instance toy_json : JsonText := {|
  json_to_string j := positive_bytes (encode (json_tree j));
  json_to_string_pretty j := x7b :: positive_bytes (encode (json_tree j));
  json_from_str s := tree_json <$> decode (bytes_positive s);
  json_normal j := j
|}.

#[export] Instance toy_json_ok : JsonTextOk.
Proof.
  split; try done. intros j _. cbn [json_from_str json_to_string json_normal toy_json].
  rewrite bytes_positive_bytes, decode_encode. cbn [fmap option_fmap option_map]. by rewrite tree_json_tree.
Qed.

#[export] Instance toy_rejections : Rejections := {| path_rejection _ := mkAnswer 400 []; json_rejection _ := mkAnswer 422 [] |}.
#[export] Instance toy_rejections_ok : RejectionsOk.
Proof. by split. Qed.
#[export] Instance toy_tx_text : TxText := {| tx_from_json s := decode_all sc_tx s |}.
End ToyHttp.

Import ToyInstances MemStorage ToyHttp.
#[local] Existing Instance toy_serde.

(** Printed and read back; more digits than fit, and a sign. *)
Example parse_heights : u64_to_string 907 = list_byte_of_string "907" /\
  map u64_from_str [list_byte_of_string "+12"; list_byte_of_string "18446744073709551616"; list_byte_of_string "-1"; []] =
    [Some 12; None; None; None].
Proof. split; vm_compute; reflexivity. Qed.

Lemma router_dispatch_witness :
  serve app_ex 5 GET [list_byte_of_string "block"; u64_to_string 0] [] = Ret (app_ex, answer id (block_by_height_handler app_ex 0)) /\
  serve app_ex 5 GET [list_byte_of_string "health"] [] = endpoint app_ex 5 HealthEp [] [].
Proof.
  destruct (router_dispatch app_ex 5 []) as (Hlit & _ & _ & Hh & _). split; [apply Hh; by split|].
  apply (Hlit ["health"%string]). unfold build_router. by left.
Defined.
