(* ===== verification/Errors.v ===== *)
(** * Error texts ([error.rs])

    The display of [LibError], as its [thiserror] attributes give it.  A text
    identifies the error it was printed from, with one exception: the two free
    texts of a checksum mismatch. *)
From Stdlib Require Import Strings.Byte Strings.String.
From stdpp Require Import base gmap sets list strings countable.
From Stdlib Require Import ZArith Lia.
From S2P Require Import Prelude Types External Toy Account Router.

(** A [U256] has at most 78 digits. *)
Definition u256_to_string (z : Z) : bytes := dec_digits 78 z [].

Abbreviation txt s := (list_byte_of_string s%string) (only parsing).

Definition error_display `{Hex} (e : LibError) : bytes :=
  match e with
  | InvalidSignature => txt "invalid signature"
  | InsufficientBalance have need =>
      txt "insufficient balance: have " ++ u256_to_string have ++ txt ", need " ++ u256_to_string need
  | InvalidNonce expected got =>
      txt "invalid nonce: expected " ++ u64_to_string expected ++ txt ", got " ++ u64_to_string got
  | AccountNotFound a => txt "account not found: " ++ hex_bytes_display (hex_bytes a)
  | ValidatorNotFound a => txt "validator not found: " ++ hex_bytes_display (hex_bytes a)
  | BlockNotFound h => txt "block not found: " ++ u64_to_string h
  | TxNotFound => txt "tx not found"
  | ProposalNotFound => txt "proposal not found"
  | GovernanceRejected m => txt "governance action rejected: " ++ list_byte_of_string m
  | Storage m => txt "storage error: " ++ list_byte_of_string m
  | CodecError m => txt "serialization error: " ++ list_byte_of_string m
  | Consensus m => txt "consensus error: " ++ list_byte_of_string m
  | Crypto m => txt "crypto error: " ++ list_byte_of_string m
  | Network m => txt "network error: " ++ list_byte_of_string m
  | InvalidAddress m => txt "invalid address: " ++ list_byte_of_string m
  | EquivocationHeightMismatch a b =>
      txt "equivocation: header height mismatch (a=" ++ u64_to_string a ++ txt ", b=" ++ u64_to_string b ++ txt ")"
  | EquivocationParentMismatch => txt "equivocation: parent hash mismatch"
  | EquivocationIdenticalBlocks => txt "equivocation: headers are identical"
  | EquivocationSigAInvalid => txt "equivocation: signature A is invalid"
  | EquivocationSigBInvalid => txt "equivocation: signature B is invalid"
  | ChecksumMismatch expected computed =>
      txt "address checksum mismatch: expected " ++ list_byte_of_string expected ++
      txt ", computed " ++ list_byte_of_string computed
  | AlreadyFrozen => txt "validator is already frozen"
  end.

(** The ranges of the numbers an error carries. *)
Definition error_valid (e : LibError) : Prop :=
  match e with
  | InsufficientBalance a b => is_u256 a /\ is_u256 b
  | InvalidNonce a b | EquivocationHeightMismatch a b => is_u64 a /\ is_u64 b
  | BlockNotFound h => is_u64 h
  | _ => True
  end.

Definition free_texts (e : LibError) : bool := match e with ChecksumMismatch _ _ => true | _ => false end.

(** ** Decimal numbers are read back, and end where their digits end *)

Definition is_digit (b : byte) : Prop := is_Some (digit_value b).

Lemma digit_is_digit d : 0 <= d < 10 -> is_digit (digit d).
Proof. intros Hd. unfold is_digit. rewrite digit_value_digit by done. by eexists. Qed.

Definition read_dec (s : bytes) : Z := foldl (fun acc b => acc * 10 + default 0 (digit_value b)) 0 s.

Lemma dec_digits_app n : forall z rest, dec_digits n z rest = dec_digits n z [] ++ rest.
Proof.
  induction n as [|n IH]; intros z rest; simpl; [done|]. destruct (z <? 10); [done|].
  rewrite IH, (IH _ [_]), <- app_assoc. done.
Qed.

Lemma dec_digits_digits n : forall z, 0 <= z -> Forall is_digit (dec_digits n z []).
Proof.
  induction n as [|n IH]; intros z Hz; simpl; [constructor|]. destruct (Z.ltb_spec z 10).
  - constructor; [by apply digit_is_digit|constructor].
  - rewrite dec_digits_app. apply Forall_app. split; [apply IH, Z.div_pos; lia|].
    constructor; [apply digit_is_digit, Z.mod_pos_bound; lia|constructor].
Qed.

Lemma read_dec_digits n : forall z, 0 <= z < 10 ^ Z.of_nat n -> (0 < n)%nat -> read_dec (dec_digits n z []) = z.
Proof.
  induction n as [|n IH]; intros z Hz Hn; [lia|]. cbn [dec_digits]. destruct (Z.ltb_spec z 10).
  - unfold read_dec. simpl. rewrite digit_value_digit by lia. done.
  - rewrite Nat2Z.inj_succ, Z.pow_succ_r in Hz by lia.
    assert (0 <= z / 10 < 10 ^ Z.of_nat n) as Hd by (split; [apply Z.div_pos; lia|apply Z.div_lt_upper_bound; lia]).
    assert (1 <= z / 10) by (apply Z.div_le_lower_bound; lia).
    destruct n as [|n]; [change (10 ^ Z.of_nat 0) with 1 in Hd; lia|].
    rewrite dec_digits_app. unfold read_dec. rewrite foldl_app. fold (read_dec (dec_digits (S n) (z / 10) [])).
    rewrite IH by (done || lia). cbn [foldl]. rewrite digit_value_digit by (apply Z.mod_pos_bound; lia).
    cbn [from_option id]. pose proof (Z.div_mod z 10 ltac:(lia)). lia.
Qed.

Lemma u64_text_inj a b : is_u64 a -> is_u64 b -> u64_to_string a = u64_to_string b -> a = b.
Proof.
  intros Ha Hb E. apply (f_equal read_dec) in E. unfold u64_to_string in E. unfold is_u64 in *.
  assert (W64 < 10 ^ Z.of_nat 20) by done. by rewrite !read_dec_digits in E by lia.
Qed.

Lemma u256_text_inj a b : is_u256 a -> is_u256 b -> u256_to_string a = u256_to_string b -> a = b.
Proof.
  intros Ha Hb E. apply (f_equal read_dec) in E. unfold u256_to_string in E. unfold is_u256 in *.
  assert (W256 < 10 ^ Z.of_nat 78) by by vm_compute. by rewrite !read_dec_digits in E by lia.
Qed.

Lemma u64_text_digits a : is_u64 a -> Forall is_digit (u64_to_string a).
Proof. intros [Ha _]. by apply dec_digits_digits. Qed.
Lemma u256_text_digits a : is_u256 a -> Forall is_digit (u256_to_string a).
Proof. intros [Ha _]. by apply dec_digits_digits. Qed.

(** Two texts of the form digits, separator, rest. *)
Lemma digits_sep (c : byte) : ~ is_digit c -> forall p p' r r',
  Forall is_digit p -> Forall is_digit p' -> p ++ c :: r = p' ++ c :: r' -> p = p' /\ r = r'.
Proof.
  intros Hc. induction p as [|x p IH]; intros [|x' p'] r r' Hp Hp' E; simpl in E.
  - split; [done|congruence].
  - injection E as -> _. by apply Forall_inv in Hp'.
  - injection E as -> _. by apply Forall_inv in Hp.
  - injection E as -> E. apply IH in E as [-> ->]; [done|by eapply Forall_inv_tail|by eapply Forall_inv_tail].
Qed.

Lemma no_digit b : digit_value b = None -> ~ is_digit b.
Proof. unfold is_digit. by intros -> []. Qed.

Lemma string_bytes_inj (s s' : string) : list_byte_of_string s = list_byte_of_string s' -> s = s'.
Proof. intros E. apply (f_equal string_of_list_byte) in E. by rewrite !string_of_list_byte_of_string in E. Qed.

Lemma hex_display_inj `{Hex} `{!HexOk} (a b : HexBytes) :
  hex_bytes_display (hex_bytes a) = hex_bytes_display (hex_bytes b) -> a = b.
Proof.
  destruct a as [a], b as [b]. unfold hex_bytes_display. simpl. intros [= E].
  apply (f_equal hex_decode) in E. rewrite !hex_decode_encode in E. injection E as E. f_equal. by apply array_eq.
Qed.

(** Two texts with different beginnings. *)
Ltac tell_apart E :=
  exfalso; revert E;
  repeat match goal with
  | |- context [u256_to_string ?z] => generalize (u256_to_string z); intro
  | |- context [u64_to_string ?z] => generalize (u64_to_string z); intro
  | |- context [hex_bytes_display ?z] => generalize (hex_bytes_display z); intro
  | m : string |- _ => generalize (list_byte_of_string m); intro; clear m
  end; vm_compute; discriminate.

(** A printed error identifies the error, but for the texts of a checksum mismatch. *)
Theorem error_text_identifies `{Hex} `{!HexOk} (e e' : LibError)
    (Hv : error_valid e) (Hv' : error_valid e') (Hf : free_texts e = false) :
  error_display e = error_display e' <-> e = e'.
Proof.
  split; [|by intros ->]. intros E.
  destruct e, e'; cbn [error_display free_texts error_valid] in *; try done; try (tell_apart E);
    try (apply app_inv_head in E).
  all: try (by apply hex_display_inj in E as ->); try (by apply string_bytes_inj in E as ->).
  - destruct Hv, Hv'. apply (digits_sep x2c) in E as [E1 E2]; [|by apply no_digit|by apply u256_text_digits..].
    apply u256_text_inj in E1 as ->; [|done..]. injection E2 as E2.
    by apply u256_text_inj in E2 as ->.
  - destruct Hv, Hv'. apply (digits_sep x2c) in E as [E1 E2]; [|by apply no_digit|by apply u64_text_digits..].
    apply u64_text_inj in E1 as ->; [|done..]. injection E2 as E2.
    by apply u64_text_inj in E2 as ->.
  - by apply u64_text_inj in E as ->.
  - destruct Hv, Hv'. apply (digits_sep x2c) in E as [E1 E2]; [|by apply no_digit|by apply u64_text_digits..].
    apply u64_text_inj in E1 as ->; [|done..]. injection E2 as E2.
    apply (digits_sep x29 (no_digit x29 eq_refl) _ _ [] []) in E2 as [E2 _]; [|by apply u64_text_digits..].
    by apply u64_text_inj in E2 as ->.
Qed.

Example checksum_texts_ambiguous : let e := ChecksumMismatch "a, computed b" "c" in
  let e' := ChecksumMismatch "a" "b, computed c" in
  e <> e' /\ error_display (H := toy_hex) e = error_display (H := toy_hex) e'.
Proof. by split. Qed.
