(* ===== verification/Rpc.v ===== *)
(** * The JSON-RPC server ([rpc/server.rs], [rpc/config.rs], [rpc/state.rs])

    The query methods, block identifiers, transaction submission and the
    subscription loops, over the server's own application state.  Parameter
    parsing and transport are jsonrpsee's: a method takes its parsed parameter.
    Formatted error texts keep their constant part. *)
From Stdlib Require Import Strings.Byte Strings.String.
From stdpp Require Import base gmap sets list strings countable sorting.
From Stdlib Require Import ZArith Lia.
From S2P Require Import Prelude Types External Toy Trie Account State Ledger Refine Scenario Schedule Mempool Storage Genesis Finality Slashing Engine Config Rest.

(** ** Configuration and error codes ([rpc/config.rs]) *)

Record RpcConfig := mkRpcConfig { rpc_cfg_port : Z; rest_cfg_port : Z; max_connections : Z }.

Definition DEFAULT_MAX_CONNECTIONS : Z := 100.
Definition RpcConfig_default : RpcConfig := mkRpcConfig DEFAULT_RPC_PORT DEFAULT_REST_PORT DEFAULT_MAX_CONNECTIONS.

Inductive RpcErrorCode :=
| Success | Internal | InvalidParams | TxValidation | RpcBlockNotFound | RpcTxNotFound | AddressNotFound | RateLimited.

Definition message (c : RpcErrorCode) : string :=
  match c with
  | Success => "success"
  | Internal => "internal error"
  | InvalidParams => "invalid parameters"
  | TxValidation => "transaction validation failed"
  | RpcBlockNotFound => "block not found"
  | RpcTxNotFound => "transaction not found"
  | AddressNotFound => "address not found"
  | RateLimited => "rate limited"
  end.

Definition code (c : RpcErrorCode) : Z :=
  match c with
  | Success => 0
  | Internal => -1
  | InvalidParams => -2
  | TxValidation => -3
  | RpcBlockNotFound => -4
  | RpcTxNotFound => -5
  | AddressNotFound => -6
  | RateLimited => -7
  end.

(** ** Shared state ([rpc/state.rs]) *)

(** A [std::sync::RwLock]: poisoned once a writer has panicked. *)
Record RwLock (A : Type) := mkLock { lk_value : A; lk_poisoned : bool }.
Arguments mkLock {_} _ _.
Arguments lk_value {_} _.
Arguments lk_poisoned {_} _.

Definition lock_read {A} (l : RwLock A) : option A := if lk_poisoned l then None else Some (lk_value l).

Record RpcState (D : Type) := mkRpc {
  rs_storage : D;
  rs_state_machine : RwLock StateMachine;
  rs_mempool : RwLock Mempool;
  rs_peers : list bytes;               (* what [p2p.connected_peers()] answers *)
  rs_consensus : ConsensusEngine;
  rs_chain_id : Z;
  rs_genesis_hash : array 32
}.
Arguments mkRpc {_} _ _ _ _ _ _ _.
Arguments rs_storage {_} _.
Arguments rs_state_machine {_} _.
Arguments rs_mempool {_} _.
Arguments rs_peers {_} _.
Arguments rs_consensus {_} _.
Arguments rs_chain_id {_} _.
Arguments rs_genesis_hash {_} _.

(** [AppState::new]; nothing sends on the event channels it creates. *)
Definition RpcState_new {D} (storage : D) (state_machine : RwLock StateMachine) (mempool : RwLock Mempool) (p2p : list bytes)
    (consensus : ConsensusEngine) (chain_id : Z) (genesis_hash : array 32) : RpcState D :=
  mkRpc storage state_machine mempool p2p consensus chain_id genesis_hash.

(** An error object: its code and message. *)
Abbreviation RpcResult A := (result (Z * string) A).

Section Methods.
Context `{BuildProfile} `{Blake3} `{Scale} `{Hex} `{Serde}.
Context {D : Type} `{StorageEngine D}.

(** ** Helpers *)

Definition load_block (storage : D) (height : Z) : option Block :=
  match st_get storage BLOCKS (to_be_bytes 8 height) with
  | Ok (Some bytes) => decode_all sc_block bytes
  | _ => None
  end.

(** [None] when the lock is poisoned, too. *)
Definition rpc_load_account (state : RpcState D) (addr : Address) : outcome (option Account) :=
  match lock_read (rs_state_machine state) with
  | None => Ret None
  | Some sm => get_account sm addr
  end.

(** [to_value(..).unwrap_or_default()] *)
Definition or_null (o : option Json) : Json := default JNull o.

(** ** Chain methods *)

Definition chain_get_health (app : RpcState D) : Json :=
  let finalized := last_finalized_height <$> commit_tracker (rs_consensus app) in
  JObject [("status"%string, JString (list_byte_of_string "ok"));
           ("height"%string, JNumber (current_height (rs_consensus app)));
           ("chain_id"%string, JNumber (rs_chain_id app));
           ("peers"%string, JNumber 0);
           ("finalized_height"%string, JNumber (default 0 finalized))].

Definition chain_get_height (app : RpcState D) : Json := JNumber (current_height (rs_consensus app)).
Definition chain_get_genesis (app : RpcState D) : Json := JString (hex_encode (array_bytes (rs_genesis_hash app))).
Definition era_current (app : RpcState D) : Json := JNumber (era_at_height (current_height (rs_consensus app))).

(** ** State methods *)

Definition state_get_balance (app : RpcState D) (addr_str : bytes) : outcome (RpcResult Json) :=
  match rpc_parse_address addr_str with
  | Err e => Ret (Err e)
  | Ok addr =>
      o ← rpc_load_account app addr;
      Ret (Ok (JObject [("balance"%string, JString (u256_hex_alt (from_option balance 0 o)))]))
  end.

Definition state_get_nonce (app : RpcState D) (addr_str : bytes) : outcome (RpcResult Json) :=
  match rpc_parse_address addr_str with
  | Err e => Ret (Err e)
  | Ok addr => o ← rpc_load_account app addr; Ret (Ok (JObject [("nonce"%string, JNumber (from_option nonce 0 o))]))
  end.

Definition lock_error : Z * string := (-1, "lock error"%string).

Definition rpc_validator_stake (app : RpcState D) (addr_str : bytes) : RpcResult Json :=
  addr <-! rpc_parse_address addr_str;
  sm <-! ok_or (lock_read (rs_state_machine app)) lock_error;
  Ok (JObject [("stake"%string, JString (u256_hex_alt (default 0 (validator_stake sm addr))))]).

Definition validator_set (app : RpcState D) : RpcResult Json :=
  sm <-! ok_or (lock_read (rs_state_machine app)) lock_error;
  Ok (JArray (map (fun addr =>
    JObject [("address"%string, JString (hex_encode (array_bytes (as_bytes addr))));
             ("stake"%string, JString (u256_hex (default 0 (validator_stake sm addr))))]) (active_set sm))).

(** ** Block methods *)

Definition block_latest (app : RpcState D) : Json :=
  match load_block (rs_storage app) (current_height (rs_consensus app)) with
  | Some block => or_null (block_to_value block)
  | None => JNull
  end.

Definition not_found : Z * string := (-4, "block not found"%string).

(** The scan for a header hash: [while h > 0], [n] iterations at most. *)
Fixpoint scan_hash (storage : D) (hash : bytes) (h : Z) (n : nat) : option Z :=
  match n with
  | O => None
  | S n =>
      if h <=? 0 then None
      else
        match load_block storage h with
        | Some block =>
            if bool_decide (array_bytes (header_hash (blk_header block)) = hash) then Some h
            else scan_hash storage hash (h - 1) n
        | None => scan_hash storage hash (h - 1) n
        end
  end.

(** A JSON number is an integer here; [as_u64] rejects what is out of range. *)
Definition block_id_to_height (raw : Json) (app : RpcState D) : RpcResult Z :=
  match raw with
  | JNumber n => if (0 <=? n) && (n <? W64) then Ok n else Err (-2, "invalid block height"%string)
  | JString s =>
      if bool_decide (s = list_byte_of_string "latest") then Ok (current_height (rs_consensus app))
      else
        match hex_decode (trim_start_0x s) with
        | None => Err (-2, "invalid hex hash"%string)
        | Some hash =>
            if negb (bool_decide (length hash = 32%nat)) then Err (-2, "hash must be 32 bytes"%string)
            else
              let h := current_height (rs_consensus app) in
              match scan_hash (rs_storage app) hash h (Z.to_nat h) with
              | Some h => Ok h
              | None => Err (-4, "block not found by hash"%string)
              end
        end
  | _ => Err (-2, "block id must be number, 'latest', or hex hash"%string)
  end.

Definition block_header (app : RpcState D) (raw : Json) : RpcResult Json :=
  height <-! block_id_to_height raw app;
  block <-! ok_or (load_block (rs_storage app) height) not_found;
  Ok (or_null (header_to_value (blk_header block))).

Definition block_get (app : RpcState D) (raw : Json) : RpcResult Json :=
  height <-! block_id_to_height raw app;
  block <-! ok_or (load_block (rs_storage app) height) not_found;
  Ok (or_null (block_to_value block)).

(** ** Transactions *)

Definition with_mempool (app : RpcState D) (mp : RwLock Mempool) : RpcState D :=
  mkRpc (rs_storage app) (rs_state_machine app) mp (rs_peers app) (rs_consensus app) (rs_chain_id app) (rs_genesis_hash app).

(** The result of [insert] is dropped; a panic inside it poisons the lock. *)
Definition tx_submit (app : RpcState D) (now : Z) (hex_tx : bytes) : RpcState D * outcome (RpcResult Json) :=
  match hex_decode (trim_start_0x hex_tx) with
  | None => (app, Ret (Err (-3, "invalid tx hex"%string)))
  | Some raw =>
      match decode_all sc_tx raw with
      | None => (app, Ret (Err (-3, "invalid tx data"%string)))
      | Some tx =>
          let tx_id := hex_encode (array_bytes (tx_hash tx)) in
          match lock_read (rs_mempool app) with
          | None => (app, Ret (Err (-1, "mempool lock"%string)))
          | Some mp =>
              match insert_tx mp now tx with
              | Panic => (with_mempool app (mkLock mp true), Panic)
              | Ret (mp, _) =>
                  (with_mempool app (mkLock mp false),
                   Ret (Ok (JObject [("tx_hash"%string, JString (str_0x ++ tx_id))])))
              end
          end
      end
  end.

Definition tx_status (app : RpcState D) (tx_hash : bytes) : Json :=
  JObject [("status"%string, JString (list_byte_of_string "unknown"))].

(** ** Network and governance *)

(** [Handle::block_on] panics on a thread that is driving asynchronous tasks. *)
Definition network_peers (may_block : bool) (app : RpcState D) : outcome Json :=
  if may_block then Ret (JArray (map (fun pid => JObject [("peer_id"%string, JString pid)]) (rs_peers app))) else Panic.

Definition governance_proposals (app : RpcState D) : Json := JArray [].
Definition governance_params (app : RpcState D) : Json := JArray [].
End Methods.

(** ** Subscriptions *)

(** What [rx.recv()] gives, and the loop of a subscription: [encode] makes the
    message of an event, [accepts i] is the outcome of the [i]-th send. *)
Inductive Recv (A : Type) := RecvOk (a : A) | RecvClosed | RecvLagged (n : Z).
Arguments RecvOk {_} _.
Arguments RecvClosed {_}.
Arguments RecvLagged {_} _.

Fixpoint serve_subscription {A M} (encode : A -> option M) (accepts : nat -> bool) (i : nat) (events : list (Recv A)) : list M :=
  match events with
  | [] => []
  | RecvOk a :: events =>
      match encode a with
      | None => serve_subscription encode accepts i events
      | Some msg =>
          if accepts i then msg :: serve_subscription encode accepts (S i) events else []
      end
  | RecvClosed :: _ => []
  | RecvLagged _ :: events => serve_subscription encode accepts i events
  end.

Section Events.
Context `{Serde}.

(** [from_json] of the message value: [None] when it cannot be serialised. *)
Definition subscribe_blocks {M} (from_json : Json -> option M) (header : BlockHeader) : option M :=
  from_json (or_null (header_to_value header)).
Definition subscribe_finality {M} (from_json : Json -> option M) (height : Z) : option M :=
  from_json (JObject [("height"%string, JNumber height)]).
Definition subscribe_votes {M} (vote_to_value : CommitVote -> option Json) (from_json : Json -> option M) (vote : CommitVote) : option M :=
  from_json (or_null (vote_to_value vote)).
End Events.

(** ** Block identifiers *)

Section Blocks.
Context `{BuildProfile} `{Blake3} `{Scale} `{Hex} `{Serde}.
Context {D : Type} `{StorageOk D} `{!StorageReliable D}.

Lemma load_block_stored (d : D) h : load_block d h = stored_block d h.
Proof.
  unfold load_block, stored_block, row.
  destruct (st_get_total d BLOCKS (to_be_bytes 8 h) ltac:(auto with tables)) as [o Hg]. rewrite Hg.
  apply st_get_view in Hg as ->. by destruct (_ !! _).
Qed.

(** The header of the block stored at [h] has this hash. *)
Definition hash_at (d : D) (h : Z) (hash : bytes) : Prop :=
  exists b, stored_block d h = Some b /\ array_bytes (header_hash (blk_header b)) = hash.

(** [n] iterations are enough from [h] on, and the scan finds the greatest height. *)
Lemma scan_hash_spec (d : D) hash h n : (Z.to_nat h <= n)%nat ->
  match scan_hash d hash h n with
  | Some k => 1 <= k <= h /\ hash_at d k hash /\ forall k', k < k' <= h -> ~ hash_at d k' hash
  | None => forall k, 1 <= k <= h -> ~ hash_at d k hash
  end.
Proof.
  revert h. induction n as [|n IH]; intros h Hn; simpl; [lia|].
  destruct (Z.leb_spec h 0) as [Hh|Hh]; [lia|]. rewrite load_block_stored.
  assert (forall b, stored_block d h = Some b -> array_bytes (header_hash (blk_header b)) <> hash -> ~ hash_at d h hash) as Hno.
  { intros b Hb Hne (b' & Hb' & E). congruence. }
  assert (~ hash_at d h hash -> match scan_hash d hash (h - 1) n with
    | Some k => 1 <= k <= h /\ hash_at d k hash /\ forall k', k < k' <= h -> ~ hash_at d k' hash
    | None => forall k, 1 <= k <= h -> ~ hash_at d k hash end) as Hstep.
  { intros Hnh. specialize (IH (h - 1) ltac:(lia)). destruct (scan_hash d hash (h - 1) n) as [k|].
    - destruct IH as (? & ? & Hk). split; [lia|]. split; [done|]. intros k' Hk'.
      destruct (decide (k' = h)) as [->|]; [done|]. apply Hk. lia.
    - intros k Hk. destruct (decide (k = h)) as [->|]; [done|]. apply IH. lia. }
  destruct (stored_block d h) as [b|] eqn:Hb; [|apply Hstep; intros (b & Hb' & _); congruence].
  case_bool_decide as E; [|apply Hstep; by eapply Hno].
  split; [lia|]. split; [by exists b|]. lia.
Qed.

End Blocks.

(** ** Instances *)

Import ToyInstances MemStorage.
#[local] Existing Instance toy_serde.

Definition rpc_ex : RpcState RedbEngine :=
  mkRpc loaded_ex (mkLock sm0 false) (mkLock pool0 false) [] engine_ex 7 (array_repeat 32 x00).

