(* ===== verification/RpcServer.v ===== *)
(** * The JSON-RPC module ([rpc/server.rs])

    [Rpc] has what each method answers; here they are registered under their names,
    as [start_rpc_server] does, and requests are dispatched.  The module of jsonrpsee
    and its parsing of parameters are type classes. *)
From Stdlib Require Import Strings.Byte Strings.String.
From stdpp Require Import base gmap sets list strings countable sorting.
From Stdlib Require Import ZArith Lia.
From S2P Require Import Prelude Types External Toy Trie Account State Ledger Refine Scenario Finality Schedule Mempool Storage Genesis Slashing Engine Rest Rpc.

(** [params.one::<String>()] and [params.one::<Value>()] of the text of the
    parameters, whether the thread a method is run on may block on a future, and the
    error for a name that is not registered. *)
Class RpcParams := {
  one_string : bytes -> RpcResult bytes;
  one_value : bytes -> RpcResult Json;
  may_block : bool;
  method_not_found : Z * string
}.

(** [RpcModule]: names are registered once. *)
Class RpcModule (M : Type) := {
  module : Type;
  module_new : module;
  register : module -> string -> M -> option module;
  find_method : module -> string -> option M
}.
Arguments module _ {_}.

Class RpcModuleOk (M : Type) `{RpcModule M} : Prop := {
  find_new name : find_method module_new name = None;
  register_taken m name f : register m name f = None <-> is_Some (find_method m name);
  register_find m name f m' : register m name f = Some m' ->
    forall k, find_method m' k = if decide (k = name) then Some f else find_method m k
}.

Inductive EventKind := BlockEvents | FinalityEvents | VoteEvents.

Section Server.
Context `{BuildProfile} `{Blake3} `{Scale} `{Hex} `{Serde} `{RpcParams}.
Context {D : Type} `{StorageEngine D}.

(** A registered name: a method on the shared state, or one end of a subscription. *)
Inductive Method :=
| Call (answer : RpcState D -> Z -> bytes -> RpcState D * outcome (RpcResult Json))
| Subscribe (kind : EventKind)
| Unsubscribe (kind : EventKind).

(** Methods that read: without parameters, with one string, with one value. *)
Definition reads (answer : RpcState D -> RpcResult Json) : Method := Call (fun app _ _ => (app, Ret (answer app))).
Definition reads_string (answer : RpcState D -> bytes -> outcome (RpcResult Json)) : Method :=
  Call (fun app _ params => (app, match one_string params with Ok s => answer app s | Err e => Ret (Err e) end)).
Definition reads_value (answer : RpcState D -> Json -> RpcResult Json) : Method :=
  Call (fun app _ params => (app, Ret (raw <-! one_value params; answer app raw))).

Definition chain_methods : list (string * Method) := [
  ("chain_get_health"%string, reads (fun app => Ok (chain_get_health app)));
  ("chain_get_height"%string, reads (fun app => Ok (chain_get_height app)));
  ("chain_get_genesis"%string, reads (fun app => Ok (chain_get_genesis app)));
  ("era_current"%string, reads (fun app => Ok (era_current app)))].

Definition state_methods : list (string * Method) := [
  ("state_get_balance"%string, reads_string state_get_balance);
  ("state_get_nonce"%string, reads_string state_get_nonce);
  ("validator_stake"%string, reads_string (fun app s => Ret (rpc_validator_stake app s)));
  ("validator_set"%string, reads validator_set)].

Definition block_methods : list (string * Method) := [
  ("block_latest"%string, reads (fun app => Ok (block_latest app)));
  ("block_header"%string, reads_value block_header);
  ("block_get"%string, reads_value block_get)].

Definition tx_methods : list (string * Method) := [
  ("tx_submit"%string, Call (fun app now params =>
     match one_string params with Ok hex_tx => tx_submit app now hex_tx | Err e => (app, Ret (Err e)) end));
  ("tx_status"%string, reads_string (fun app s => Ret (Ok (tx_status app s))))].

Definition network_methods : list (string * Method) := [
  ("network_peers"%string, Call (fun app _ _ => (app, j ← network_peers may_block app; Ret (Ok j))))].

Definition governance_methods : list (string * Method) := [
  ("governance_proposals"%string, reads (fun app => Ok (governance_proposals app)));
  ("governance_params"%string, reads (fun app => Ok (governance_params app)))].

(** A subscription takes two names. *)
Definition subscription_methods : list (string * Method) := [
  ("subscribe_blocks"%string, Subscribe BlockEvents); ("unsubscribe_blocks"%string, Unsubscribe BlockEvents);
  ("subscribe_finality"%string, Subscribe FinalityEvents); ("unsubscribe_finality"%string, Unsubscribe FinalityEvents);
  ("subscribe_votes"%string, Subscribe VoteEvents); ("unsubscribe_votes"%string, Unsubscribe VoteEvents)].

Context `{!RpcModule Method}.

Fixpoint register_all (m : module Method) (methods : list (string * Method)) : option (module Method) :=
  match methods with
  | [] => Some m
  | (name, f) :: methods => m ← register m name f; register_all m methods
  end.

(** [bound] is the result of building the server on its address. *)
Definition start_rpc_server (bound : result string unit) : result string (module Method) :=
  _ <-! bound;
  ok_or (m ← register_all module_new chain_methods;
         m ← register_all m state_methods;
         m ← register_all m block_methods;
         m ← register_all m tx_methods;
         m ← register_all m network_methods;
         m ← register_all m governance_methods;
         register_all m subscription_methods) "method already registered"%string.

(** A request; a subscription is accepted and served by its loop. *)
Definition rpc_request (m : module Method) (app : RpcState D) (now : Z) (name : string) (params : bytes) :
    RpcState D * outcome (RpcResult Json) :=
  match find_method m name with
  | Some (Call answer) => answer app now params
  | Some _ => (app, Ret (Ok JNull))
  | None => (app, Ret (Err method_not_found))
  end.

(** ** The server as it starts *)

Definition rpc_methods : list (string * Method) :=
  chain_methods ++ state_methods ++ block_methods ++ tx_methods ++ network_methods ++ governance_methods ++ subscription_methods.

Context `{!RpcModuleOk Method}.

Lemma register_all_app m l1 l2 : register_all m (l1 ++ l2) = (m' ← register_all m l1; register_all m' l2).
Proof.
  revert m. induction l1 as [|[name f] l1 IH]; intros m; [done|]. cbn [register_all app].
  destruct (register m name f); simpl; [apply IH|done].
Qed.

(** Distinct fresh names are all registered, and nothing else is. *)
Lemma register_all_spec methods : forall m, NoDup (map fst methods) -> (forall name, name ∈ map fst methods -> find_method m name = None) ->
  exists m', register_all m methods = Some m' /\
  forall k, find_method m' k = match (list_to_map methods : gmap string Method) !! k with Some f => Some f | None => find_method m k end.
Proof.
  induction methods as [|[name f] methods IH]; intros m Hn Hf; [exists m; split; [done|]; done|].
  cbn [map] in Hn. apply NoDup_cons in Hn as [Hname Hn]. cbn [register_all].
  destruct (register m name f) as [m1|] eqn:E.
  2:{ apply register_taken in E as [g Eg]. rewrite Hf in Eg; [done|by left]. }
  pose proof (register_find _ _ _ _ E) as Hm1. cbn [mbind option_bind].
  destruct (IH m1 Hn) as (m' & Em & Hm').
  { intros k Hk. rewrite Hm1, decide_False by (intros ->; done). apply Hf. by right. }
  exists m'. split; [done|]. intros k. rewrite Hm'. cbn [list_to_map foldr uncurry]. rewrite Hm1.
  destruct (decide (k = name)) as [->|Hk]; [|by rewrite lookup_insert_ne].
  rewrite lookup_insert_eq. destruct (list_to_map methods !! name) eqn:El; [|done].
  exfalso. apply Hname. apply elem_of_list_to_map_2 in El. apply list_elem_of_fmap. by exists (name, m0).
Qed.

Lemma rpc_names_distinct : NoDup (map fst rpc_methods).
Proof. apply (bool_decide_unpack _). vm_compute. reflexivity. Qed.

Lemma start_rpc_server_ok : exists m, start_rpc_server (Ok tt) = Ok m /\
  forall name, find_method m name = (list_to_map rpc_methods : gmap string Method) !! name.
Proof.
  destruct (register_all_spec rpc_methods module_new rpc_names_distinct) as (m & Em & Hm); [intros; apply find_new|].
  exists m. split.
  { unfold start_rpc_server. cbn [and_then]. unfold rpc_methods in Em.
    repeat (rewrite register_all_app in Em; destruct (register_all _ _) as [?|]; [|done]; cbn [mbind option_bind] in *).
    by rewrite Em. }
  intros name. rewrite Hm, find_new. by destruct (_ !! name).
Qed.

Lemma start_rpc_server_inv bound m : start_rpc_server bound = Ok m ->
  forall name, find_method m name = (list_to_map rpc_methods : gmap string Method) !! name.
Proof.
  destruct bound as [[]|e]; [|done]. destruct start_rpc_server_ok as (m' & E & Hm). rewrite E. by intros [= <-].
Qed.

(** Of all requests only [tx_submit] changes the shared state, in its mempool alone. *)
Lemma rpc_request_frame m app now name params app' r :
  (forall name, find_method m name = (list_to_map rpc_methods : gmap string Method) !! name) ->
  rpc_request m app now name params = (app', r) ->
  app' = app \/ name = "tx_submit"%string /\ exists mp, app' = with_mempool app mp.
Proof.
  intros Hfind E. unfold rpc_request in E.
  destruct (find_method m name) as [f|] eqn:Ef; [|left; congruence]. rewrite Hfind in Ef.
  apply elem_of_list_to_map_2 in Ef. unfold rpc_methods, chain_methods, state_methods, block_methods, tx_methods, network_methods,
    governance_methods, subscription_methods in Ef. cbn [List.app] in Ef.
  repeat (apply elem_of_cons in Ef as [Ef|Ef]; [injection Ef as -> ->; cbn beta iota in E; try (injection E as <- _; by left)|]); [|by apply elem_of_nil in Ef].
  destruct (one_string params) as [hex_tx|]; [|left; congruence]. unfold tx_submit in E.
  repeat case_match; try (left; congruence); right; (split; [done|]); eexists; injection E as <- _; done.
Qed.

(** The server answers every registered name, and requests cannot touch the
    chain.  On an address that binds, the server starts: no name is registered
    twice.  A name it knows is served by the method listed for it, any other is
    refused as not found, and of all requests only [tx_submit] changes the shared
    state, in the server's mempool alone. *)
Theorem rpc_requests_served (bound : result string unit) (Hbound : bound = Ok tt) :
  exists m, start_rpc_server bound = Ok m /\
  (forall name, find_method m name = (list_to_map rpc_methods : gmap string Method) !! name) /\
  (forall name, is_Some (find_method m name) <-> name ∈ map fst rpc_methods) /\
  forall app now name params app' r, rpc_request m app now name params = (app', r) ->
    (name ∉ map fst rpc_methods -> app' = app /\ r = Ret (Err method_not_found)) /\
    (app' = app \/ name = "tx_submit"%string /\ exists mp, app' = with_mempool app mp).
Proof.
  subst bound. destruct start_rpc_server_ok as (m & Em & Hfind). exists m. split; [done|].
  assert (forall name, is_Some (find_method m name) <-> name ∈ map fst rpc_methods) as Hsome.
  { intros name. rewrite Hfind. split.
    - intros [f Hf]. apply elem_of_list_to_map_2 in Hf. apply list_elem_of_fmap. by exists (name, f).
    - intros Hin. destruct (_ !! name) eqn:E; [done|]. apply not_elem_of_list_to_map_2 in E. done. }
  do 2 (split; [done|]). intros app now name params app' r E. split; [|by eapply rpc_request_frame].
  intros Hname. unfold rpc_request in E. destruct (find_method m name) as [f|] eqn:Ef; [|by simplify_eq].
  destruct Hname. apply Hsome. by exists f.
Qed.
End Server.

(** ** Instances *)

Import ToyInstances MemStorage.
#[local] Existing Instance toy_serde.

#[local] Instance map_module (M : Type) : RpcModule M := {|
  module := gmap string M;
  module_new := ∅;
  register m name f := match m !! name with Some _ => None | None => Some (<[name := f]> m) end;
  find_method m name := m !! name
|}.

#[local] Instance map_module_ok (M : Type) : RpcModuleOk M.
Proof.
  split; [done| |].
  - intros m name f. cbn in m |- *. destruct (m !! name) as [g|]; [split; [intros _; by exists g|done]|split; [done|intros [? [=]]]].
  - intros m name f m' E k. cbn in m, m', E |- *. destruct (m !! name); [done|]. injection E as <-.
    destruct (decide (k = name)) as [->|Hk]; [apply lookup_insert_eq|by apply lookup_insert_ne].
Qed.

#[local] Instance toy_params : RpcParams := {|
  one_string s := Ok s; one_value s := Ok (JString s); may_block := false; method_not_found := (-32601, "Method not found"%string)
|}.

Lemma rpc_requests_served_witness : exists m, start_rpc_server (D := RedbEngine) (Ok tt) = Ok m /\
  is_Some (find_method m "tx_submit"%string) /\
  rpc_request m rpc_ex 5 "chain_head"%string [] = (rpc_ex, Ret (Err method_not_found)).
Proof.
  destruct (rpc_requests_served (D := RedbEngine) (Ok tt) eq_refl) as (m & Em & Hfind & Hnames & Hreq). exists m. split; [exact Em|].
  split.
  - apply Hnames, (bool_decide_unpack _). vm_compute. reflexivity.
  - destruct (rpc_request m rpc_ex 5 "chain_head"%string []) as [app' r] eqn:E.
    destruct (Hreq _ _ _ _ _ _ E) as [Hno _]. destruct Hno as [-> ->]; [|reflexivity].
    apply (bool_decide_unpack _). vm_compute. reflexivity.
Defined.
