(* ===== verification/Wallet.v ===== *)
(** * The wallet ([mononium-cli/src/wallet.rs], [crypto/falcon.rs], [crypto/signature.rs])

    The [SignatureScheme] trait as an interface with its laws, the Falcon-512
    implementation over the [falcon-rs] crate, key files, amount parsing, and the
    transactions the commands build, sign and post.  The node is the answer to a
    balance query; transport and printing are left out. *)
From Stdlib Require Import Strings.Byte Strings.String.
From stdpp Require Import base gmap sets list strings countable sorting.
From Stdlib Require Import ZArith Lia.
From S2P Require Import Prelude Types External Toy Trie Account State Ledger Refine Scenario Mempool Storage Genesis Finality Schedule Slashing Engine Config Rest.

(** ** The signature scheme ([crypto/signature.rs]) *)

Class SignatureScheme := {
  KeyPair : Type;
  generate : bytes -> Result KeyPair;
  sign : KeyPair -> bytes -> outcome (Result Falcon512Signature);
  verify : array 897 -> bytes -> Falcon512Signature -> bool;
  public_key_bytes : KeyPair -> outcome (array 897);
  private_key_bytes : KeyPair -> outcome (array 1281);
  from_private_key : bytes -> Result KeyPair
}.

(** What a client relies on: sizes are fixed, a private key restores its pair, and
    what a pair signs verifies under its public key. *)
Class SignatureOk `{SignatureScheme} : Prop := {
  public_key_total kp : exists pk, public_key_bytes kp = Ret pk;
  private_key_total kp : exists sk, private_key_bytes kp = Ret sk;
  from_private_key_restores kp sk : private_key_bytes kp = Ret sk -> from_private_key (array_bytes sk) = Ok kp;
  sign_verifies kp pk msg sig : public_key_bytes kp = Ret pk -> sign kp msg = Ret (Ok sig) ->
    verify pk msg sig = true /\ length (sig_bytes sig) = FALCON_SIGNATURE_SIZE
}.

(** ** Falcon-512 ([crypto/falcon.rs]) over the [falcon-rs] crate *)

Definition FALCON_LOGN : Z := 9.
Definition FALCON_PRIVATE_KEY_SIZE : nat := 1281.
Definition FALCON_SEED_SIZE : nat := 48.

Class FnDsa := {
  fn_keypair : Type;
  fn_generate : bytes -> Z -> option fn_keypair;
  fn_public_key : fn_keypair -> bytes;
  fn_private_key : fn_keypair -> bytes;
  fn_sign : fn_keypair -> bytes -> option bytes;
  fn_from_private_key : bytes -> option fn_keypair
}.

Class FnDsaOk `{FnDsa} `{Falcon} : Prop := {
  fn_public_key_size kp : length (fn_public_key kp) = FALCON_PUBLIC_KEY_SIZE;
  fn_private_key_size kp : length (fn_private_key kp) = FALCON_PRIVATE_KEY_SIZE;
  fn_private_restores kp : fn_from_private_key (fn_private_key kp) = Some kp;
  fn_sign_size kp msg s : fn_sign kp msg = Some s -> length s = FALCON_SIGNATURE_SIZE;
  fn_sign_verifies kp msg s pk : fn_sign kp msg = Some s -> array_bytes pk = fn_public_key kp ->
    falcon_verify s pk msg = true
}.

(** [arr.copy_from_slice(slice)]: panics when the lengths differ. *)
Definition copy_from_slice (n : nat) (slice : bytes) : outcome (array n) := unwrap (array_of_list n slice).

Section Falcon512.
Context `{BuildProfile} `{FnDsa} `{Falcon}.

Record Falcon512KeyPair := mkKeyPair { inner : fn_keypair }.

Definition falcon_public_key_bytes (self : Falcon512KeyPair) : outcome (array 897) :=
  copy_from_slice 897 (fn_public_key (inner self)).

Definition falcon_private_key_bytes (self : Falcon512KeyPair) : outcome (array 1281) :=
  copy_from_slice 1281 (fn_private_key (inner self)).

Definition falcon_generate (seed : bytes) : Result Falcon512KeyPair :=
  match fn_generate seed FALCON_LOGN with
  | Some kp => Ok (mkKeyPair kp)
  | None => Err (Crypto "key generation failed")
  end.

Definition falcon_sign (keypair : Falcon512KeyPair) (msg : bytes) : outcome (Result Falcon512Signature) :=
  match fn_sign (inner keypair) msg with
  | None => Ret (Err (Crypto "signing failed"))
  | Some sig =>
      _ ← debug_assert (Nat.eqb (length sig) FALCON_SIGNATURE_SIZE);
      Ret (Ok (mkSignature sig))
  end.

Definition falcon_verify_sig (pubkey : array 897) (msg : bytes) (sig : Falcon512Signature) : bool :=
  falcon_verify (sig_bytes sig) pubkey msg.

Definition falcon_from_private_key (bs : bytes) : Result Falcon512KeyPair :=
  match fn_from_private_key bs with
  | Some kp => Ok (mkKeyPair kp)
  | None => Err (Crypto "invalid private key")
  end.

#[export] Instance Falcon512 : SignatureScheme := {|
  KeyPair := Falcon512KeyPair;
  generate := falcon_generate;
  sign := falcon_sign;
  verify := falcon_verify_sig;
  public_key_bytes := falcon_public_key_bytes;
  private_key_bytes := falcon_private_key_bytes;
  from_private_key := falcon_from_private_key
|}.

Lemma copy_from_slice_Ret n s a : copy_from_slice n s = Ret a <-> array_bytes a = s.
Proof.
  unfold copy_from_slice, unwrap. destruct (array_of_list n s) as [a'|] eqn:E.
  - apply array_of_list_Some in E. split; [by intros [= <-]|]. intros <-. f_equal. by apply array_eq.
  - split; [done|]. intros Ha. apply array_of_list_Some in Ha. congruence.
Qed.

Lemma copy_from_slice_total n s : length s = n -> exists a, copy_from_slice n s = Ret a.
Proof. intros Hl. destruct (array_of_list_len n s Hl) as (a & Ea & _). exists a. unfold copy_from_slice. by rewrite Ea. Qed.

Lemma copy_from_slice_Panic n s : length s <> n -> copy_from_slice n s = Panic.
Proof.
  intros Hl. destruct (copy_from_slice n s) as [a|] eqn:E; [|done]. apply copy_from_slice_Ret in E.
  subst s. by rewrite array_length in Hl.
Qed.

(** The implementation keeps the promise of the trait. *)
#[export] Instance Falcon512_ok `{!FnDsaOk} : SignatureOk.
Proof.
  split.
  - intros [kp]. apply copy_from_slice_total, fn_public_key_size.
  - intros [kp]. apply copy_from_slice_total, fn_private_key_size.
  - intros [kp] sk E. apply copy_from_slice_Ret in E. simpl in *. unfold falcon_from_private_key.
    by rewrite E, fn_private_restores.
  - intros [kp] pk msg sig Hpk Hs. apply copy_from_slice_Ret in Hpk. simpl in *. unfold falcon_sign in Hs.
    destruct (fn_sign _ msg) as [s|] eqn:E; [|done]. apply bind_Ret_inv in Hs as (_ & _ & Hs). simplify_eq. simpl in *.
    split; [by eapply fn_sign_verifies|by eapply fn_sign_size].
Qed.
End Falcon512.

(** ** Key files *)

Record KeyFile := mkKeyFile {
  kf_public_key : bytes;
  kf_private_key : bytes;
  kf_seed : bytes;
  kf_address : bytes
}.

(** [serde_json] on key files. *)
Class KeyFileText := {
  keyfile_to_string : KeyFile -> option bytes;
  keyfile_from_str : bytes -> option KeyFile
}.

Class KeyFileTextOk `{KeyFileText} : Prop :=
  keyfile_roundtrip kf s : keyfile_to_string kf = Some s -> keyfile_from_str s = Some kf.

(** The files of the machine: writing a file may fail. *)
Abbreviation Files := (gmap string bytes).

Section Keys.
Context `{BuildProfile} `{Blake3} `{Hex} `{KeyFileText} `{SignatureScheme}.

Definition key_path (env : Env) (name : string) : string := path_join (default_key_dir env) (name ++ ".json").

Definition key_file_of (kp : KeyPair) (seed : bytes) : outcome KeyFile :=
  pk_bytes ← public_key_bytes kp;
  sk_bytes ← private_key_bytes kp;
  Ret (mkKeyFile (str_0x ++ hex_encode (array_bytes pk_bytes)) (str_0x ++ hex_encode (array_bytes sk_bytes))
         (str_0x ++ hex_encode seed) (format_address (derive_address pk_bytes))).

(** [seed] is the random seed; the write goes through. *)
Definition keygen (env : Env) (files : Files) (seed : bytes) (name : string) : outcome (Files * result AnyError KeyFile) :=
  match generate seed with
  | Err e => Ret (files, Err (FromLib e))
  | Ok kp =>
      key_file ← key_file_of kp seed;
      match keyfile_to_string key_file with
      | None => Ret (files, Err (Anyhow "failed to serialize key file"))
      | Some json => Ret (<[key_path env name := json]> files, Ok key_file)
      end
  end.

Definition load_key (env : Env) (files : Files) (name : string) : result AnyError KeyFile :=
  match files !! key_path env name with
  | None => Err (Anyhow "failed to read key file")
  | Some json => ok_or (keyfile_from_str json) (Anyhow "failed to parse key file")
  end.

(** The pair of a key file: decode the private key and restore. *)
Definition restore_pair (key_file : KeyFile) : result AnyError KeyPair :=
  sk_bytes <-! ok_or (hex_decode (strip_0x (kf_private_key key_file))) (Anyhow "invalid private key hex");
  map_err (fun _ => Anyhow "failed to restore key pair") (from_private_key sk_bytes).
End Keys.

(** ** Amounts *)

Definition dot : byte := x2e.

(** [s.split('.')] *)
Fixpoint split_dot (s : bytes) : list bytes :=
  match s with
  | [] => [[]]
  | b :: s =>
      let parts := split_dot s in
      if decide (b = dot) then [] :: parts
      else match parts with p :: parts => (b :: p) :: parts | [] => [[b]] end
  end.

Definition parse_monex_amount `{GenesisText} (s : bytes) : result AnyError Z :=
  match
    match split_dot s with
    | [integer_str] => Some (integer_str, [])
    | [integer_str; fractional_str] => Some (integer_str, fractional_str)
    | _ => None
    end
  with
  | None => Err (Anyhow "invalid amount format")
  | Some (integer_str, fractional_str) =>
      if Nat.ltb 32 (length fractional_str) then Err (Anyhow "too many decimal places (max 32)")
      else
        let fractional := fractional_str ++ List.repeat x30 (32 - length fractional_str) in
        ok_or (from_dec_str (integer_str ++ fractional)) (Anyhow "invalid amount")
  end.

(** ** Commands *)

Section Commands.
Context `{BuildProfile} `{Blake3} `{Hex} `{KeyFileText} `{SignatureScheme} `{Scale} `{GenesisText}.

(** The node's answer to [GET /balance/{address}]; [None] when the request or the
    parsing of its body fails. *)
Abbreviation BalanceQuery := (bytes -> option (Response BalanceResponse)).

(** [bal_data["nonce"].as_u64().unwrap_or(0)]: an error body has no nonce. *)
Definition nonce_of_response (r : Response BalanceResponse) : Z :=
  match r with Ok b => br_nonce b | Err _ => 0 end.

(** A run of a command: it panics, fails, or posts a transaction. *)
Abbreviation command := (outcome (result AnyError Transaction)).

Definition placeholder_signature : Falcon512Signature := mkSignature (List.repeat x00 FALCON_SIGNATURE_SIZE).

(** Build, sign and post: the shared tail of [transfer] and [submit_tx].
    [query_addr] is the account the nonce is read from. *)
Definition sign_and_post (kp : KeyPair) (node : BalanceQuery) (query_addr : Address) (body : TxBody) : command :=
  match node (str_0x ++ hex_encode (array_bytes (as_bytes query_addr))) with
  | None => Ret (Err (Anyhow "failed to query nonce"))
  | Some bal_data =>
      pk ← public_key_bytes kp;
      let tx := mkTransaction 0 (nonce_of_response bal_data) (derive_address pk) DEFAULT_FLAT_FEE body
                  placeholder_signature in
      s ← sign kp (enc sc_tx tx);
      match s with
      | Err _ => Ret (Err (Anyhow "failed to sign transaction"))
      | Ok sig => Ret (Ok (mkTransaction (tx_chain_id tx) (tx_nonce tx) (tx_sender tx) (tx_fee tx) (tx_body tx) sig))
      end
  end.

(** The balance command: what is printed of the node's answer. *)
Definition balance_command (node : BalanceQuery) (address : bytes) : result AnyError (bytes * bytes * Z) :=
  match node address with
  | None => Err (Anyhow "failed to query")
  | Some (Err e) => Err (Anyhow "RPC error")
  | Some (Ok r) => Ok (address, br_balance r, br_nonce r)
  end.

Definition transfer (env : Env) (files : Files) (node : BalanceQuery) (to amount_monex : bytes) (key_name : string) : command :=
  match
    (key_file <-! load_key env files key_name;
     kp <-! restore_pair key_file;
     to_bytes <-! ok_or (hex_decode (strip_0x to)) (Anyhow "invalid recipient address hex");
     to_addr <-! ok_or (array_of_list 32 to_bytes) (Anyhow "recipient address must be 32 bytes");
     amount <-! parse_monex_amount amount_monex;
     Ok (kp, address_from to_addr, amount))
  with
  | Err e => Ret (Err e)
  | Ok (kp, recipient, amount) => sign_and_post kp node recipient (Transfer recipient amount)
  end.

Definition submit_tx (env : Env) (files : Files) (node : BalanceQuery) (key_name : string) (body : TxBody) : command :=
  match (key_file <-! load_key env files key_name; restore_pair key_file) with
  | Err e => Ret (Err e)
  | Ok kp => pk ← public_key_bytes kp; sign_and_post kp node (derive_address pk) body
  end.

Definition register_validator (env : Env) (files : Files) (node : BalanceQuery) (key_name : string) : command :=
  match
    (key_file <-! load_key env files key_name;
     pk_bytes <-! ok_or (hex_decode (strip_0x (kf_public_key key_file))) (Anyhow "invalid public key hex");
     ok_or (array_of_list 897 pk_bytes) (Anyhow "public key must be 897 bytes"))
  with
  | Err e => Ret (Err e)
  | Ok pk => submit_tx env files node key_name (RegisterValidator pk)
  end.

(** The validator address and the amount of [stake] and [unstake]. *)
Definition validator_and_amount (validator_addr amount_monex : bytes) : result AnyError (Address * Z) :=
  val_bytes <-! ok_or (hex_decode (strip_0x validator_addr)) (Anyhow "invalid validator address hex");
  raw <-! ok_or (array_of_list 32 val_bytes) (Anyhow "validator address must be 32 bytes");
  amount <-! parse_monex_amount amount_monex;
  Ok (address_from raw, amount).

Definition stake (env : Env) (files : Files) (node : BalanceQuery) (validator_addr amount_monex : bytes) (key_name : string) : command :=
  match validator_and_amount validator_addr amount_monex with
  | Err e => Ret (Err e)
  | Ok (validator, amount) => submit_tx env files node key_name (Stake validator amount)
  end.

Definition unstake (env : Env) (files : Files) (node : BalanceQuery) (validator_addr amount_monex : bytes) (key_name : string) : command :=
  match validator_and_amount validator_addr amount_monex with
  | Err e => Ret (Err e)
  | Ok (validator, amount) => submit_tx env files node key_name (Unstake validator amount)
  end.

(** The address of the key file is copied unchecked into 32 bytes. *)
Definition register_and_stake (env : Env) (files : Files) (node : BalanceQuery) (amount_monex : bytes) (key_name : string) : command :=
  match
    (key_file <-! load_key env files key_name;
     ok_or (hex_decode (strip_0x (kf_address key_file))) (Anyhow "invalid address hex"))
  with
  | Err e => Ret (Err e)
  | Ok addr_bytes =>
      raw ← copy_from_slice 32 addr_bytes;
      match parse_monex_amount amount_monex with
      | Err e => Ret (Err e)
      | Ok amount => submit_tx env files node key_name (RegisterAndStake (address_from raw) amount)
      end
  end.
End Commands.

Lemma ok_or_Ok {E A} (o : option A) (e : E) a : ok_or o e = Ok a <-> o = Some a.
Proof. destruct o; simpl; split; congruence. Qed.

(** ** Amounts denote decimal fractions of a MONEX *)

Definition is_digit (b : byte) : Prop := 48 <= byte_to_Z b <= 57.
#[export] Instance is_digit_dec b : Decision (is_digit b).
Proof. unfold is_digit. apply _. Defined.

Definition dec_value (s : bytes) : Z := foldl (fun acc b => 10 * acc + (byte_to_Z b - 48)) 0 s.

(** [U256::from_dec_str]: digits only, below [2^256]. *)
Class DecimalOk `{GenesisText} : Prop :=
  from_dec_str_spec s z : from_dec_str s = Some z <-> Forall is_digit s /\ z = dec_value s /\ dec_value s < W256.

Lemma dec_value_snoc s x : dec_value (s ++ [x]) = 10 * dec_value s + (byte_to_Z x - 48).
Proof. unfold dec_value. by rewrite foldl_app. Qed.

Lemma dec_value_app a b : dec_value (a ++ b) = dec_value a * 10 ^ Z.of_nat (length b) + dec_value b.
Proof.
  induction b as [|x b IH] using rev_ind; [rewrite app_nil_r; simpl; change (dec_value []) with 0; lia|].
  rewrite app_assoc, !dec_value_snoc, IH, length_app. cbn [length].
  rewrite Nat2Z.inj_add, Z.pow_add_r by lia. change (10 ^ Z.of_nat 1) with 10. ring.
Qed.

Lemma dec_value_zeros n : dec_value (List.repeat x30 n) = 0.
Proof.
  induction n as [|n IH]; [done|]. change (List.repeat x30 (S n)) with ([x30] ++ List.repeat x30 n).
  rewrite dec_value_app, IH. change (dec_value [x30]) with 0. lia.
Qed.

Lemma split_dot_none s : dot ∉ s -> split_dot s = [s].
Proof.
  induction s as [|b s IH]; [done|]. rewrite not_elem_of_cons. intros [Hb Hs]. simpl.
  rewrite decide_False by congruence. by rewrite IH.
Qed.

Lemma split_dot_app i f : dot ∉ i -> split_dot (i ++ dot :: f) = i :: split_dot f.
Proof.
  induction i as [|b i IH]; [done|]. rewrite not_elem_of_cons. intros [Hb Hs]. simpl.
  rewrite decide_False by congruence. by rewrite IH.
Qed.

Lemma split_dot_inv s p parts : split_dot s = p :: parts -> (dot ∉ p) /\
  match parts with [] => s = p | _ => exists t, s = p ++ dot :: t /\ split_dot t = parts end.
Proof.
  revert p parts. induction s as [|b s IH]; intros p parts E; simpl in E.
  { injection E as <- <-. split; [apply not_elem_of_nil|done]. }
  destruct (decide (b = dot)) as [->|Hb].
  - injection E as <- <-. split; [apply not_elem_of_nil|]. destruct (split_dot s) eqn:Es; [|by exists s].
    destruct s as [|x s]; simpl in Es; [done|]. destruct (decide (x = dot)); [done|]. by destruct (split_dot s).
  - destruct (split_dot s) as [|q qs] eqn:Es.
    { destruct s as [|x s]; simpl in Es; [done|]. destruct (decide (x = dot)); [done|]. by destruct (split_dot s). }
    injection E as <- <-. destruct (IH q qs eq_refl) as [Hq Hqs]. split; [by apply not_elem_of_cons|].
    destruct qs; [by rewrite Hqs|]. destruct Hqs as (t & -> & Ht). by exists t.
Qed.

Lemma digits_no_dot s : Forall is_digit s -> dot ∉ s.
Proof. intros Hs Hd. rewrite Forall_forall in Hs. specialize (Hs _ Hd). by destruct Hs as [Hs _]. Qed.

Lemma ONE_MONEX_val : ONE_MONEX = 10 ^ 32. Proof. reflexivity. Qed.

(** The value of [i.f] in MOXX. *)
Lemma padded_value i f : (length f <= 32)%nat ->
  dec_value (i ++ f ++ List.repeat x30 (32 - length f)) =
  dec_value i * ONE_MONEX + dec_value f * 10 ^ (32 - Z.of_nat (length f)).
Proof.
  intros Hf. rewrite !dec_value_app, dec_value_zeros, length_app, List.repeat_length, ONE_MONEX_val.
  replace (Z.of_nat (length f + (32 - length f))) with 32 by lia.
  replace (Z.of_nat (32 - length f)) with (32 - Z.of_nat (length f)) by lia. lia.
Qed.

(** C36: amounts.  A text is accepted exactly when it is digits, optionally a point
    and at most 32 more digits, and its value fits 256 bits; the result is then
    exactly that many MOXX, [10^32] to the MONEX, with no rounding.  Either part
    may be empty. *)
Theorem parse_monex_amount_correct `{DecimalOk} (s : bytes) (z : Z) :
  parse_monex_amount s = Ok z <->
  exists i f, ((s = i /\ f = []) \/ s = i ++ dot :: f) /\ Forall is_digit i /\ Forall is_digit f /\
    (length f <= 32)%nat /\ z = dec_value i * ONE_MONEX + dec_value f * 10 ^ (32 - Z.of_nat (length f)) /\ z < W256.
Proof.
  assert (forall i f, (if Nat.ltb 32 (length f) then @Err AnyError Z (Anyhow "too many decimal places (max 32)")
      else ok_or (from_dec_str (i ++ f ++ List.repeat x30 (32 - length f))) (Anyhow "invalid amount")) = Ok z <->
    Forall is_digit i /\ Forall is_digit f /\ (length f <= 32)%nat /\
    z = dec_value i * ONE_MONEX + dec_value f * 10 ^ (32 - Z.of_nat (length f)) /\ z < W256) as Hmain.
  { intros i f. destruct (Nat.ltb_spec 32 (length f)) as [Hf|Hf]; [split; [done|lia]|].
    pose proof (from_dec_str_spec (i ++ f ++ List.repeat x30 (32 - length f)) z) as Hspec.
    rewrite padded_value, !Forall_app in Hspec by done.
    assert (Forall is_digit (List.repeat x30 (32 - length f))) as Hz.
    { apply Forall_forall. intros b Hb%list_elem_of_In%repeat_spec. by subst b. }
    rewrite ok_or_Ok, Hspec. split; [intros ((? & ? & _) & -> & ?)|intros (? & ? & _ & -> & ?)]; done. }
  unfold parse_monex_amount. split.
  - destruct (split_dot s) as [|i [|f [|? ?]]] eqn:Es; try done.
    + apply split_dot_inv in Es as [_ ->]. rewrite Hmain. intros. exists i, []. split; [by left|done].
    + apply split_dot_inv in Es as (_ & t & -> & Et). apply split_dot_inv in Et as [_ ->].
      rewrite Hmain. intros. exists i, f. split; [by right|done].
  - intros (i & f & Hs & Hi & Hf & Hrest). pose proof (digits_no_dot _ Hi) as Hdi. pose proof (digits_no_dot _ Hf) as Hdf.
    destruct Hs as [[-> ->]| ->].
    + rewrite split_dot_none by done. apply Hmain. done.
    + rewrite split_dot_app, split_dot_none by done. apply Hmain. done.
Qed.

(** ** What the commands post *)

Section Posts.
Context `{BuildProfile} `{Blake3} `{Hex} `{!HexOk} `{KeyFileText} `{!KeyFileTextOk} `{SignatureScheme} `{!SignatureOk}.
Context `{Scale} `{GenesisText}.

Lemma strip_0x_app s : strip_0x (str_0x ++ s) = s.
Proof. unfold strip_0x. by rewrite starts_with_app. Qed.

(** A fresh key file reads back and restores its pair. *)
Lemma keygen_load env files seed name files' kf : keygen env files seed name = Ret (files', Ok kf) ->
  load_key env files' name = Ok kf /\ exists kp pk, generate seed = Ok kp /\ public_key_bytes kp = Ret pk /\
  restore_pair kf = Ok kp /\ kf_address kf = format_address (derive_address pk) /\
  kf_public_key kf = str_0x ++ hex_encode (array_bytes pk).
Proof.
  unfold keygen. destruct (generate seed) as [kp|e] eqn:Eg; [|done]. intros E.
  apply bind_Ret_inv in E as (kf' & Ek & E). destruct (keyfile_to_string kf') as [json|] eqn:Ej; [|done].
  simplify_eq. apply keyfile_roundtrip in Ej. split.
  { unfold load_key. by rewrite lookup_insert_eq, Ej. }
  unfold key_file_of in Ek. apply bind_Ret_inv in Ek as (pk & Epk & Ek). apply bind_Ret_inv in Ek as (sk & Esk & Ek).
  apply Ret_inj in Ek as <-. exists kp, pk. do 2 (split; [done|]). split; [|split; reflexivity]. unfold restore_pair. cbn [kf_private_key].
  rewrite strip_0x_app, hex_decode_encode. simpl. by rewrite (from_private_key_restores kp sk Esk).
Qed.

Lemma keygen_total env files seed name kp : generate seed = Ok kp -> (forall kf, is_Some (keyfile_to_string kf)) ->
  exists files' kf, keygen env files seed name = Ret (files', Ok kf).
Proof.
  intros Hg Hs. unfold keygen, key_file_of. rewrite Hg. destruct (public_key_total kp) as [pk ->].
  destruct (private_key_total kp) as [sk ->]. cbn [mbind outcome_bind].
  match goal with |- context [keyfile_to_string ?k] => destruct (Hs k) as [json ->] end. by eexists _, _.
Qed.

(** The text under which an address is queried, and its reading by the node. *)
Definition query_text (a : Address) : bytes := str_0x ++ hex_encode (array_bytes (as_bytes a)).

Lemma path_address_query a : path_address (query_text a) = Ok a.
Proof.
  unfold path_address, query_text, parse_raw_address. rewrite strip_0x_app, hex_decode_encode, array_of_list_bytes.
  by destruct a.
Qed.

(** [tx] is [body] sent by the owner of [pk], with the nonce the node reported for
    [a], and a signature that verifies over its unsigned form. *)
Definition posted (pk : array 897) (node : bytes -> option (Response BalanceResponse)) (a : Address) (body : TxBody)
    (tx : Transaction) : Prop :=
  exists r, node (query_text a) = Some r /\
  tx_chain_id tx = 0 /\ tx_nonce tx = nonce_of_response r /\ tx_sender tx = derive_address pk /\
  tx_fee tx = DEFAULT_FLAT_FEE /\ tx_body tx = body /\ signature_valid (tx_signature tx) /\
  verify pk (enc sc_tx (mkTransaction 0 (tx_nonce tx) (tx_sender tx) (tx_fee tx) body placeholder_signature))
    (tx_signature tx) = true.

Lemma sign_and_post_posted kp pk node a body tx : public_key_bytes kp = Ret pk ->
  sign_and_post kp node a body = Ret (Ok tx) -> posted pk node a body tx.
Proof.
  intros Hpk. unfold sign_and_post, posted, query_text. destruct (node _) as [r|]; [|done]. rewrite Hpk. simpl.
  intros E. apply bind_Ret_inv in E as ([sig|] & Es & E); [|done]. simplify_eq. exists r. simpl.
  destruct (sign_verifies _ _ _ _ Hpk Es) as [Hv Hl]. done.
Qed.

(** The pair behind a key name, and what its two posting paths post. *)
Definition names_pair (env : Env) (files : Files) (name : string) (kp : KeyPair) (pk : array 897) : Prop :=
  exists kf, load_key env files name = Ok kf /\ restore_pair kf = Ok kp /\ public_key_bytes kp = Ret pk.

Lemma submit_posts env files name kp pk node body tx : names_pair env files name kp pk ->
  submit_tx env files node name body = Ret (Ok tx) -> posted pk node (derive_address pk) body tx.
Proof.
  intros (kf & Hload & Hr & Hpk). unfold submit_tx. rewrite Hload. simpl. rewrite Hr, Hpk. simpl.
  by apply sign_and_post_posted.
Qed.

Lemma parse_raw_address_ok v bs r : hex_decode (strip_0x v) = Some bs -> array_of_list 32 bs = Some r ->
  parse_raw_address v = Ok r.
Proof. intros E1 E2. unfold parse_raw_address. by rewrite E1, E2. Qed.

Lemma transfer_posts env files name kp pk node to amt tx : names_pair env files name kp pk ->
  transfer env files node to amt name = Ret (Ok tx) ->
  exists r amount, parse_raw_address to = Ok r /\ parse_monex_amount amt = Ok amount /\
    posted pk node (address_from r) (Transfer (address_from r) amount) tx.
Proof.
  intros (kf & Hload & Hr & Hpk). unfold transfer. rewrite Hload. cbn [and_then]. rewrite Hr. cbn [and_then].
  destruct (hex_decode (strip_0x to)) as [bs|] eqn:Eh; [|done]. cbn [and_then ok_or].
  destruct (array_of_list 32 bs) as [r|] eqn:Er; [|done]. cbn [and_then ok_or].
  destruct (parse_monex_amount amt) as [amount|]; [|done]. cbn [and_then]. intros E.
  exists r, amount. split; [by eapply parse_raw_address_ok|]. split; [done|]. by eapply sign_and_post_posted.
Qed.

Lemma transfer_total env files name kp pk node to amt r amount resp : names_pair env files name kp pk ->
  parse_hex_addr to = Ok r -> parse_monex_amount amt = Ok amount -> node (query_text (address_from r)) = Some resp ->
  (forall msg, exists sig, sign kp msg = Ret (Ok sig)) -> exists tx, transfer env files node to amt name = Ret (Ok tx).
Proof.
  intros (kf & Hload & Hr & Hpk) Hto Hamt Hresp Hsign. unfold transfer, parse_hex_addr, query_text in *.
  rewrite Hload. cbn [and_then]. rewrite Hr. cbn [and_then]. destruct (hex_decode (strip_0x to)) as [bs|]; [|done].
  apply ok_or_Ok in Hto. cbn [and_then ok_or]. rewrite Hto. cbn [and_then ok_or]. rewrite Hamt. cbn [and_then].
  unfold sign_and_post. rewrite Hresp, Hpk. cbn [mbind outcome_bind].
  match goal with |- context [sign kp ?m] => destruct (Hsign m) as [sig ->] end. by eexists.
Qed.

(** The posting commands as functions of what their arguments denote. *)
Definition parsed (address amount : bytes) : option (Address * Z) :=
  match parse_raw_address address, parse_monex_amount amount with
  | Ok r, Ok z => Some (address_from r, z)
  | _, _ => None
  end.

(** What is posted is signed with the pair of the key. *)
Definition posts (kp : KeyPair) (pk : array 897) (node : bytes -> option (Response BalanceResponse)) (a : Address) (body : TxBody)
    (tx : Transaction) : Prop :=
  posted pk node a body tx /\
  sign kp (enc sc_tx (mkTransaction 0 (tx_nonce tx) (tx_sender tx) (tx_fee tx) body placeholder_signature)) = Ret (Ok (tx_signature tx)).

Lemma sign_and_post_iff kp pk node a body tx : public_key_bytes kp = Ret pk ->
  sign_and_post kp node a body = Ret (Ok tx) <-> posts kp pk node a body tx.
Proof.
  intros Hpk. split.
  - intros E. split; [by eapply sign_and_post_posted|]. unfold sign_and_post in E. destruct (node _) as [r|]; [|done]. rewrite Hpk in E.
    simpl in E. apply bind_Ret_inv in E as ([sig|] & Es & E); [|done]. by simplify_eq.
  - intros [(r & Hr & Hc & Hn & Hs & Hf & Hb & _) Hsig]. unfold sign_and_post, query_text in *. rewrite Hr, Hpk. cbn [mbind outcome_bind].
    rewrite Hn, Hs, Hf in Hsig. rewrite Hsig. cbn [mbind outcome_bind]. destruct tx. simpl in *. congruence.
Qed.

(** A command that parses its arguments, then signs and posts, or refuses them. *)
Definition runs (kp : KeyPair) (node : bytes -> option (Response BalanceResponse)) (c : outcome (result AnyError Transaction))
    (o : option (Address * TxBody)) : Prop :=
  match o with Some (a, body) => c = sign_and_post kp node a body | None => exists e, c = Ret (Err e) end.

Lemma runs_iff kp pk node c o tx : public_key_bytes kp = Ret pk -> runs kp node c o ->
  c = Ret (Ok tx) <-> exists a body, o = Some (a, body) /\ posts kp pk node a body tx.
Proof.
  intros Hpk. destruct o as [[a body]|]; cbn [runs].
  - intros ->. rewrite (sign_and_post_iff kp pk) by done. split; [by exists a, body|by intros (? & ? & [= <- <-] & ?)].
  - intros [e ->]. split; [done|by intros (? & ? & ? & _)].
Qed.

Lemma parsed_iff (o : option (Address * Z)) (f : Address * Z -> Address * TxBody) (P : Address -> TxBody -> Prop) :
  (exists a body, f <$> o = Some (a, body) /\ P a body) <-> exists a z, o = Some (a, z) /\ P (f (a, z)).1 (f (a, z)).2.
Proof.
  destruct o as [[a z]|]; cbn [fmap option_fmap option_map].
  - split; [intros (b & body & [= Ef] & HP); exists a, z; by rewrite Ef|].
    intros (b & y & [= <- <-] & HP). eexists _, _. split; [by rewrite <- surjective_pairing|done].
  - split; by intros (? & ? & ? & _).
Qed.

Lemma runs_refused kp node c o : runs kp node c o -> o = None \/ (forall q, node q = None) -> exists e, c = Ret (Err e).
Proof.
  destruct o as [[a body]|]; cbn [runs]; [|done]. intros -> [?|Hq]; [done|]. unfold sign_and_post. rewrite Hq. by eexists.
Qed.

Lemma transfer_runs env files name kp pk node to amt : names_pair env files name kp pk ->
  runs kp node (transfer env files node to amt name) ((fun p => (p.1, Transfer p.1 p.2)) <$> parsed to amt).
Proof.
  intros (kf & Hload & Hr & _). unfold transfer, parsed, parse_raw_address. rewrite Hload. cbn [and_then]. rewrite Hr. cbn [and_then].
  destruct (hex_decode (strip_0x to)) as [bs|]; [|by eexists]. cbn [and_then ok_or].
  destruct (array_of_list 32 bs) as [r|]; [|by eexists]. cbn [and_then ok_or].
  by destruct (parse_monex_amount amt); [|eexists].
Qed.

Lemma submit_eq env files name kp pk node body : names_pair env files name kp pk ->
  submit_tx env files node name body = sign_and_post kp node (derive_address pk) body.
Proof. intros (kf & Hload & Hr & Hpk). unfold submit_tx. rewrite Hload. cbn [and_then]. by rewrite Hr, Hpk. Qed.

Lemma validator_and_amount_parsed v amt :
  match parsed v amt with
  | Some p => validator_and_amount v amt = Ok p
  | None => exists e, validator_and_amount v amt = Err e
  end.
Proof.
  unfold validator_and_amount, parsed, parse_raw_address. destruct (hex_decode (strip_0x v)) as [bs|]; [|by eexists].
  cbn [and_then ok_or]. destruct (array_of_list 32 bs) as [r|]; [|by eexists]. cbn [and_then ok_or].
  by destruct (parse_monex_amount amt); [|eexists].
Qed.

Lemma stake_runs env files name kp pk node v amt : names_pair env files name kp pk ->
  runs kp node (stake env files node v amt name) ((fun p => (derive_address pk, Stake p.1 p.2)) <$> parsed v amt) /\
  runs kp node (unstake env files node v amt name) ((fun p => (derive_address pk, Unstake p.1 p.2)) <$> parsed v amt).
Proof.
  intros Hp. pose proof (validator_and_amount_parsed v amt) as Hv. unfold stake, unstake. destruct (parsed v amt) as [[a z]|].
  - rewrite Hv. cbn [fmap option_fmap option_map runs fst snd]. by rewrite !(submit_eq _ _ _ _ _ _ _ Hp).
  - destruct Hv as [e ->]. by split; eexists.
Qed.

(** The address of a generated key file is 40 bytes: nothing fits 32. *)
Lemma register_and_stake_posts_nothing env files name node amount kf pk : load_key env files name = Ok kf ->
  kf_address kf = format_address (derive_address pk) ->
  (forall tx, register_and_stake env files node amount name <> Ret (Ok tx)) /\
  ((forall a b, hex_encode a ++ hex_encode b = hex_encode (a ++ b)) -> register_and_stake env files node amount name = Panic).
Proof.
  intros Hload Ha. unfold register_and_stake. rewrite Hload. cbn [and_then]. rewrite Ha. unfold format_address.
  rewrite strip_0x_app. split.
  - intros tx. destruct (hex_decode _) as [bs|] eqn:E; cbn [ok_or]; [|done].
    apply hex_decode_length in E. rewrite length_app, !hex_encode_length, length_take, !array_length in E.
    by rewrite copy_from_slice_Panic by lia.
  - intros Hconcat. rewrite Hconcat, hex_decode_encode. cbn [ok_or].
    rewrite copy_from_slice_Panic; [done|]. rewrite length_app, length_take, !array_length. lia.
Qed.

(** C37: a command posts exactly what was asked, or nothing.  With a key file made by
    [keygen], whatever the node answers: [transfer] posts a transaction if and only if
    the recipient and the amount parse, the node answers for the recipient and the pair
    signs, and it then pays the amount to the recipient; [stake] and [unstake] likewise
    with the validator, asking the node about the sender, and [register-validator] with
    the public key of the file.  What is posted comes from the address of the key, with
    the flat fee, on chain 0 and signed so that the public key verifies it with its
    signature zeroed; its nonce is the one the node reported.  Arguments that do not
    parse and a node that does not answer are errors.  [register-and-stake] never posts
    anything: where hexadecimal digits can be concatenated it always panics. *)
Theorem wallet_posts_signed (env : Env) (files files' : Files) (seed : bytes) (name : string) (kf : KeyFile)
    (Hkey : keygen env files seed name = Ret (files', Ok kf)) :
  exists kp pk, generate seed = Ok kp /\ public_key_bytes kp = Ret pk /\
  (forall node to amt tx, transfer env files' node to amt name = Ret (Ok tx) <->
     exists a amount, parsed to amt = Some (a, amount) /\ posts kp pk node a (Transfer a amount) tx) /\
  (forall node v amt tx, stake env files' node v amt name = Ret (Ok tx) <->
     exists a amount, parsed v amt = Some (a, amount) /\ posts kp pk node (derive_address pk) (Stake a amount) tx) /\
  (forall node v amt tx, unstake env files' node v amt name = Ret (Ok tx) <->
     exists a amount, parsed v amt = Some (a, amount) /\ posts kp pk node (derive_address pk) (Unstake a amount) tx) /\
  (forall node tx, register_validator env files' node name = Ret (Ok tx) <->
     posts kp pk node (derive_address pk) (RegisterValidator pk) tx) /\
  (forall node v amt c, parsed v amt = None \/ (forall q, node q = None) ->
     c ∈ [transfer env files' node v amt name; stake env files' node v amt name; unstake env files' node v amt name] ->
     exists e, c = Ret (Err e)) /\
  (forall node amt tx, register_and_stake env files' node amt name <> Ret (Ok tx)) /\
  ((forall a b, hex_encode a ++ hex_encode b = hex_encode (a ++ b)) ->
     forall node amt, register_and_stake env files' node amt name = Panic).
Proof.
  destruct (keygen_load _ _ _ _ _ _ Hkey) as (Hload & kp & pk & Hg & Hpk & Hr & Haddr & Hkpk).
  assert (names_pair env files' name kp pk) as Hp by (by exists kf).
  exists kp, pk. do 2 (split; [done|]). split; [|split; [|split; [|split; [|split; [|split]]]]].
  - intros. rewrite (runs_iff _ _ _ _ _ tx Hpk (transfer_runs _ _ _ _ _ node to amt Hp)). apply parsed_iff.
  - intros. rewrite (runs_iff _ _ _ _ _ tx Hpk (proj1 (stake_runs _ _ _ _ _ node v amt Hp))). apply parsed_iff.
  - intros. rewrite (runs_iff _ _ _ _ _ tx Hpk (proj2 (stake_runs _ _ _ _ _ node v amt Hp))). apply parsed_iff.
  - intros. unfold register_validator. rewrite Hload. cbn [and_then]. rewrite Hkpk, strip_0x_app, hex_decode_encode. cbn [and_then ok_or].
    rewrite array_of_list_bytes. cbn [ok_or]. rewrite (submit_eq _ _ _ _ _ _ _ Hp). by apply sign_and_post_iff.
  - intros node v amt c Hno Hc. destruct (stake_runs _ _ _ _ _ node v amt Hp) as [Hs Hu].
    rewrite !elem_of_cons, elem_of_nil in Hc. destruct Hc as [->|[->|[->|[]]]];
      [eapply runs_refused; [by eapply transfer_runs|]|eapply runs_refused; [exact Hs|]|eapply runs_refused; [exact Hu|]];
      (destruct Hno as [->|]; [by left|by right]).
  - intros. by eapply register_and_stake_posts_nothing.
  - intros. by eapply register_and_stake_posts_nothing.
Qed.

(** [register-and-stake] always panics.  The key file [keygen] writes holds the
    checksummed address, 40 bytes in hexadecimal, which the command copies into 32:
    whatever the amount and the node, the command panics before it posts anything. *)
Theorem register_and_stake_panics (env : Env) (files files' : Files) (seed : bytes) (name : string) (kf : KeyFile)
    (node : bytes -> option (Response BalanceResponse)) (amount : bytes)
    (Hconcat : forall a b, hex_encode a ++ hex_encode b = hex_encode (a ++ b))
    (Hkey : keygen env files seed name = Ret (files', Ok kf)) :
  register_and_stake env files' node amount name = Panic.
Proof.
  destruct (keygen_load _ _ _ _ _ _ Hkey) as (Hload & kp & pk & _ & _ & _ & Ha & _).
  by eapply register_and_stake_posts_nothing.
Qed.

(** ** A transfer on its way into the state *)

(** The wallet talks to the REST API; a handler that panics drops the connection. *)
Definition rest_node {D} `{Serde} (guard : AppState D) (q : bytes) : option (Response BalanceResponse) :=
  match balance_handler guard q with Ret r => Some r | Panic => None end.

(** Against the API of a node the balance command shows the account, in decimal, and
    zero for an address without one. *)
Lemma balance_command_shows {D} `{Serde} (guard : AppState D) (address : bytes) (r : array 32) (o : option Account) :
  parse_raw_address address = Ok r -> get_account (app_state guard) (address_from r) = Ret o ->
  balance_command (rest_node guard) address =
    Ok (address, match o with Some a => u256_dec (balance a) | None => list_byte_of_string "0" end, from_option nonce 0 o).
Proof.
  intros Hr Ho. unfold balance_command, rest_node, balance_handler, path_address. rewrite Hr. cbn. rewrite Ho. by destruct o.
Qed.

(** The fate of a posted transfer.  On a chain with a non-zero identifier the
    transaction is dropped unexecuted, whatever the state.  On chain 0, its nonce is
    that of the recipient's account, so against the state the wallet asked about it
    fails with a nonce error whenever sender and recipient have different nonces,
    and then only the fee is charged. *)
Theorem wallet_transfer_fate {D} `{Serde} (env : Env) (files files' : Files) (seed : bytes) (name : string) (kf : KeyFile)
    (guard : AppState D) (to amt : bytes) (tx : Transaction)
    (Hkey : keygen env files seed name = Ret (files', Ok kf))
    (Hpost : transfer env files' (rest_node guard) to amt name = Ret (Ok tx)) :
  (forall c s, c <> 0 -> apply_tx c s tx = count_failed s) /\
  exists recipient amount o, tx_body tx = Transfer recipient amount /\
    get_account (app_state guard) recipient = Ret o /\ tx_nonce tx = from_option nonce 0 o /\
    forall acct, nonce acct <> from_option nonce 0 o ->
      execute (app_state guard) acct tx = Ret (app_state guard, acct, Err (InvalidNonce (nonce acct) (tx_nonce tx))).
Proof.
  destruct (keygen_load _ _ _ _ _ _ Hkey) as (Hload & kp & pk & _ & Hpk & Hr & _).
  destruct (transfer_posts env files' name kp pk _ _ _ _ ltac:(by exists kf) Hpost)
    as (r & amount & _ & _ & resp & Hresp & Hc & Hn & _ & _ & Hb & _).
  split.
  { intros c s Hne. unfold apply_tx. rewrite Hc, (proj2 (Z.eqb_neq 0 c)) by lia. done. }
  unfold rest_node, balance_handler in Hresp. rewrite path_address_query in Hresp.
  destruct (get_account (app_state guard) (address_from r)) as [o|] eqn:Eo; [|done]. cbn [mbind outcome_bind] in Hresp.
  injection Hresp as <-. exists (address_from r), amount, o. split; [done|]. split; [done|].
  assert (tx_nonce tx = from_option nonce 0 o) as Hno by (rewrite Hn; by destruct o). split; [done|].
  intros acct Hne. unfold execute. rewrite Hb. unfold try_transfer. rewrite <- Hno in Hne.
  by rewrite (proj2 (Z.eqb_neq _ _) Hne).
Qed.
End Posts.

(** ** Instances *)

Import ToyInstances MemStorage.
#[local] Existing Instance toy_text.
#[local] Existing Instance toy_serde.

Lemma digits_spec acc s z : digits acc s = Some z <->
  Forall is_digit s /\ z = foldl (fun acc b => 10 * acc + (byte_to_Z b - 48)) acc s /\
  foldl (fun acc b => 10 * acc + (byte_to_Z b - 48)) acc s < W256.
Proof.
  revert acc. induction s as [|b s IH]; intros acc; simpl.
  - destruct (Z.ltb_spec acc W256); split; [intros [= ->]; done|by intros (_ & -> & _)|done|intros (_ & _ & ?); lia].
  - rewrite Forall_cons. unfold is_digit at 1.
    destruct (Z.leb_spec 0 (byte_to_Z b - 48)), (Z.ltb_spec (byte_to_Z b - 48) 10); simpl;
      try (split; [done|intros ([? _] & _); lia]).
    rewrite IH. split; [intros (? & ? & ?)|intros ([_ ?] & ? & ?)]; (split; [|done]); [|done]. split; [lia|done].
Qed.

#[local] Instance toy_decimal : DecimalOk.
Proof. intros s z. apply digits_spec. Qed.

Lemma parse_monex_amount_correct_witness : parse_monex_amount (list_byte_of_string "1.5") = Ok (15 * 10 ^ 31).
Proof.
  apply parse_monex_amount_correct. exists (list_byte_of_string "1"), (list_byte_of_string "5").
  split; [right; reflexivity|]. split; [by apply (bool_decide_unpack _)|]. split; [by apply (bool_decide_unpack _)|].
  split; [by apply (bool_decide_unpack _)|]. split; [reflexivity|vm_compute; reflexivity].
Defined.

(** No sign, no point alone after 32 places, no second point. *)
Example parse_two_points : parse_monex_amount (list_byte_of_string "1.5.0") = Err (Anyhow "invalid amount format").
Proof. reflexivity. Qed.

(** Keys that are their seed, padded. *)
#[local] Instance toy_fndsa : FnDsa := {|
  fn_keypair := array 48;
  fn_generate seed _ := array_of_list 48 seed;
  fn_public_key kp := resize 897 x00 (array_bytes kp);
  fn_private_key kp := resize 1281 x00 (array_bytes kp);
  fn_sign kp _ := Some (resize 809 x00 (array_bytes kp));
  fn_from_private_key bs := array_of_list 48 (take 48 bs)
|}.

Lemma seed_cons (kp : array 48) : exists b l, array_bytes kp = b :: l.
Proof. destruct (array_bytes kp) eqn:E; [|by eexists _, _]. pose proof (array_length kp) as Hl. by rewrite E in Hl. Qed.

#[local] Instance toy_fndsa_ok : FnDsaOk.
Proof.
  split.
  - intros kp. apply length_resize.
  - intros kp. apply length_resize.
  - intros kp. simpl. apply array_of_list_Some. pose proof (array_length kp) as Hl.
    rewrite resize_ge by (rewrite Hl; lia). by rewrite take_app_length'.
  - intros kp msg s [= <-]. apply length_resize.
  - intros kp msg s pk [= <-] Hpk. cbn [falcon_verify toy_falcon]. rewrite Hpk. simpl fn_public_key.
    destruct (seed_cons kp) as (b & l & ->). simpl. by apply bool_decide_eq_true.
Qed.

Definition c_keyfile : codec KeyFile :=
  c_iso (fun k => (kf_public_key k, (kf_private_key k, (kf_seed k, kf_address k))))
    (fun p => let '(a, (b, (c, d))) := p in mkKeyFile a b c d)
    (c_pair c_bytes (c_pair c_bytes (c_pair c_bytes c_bytes))).

#[local] Instance toy_keyfile_text : KeyFileText := {|
  keyfile_to_string k := Some (enc c_keyfile k);
  keyfile_from_str := decode_all c_keyfile
|}.

Lemma c_keyfile_ok : codec_ok (fun _ => True) c_keyfile.
Proof.
  eapply c_iso_ok; [|repeat (eapply c_pair_ok; [apply c_bytes_ok|]); apply c_bytes_ok].
  by intros [a b c d] _.
Qed.

#[local] Instance toy_keyfile_text_ok : KeyFileTextOk.
Proof.
  intros kf s E. assert (s = enc c_keyfile kf) as -> by (unfold keyfile_to_string, toy_keyfile_text in E; congruence).
  exact (decode_all_enc (fun _ => True) c_keyfile kf c_keyfile_ok I).
Qed.

(** A key, its file, and a node that has bob's account. *)
Definition env_ex : Env := mkEnv (Some "/home/a"%string) None.
Definition seed_ex : bytes := List.repeat x09 48.

Lemma keygen_ex : exists files kf, keygen env_ex ∅ seed_ex "main" = Ret (files, Ok kf).
Proof. eapply keygen_total; [reflexivity|]. intros kf. by eexists. Qed.

Definition guard_bob : AppState RedbEngine := mkApp loaded_ex sm0 pool0 0.

Lemma transfer_ex files kf : keygen env_ex ∅ seed_ex "main" = Ret (files, Ok kf) ->
  exists tx, transfer env_ex files (rest_node guard_bob) (account_text bob) (list_byte_of_string "1.5") "main" = Ret (Ok tx).
Proof.
  intros Hkey. destruct (keygen_load _ _ _ _ _ _ Hkey) as (Hload & kp & pk & _ & Hpk & Hr & _).
  assert (is_Some (rest_node guard_bob (query_text bob))) as [resp Hresp].
  { unfold rest_node, balance_handler. rewrite path_address_query.
    destruct (get_account (app_state guard_bob) bob) as [o|] eqn:E; [by eexists|vm_compute in E; discriminate E]. }
  apply (transfer_total env_ex files "main" kp pk (rest_node guard_bob) (account_text bob) (list_byte_of_string "1.5")
           (as_bytes bob) (15 * 10 ^ 31) resp); [by exists kf| | |exact Hresp|].
  - apply text_check_ok. vm_compute. reflexivity.
  - vm_compute. reflexivity.
  - intros msg. eexists. cbn [sign Falcon512]. unfold falcon_sign. cbn [fn_sign toy_fndsa].
    rewrite length_resize. reflexivity.
Qed.

Lemma wallet_posts_signed_witness : exists files kf tx, keygen env_ex ∅ seed_ex "main" = Ret (files, Ok kf) /\
  transfer env_ex files (rest_node guard_bob) (account_text bob) (list_byte_of_string "1.5") "main" = Ret (Ok tx) /\
  tx_chain_id tx = 0 /\ tx_body tx = Transfer bob (15 * 10 ^ 31).
Proof.
  destruct keygen_ex as (files & kf & Hkey). destruct (transfer_ex files kf Hkey) as [tx Hpost].
  destruct (wallet_posts_signed env_ex ∅ files seed_ex "main" kf Hkey) as (kp & pk & _ & _ & Htr & _).
  apply Htr in Hpost as Hposts. destruct Hposts as (a & amount & Hpar & [(resp & _ & Hc & _ & _ & _ & Hb & _) _]).
  exists files, kf, tx. split; [exact Hkey|]. split; [exact Hpost|]. split; [exact Hc|]. rewrite Hb.
  assert (parse_hex_addr (account_text bob) = Ok (as_bytes bob)) as Hr' by (apply text_check_ok; vm_compute; reflexivity).
  assert (parse_monex_amount (list_byte_of_string "1.5") = Ok (15 * 10 ^ 31)) as Hm by (vm_compute; reflexivity).
  unfold parsed, parse_hex_addr, parse_raw_address in *. rewrite Hm in Hpar. destruct (hex_decode _) as [bs|]; [|discriminate Hr'].
  apply ok_or_Ok in Hr'. rewrite Hr' in Hpar. cbn [ok_or] in Hpar. injection Hpar as <- <-. reflexivity.
Defined.

Lemma register_and_stake_panics_witness : exists files kf, keygen env_ex ∅ seed_ex "main" = Ret (files, Ok kf) /\
  register_and_stake env_ex files (rest_node guard_bob) (list_byte_of_string "1000") "main" = Panic.
Proof.
  destruct keygen_ex as (files & kf & Hkey). exists files, kf. split; [exact Hkey|].
  apply (register_and_stake_panics env_ex ∅ files seed_ex "main" kf); [|exact Hkey].
  intros a b. symmetry. apply flat_map_app.
Defined.

Lemma wallet_transfer_fate_witness : exists files kf tx, keygen env_ex ∅ seed_ex "main" = Ret (files, Ok kf) /\
  transfer env_ex files (rest_node guard_bob) (account_text bob) (list_byte_of_string "1.5") "main" = Ret (Ok tx) /\
  forall s, apply_tx 1 s tx = count_failed s.
Proof.
  destruct keygen_ex as (files & kf & Hkey). destruct (transfer_ex files kf Hkey) as [tx Hpost].
  exists files, kf, tx. split; [exact Hkey|]. split; [exact Hpost|]. intros s.
  destruct (wallet_transfer_fate env_ex ∅ files seed_ex "main" kf guard_bob _ _ tx Hkey Hpost) as [H _].
  by apply H.
Defined.
