(* ===== verification/P2p.v ===== *)
(** * The P2P service ([network/mod.rs])

    The event loop between the swarm and the higher layers: gossip messages and
    sync requests that arrive, connections, and the commands of a [P2pHandle].
    libp2p is the environment: an input is a swarm event or a command, an output
    is what the loop asks of the swarm, emits on the event channel or replies. *)
From Stdlib Require Import Strings.Byte Strings.String.
From stdpp Require Import base gmap sets list strings countable sorting pretty.
From Stdlib Require Import ZArith Lia.
From S2P Require Import Prelude Types External Toy Trie Account State Ledger Refine Scenario Finality Schedule Mempool Storage Genesis Slashing Engine Peers Sync.

Definition DEFAULT_P2P_PORT : Z := 30333.
Definition MAX_PEERS : Z := 50.

(** The derived codec of [GossipMessage]. *)
Class GossipScale := { sc_gossip : codec GossipMessage }.

Definition gossip_valid (m : GossipMessage) : Prop :=
  match m with
  | GossipTxs txs => Forall tx_wire_valid txs
  | GossipBlock b => block_wire_valid b
  | GossipVote v => is_u64 (cv_height v) /\ signature_valid (cv_signature v)
  | GossipEvidence e => header_valid (ne_header_a e) /\ header_valid (ne_header_b e)
  end.

Class GossipScaleOk `{GossipScale} : Prop := sc_gossip_ok : codec_ok gossip_valid sc_gossip.

Record P2pConfig (Multiaddr : Type) := mkP2pConfig {
  pc_port : Z;
  pc_bootstrap_peers : list Multiaddr;
  pc_enable_mdns : bool;
  pc_max_peers : Z
}.
Arguments mkP2pConfig {_} _ _ _ _.
Arguments pc_port {_} _.
Arguments pc_bootstrap_peers {_} _.

Definition P2pConfig_default {M} : P2pConfig M := mkP2pConfig DEFAULT_P2P_PORT [] true MAX_PEERS.

Section P2p.
Context {PeerId : Type} `{Countable PeerId} {Multiaddr Channel : Type}.
Context `{BuildProfile} `{Blake3} `{Scale} `{GossipScale}.

(** ** Events, commands and outputs *)

Inductive P2pEvent :=
| TxReceived (source : PeerId) (txs : list Transaction)
| BlockReceived (source : PeerId) (block : Block)
| VoteReceived (source : PeerId) (vote : CommitVote)
| EvidenceReceived (source : PeerId) (evidence : NetworkEvidence)
| EvSyncResponse (peer : PeerId) (response : SyncResponse).

Inductive P2pCommand :=
| Dial (addr : Multiaddr)
| PublishTx (txs : list Transaction)
| PublishBlock (block : Block)
| PublishVote (vote : CommitVote)
| PublishEvidence (evidence : NetworkEvidence)
| SendSyncRequest (peer : PeerId) (request : SyncRequest)
| GetPeers
| Shutdown.

(** The swarm events the handler looks at; the rest are [OtherEvent]. *)
Inductive SwarmEvent :=
| GossipReceived (propagation_source : PeerId) (data : bytes)
| SyncRequestReceived (peer : PeerId) (request : SyncRequest) (channel : Channel)
| SyncResponseReceived (peer : PeerId) (response : SyncResponse)
| ConnectionEstablished (peer_id : PeerId)
| ConnectionClosed (peer_id : PeerId)
| OtherEvent.

Inductive Effect :=
| DoDial (addr : Multiaddr)
| DoListen (port : Z)
| DoSubscribe (topic : string)
| DoBootstrap
| DoPublish (topic : string) (data : bytes)
| DoSendRequest (peer : PeerId) (request : SyncRequest)
| DoSendResponse (channel : Channel) (response : SyncResponse)
| DoEmit (event : P2pEvent)
| DoReplyPeers (peers : list PeerId).

(** ** The service *)

Context {D : Type} `{StorageEngine D} `{!HashOrder PeerId}.

Record P2pService := mkService {
  chain_id : Z;
  p2p_port : Z;
  peer_scores : gmap PeerId PeerScore;
  bootstrap_peers : list Multiaddr;
  storage : option D;
  genesis_hash : array 32;
  highest_known_height : Z;
  connected_peers : gset PeerId
}.

Definition P2pService_new (config : P2pConfig Multiaddr) (chain_id : Z) : P2pService :=
  mkService chain_id (pc_port config) ∅ (pc_bootstrap_peers config) None (array_repeat 32 x00) 0 ∅.

Definition with_storage (self : P2pService) (storage : D) (genesis_hash : array 32) : P2pService :=
  mkService (chain_id self) (p2p_port self) (peer_scores self) (bootstrap_peers self) (Some storage) genesis_hash
    (highest_known_height self) (connected_peers self).

Definition set_highest_known_height (self : P2pService) (height : Z) : P2pService :=
  mkService (chain_id self) (p2p_port self) (peer_scores self) (bootstrap_peers self) (storage self) (genesis_hash self)
    height (connected_peers self).

Definition set_scores (self : P2pService) (scores : gmap PeerId PeerScore) : P2pService :=
  mkService (chain_id self) (p2p_port self) scores (bootstrap_peers self) (storage self) (genesis_hash self)
    (highest_known_height self) (connected_peers self).

Definition set_connected (self : P2pService) (peers : gset PeerId) : P2pService :=
  mkService (chain_id self) (p2p_port self) (peer_scores self) (bootstrap_peers self) (storage self) (genesis_hash self)
    (highest_known_height self) peers.

(** What [start] does before the loop, when the swarm accepts the listen address
    and the subscriptions; the bootstrap peers are taken out of the service. *)
Definition start (self : P2pService) : P2pService * list Effect :=
  (mkService (chain_id self) (p2p_port self) (peer_scores self) [] (storage self) (genesis_hash self)
     (highest_known_height self) (connected_peers self),
   [DoListen (p2p_port self)] ++
   map (fun t => DoSubscribe (tc_name t)) (standard_topics (pretty (chain_id self))) ++
   map DoDial (bootstrap_peers self) ++ [DoBootstrap]).

Definition prepare_gossip_message (msg : GossipMessage) (topic : TopicConfig) : result string bytes :=
  let data := enc sc_gossip msg in
  if negb (validate_size topic (Z.of_nat (length data))) then Err "gossip message too large"%string else Ok data.

(** [topics[i]] of the standard topics, and the publication of a message on it;
    a refused publication is only logged. *)
Definition publish (self : P2pService) (i : nat) (msg : GossipMessage) : outcome (list Effect) :=
  topic ← unwrap (standard_topics (pretty (chain_id self)) !! i);
  match prepare_gossip_message msg topic with
  | Ok data => Ret [DoPublish (tc_name topic) data]
  | Err _ => Ret []
  end.

(** One command; [false] leaves the loop. *)
Definition handle_command (self : P2pService) (cmd : option P2pCommand) : outcome (list Effect * bool) :=
  match cmd with
  | Some (Dial addr) => Ret ([DoDial addr], true)
  | Some (PublishTx txs) => out ← publish self 0 (GossipTxs txs); Ret (out, true)
  | Some (PublishBlock block) => out ← publish self 1 (GossipBlock block); Ret (out, true)
  | Some (PublishVote vote) => out ← publish self 2 (GossipVote vote); Ret (out, true)
  | Some (PublishEvidence evidence) => out ← publish self 3 (GossipEvidence evidence); Ret (out, true)
  | Some (SendSyncRequest peer request) => Ret ([DoSendRequest peer request], true)
  | Some GetPeers => Ret ([DoReplyPeers (hash_order (connected_peers self))], true)
  | Some Shutdown | None => Ret ([], false)
  end.

Definition scored (self : P2pService) (peer : PeerId) (now : Z) (event : ScoreEvent) : P2pService :=
  set_scores self (apply_event (peer_scores self) peer now event).

Definition handle_gossip (self : P2pService) (now : Z) (source : PeerId) (data : bytes) : P2pService * list Effect :=
  match decode_all sc_gossip data with
  | Some (GossipTxs txs) => (scored self source now ValidBlockPropagated, [DoEmit (TxReceived source txs)])
  | Some (GossipBlock block) => (scored self source now ValidBlockPropagated, [DoEmit (BlockReceived source block)])
  | Some (GossipVote vote) => (scored self source now ValidVotePropagated, [DoEmit (VoteReceived source vote)])
  | Some (GossipEvidence evidence) => (self, [DoEmit (EvidenceReceived source evidence)])
  | None => (scored self source now InvalidBlockGossiped, [])
  end.

Definition handle_event (self : P2pService) (now : Z) (event : SwarmEvent) : outcome (P2pService * list Effect) :=
  match event with
  | GossipReceived source data => Ret (handle_gossip self now source data)
  | SyncRequestReceived peer request channel =>
      match storage self with
      | None => Ret (self, [])
      | Some d =>
          response ← serve_sync_request request d (genesis_hash self) (highest_known_height self);
          Ret (self, match response with Some resp => [DoSendResponse channel resp] | None => [] end)
      end
  | SyncResponseReceived peer response => Ret (self, [DoEmit (EvSyncResponse peer response)])
  | ConnectionEstablished peer_id => Ret (set_connected self ({[ peer_id ]} ∪ connected_peers self), [])
  | ConnectionClosed peer_id => Ret (set_connected self (connected_peers self ∖ {[ peer_id ]}), [])
  | OtherEvent => Ret (self, [])
  end.

(** The loop over its inputs: swarm events with the clock, and commands. *)
Inductive Input := OnSwarm (now : Z) (event : SwarmEvent) | OnCommand (cmd : option P2pCommand).

Fixpoint event_loop (self : P2pService) (inputs : list Input) : outcome (P2pService * list Effect) :=
  match inputs with
  | [] => Ret (self, [])
  | OnSwarm now event :: inputs =>
      '(self, out) ← handle_event self now event;
      '(self, rest) ← event_loop self inputs;
      Ret (self, out ++ rest)
  | OnCommand cmd :: inputs =>
      '(out, go_on) ← handle_command self cmd;
      if go_on : bool then '(self, rest) ← event_loop self inputs; Ret (self, out ++ rest)
      else Ret (self, out)
  end.
End P2p.

Arguments TxReceived {_} _ _.
Arguments BlockReceived {_} _ _.
Arguments VoteReceived {_} _ _.
Arguments EvidenceReceived {_} _ _.
Arguments EvSyncResponse {_} _ _.
Arguments Dial {_ _} _.
Arguments PublishTx {_ _} _.
Arguments PublishBlock {_ _} _.
Arguments PublishVote {_ _} _.
Arguments PublishEvidence {_ _} _.
Arguments SendSyncRequest {_ _} _ _.
Arguments GetPeers {_ _}.
Arguments Shutdown {_ _}.
Arguments GossipReceived {_ _} _ _.
Arguments SyncRequestReceived {_ _} _ _ _.
Arguments SyncResponseReceived {_ _} _ _.
Arguments ConnectionEstablished {_ _} _.
Arguments ConnectionClosed {_ _} _.
Arguments OtherEvent {_ _}.
Arguments DoPublish {_ _ _} _ _.
Arguments DoSendResponse {_ _ _} _ _.
Arguments DoEmit {_ _ _} _.
Arguments OnSwarm {_ _ _} _ _.
Arguments OnCommand {_ _ _} _.

(** ** Gossip between two nodes *)

Section Gossip.
Context {PeerId : Type} `{Countable PeerId} {Multiaddr Channel : Type}.
Context `{BuildProfile} `{Blake3} `{Scale} `{GossipScale} `{!GossipScaleOk}.
Context {D : Type} `{StorageEngine D} `{!HashOrder PeerId}.

Abbreviation Service := (P2pService (PeerId := PeerId) (Multiaddr := Multiaddr) (D := D)).
Abbreviation Out := (Effect (PeerId := PeerId) (Multiaddr := Multiaddr) (Channel := Channel)).

(** The topic a message belongs to, the command that publishes it, and the event
    its arrival from [src] should give. *)
Definition topic_index (m : GossipMessage) : nat :=
  match m with GossipTxs _ => 0 | GossipBlock _ => 1 | GossipVote _ => 2 | GossipEvidence _ => 3 end.

Definition command_of (m : GossipMessage) : P2pCommand (PeerId := PeerId) (Multiaddr := Multiaddr) :=
  match m with
  | GossipTxs txs => PublishTx txs
  | GossipBlock b => PublishBlock b
  | GossipVote v => PublishVote v
  | GossipEvidence e => PublishEvidence e
  end.

Definition received (src : PeerId) (m : GossipMessage) : P2pEvent :=
  match m with
  | GossipTxs txs => TxReceived src txs
  | GossipBlock b => BlockReceived src b
  | GossipVote v => VoteReceived src v
  | GossipEvidence e => EvidenceReceived src e
  end.

(** C40: gossip arrives as it was sent.  A publish command hands the swarm the
    encoded message on its own topic exactly when it fits the topic's limit, and
    nothing otherwise.  A node that receives such bytes, on any topic, emits the
    event with the same content and the relaying peer, rewards that peer by one
    (evidence excepted) without looking at the content, and changes no other score;
    bytes that do not decode emit nothing and cost the peer ten. *)
Theorem gossip_delivery (a b : Service) (now : Z) (src : PeerId) (m : GossipMessage) (Hm : gossip_valid m) :
  (exists topic, standard_topics (pretty (chain_id a)) !! topic_index m = Some topic /\
     handle_command (Channel := Channel) a (Some (command_of m)) =
       Ret (if decide (Z.of_nat (length (enc sc_gossip m)) <= max_message_size topic)
            then [DoPublish (tc_name topic) (enc sc_gossip m)] else [], true)) /\
  (exists b', handle_event (Channel := Channel) b now (GossipReceived src (enc sc_gossip m)) =
                Ret (b', [DoEmit (received src m)] : list Out) /\
     (forall p, p <> src -> peer_scores b' !! p = peer_scores b !! p) /\
     (peer_scores b' !! src =
        match m with
        | GossipEvidence _ => peer_scores b !! src
        | _ => Some (adjust (get_or_create (peer_scores b) src now) now 1)
        end)) /\
  (forall data, decode_all sc_gossip data = None ->
     exists b', handle_event (Channel := Channel) b now (GossipReceived src data) = Ret (b', [] : list Out) /\
     peer_scores b' !! src = Some (adjust (get_or_create (peer_scores b) src now) now (-10))).
Proof.
  split; [|split].
  - assert (forall i topic, standard_topics (pretty (chain_id a)) !! i = Some topic ->
      publish (PeerId := PeerId) (Multiaddr := Multiaddr) (Channel := Channel) a i m =
        Ret (if decide (Z.of_nat (length (enc sc_gossip m)) <= max_message_size topic)
             then [DoPublish (tc_name topic) (enc sc_gossip m)] else [])) as Hpub.
    { intros i topic Ht. unfold publish. rewrite Ht. cbn [unwrap mbind outcome_bind]. unfold prepare_gossip_message, validate_size.
      destruct (Z.leb_spec (Z.of_nat (length (enc sc_gossip m))) (max_message_size topic)) as [Hl|Hl]; cbn [negb];
        [by rewrite decide_True|rewrite decide_False by lia; done]. }
    destruct m; eexists; (split; [reflexivity|]); cbn [command_of handle_command];
      match goal with |- context [publish a ?i _] => rewrite (Hpub i _ eq_refl) end; done.
  - cbn [handle_event]. unfold handle_gossip. rewrite (decode_all_enc gossip_valid) by (done || exact sc_gossip_ok).
    destruct m; eexists; (split; [done|]); cbn [scored set_scores peer_scores];
      unfold apply_event; (split; [intros p Hp; try done; by rewrite lookup_insert_ne|]); try done;
      by rewrite lookup_insert_eq.
  - intros data Hd. cbn [handle_event]. unfold handle_gossip. rewrite Hd. eexists. split; [done|].
    cbn [scored set_scores peer_scores]. unfold apply_event. by rewrite lookup_insert_eq.
Qed.

(** ** The service of a started node *)

Abbreviation Inputs := (list (Input (PeerId := PeerId) (Multiaddr := Multiaddr) (Channel := Channel))).

(** The inputs up to a shutdown. *)
Fixpoint processed (inputs : Inputs) : Inputs :=
  match inputs with
  | [] => []
  | OnCommand None :: _ | OnCommand (Some Shutdown) :: _ => []
  | i :: inputs => i :: processed inputs
  end.

(** Whether the last connection event of a peer was an establishment. *)
Definition last_connection (p : PeerId) (o : bool) (i : Input (PeerId := PeerId) (Multiaddr := Multiaddr) (Channel := Channel)) : bool :=
  match i with
  | OnSwarm _ (ConnectionEstablished q) => if decide (q = p) then true else o
  | OnSwarm _ (ConnectionClosed q) => if decide (q = p) then false else o
  | _ => o
  end.

Lemma handle_event_plain (self : Service) now (event : SwarmEvent) : storage self = None ->
  exists self' out, handle_event (Multiaddr := Multiaddr) (Channel := Channel) self now event = Ret (self', out) /\
  storage self' = None /\ (forall c r, DoSendResponse c r ∉ out) /\
  forall p, bool_decide (p ∈ connected_peers self') =
            last_connection p (bool_decide (p ∈ connected_peers self)) (OnSwarm now event).
Proof.
  intros Hs. destruct event as [src data|peer req ch|peer resp|peer|peer|]; cbn [handle_event].
  - unfold handle_gossip. destruct (decode_all sc_gossip data) as [[]|]; eexists _, _; (split; [done|]);
      (split; [done|]); (split; [|done]); intros c r; set_solver.
  - rewrite Hs. eexists _, _. split; [done|]. split; [done|]. split; [|done]. intros c r; set_solver.
  - eexists _, _. split; [done|]. split; [done|]. split; [|done]. intros c r; set_solver.
  - eexists _, _. split; [done|]. split; [done|]. split; [intros c r; set_solver|]. intros p. simpl.
    destruct (decide (peer = p)); [apply bool_decide_eq_true; set_solver|apply bool_decide_ext; set_solver].
  - eexists _, _. split; [done|]. split; [done|]. split; [intros c r; set_solver|]. intros p. simpl.
    destruct (decide (peer = p)); [apply bool_decide_eq_false; set_solver|apply bool_decide_ext; set_solver].
  - eexists _, _. split; [done|]. split; [done|]. split; [|done]. intros c r; set_solver.
Qed.

(** A command leaves the service alone, answers no request, and stops the loop
    exactly when it is a shutdown. *)
Lemma handle_command_plain (self : Service) cmd :
  exists out, handle_command (Channel := Channel) self cmd =
    Ret (out, match cmd with None | Some Shutdown => false | _ => true end) /\ forall c r, DoSendResponse c r ∉ out.
Proof.
  assert (forall i m, (i < 4)%nat -> exists out, publish (PeerId := PeerId) (Channel := Channel) self i m = Ret out /\
    forall c r, DoSendResponse c r ∉ out) as Hpub.
  { intros i m Hi. unfold publish. do 4 (destruct i as [|i]; [cbn; destruct (prepare_gossip_message _ _);
      eexists; (split; [done|]); intros c r; set_solver|]). lia. }
  destruct cmd as [[addr|txs|b|v|e|p r| |]|]; cbn [handle_command];
    try (eexists; (split; [done|]); intros c r'; set_solver);
    match goal with |- context [publish self ?i ?m] => destruct (Hpub i m ltac:(lia)) as (out & -> & Ho) end;
    by exists out.
Qed.

Lemma event_loop_plain (inputs : Inputs) (self : Service) : storage self = None ->
  exists self' out, event_loop self inputs = Ret (self', out) /\ (forall c r, DoSendResponse c r ∉ out) /\
  forall p, bool_decide (p ∈ connected_peers self') =
            foldl (last_connection p) (bool_decide (p ∈ connected_peers self)) (processed inputs).
Proof.
  revert self. induction inputs as [|[now event|cmd] inputs IH]; intros self Hs; cbn [event_loop processed].
  - exists self, []. split; [done|]. split; [by intros c r ?%elem_of_nil|done].
  - destruct (handle_event_plain self now event Hs) as (self1 & out1 & -> & Hs1 & Ho1 & Hc1). cbn [mbind outcome_bind].
    destruct (IH self1 Hs1) as (self' & out & -> & Ho & Hc). exists self', (out1 ++ out). split; [done|].
    split; [intros c r [?|?]%elem_of_app; [by eapply Ho1|by eapply Ho]|]. intros p. cbn [foldl]. by rewrite Hc, Hc1.
  - destruct (handle_command_plain self cmd) as (out1 & -> & Ho1). cbn [mbind outcome_bind].
    destruct (IH self Hs) as (self' & out & E & Ho & Hc). rewrite E.
    destruct cmd as [[]|]; cbn [mbind outcome_bind]; eexists _, _; (split; [reflexivity|]);
      (split; [first [done|intros c r' [?|?]%elem_of_app; [by eapply Ho1|by eapply Ho]]|]); intros p; cbn [foldl last_connection];
      done || apply Hc.
Qed.

(** The service of a node.  Started as the node starts it, without a storage
    engine, the event loop never panics, whatever events and commands come; it
    answers no sync request, ever; and the peers it counts as connected are those
    whose last connection event was an establishment, so closing one of several
    connections to a peer drops the peer. *)
Theorem node_never_serves (config : P2pConfig Multiaddr) (chain : Z) (inputs : Inputs) :
  exists self' out,
    event_loop (D := D) (start (Channel := Channel) (P2pService_new config chain)).1 inputs = Ret (self', out) /\
    (forall c r, DoSendResponse c r ∉ out) /\
    forall p, p ∈ connected_peers self' <-> foldl (last_connection p) false (processed inputs) = true.
Proof.
  destruct (event_loop_plain inputs (start (Channel := Channel) (D := D) (P2pService_new config chain)).1 eq_refl)
    as (self' & out & E & Ho & Hc).
  exists self', out. split; [done|]. split; [done|]. intros p. rewrite <- (bool_decide_eq_true (p ∈ _)), Hc.
  cbn [start P2pService_new fst connected_peers]. rewrite (bool_decide_eq_false_2 (p ∈ ∅)) by set_solver. done.
Qed.
End Gossip.

(** ** Instances *)

Import ToyInstances MemStorage.

Definition c_cvote : codec CommitVote :=
  c_iso (fun v => (cv_height v, (cv_block_hash v, (cv_validator v, cv_signature v))))
    (fun p => let '(h, (b, (v, s))) := p in mkCommitVote h b v s)
    (c_pair c_u64 (c_pair (c_array 32) (c_pair c_addr c_sig))).

Definition c_evidence : codec NetworkEvidence :=
  c_iso (fun e => (ne_header_a e, (ne_signature_a e, (ne_header_b e, (ne_signature_b e, ne_proposer e)))))
    (fun p => let '(ha, (sa, (hb, (sb, pr)))) := p in mkNetworkEvidence ha sa hb sb pr)
    (c_pair c_header (c_pair (c_array 666) (c_pair c_header (c_pair (c_array 666) (c_array 32))))).

#[local] Instance toy_gossip : GossipScale := {|
  sc_gossip := c_iso
    (fun m => match m with GossipTxs t => inl (inl t) | GossipBlock b => inl (inr b)
                         | GossipVote v => inr (inl v) | GossipEvidence e => inr (inr e) end)
    (fun s => match s with inl (inl t) => GossipTxs t | inl (inr b) => GossipBlock b
                         | inr (inl v) => GossipVote v | inr (inr e) => GossipEvidence e end)
    (c_sum (c_sum (c_list c_tx) c_block) (c_sum c_cvote c_evidence))
|}.

#[local] Instance toy_gossip_ok : GossipScaleOk.
Proof.
  eapply c_iso_ok; [|eapply c_sum_ok; [eapply c_sum_ok; [apply c_list_ok, c_tx_ok|apply c_block_ok]|eapply c_sum_ok]].
  - intros [txs|b|v|e] Hv; (split; [exact Hv|done]).
  - unfold c_cvote. eapply c_iso_ok; [|repeat (eapply c_pair_ok; [first [apply c_u64_ok|apply c_array_ok|apply c_addr_ok]|]); apply c_sig_ok].
    intros [h b v s] [Hh _]. done.
  - unfold c_evidence. eapply c_iso_ok;
      [|repeat (eapply c_pair_ok; [first [apply c_header_ok|apply c_array_ok]|]); apply c_array_ok].
    intros [ha sa hb sb pr] [Ha Hb]. done.
Qed.

Definition service_ex : P2pService (PeerId := Z) (Multiaddr := bytes) (D := RedbEngine) :=
  P2pService_new P2pConfig_default 7.

Lemma gossip_delivery_witness :
  handle_command (Channel := Z) service_ex (Some (PublishTx [])) =
    Ret ([DoPublish ("mononium/txs/" +:+ pretty 7) (enc sc_gossip (GossipTxs []))], true) /\
  exists b', handle_event (Channel := Z) service_ex 5 (GossipReceived 3 (enc sc_gossip (GossipTxs []))) =
    Ret (b', [DoEmit (TxReceived 3 [])]).
Proof.
  destruct (gossip_delivery (Channel := Z) service_ex service_ex 5 3 (GossipTxs [])) as ((topic & Ht & Hc) & (b' & He & _) & _);
    [constructor|].
  split; [|exists b'; exact He]. injection Ht as <-. exact Hc.
Defined.
