(* ===== verification/Handle.v ===== *)
(** * Building the P2P service, and its handle ([network/mod.rs])

    The swarm a service is built on, the events of its behaviours, what [start] can
    refuse, and the [P2pHandle] that talks to the event loop over a command channel.
    libp2p and the channels of tokio are type classes; the loop of [P2p] and the
    callers of the handle are interleaved by a step relation. *)
From Stdlib Require Import Strings.Byte Strings.String.
From stdpp Require Import base gmap sets list strings countable sorting pretty.
From Stdlib Require Import ZArith Lia.
From S2P Require Import Prelude Types External Toy Trie Account State Ledger Refine Scenario Finality Schedule Mempool Storage Genesis Slashing Engine Peers Sync P2p.

(** ** Constants and the sync protocols ([network/constants.rs], [sync_protocol.rs]) *)

Definition AGENT_VERSION : string := "mononium/0.1.0".
Definition PROTOCOL_VERSION : string := "mononium/1.0".
Definition KAD_REPLICATION_FACTOR : Z := 20.
Definition KAD_QUERY_TIMEOUT_SECS : Z := 10.
Definition GOSSIP_MAX_TRANSMIT_SIZE : Z := 1048576.
Definition SYNC_PROTOCOL : string := "/mononium/sync/1.0".
Definition HASH_SYNC_PROTOCOL : string := "/mononium/hash-sync/1.0".

(** The request-response behaviour: its protocols, both in full support, and the
    timeout of a request in seconds. *)
Record SyncBehaviour := mkSyncBehaviour { sb_protocols : list string; sb_request_timeout : Z }.

Definition build_sync_behaviour : SyncBehaviour := mkSyncBehaviour [SYNC_PROTOCOL; HASH_SYNC_PROTOCOL] 30.

(** ** The swarm of a service *)

(** What [P2pService::new] configures. *)
Record SwarmSettings := mkSwarmSettings {
  sw_max_transmit_size : Z;
  sw_history_length : Z;
  sw_protocol_version : string;
  sw_sync : SyncBehaviour;
  sw_max_negotiating_inbound_streams : Z
}.

(** The set-up steps of libp2p that may fail. *)
Class Libp2p := {
  lp_build : SwarmSettings -> result string unit;
  lp_listen_on : Z -> result string unit;
  lp_subscribe : string -> result string unit
}.

(** The identifier gossipsub drops duplicates by: it depends on the content alone. *)
Definition message_id `{Blake3} (data : bytes) : bytes := take 20 (array_bytes (blake3 data)).

(** ** Events of the behaviours *)

Section Events.
Context {PeerId Channel Kad Mdns Identify Ping : Type}.

Inductive GossipsubEvent := GossipMessageEvent (propagation_source : PeerId) (data : bytes) | GossipsubOther.

Inductive SyncMessage := MRequest (request : SyncRequest) (channel : Channel) | MResponse (response : SyncResponse).

Inductive RequestResponseEvent :=
| RRMessage (peer : PeerId) (message : SyncMessage)
| InboundFailure (peer : PeerId)
| OutboundFailure (peer : PeerId)
| RROther.

Inductive CombinedEvent :=
| EvGossipsub (e : GossipsubEvent)
| EvKademlia (e : Kad)
| EvMdns (e : Mdns)
| EvIdentify (e : Identify)
| EvPing (e : Ping)
| EvSync (e : RequestResponseEvent).

Inductive RawSwarmEvent :=
| Behaviour (e : CombinedEvent)
| RawConnectionEstablished (peer_id : PeerId)
| RawConnectionClosed (peer_id : PeerId)
| NewListenAddr
| RawOther.

(** The arms of [handle_event]: what the handler of [P2p] is given. *)
Definition event_of (event : RawSwarmEvent) : SwarmEvent (PeerId := PeerId) (Channel := Channel) :=
  match event with
  | Behaviour (EvGossipsub (GossipMessageEvent source data)) => GossipReceived source data
  | Behaviour (EvSync (RRMessage peer (MRequest request channel))) => SyncRequestReceived peer request channel
  | Behaviour (EvSync (RRMessage peer (MResponse response))) => SyncResponseReceived peer response
  | RawConnectionEstablished peer_id => ConnectionEstablished peer_id
  | RawConnectionClosed peer_id => ConnectionClosed peer_id
  | _ => OtherEvent
  end.
End Events.

Arguments GossipMessageEvent {_} _ _.
Arguments GossipsubOther {_}.
Arguments MRequest {_} _ _.
Arguments MResponse {_} _.
Arguments RRMessage {_ _} _ _.
Arguments InboundFailure {_ _} _.
Arguments OutboundFailure {_ _} _.
Arguments RROther {_ _}.
Arguments EvGossipsub {_ _ _ _ _ _} _.
Arguments EvKademlia {_ _ _ _ _ _} _.
Arguments EvMdns {_ _ _ _ _ _} _.
Arguments EvIdentify {_ _ _ _ _ _} _.
Arguments EvPing {_ _ _ _ _ _} _.
Arguments EvSync {_ _ _ _ _ _} _.
Arguments Behaviour {_ _ _ _ _ _} _.
Arguments RawConnectionEstablished {_ _ _ _ _ _} _.
Arguments RawConnectionClosed {_ _ _ _ _ _} _.
Arguments NewListenAddr {_ _ _ _ _ _}.
Arguments RawOther {_ _ _ _ _ _}.

(** ** Channels of tokio ([mpsc]) *)

Inductive SendError := ChannelFull | ChannelClosed.

(** [ch_send] waits on [None]; [ch_recv] waits on [None] and gives [None] as its
    value when every sender is gone. *)
Class Mpsc (A : Type) := {
  chan : Type;
  mpsc_channel : nat -> chan;
  ch_send : chan -> A -> option (result SendError chan);
  ch_try_send : chan -> A -> result SendError chan;
  ch_recv : chan -> option (option A * chan);
  ch_drop_receiver : chan -> chan
}.
Arguments chan _ {_}.

Record ChanView (A : Type) := mkChanView { cv_queue : list A; cv_capacity : nat; cv_receiver : bool }.
Arguments mkChanView {_} _ _ _.
Arguments cv_queue {_} _.
Arguments cv_capacity {_} _.
Arguments cv_receiver {_} _.

(** The documented behaviour, while a sender is alive. *)
Class MpscOk (A : Type) `{Mpsc A} := {
  ch_view : chan A -> ChanView A;
  mpsc_channel_view n : ch_view (mpsc_channel n) = mkChanView [] n true;
  ch_send_view c a :
    match ch_send c a with
    | None => cv_receiver (ch_view c) = true /\ (cv_capacity (ch_view c) <= length (cv_queue (ch_view c)))%nat
    | Some (Err e) => e = ChannelClosed /\ cv_receiver (ch_view c) = false
    | Some (Ok c') => cv_receiver (ch_view c) = true /\ (length (cv_queue (ch_view c)) < cv_capacity (ch_view c))%nat /\
        ch_view c' = mkChanView (cv_queue (ch_view c) ++ [a]) (cv_capacity (ch_view c)) true
    end;
  ch_try_send_view c a :
    match ch_try_send c a with
    | Err ChannelFull => cv_receiver (ch_view c) = true /\ (cv_capacity (ch_view c) <= length (cv_queue (ch_view c)))%nat
    | Err ChannelClosed => cv_receiver (ch_view c) = false
    | Ok c' => cv_receiver (ch_view c) = true /\ (length (cv_queue (ch_view c)) < cv_capacity (ch_view c))%nat /\
        ch_view c' = mkChanView (cv_queue (ch_view c) ++ [a]) (cv_capacity (ch_view c)) true
    end;
  ch_recv_view c :
    match ch_recv c with
    | None => cv_queue (ch_view c) = []
    | Some (None, c') => False
    | Some (Some a, c') => exists q, cv_queue (ch_view c) = a :: q /\
        ch_view c' = mkChanView q (cv_capacity (ch_view c)) (cv_receiver (ch_view c))
    end;
  ch_drop_receiver_view c : ch_view (ch_drop_receiver c) = mkChanView [] (cv_capacity (ch_view c)) false
}.

(** ** The handle *)

Section Handle.
Context {PeerId : Type} `{Countable PeerId} {Multiaddr Channel : Type}.
Context `{BuildProfile} `{Blake3} `{Scale} `{GossipScale} `{Libp2p}.
Context {D : Type} `{StorageEngine D} `{!HashOrder PeerId}.

Abbreviation Service := (P2pService (PeerId := PeerId) (Multiaddr := Multiaddr) (D := D)).
Abbreviation Command := (P2pCommand (PeerId := PeerId) (Multiaddr := Multiaddr)).
Abbreviation Out := (Effect (PeerId := PeerId) (Multiaddr := Multiaddr) (Channel := Channel)).
Context `{!Mpsc Command}.

Definition swarm_settings (config : P2pConfig Multiaddr) : SwarmSettings :=
  mkSwarmSettings GOSSIP_MAX_TRANSMIT_SIZE 10 PROTOCOL_VERSION build_sync_behaviour (pc_max_peers _ config).

(** [P2pService::new]: the swarm may be refused. *)
Definition build_service (config : P2pConfig Multiaddr) (chain_id : Z) : result string Service :=
  _ <-! lp_build (swarm_settings config);
  Ok (P2pService_new config chain_id).

(** The subscriptions, in order. *)
Fixpoint subscribe_all (topics : list TopicConfig) : result string unit :=
  match topics with
  | [] => Ok tt
  | topic :: topics => _ <-! lp_subscribe (tc_name topic); subscribe_all topics
  end.

(** The handle is its end of the command channel; the event channel is in the
    effects of the loop. *)
Record P2pHandle := mkHandle { cmd_tx : chan Command; local_peer_id : PeerId }.

(** A channel nobody receives from. *)
Definition dummy_p2p_handle (random : PeerId) : P2pHandle := mkHandle (ch_drop_receiver (mpsc_channel 64)) random.

(** The methods; a clone of the handle shares the channel, whose new state is
    returned.  [None] waits for room. *)
Definition dial (tx : chan Command) (addr : Multiaddr) : result SendError (chan Command) := ch_try_send tx (Dial addr).
Definition publish_tx (tx : chan Command) (txs : list Transaction) := ch_send tx (PublishTx txs).
Definition publish_block (tx : chan Command) (block : Block) := ch_send tx (PublishBlock block).
Definition publish_vote (tx : chan Command) (vote : CommitVote) := ch_send tx (PublishVote vote).
Definition publish_evidence (tx : chan Command) (evidence : NetworkEvidence) := ch_send tx (PublishEvidence evidence).
Definition send_sync_request (tx : chan Command) (peer : PeerId) (request : SyncRequest) := ch_send tx (SendSyncRequest peer request).
Definition shutdown (tx : chan Command) := ch_send tx Shutdown.

(** [connected_peers]: the request, then what became of it and of its reply, which
    is lost when the loop stops first. *)
Definition request_peers (tx : chan Command) := ch_send tx GetPeers.
Definition connected_peers_of (sent : result SendError (chan Command)) (reply : option (list PeerId)) : list PeerId :=
  match sent with Err _ => [] | Ok _ => default [] reply end.

Inductive Call :=
| CallDial (addr : Multiaddr)
| CallPublishTx (txs : list Transaction)
| CallPublishBlock (block : Block)
| CallPublishVote (vote : CommitVote)
| CallPublishEvidence (evidence : NetworkEvidence)
| CallSendSyncRequest (peer : PeerId) (request : SyncRequest)
| CallConnectedPeers
| CallShutdown.

Definition invoke (tx : chan Command) (call : Call) : option (result SendError (chan Command)) :=
  match call with
  | CallDial addr => Some (dial tx addr)
  | CallPublishTx txs => publish_tx tx txs
  | CallPublishBlock block => publish_block tx block
  | CallPublishVote vote => publish_vote tx vote
  | CallPublishEvidence evidence => publish_evidence tx evidence
  | CallSendSyncRequest peer request => send_sync_request tx peer request
  | CallConnectedPeers => request_peers tx
  | CallShutdown => shutdown tx
  end.

Definition command (call : Call) : Command :=
  match call with
  | CallDial addr => Dial addr
  | CallPublishTx txs => PublishTx txs
  | CallPublishBlock block => PublishBlock block
  | CallPublishVote vote => PublishVote vote
  | CallPublishEvidence evidence => PublishEvidence evidence
  | CallSendSyncRequest peer request => SendSyncRequest peer request
  | CallConnectedPeers => GetPeers
  | CallShutdown => Shutdown
  end.

(** ** The running service and its callers *)

(** The spawned loop ([sys_running] until it breaks), the channel, and what the
    loop did so far. *)
Record System := mkSystem {
  sys_service : Service;
  sys_chan : chan Command;
  sys_running : bool;
  sys_out : list Out
}.

(** [start]: the listen address and the subscriptions may be refused; then the loop
    is spawned. *)
Definition start_service (self : Service) : result string System :=
  _ <-! lp_listen_on (p2p_port self);
  _ <-! subscribe_all (standard_topics (pretty (chain_id self)));
  let '(self, out) := start (Channel := Channel) self in
  Ok (mkSystem self (mpsc_channel 64) true out).

Inductive Label :=
| Called (call : Call) (accepted : bool)
| Swarm (now : Z) (event : SwarmEvent (PeerId := PeerId) (Channel := Channel))
| Took (cmd : option Command).

(** One step: a call of a method completes, or the loop takes an event of the swarm
    or a command.  A loop that breaks drops its end of the channel. *)
Inductive step : System -> Label -> System -> Prop :=
| step_accepted s call tx : invoke (sys_chan s) call = Some (Ok tx) ->
    step s (Called call true) (mkSystem (sys_service s) tx (sys_running s) (sys_out s))
| step_refused s call e : invoke (sys_chan s) call = Some (Err e) -> step s (Called call false) s
| step_event s now event self out : sys_running s = true ->
    handle_event (sys_service s) now event = Ret (self, out) ->
    step s (Swarm now event) (mkSystem self (sys_chan s) true (sys_out s ++ out))
| step_command s cmd tx out : sys_running s = true -> ch_recv (sys_chan s) = Some (cmd, tx) ->
    handle_command (sys_service s) cmd = Ret (out, true) ->
    step s (Took cmd) (mkSystem (sys_service s) tx true (sys_out s ++ out))
| step_stop s cmd tx out : sys_running s = true -> ch_recv (sys_chan s) = Some (cmd, tx) ->
    handle_command (sys_service s) cmd = Ret (out, false) ->
    step s (Took cmd) (mkSystem (sys_service s) (ch_drop_receiver tx) false (sys_out s ++ out)).

Inductive steps : System -> list Label -> System -> Prop :=
| steps_nil s : steps s [] s
| steps_snoc s tr s1 l s2 : steps s tr s1 -> step s1 l s2 -> steps s (tr ++ [l]) s2.

(** What a history of labels amounts to. *)
Definition input_of (l : Label) : option (Input (PeerId := PeerId) (Multiaddr := Multiaddr) (Channel := Channel)) :=
  match l with
  | Called _ _ => None
  | Swarm now event => Some (OnSwarm now event)
  | Took cmd => Some (OnCommand cmd)
  end.
Definition accepted_of (l : Label) : option Command := match l with Called call true => Some (command call) | _ => None end.
Definition taken_of (l : Label) : option Command := match l with Took cmd => cmd | _ => None end.
End Handle.

Arguments mkHandle {_ _ _} _ _.
Arguments cmd_tx {_ _ _} _.

(** ** Commands reach the loop in order, once *)

Section Refine.
Context {PeerId : Type} `{Countable PeerId} {Multiaddr Channel : Type}.
Context `{BuildProfile} `{Blake3} `{Scale} `{GossipScale} `{Libp2p}.
Context {D : Type} `{StorageEngine D} `{!HashOrder PeerId}.
Abbreviation Service := (P2pService (PeerId := PeerId) (Multiaddr := Multiaddr) (D := D)).
Abbreviation Command := (P2pCommand (PeerId := PeerId) (Multiaddr := Multiaddr)).
Context `{!Mpsc Command} `{!MpscOk Command}.
Abbreviation Sys := (System (PeerId := PeerId) (Multiaddr := Multiaddr) (Channel := Channel) (D := D)).
Abbreviation Trace := (list (Label (PeerId := PeerId) (Multiaddr := Multiaddr) (Channel := Channel))).
Abbreviation Inputs := (list (Input (PeerId := PeerId) (Multiaddr := Multiaddr) (Channel := Channel))).

(** A discovery event changes nothing: what mDNS, Kademlia and identify find is
    never dialled. *)
Lemma discovery_inert {Kad Mdns Identify Ping : Type} (self : Service) now (e : CombinedEvent (Kad := Kad) (Mdns := Mdns) (Identify := Identify) (Ping := Ping)) :
  match e with EvGossipsub _ | EvSync _ => True | _ =>
    handle_event (Multiaddr := Multiaddr) (Channel := Channel) self now (event_of (Behaviour e)) = Ret (self, []) end.
Proof. by destruct e. Qed.

Definition stops (cmd : option Command) : bool := match cmd with None | Some Shutdown => true | _ => false end.

Lemma handle_command_stops (self : Service) cmd :
  exists out, handle_command (Channel := Channel) self cmd = Ret (out, negb (stops cmd)).
Proof.
  assert (forall i m, (i < 4)%nat -> exists out, publish (Channel := Channel) self i m = Ret out) as Hpub.
  { intros i m Hi. unfold publish. do 4 (destruct i as [|i]; [cbn; destruct (prepare_gossip_message _ _); by eexists|]). lia. }
  destruct cmd as [[addr|txs|b|v|e|p r| |]|]; cbn [handle_command stops negb]; try by eexists.
  all: match goal with |- context [publish _ ?i ?m] => destruct (Hpub i m ltac:(lia)) as (out & ->) end; by exists out.
Qed.

(** The loop on one more input. *)
Definition live (i : Input (PeerId := PeerId) (Multiaddr := Multiaddr) (Channel := Channel)) : Prop :=
  match i with OnCommand cmd => stops cmd = false | _ => True end.

Lemma event_loop_app (l1 l2 : Inputs) (self self1 : Service) out1 : Forall live l1 ->
  event_loop self l1 = Ret (self1, out1) ->
  event_loop self (l1 ++ l2) = ('(self2, out2) ← event_loop self1 l2; Ret (self2, out1 ++ out2)).
Proof.
  revert self self1 out1. induction l1 as [|i l1 IH]; intros self self1 out1 Hl E; cbn [event_loop app] in *.
  { apply Ret_inj in E. simplify_eq. destruct (event_loop self1 l2) as [[]|]; done. }
  apply Forall_cons in Hl as [Hi Hl]. destruct i as [now event|cmd].
  - destruct (handle_event self now event) as [[self' out]|]; [|done]. cbn [mbind outcome_bind] in *.
    apply bind_Ret_inv in E as ([self'' out'] & E & E'). apply Ret_inj in E'. simplify_eq.
    rewrite (IH _ _ _ Hl E). destruct (event_loop self1 l2) as [[]|]; cbn [mbind outcome_bind]; [|done]. by rewrite app_assoc.
  - destruct (handle_command_stops self cmd) as [out Ec]. rewrite Ec in *. cbn [live] in Hi. rewrite Hi in *.
    cbn [mbind outcome_bind negb] in *. apply bind_Ret_inv in E as ([self'' out'] & E & E'). apply Ret_inj in E'. simplify_eq.
    rewrite (IH _ _ _ Hl E). destruct (event_loop self1 l2) as [[]|]; cbn [mbind outcome_bind]; [|done]. by rewrite app_assoc.
Qed.

(** What a call does to the channel. *)
Lemma invoke_view (tx : chan Command) (call : Call (PeerId := PeerId) (Multiaddr := Multiaddr)) :
  match invoke tx call with
  | None => cv_receiver (ch_view tx) = true
  | Some (Err ChannelFull) => cv_receiver (ch_view tx) = true
  | Some (Err ChannelClosed) => cv_receiver (ch_view tx) = false
  | Some (Ok tx') => cv_receiver (ch_view tx) = true /\ (length (cv_queue (ch_view tx)) < cv_capacity (ch_view tx))%nat /\
      ch_view tx' = mkChanView (cv_queue (ch_view tx) ++ [command call]) (cv_capacity (ch_view tx)) true
  end.
Proof.
  assert (forall a, match ch_send tx a with
    | None => cv_receiver (ch_view tx) = true
    | Some (Err ChannelFull) => cv_receiver (ch_view tx) = true
    | Some (Err ChannelClosed) => cv_receiver (ch_view tx) = false
    | Some (Ok tx') => cv_receiver (ch_view tx) = true /\ (length (cv_queue (ch_view tx)) < cv_capacity (ch_view tx))%nat /\
        ch_view tx' = mkChanView (cv_queue (ch_view tx) ++ [a]) (cv_capacity (ch_view tx)) true end) as Hsend.
  { intros a. pose proof (ch_send_view tx a) as Hv. destruct (ch_send tx a) as [[tx'|[]]|]; naive_solver. }
  destruct call; cbn [invoke command]; try apply Hsend.
  unfold dial. pose proof (ch_try_send_view tx (Dial addr)) as Hv. destruct (ch_try_send tx _) as [tx'|[]]; naive_solver.
Qed.

(** The state of a system after a history, from the start of the loop. *)
Record tracked (s0 : Sys) (tr : Trace) (s : Sys) : Prop := {
  tk_loop : exists out, event_loop (sys_service s0) (omap input_of tr) = Ret (sys_service s, out) /\ sys_out s = sys_out s0 ++ out;
  tk_running : sys_running s = true ->
    Forall live (omap input_of tr) /\ cv_receiver (ch_view (sys_chan s)) = true /\
    cv_capacity (ch_view (sys_chan s)) = 64%nat /\ (length (cv_queue (ch_view (sys_chan s))) <= 64)%nat /\
    omap accepted_of tr = omap taken_of tr ++ cv_queue (ch_view (sys_chan s)) /\ Shutdown ∉ omap taken_of tr;
  tk_stopped : sys_running s = false -> cv_receiver (ch_view (sys_chan s)) = false /\
    exists cmds rest, omap taken_of tr = cmds ++ [Shutdown] /\ omap accepted_of tr = cmds ++ Shutdown :: rest /\ Shutdown ∉ cmds
}.

Lemma tracked_event s0 tr s now event self out : tracked s0 tr s -> sys_running s = true ->
  handle_event (sys_service s) now event = Ret (self, out) ->
  tracked s0 (tr ++ [Swarm now event]) (mkSystem self (sys_chan s) true (sys_out s ++ out)).
Proof.
  intros [(o & El & Eo) Hrun _] Hr E. destruct (Hrun Hr) as (Hlive & ? & ? & ? & ? & ?).
  split; rewrite !omap_app; cbn [omap list_omap input_of accepted_of taken_of sys_service sys_chan sys_running sys_out];
    rewrite ?app_nil_r; [| |done].
  - exists (o ++ out). rewrite Eo, <- app_assoc. split; [|done].
    rewrite (event_loop_app _ [OnSwarm now event] _ _ _ Hlive El). cbn [event_loop]. rewrite E. cbn [mbind outcome_bind].
    by rewrite app_nil_r.
  - intros _. split; [|done]. apply Forall_app. split; [done|]. by constructor.
Qed.

Lemma tracked_command s0 tr s cmd tx out : tracked s0 tr s -> sys_running s = true -> ch_recv (sys_chan s) = Some (cmd, tx) ->
  handle_command (sys_service s) cmd = Ret (out, negb (stops cmd)) ->
  tracked s0 (tr ++ [Took cmd])
    (mkSystem (sys_service s) (if stops cmd then ch_drop_receiver tx else tx) (negb (stops cmd)) (sys_out s ++ out)).
Proof.
  intros [(o & El & Eo) Hrun _] Hr Erecv E. destruct (Hrun Hr) as (Hlive & Hrecv & Hcap & Hlen & Hacc & Hno).
  pose proof (ch_recv_view (sys_chan s)) as Hv. rewrite Erecv in Hv. destruct cmd as [c|]; [|done]. destruct Hv as (q & Eq & Ev).
  rewrite Eq in Hlen, Hacc. simpl in Hlen.
  split; rewrite !omap_app; cbn [omap list_omap input_of accepted_of taken_of sys_service sys_chan sys_running sys_out];
    rewrite ?app_nil_r.
  - exists (o ++ out). rewrite Eo, <- app_assoc. split; [|done].
    rewrite (event_loop_app _ [OnCommand (Some c)] _ _ _ Hlive El). cbn [event_loop]. rewrite E. cbn [mbind outcome_bind].
    destruct (stops (Some c)); cbn [negb mbind outcome_bind]; by rewrite ?app_nil_r.
  - intros Hn. apply negb_true_iff in Hn. rewrite Hn, Ev. cbn [cv_queue cv_capacity cv_receiver].
    split; [apply Forall_app; split; [done|by constructor]|]. do 2 (split; [done|]). split; [lia|].
    rewrite Hacc, <- app_assoc. split; [done|]. intros [Hin|Hin]%elem_of_app; [done|].
    apply list_elem_of_singleton in Hin. by subst c.
  - intros Hn. apply negb_false_iff in Hn. rewrite Hn, ch_drop_receiver_view. split; [done|].
    assert (c = Shutdown) as -> by (by destruct c). exists (omap taken_of tr), q. by rewrite Hacc.
Qed.

Lemma tracked_call s0 tr s call tx : tracked s0 tr s -> invoke (sys_chan s) call = Some (Ok tx) ->
  tracked s0 (tr ++ [Called call true]) (mkSystem (sys_service s) tx (sys_running s) (sys_out s)).
Proof.
  intros [Hloop Hrun Hstop] E. pose proof (invoke_view (sys_chan s) call) as Hv. rewrite E in Hv. destruct Hv as (Hr & Hlt & Ev).
  split; rewrite !omap_app; cbn [omap list_omap input_of accepted_of taken_of sys_service sys_chan sys_running sys_out];
    rewrite ?app_nil_r; [done| |].
  - intros Hrn. destruct (Hrun Hrn) as (? & ? & Hcap & ? & Hacc & ?). rewrite Ev. cbn [cv_queue cv_capacity cv_receiver].
    do 2 (split; [done|]). split; [done|]. rewrite length_app, Hacc, app_assoc. simpl. split; [lia|done].
  - intros Hrn. destruct (Hstop Hrn) as [Hc _]. congruence.
Qed.

Lemma tracked_refused s0 tr s call : tracked s0 tr s -> tracked s0 (tr ++ [Called call false]) s.
Proof.
  intros [Hloop Hrun Hstop]. split; rewrite !omap_app; cbn [omap list_omap input_of accepted_of taken_of]; by rewrite ?app_nil_r.
Qed.

Lemma steps_tracked (s0 s : Sys) tr : tracked s0 [] s0 -> steps s0 tr s -> tracked s0 tr s.
Proof.
  intros H0' Hs. induction Hs as [|s0 tr s1 l s2 _ IH Hl]; [done|]. specialize (IH H0').
  destruct Hl as [s call tx E|s call e E|s now event self out Hr E|s cmd tx out Hr Er E|s cmd tx out Hr Er E].
  - by apply tracked_call.
  - by apply tracked_refused.
  - by apply tracked_event.
  - pose proof (tracked_command _ _ _ _ _ out IH Hr Er) as Hk. destruct (handle_command_stops (sys_service s) cmd) as [o Eo].
    assert (stops cmd = false) as Hst by (rewrite E in Eo; by destruct (stops cmd)). rewrite Hst in Hk. by apply Hk.
  - pose proof (tracked_command _ _ _ _ _ out IH Hr Er) as Hk. destruct (handle_command_stops (sys_service s) cmd) as [o Eo].
    assert (stops cmd = true) as Hst by (rewrite E in Eo; by destruct (stops cmd)). rewrite Hst in Hk. by apply Hk.
Qed.

Lemma start_service_tracked (self : Service) (s0 : Sys) : start_service self = Ok s0 -> tracked s0 [] s0.
Proof.
  unfold start_service. intros E. apply and_then_Ok in E as ([] & _ & E). apply and_then_Ok in E as ([] & _ & E).
  unfold start in E. injection E as <-. split.
  - exists []. cbn [omap list_omap event_loop sys_service sys_out]. by rewrite app_nil_r.
  - intros _. cbn [sys_chan]. rewrite mpsc_channel_view. split; [constructor|]. cbn [cv_receiver cv_capacity cv_queue length]. do 2 (split; [done|]).
    split; [lia|]. split; [done|]. by apply not_elem_of_nil.
  - done.
Qed.

(** The commands the loop takes of a queue: those up to a shutdown. *)
Fixpoint until_shutdown (q : list Command) : list Command :=
  match q with
  | [] => []
  | Shutdown :: _ => [Shutdown]
  | c :: q => c :: until_shutdown q
  end.

Lemma until_shutdown_cons c q : until_shutdown (c :: q) = c :: (if stops (Some c) then [] else until_shutdown q).
Proof. by destruct c. Qed.

Lemma steps_cons (s s1 s2 : Sys) l tr : step s l s1 -> steps s1 tr s2 -> steps s (l :: tr) s2.
Proof.
  intros Hl Hs. induction Hs as [s1|s1 tr sa l' sb _ IH Hl']; [exact (steps_snoc s [] s l s1 (steps_nil s) Hl)|].
  apply (steps_snoc s (l :: tr) sa l' sb); [by apply IH|done].
Qed.

(** The loop alone empties the queue. *)
Lemma drain (s : Sys) : sys_running s = true ->
  exists s', steps s (map (Took ∘ Some) (until_shutdown (cv_queue (ch_view (sys_chan s))))) s' /\ cv_queue (ch_view (sys_chan s')) = [].
Proof.
  remember (cv_queue (ch_view (sys_chan s))) as q eqn:Eq. symmetry in Eq. revert s Eq.
  induction q as [|c q IH]; intros s Eq Hr; [exists s; split; [constructor|done]|].
  pose proof (ch_recv_view (sys_chan s)) as Hv. destruct (ch_recv (sys_chan s)) as [[[c'|] tx]|] eqn:Er; [|done|congruence].
  destruct Hv as (q' & Eq' & Ev). rewrite Eq in Eq'. injection Eq' as <- <-.
  destruct (handle_command_stops (sys_service s) (Some c)) as [out Ec]. rewrite until_shutdown_cons.
  destruct (stops (Some c)) eqn:Est; cbn [negb map compose] in *.
  - eexists. split; [eapply steps_cons; [by eapply step_stop|constructor]|]. cbn [sys_chan]. by rewrite ch_drop_receiver_view.
  - destruct (IH (mkSystem (sys_service s) tx true (sys_out s ++ out))) as (s' & Hs & Hq); [cbn [sys_chan]; by rewrite Ev|done|].
    exists s'. split; [|done]. eapply steps_cons; [by eapply step_command|exact Hs].
Qed.

(** C33: the handle drives the event loop.  However calls of the handle's methods,
    swarm events and the loop interleave, the service and its effects are those of
    [event_loop] on the events and commands the loop took, and it took the accepted
    commands in the order they were accepted, each once: those it has not taken are
    waiting, at most 64 of them, and the loop can take them all at once.  After a
    shutdown nothing that was still waiting is executed, and every later call is
    refused. *)
Theorem handle_refines (self : Service) (s0 s : Sys) (tr : Trace)
    (Hstart : start_service self = Ok s0) (Hsteps : steps s0 tr s) :
  (exists out, event_loop (sys_service s0) (omap input_of tr) = Ret (sys_service s, out) /\ sys_out s = sys_out s0 ++ out) /\
  (if sys_running s then
    let waiting := cv_queue (ch_view (sys_chan s)) in
    omap accepted_of tr = omap taken_of tr ++ waiting /\ (length waiting <= 64)%nat /\ (Shutdown ∉ omap taken_of tr) /\
    exists s', steps s (map (Took ∘ Some) (until_shutdown waiting)) s' /\ cv_queue (ch_view (sys_chan s')) = []
  else
    (exists cmds rest, omap taken_of tr = cmds ++ [Shutdown] /\ omap accepted_of tr = cmds ++ Shutdown :: rest /\ Shutdown ∉ cmds) /\
    forall l s', step s l s' -> s' = s /\ exists call, l = Called call false).
Proof.
  pose proof (steps_tracked s0 s tr (start_service_tracked self s0 Hstart) Hsteps) as [Hloop Hrun Hstop].
  split; [exact Hloop|]. destruct (sys_running s) eqn:Hr.
  - destruct (Hrun eq_refl) as (_ & _ & _ & Hlen & Hacc & Hno). do 3 (split; [done|]). by apply drain.
  - destruct (Hstop eq_refl) as (Hc & cmds & rest & Ht & Ha). split; [by exists cmds, rest|]. intros l s' Hl.
    destruct Hl as [s call tx E|s call e E| | |]; [|by eauto|congruence..].
    pose proof (invoke_view (sys_chan s) call) as Hv. rewrite E in Hv. destruct Hv as [Hv _]. congruence.
Qed.

(** A dummy handle refuses everything, and knows no peer. *)
Lemma dummy_refuses (random : PeerId) call :
  exists e, invoke (cmd_tx (dummy_p2p_handle random)) call = Some (Err e) /\
  forall reply, connected_peers_of (PeerId := PeerId) (Multiaddr := Multiaddr) (Err e) reply = [].
Proof.
  pose proof (invoke_view (cmd_tx (dummy_p2p_handle random)) call) as Hv. unfold dummy_p2p_handle in *. cbn [cmd_tx] in *.
  rewrite ch_drop_receiver_view in Hv. destruct (invoke _ call) as [[tx|e]|]; [by destruct Hv|by eexists|done].
Qed.
End Refine.

(** ** Instances *)

Import ToyInstances MemStorage.

(** A channel as a list. *)
#[local] Instance list_mpsc (A : Type) : Mpsc A := {|
  chan := ChanView A;
  mpsc_channel n := mkChanView [] n true;
  ch_send c a :=
    if cv_receiver c then
      if decide (length (cv_queue c) < cv_capacity c)%nat
      then Some (Ok (mkChanView (cv_queue c ++ [a]) (cv_capacity c) true)) else None
    else Some (Err ChannelClosed);
  ch_try_send c a :=
    if cv_receiver c then
      if decide (length (cv_queue c) < cv_capacity c)%nat
      then Ok (mkChanView (cv_queue c ++ [a]) (cv_capacity c) true) else Err ChannelFull
    else Err ChannelClosed;
  ch_recv c := match cv_queue c with [] => None | a :: q => Some (Some a, mkChanView q (cv_capacity c) (cv_receiver c)) end;
  ch_drop_receiver c := mkChanView [] (cv_capacity c) false
|}.

#[local] Instance list_mpsc_ok (A : Type) : MpscOk A.
Proof.
  refine {| ch_view := fun c : @chan A (list_mpsc A) => c |}; try done; intros [q n b]; simpl; intros;
    repeat (case_match; simplify_eq/=); try done; try (split; [done|lia]); by eexists.
Defined.

#[local] Instance toy_libp2p : Libp2p := {| lp_build _ := Ok tt; lp_listen_on _ := Ok tt; lp_subscribe _ := Ok tt |}.

#[local] Existing Instance toy_gossip.

Abbreviation SystemEx := (System (PeerId := Z) (Multiaddr := bytes) (Channel := Z) (D := RedbEngine)).

Definition system0 : SystemEx :=
  mkSystem (start (Channel := Z) service_ex).1 (mpsc_channel 64) true (start (Channel := Z) service_ex).2.

(** A publication runs; a question for the peers is still waiting when the loop
    stops, and the dial after that is refused. *)
Definition trace_ex : list (Label (PeerId := Z) (Multiaddr := bytes) (Channel := Z)) :=
  [Called (CallPublishTx []) true; Took (Some (PublishTx [])); Called CallShutdown true; Called CallConnectedPeers true;
   Took (Some Shutdown); Called (CallDial []) false].

Definition ended_ex : SystemEx :=
  mkSystem (sys_service system0) (mkChanView [] 64 false) false
    ((sys_out system0 ++ [DoPublish ("mononium/txs/" +:+ pretty 7) (enc sc_gossip (GossipTxs []))]) ++ []).

Lemma steps_ex : steps system0 trace_ex ended_ex.
Proof.
  repeat (eapply steps_cons; [first [eapply step_accepted; reflexivity|eapply step_refused; reflexivity
    |eapply step_command; reflexivity|eapply step_stop; reflexivity]|]). exact (steps_nil ended_ex).
Qed.

Lemma subscribe_all_toy topics : subscribe_all topics = Ok tt.
Proof. induction topics as [|t topics IH]; [done|exact IH]. Qed.

Lemma start_ex : start_service service_ex = Ok system0.
Proof. unfold start_service. by rewrite subscribe_all_toy. Qed.

Lemma handle_refines_witness :
  (exists out, event_loop (sys_service system0) [OnCommand (Some (PublishTx [])); OnCommand (Some Shutdown)] =
     Ret (sys_service ended_ex, out) /\ sys_out ended_ex = sys_out system0 ++ out) /\
  forall l s', step ended_ex l s' -> s' = ended_ex /\ exists call, l = Called call false.
Proof.
  destruct (handle_refines service_ex system0 ended_ex trace_ex start_ex steps_ex) as (Hl & _ & Hs). split; [exact Hl|exact Hs].
Defined.
