(* ===== verification/SyncLoop.v ===== *)
(** * The catch-up loop over the network ([run_sync_loop] of [network/sync.rs])

    The loop as it runs between the event channel of the P2P service and its command
    channel: tip discovery with the first peer, one request per batch to the peers in
    turn, and the wait for the answer.  [Sync] has the treatment of an answer; here
    the loop is shown to be the loop of [Sync] on the answers it picks out of the
    channel, and then run against peers as [Boot] starts them. *)
From Stdlib Require Import Strings.Byte Strings.String.
From stdpp Require Import base gmap sets list strings countable sorting.
From Stdlib Require Import ZArith Lia.
From S2P Require Import Prelude Types External Toy Trie Account State Ledger Refine Scenario Finality Schedule Mempool Storage Genesis Slashing Engine Peers Sync P2p.

Section Loop.
Context `{BuildProfile} `{Blake3} `{Scale}.
Context {PeerId : Type} `{EqDecision PeerId}.
Context {D : Type} `{StorageEngine D}.

(** What the receiver of the event channel and the timer give, in order; the timer
    of a batch is [SYNC_TIMEOUT], the tip request has none. *)
Inductive Notice :=
| Received (event : P2pEvent (PeerId := PeerId))
| Lagged (n : Z)
| Closed
| Expired.

Definition SYNC_TIMEOUT : Z := 10.

(** [wait_for_sync_response] under a timer: [None] keeps waiting. *)
Definition classify (peer : PeerId) (notice : Notice) : option SyncEvent :=
  match notice with
  | Received (EvSyncResponse p response) => if decide (p = peer) then Some (Responded response) else None
  | Received _ | Lagged _ => None
  | Closed => Some NoResponse
  | Expired => Some TimedOut
  end.

(** Without a timer: the answer, with what is left of the channel. *)
Fixpoint wait_for_sync_response (peer : PeerId) (notices : list Notice) : option (option SyncResponse * list Notice) :=
  match notices with
  | [] => None
  | Received (EvSyncResponse p response) :: notices =>
      if decide (p = peer) then Some (Some response, notices) else wait_for_sync_response peer notices
  | Closed :: notices => Some (None, notices)
  | _ :: notices => wait_for_sync_response peer notices
  end.

Definition tip_request : SyncRequest := BlockSync (mkSyncReq 1 1 Forward None).

(** The head of the loop: finished, or the next request is sent.  [accepts i] is
    whether the command channel takes the [i]-th request of the run. *)
Inductive Next := Finished (r : result string unit) | Asked (peer : PeerId) (request : SyncRequest).

Definition ask (accepts : nat -> bool) (peers : list PeerId) (peer_index : nat) (st : SyncState (D := D)) : outcome Next :=
  if gap (sy_cursor st) =? 0 then Ret (Finished (Ok tt))
  else
    peer ← index peers (Z.of_nat peer_index mod Z.of_nat (length peers));
    sync_req ← next_request (sy_cursor st);
    Ret (if accepts (S peer_index) then Asked peer sync_req else Finished (Err "channel closed"%string)).

(** The wait for [peer]'s answer and the iterations that follow it, with the
    requests sent; [None] while the loop waits. *)
Fixpoint download (accepts : nat -> bool) (peers : list PeerId) (peer_index : nat) (st : SyncState (D := D)) (peer : PeerId)
    (notices : list Notice) : outcome (SyncState (D := D) * list (PeerId * SyncRequest) * option (result string unit)) :=
  match notices with
  | [] => Ret (st, [], None)
  | notice :: notices =>
      match classify peer notice with
      | None => download accepts peers peer_index st peer notices
      | Some ev =>
          '(st, flow) ← sync_step st ev;
          match flow with
          | Fail msg => Ret (st, [], Some (Err msg))
          | Continue =>
              next ← ask accepts peers peer_index st;
              match next with
              | Finished r => Ret (st, [], Some r)
              | Asked peer request =>
                  '(st, sent, r) ← download accepts peers (S peer_index) st peer notices;
                  Ret (st, (peer, request) :: sent, r)
              end
          end
      end
  end.

Definition run_sync_loop (accepts : nat -> bool) (connected_peers : list PeerId) (cursor : SyncCursor) (storage : D)
    (era_length : Z) (notices : list Notice) :
    outcome (SyncState (D := D) * list (PeerId * SyncRequest) * option (result string unit)) :=
  let st := mkSync cursor storage 0 [] in
  match connected_peers with
  | [] => Ret (st, [], Some (Err "sync: no connected peers"%string))
  | first :: _ =>
      if negb (accepts 0%nat) then Ret (st, [], Some (Err "channel closed"%string))
      else
        let sent := [(first, tip_request)] in
        match wait_for_sync_response first notices with
        | None => Ret (st, sent, None)
        | Some (None, _) => Ret (st, sent, Some (Err "sync: no tip response from peer"%string))
        | Some (Some (RBlockByHash _), _) => Ret (st, sent, Some (Err "sync: unexpected tip response type"%string))
        | Some (Some (RBlockSync bsr), notices) =>
            let tip_height := highest_height bsr in
            if tip_height <=? last_verified_height cursor then Ret (st, sent, Some (Ok tt))
            else
              let cursor := set_target cursor tip_height in
              let st := mkSync cursor storage 0 [] in
              _ ← needs_checkpoint cursor era_length;
              next ← ask accepts connected_peers 0 st;
              match next with
              | Finished r => Ret (st, sent, Some r)
              | Asked peer request =>
                  '(st, more, r) ← download accepts connected_peers 1 st peer notices;
                  Ret (st, sent ++ (peer, request) :: more, r)
              end
        end
  end.
End Loop.

Arguments Received {_} _.
Arguments Lagged {_} _.
Arguments Closed {_}.
Arguments Expired {_}.
Arguments Finished {_} _.
Arguments Asked {_} _ _.

(** ** The loop and its abstraction *)

Section Refine.
Context `{BuildProfile} `{Blake3} `{Scale}.
Context {PeerId : Type} `{EqDecision PeerId}.
Context {D : Type} `{StorageEngine D}.

(** The outcomes the loop picks out of the channel: the first one for the peer it
    waits for, then the first one after that for the peer whose turn it is. *)
Fixpoint answers (peers : list PeerId) (peer_index : nat) (peer : PeerId) (notices : list (Notice (PeerId := PeerId))) : list SyncEvent :=
  match notices with
  | [] => []
  | notice :: notices =>
      match classify peer notice with
      | None => answers peers peer_index peer notices
      | Some ev =>
          ev :: match peers !! (peer_index mod length peers)%nat with
                | Some peer => answers peers (S peer_index) peer notices
                | None => []
                end
      end
  end.

Lemma turn (peers : list PeerId) i : peers <> [] ->
  exists p, peers !! (i mod length peers)%nat = Some p /\ index peers (Z.of_nat i mod Z.of_nat (length peers)) = Ret p.
Proof.
  intros Hne. assert (length peers <> 0%nat) as Hl by (by destruct peers).
  destruct (lookup_lt_is_Some_2 peers (i mod length peers)) as [p Hp]; [by apply Nat.mod_upper_bound|].
  exists p. split; [done|]. unfold index. by rewrite <- Nat2Z.inj_mod, Nat2Z.id, Hp.
Qed.

Lemma sync_step_target (st st' : SyncState (D := D)) ev : sync_step st ev = Ret (st', Continue) ->
  target_height (sy_cursor st') = target_height (sy_cursor st) /\
  last_verified_height (sy_cursor st) <= last_verified_height (sy_cursor st').
Proof.
  assert (forall msg, one_failure st msg = (st', Continue) ->
    target_height (sy_cursor st') = target_height (sy_cursor st) /\
    last_verified_height (sy_cursor st) <= last_verified_height (sy_cursor st')) as Hone.
  { unfold one_failure. intros msg [= <- _]. simpl. lia. }
  destruct ev as [| |[bsr|r]]; cbn [sync_step]; try (intros E%Ret_inj; eapply Hone, E).
  - destruct (last (rs_blocks bsr)) as [b|]; [|intros E%Ret_inj; eapply Hone, E].
    case_bool_decide; cbn [negb]; [|intros E%Ret_inj; eapply Hone, E].
    destruct (continuous _ _); cbn [negb]; [|intros [= <-]%Ret_inj; simpl; lia].
    unfold accept_batch. destruct (for_each put_block _ _) as [d' [[]|e]]; [|done].
    intros (cursor & Ec & E)%bind_Ret_inv. injection E as <-. unfold advance, assert_ in Ec.
    destruct (Z.ltb_spec (last_verified_height (sy_cursor st)) (hdr_height (blk_header b))); [|done].
    injection Ec as <-. simpl. lia.
  - intros [= <-]%Ret_inj. simpl. lia.
Qed.

(** The filter of the event channel: answers of the peer that was asked, the end of the
    channel and the timer go through, nothing else; without the timer it is what
    [wait_for_sync_response] waits for. *)
Lemma classify_passes (peer : PeerId) notice ev : classify peer notice = Some ev <->
  match ev with
  | Responded response => notice = Received (EvSyncResponse peer response)
  | NoResponse => notice = Closed
  | TimedOut => notice = Expired
  end.
Proof.
  destruct notice as [[| | | |p response]|n| |], ev; cbn [classify]; try (by split); case_decide; split; congruence.
Qed.

Lemma wait_classifies (peer : PeerId) skipped notice rest ev : Forall (fun n => classify peer n = None) skipped ->
  classify peer notice = Some ev -> ev <> TimedOut ->
  wait_for_sync_response peer (skipped ++ notice :: rest) =
    Some (match ev with Responded response => Some response | _ => None end, rest).
Proof.
  intros Hs Hc Ht. induction Hs as [|n skipped Hn _ IH]; cbn [app].
  - apply classify_passes in Hc. destruct ev as [| |response]; subst notice; cbn [wait_for_sync_response]; [done|done|].
    by rewrite decide_True.
  - destruct n as [[| | | |p response]|m| |]; cbn [wait_for_sync_response]; try exact IH; [|done].
    cbn [classify] in Hn. case_decide; [done|exact IH].
Qed.

Definition cursor_ok (c : SyncCursor) : Prop := 0 <= last_verified_height c /\ is_u64 (target_height c).

Lemma ask_next (peers : list PeerId) i (st : SyncState (D := D)) : peers <> [] -> cursor_ok (sy_cursor st) -> gap (sy_cursor st) <> 0 ->
  exists p req, peers !! (i mod length peers)%nat = Some p /\ ask (fun _ => true) peers i st = Ret (Asked p req).
Proof.
  intros Hne [Hl Ht] Hg. destruct (turn peers i Hne) as (p & Hp & Hi). unfold ask. rewrite (proj2 (Z.eqb_neq _ _) Hg), Hi.
  cbn [mbind outcome_bind]. unfold next_request. unfold gap, u64_saturating_sub, is_u64 in *.
  rewrite u64_add_ok by lia. cbn [mbind outcome_bind]. eauto.
Qed.

(** From a request on, the loop is [sync_run] on the answers, and its requests go
    round the peers. *)
Lemma download_run (peers : list PeerId) (Hne : peers <> []) notices : forall i (st : SyncState (D := D)) peer,
  cursor_ok (sy_cursor st) -> gap (sy_cursor st) <> 0 ->
  match sync_run st (answers peers i peer notices) with
  | Panic => download (fun _ => true) peers i st peer notices = Panic
  | Ret (st', r) => exists sent, download (fun _ => true) peers i st peer notices = Ret (st', sent, r) /\
      forall k q, sent !! k = Some q -> peers !! ((i + k) mod length peers)%nat = Some q.1
  end.
Proof.
  induction notices as [|notice notices IH]; intros i st peer Hc Hg; cbn [answers download sync_run].
  { rewrite (proj2 (Z.eqb_neq _ _) Hg). exists []. split; [done|]. by intros k q ?%list_elem_of_lookup_2%elem_of_nil. }
  destruct (classify peer notice) as [ev|]; [|by apply IH]. cbn [sync_run]. rewrite (proj2 (Z.eqb_neq _ _) Hg).
  destruct (sync_step st ev) as [[st1 flow]|] eqn:Es; cbn [mbind outcome_bind]; [|done].
  destruct flow as [|msg]; [|exists []; split; [done|]; by intros k q ?%list_elem_of_lookup_2%elem_of_nil].
  destruct (sync_step_target _ _ _ Es) as [Et El].
  assert (cursor_ok (sy_cursor st1)) as Hc1 by (destruct Hc; split; [lia|by rewrite Et]).
  destruct (decide (gap (sy_cursor st1) = 0)) as [Hz|Hz].
  - unfold ask. rewrite Hz. cbn [Z.eqb mbind outcome_bind]. destruct (turn peers i Hne) as (p & -> & _).
    destruct (answers peers (S i) p notices); cbn [sync_run]; rewrite Hz; cbn [Z.eqb]; exists []; (split; [done|]);
      by intros k q ?%list_elem_of_lookup_2%elem_of_nil.
  - destruct (ask_next peers i st1 Hne Hc1 Hz) as (p & req & Hp & ->). rewrite Hp. cbn [mbind outcome_bind].
    specialize (IH (S i) st1 p Hc1 Hz). destruct (sync_run st1 (answers peers (S i) p notices)) as [[st' r]|]; [|by rewrite IH].
    destruct IH as (sent & -> & Hsent). cbn [mbind outcome_bind]. exists ((p, req) :: sent). split; [done|].
    intros [|k] q Hq; simpl in Hq; [injection Hq as <-; by rewrite Nat.add_0_r|]. rewrite <- Nat.add_succ_comm. by apply Hsent.
Qed.

(** C31: the network loop is the abstract catch-up loop.  Once the first connected
    peer has answered the tip request with a batch answer, the run is [start_sync]
    towards the reported tip on the outcomes that [answers] picks out of the channel:
    same panics, same state at every point, same result, still waiting exactly when
    it is.  Messages of other peers, other events and lag change nothing.  The
    first request asks the first peer for the tip, and the batch requests go to the
    connected peers in turn. *)
Theorem sync_loop_refines (peers : list PeerId) (first : PeerId) (cursor : SyncCursor) (storage : D) (era_length : Z)
    (notices left : list (Notice (PeerId := PeerId))) (bsr : BlockSyncResponse)
    (Hfirst : head peers = Some first) (Hcursor : 0 <= last_verified_height cursor)
    (Hera : 0 <= era_length < 2 ^ 63)
    (Htip : wait_for_sync_response first notices = Some (Some (RBlockSync bsr), left)) (Hu : is_u64 (highest_height bsr)) :
  match start_sync cursor (highest_height bsr) storage (answers peers 1 first left) with
  | Panic => run_sync_loop (fun _ => true) peers cursor storage era_length notices = Panic
  | Ret (st', r) => exists batches,
      run_sync_loop (fun _ => true) peers cursor storage era_length notices = Ret (st', (first, tip_request) :: batches, r) /\
      forall k q, batches !! k = Some q -> peers !! (k mod length peers)%nat = Some q.1
  end.
Proof.
  destruct peers as [|first' rest]; [done|]. injection Hfirst as ->.
  unfold run_sync_loop, start_sync. cbn [negb]. rewrite Htip.
  destruct (Z.leb_spec (highest_height bsr) (last_verified_height cursor)) as [Hle|Hlt].
  { exists []. split; [done|]. by intros k q ?%list_elem_of_lookup_2%elem_of_nil. }
  set (st := mkSync (set_target cursor (highest_height bsr)) storage 0 []).
  assert (cursor_ok (sy_cursor st)) as Hc by (by split).
  assert (gap (sy_cursor st) <> 0) as Hg by (unfold gap, u64_saturating_sub; simpl; lia).
  unfold needs_checkpoint, u64_mul. rewrite wrap_check_ok by (unfold W64; lia). cbn [mbind outcome_bind].
  destruct (ask_next (first :: rest) 0 st ltac:(done) Hc Hg) as (p & req & Hp & ->).
  rewrite Nat.Div0.mod_0_l in Hp. injection Hp as <-.
  cbn [mbind outcome_bind]. pose proof (download_run (first :: rest) ltac:(done) left 1 st first Hc Hg) as Hd.
  destruct (sync_run st (answers (first :: rest) 1 first left)) as [[st' r]|]; [|by rewrite Hd].
  destruct Hd as (sent & -> & Hsent). cbn [mbind outcome_bind]. exists ((first, req) :: sent). split; [done|].
  intros [|k] q Hq; simpl in Hq; [injection Hq as <-; by rewrite Nat.Div0.mod_0_l|]. by apply (Hsent k).
Qed.
End Refine.

(** ** Among nodes as they are started *)

Section Network.
Context {PeerId : Type} `{Countable PeerId} {Multiaddr Channel : Type}.
Context `{BuildProfile} `{Blake3} `{Scale} `{GossipScale} `{!GossipScaleOk}.
Context {D : Type} `{StorageEngine D} `{!HashOrder PeerId}.

(** What the service of a started node does over a history of inputs. *)
Definition does (config : P2pConfig Multiaddr) (chain : Z)
    (inputs : list (Input (PeerId := PeerId) (Multiaddr := Multiaddr) (Channel := Channel)))
    (out : list (Effect (PeerId := PeerId) (Multiaddr := Multiaddr) (Channel := Channel))) : Prop :=
  exists self', event_loop (D := D) (start (Channel := Channel) (P2pService_new config chain)).1 inputs = Ret (self', out).

Lemma wait_silent (peer : PeerId) notices : Closed ∉ notices ->
  (forall r, Received (EvSyncResponse peer r) ∉ notices) -> wait_for_sync_response peer notices = None.
Proof.
  induction notices as [|notice notices IH]; intros Hc Hr; [done|].
  assert (wait_for_sync_response peer notices = None) as E by (apply IH; set_solver).
  destruct notice as [[| | | |p r]|n| |]; cbn [wait_for_sync_response]; try done; [|set_solver].
  destruct (decide (p = peer)) as [->|]; [|done]. destruct (Hr r). by left.
Qed.

(** Nodes that start together never sync.  When every connected peer runs the
    service that [run_node] starts, and sync responses come only from responses a
    peer has sent, then whatever happens on the network, the loop of a node with an
    open event channel sends its tip request and waits for ever: it stores nothing,
    moves no cursor and never asks a second peer. *)
Theorem started_nodes_never_sync (config : PeerId -> P2pConfig Multiaddr) (chain : PeerId -> Z)
    (inputs : PeerId -> list (Input (PeerId := PeerId) (Multiaddr := Multiaddr) (Channel := Channel)))
    (out : PeerId -> list (Effect (PeerId := PeerId) (Multiaddr := Multiaddr) (Channel := Channel)))
    (Hpeers : forall p, does (config p) (chain p) (inputs p) (out p))
    (first : PeerId) (rest : list PeerId) (cursor : SyncCursor) (storage : D) (era_length : Z)
    (notices : list (Notice (PeerId := PeerId)))
    (Hnet : forall p r, Received (EvSyncResponse p r) ∈ notices -> exists c, DoSendResponse c r ∈ out p)
    (Hopen : Closed ∉ notices) :
  run_sync_loop (fun _ => true) (first :: rest) cursor storage era_length notices =
    Ret (mkSync cursor storage 0 [], [(first, tip_request)], None).
Proof.
  unfold run_sync_loop. cbn [negb]. rewrite wait_silent; [done|done|]. intros r Hin.
  destruct (Hnet first r Hin) as [c Hc]. destruct (Hpeers first) as [self' E].
  destruct (event_loop_plain (inputs first) (start (Channel := Channel) (D := D) (P2pService_new (config first) (chain first))).1 eq_refl)
    as (self1 & out1 & E1 & Ho & _). assert (out first = out1) as Eo by congruence. rewrite Eo in Hc. by apply (Ho c r).
Qed.
End Network.

(** ** Instances *)

Import ToyInstances MemStorage.

Definition tip_ex : BlockSyncResponse := mkSyncResp [] 3 file_hash.
Definition left_ex : list (Notice (PeerId := Z)) := [Received (EvSyncResponse 2 (RBlockByHash (mkHashResp []))); Lagged 4; Expired; Expired].
Definition notices_ex : list (Notice (PeerId := Z)) := Received (EvSyncResponse 2 (RBlockSync tip_ex)) :: Received (EvSyncResponse 1 (RBlockSync tip_ex)) :: left_ex.

Definition stalled_ex : SyncState (D := RedbEngine) := mkSync (set_target cursor_ex 3) loaded_ex 2 [].

Lemma start_sync_ex : start_sync cursor_ex (highest_height tip_ex) loaded_ex (answers [1; 2] 1 1 left_ex) = Ret (stalled_ex, None).
Proof. reflexivity. Qed.

(** What the second peer says is passed over while the first is awaited; two batch
    requests time out, and a third is pending. *)
Lemma sync_loop_refines_witness : exists batches,
  run_sync_loop (fun _ => true) [1; 2] cursor_ex loaded_ex 720 notices_ex =
    Ret (stalled_ex, (1, tip_request) :: batches, None) /\
  forall k q, batches !! k = Some q -> [1; 2] !! (k mod 2)%nat = Some q.1.
Proof.
  pose proof (sync_loop_refines [1; 2] 1 cursor_ex loaded_ex 720 notices_ex left_ex tip_ex eq_refl ltac:(done)
    ltac:(done) eq_refl ltac:(by split)) as E.
  rewrite start_sync_ex in E. exact E.
Defined.

Example requests_in_turn : exists st' sent,
  run_sync_loop (fun _ => true) [1; 2] cursor_ex loaded_ex 720 notices_ex = Ret (st', sent, None) /\ map fst sent = [1; 1; 2; 1].
Proof. eexists _, _. split; reflexivity. Qed.
