(* ===== verification/SyncTask.v ===== *)
(** * The background sync task ([network/sync.rs], [run_node] of [mononium-cli/src/node.rs])

    [run_node] spawns a task that runs the catch-up loop of [SyncLoop] again and
    again.  The loop keeps its cursor in a file: here are [SyncCursor::save], the
    rounds of the task over the file and the store, and what the task achieves over
    its whole life, whatever peers answer and however its rounds end. *)
From Stdlib Require Import Strings.Byte Strings.String.
From stdpp Require Import base gmap sets list strings countable sorting.
From Stdlib Require Import ZArith Lia.
From S2P Require Import Prelude Types External Toy Trie Account State Ledger Refine Scenario Finality Schedule Mempool Storage Genesis Slashing Engine Peers Sync P2p SyncLoop.

(** [serde_json] on cursors. *)
Class CursorText := {
  cursor_to_string : SyncCursor -> option bytes;
  cursor_from_str : bytes -> option SyncCursor
}.

Class CursorTextOk `{CursorText} : Prop := {
  cursor_text_total c : is_Some (cursor_to_string c);
  cursor_roundtrip c s : cursor_to_string c = Some s -> cursor_from_str s = Some c
}.

(** Creating the directory and writing the file; a write that fails may leave
    anything behind. *)
Inductive IoResult := IoOk | IoFailed (remains : option bytes).

(** [SyncCursor::save]. *)
Definition save `{CursorText} (file : option bytes) (io : IoResult) (self : SyncCursor) : option bytes * result string unit :=
  match cursor_to_string self with
  | None => (file, Err "serialisation error"%string)
  | Some json =>
      match io with
      | IoOk => (Some json, Ok tt)
      | IoFailed remains => (remains, Err "io error"%string)
      end
  end.

Section Task.
Context `{BuildProfile} `{Blake3} `{Scale} `{CursorText}.
Context {PeerId : Type} `{EqDecision PeerId}.
Context {D : Type} `{StorageEngine D}.
Context (genesis_hash : array 32) (era_length : Z).

(** The cursors one run of the loop saves; a failed save is only logged. *)
Fixpoint save_all (file : option bytes) (io : nat -> IoResult) (i : nat) (cursors : list SyncCursor) : option bytes :=
  match cursors with
  | [] => file
  | c :: cursors => save_all (save file (io i) c).1 io (S i) cursors
  end.

(** What a round meets: the connected peers, the command and event channels, and
    the file system. *)
Record Round := mkRound {
  rd_peers : list PeerId;
  rd_accepts : nat -> bool;
  rd_notices : list (Notice (PeerId := PeerId));
  rd_io : nat -> IoResult
}.

Inductive TaskEvent :=
| Asks (peer : PeerId) (request : SyncRequest)
| Synced
| Exited (msg : string)
| Sleep (seconds : Z).

Definition cursor_in (file : option bytes) : SyncCursor := load_cursor cursor_from_str file genesis_hash.

(** How the task takes the end of a round: straight on, or after a pause. *)
Definition after_round (r : result string unit) : list TaskEvent :=
  match r with Ok _ => [Synced] | Err msg => [Exited msg; Sleep 5] end.

(** The rounds; the task hangs in a round that never ends. *)
Fixpoint sync_rounds (storage : D) (file : option bytes) (rounds : list Round) : outcome (D * option bytes * list TaskEvent) :=
  match rounds with
  | [] => Ret (storage, file, [])
  | rd :: rounds =>
      '(st, sent, r) ← run_sync_loop (rd_accepts rd) (rd_peers rd) (cursor_in file) storage era_length (rd_notices rd);
      let file := save_all file (rd_io rd) 0 (sy_saved st) in
      let asked := map (fun q => Asks q.1 q.2) sent in
      match r with
      | None => Ret (sy_storage st, file, asked)
      | Some r =>
          '(storage, file, more) ← sync_rounds (sy_storage st) file rounds;
          Ret (storage, file, asked ++ after_round r ++ more)
      end
  end.

(** The task as it is spawned. *)
Definition sync_task (storage : D) (file : option bytes) (rounds : list Round) : outcome (D * option bytes * list TaskEvent) :=
  '(storage, file, log) ← sync_rounds storage file rounds;
  Ret (storage, file, Sleep 2 :: log).
End Task.

Arguments mkRound {_} _ _ _ _.
Arguments rd_peers {_} _.
Arguments rd_accepts {_} _.
Arguments rd_notices {_} _.
Arguments rd_io {_} _.
Arguments Asks {_} _ _.
Arguments Synced {_}.
Arguments Exited {_} _.
Arguments Sleep {_} _.

(** ** Progress of a run *)

Section Progress.
Context `{BuildProfile} `{Blake3} `{Scale}.
Context {PeerId : Type} `{EqDecision PeerId}.
Context {D : Type} `{StorageEngine D}.

(** The hash and height a chain of blocks leads to. *)
Definition tip_hash (anchor : array 32) (blocks : list Block) : array 32 :=
  match last blocks with Some b => header_hash (blk_header b) | None => anchor end.
Definition tip_height (start : Z) (blocks : list Block) : Z :=
  match last blocks with Some b => hdr_height (blk_header b) | None => start end.

Lemma chained_app anchor l1 l2 : chained anchor (l1 ++ l2) <-> chained anchor l1 /\ chained (tip_hash anchor l1) l2.
Proof.
  revert anchor. induction l1 as [|b l1 IH]; intros anchor; simpl; [by unfold tip_hash; naive_solver|].
  rewrite IH. assert (tip_hash (header_hash (blk_header b)) l1 = tip_hash anchor (b :: l1)) as ->; [|tauto].
  unfold tip_hash. rewrite last_cons. by destruct (last l1).
Qed.

Lemma tip_hash_app anchor l1 l2 : tip_hash anchor (l1 ++ l2) = tip_hash (tip_hash anchor l1) l2.
Proof. unfold tip_hash. rewrite last_app. by destruct (last l2). Qed.

Lemma tip_height_app h l1 l2 : tip_height h (l1 ++ l2) = tip_height (tip_height h l1) l2.
Proof. unfold tip_height. rewrite last_app. by destruct (last l2). Qed.

(** [c'] is where the cursor stands after accepting [blocks] from [c]. *)
Definition moved (c : SyncCursor) (blocks : list Block) (c' : SyncCursor) : Prop :=
  chained (last_verified_hash c) blocks /\ last_verified_hash c' = tip_hash (last_verified_hash c) blocks /\
  last_verified_height c' = tip_height (last_verified_height c) blocks /\ last_verified_height c <= last_verified_height c'.

Lemma moved_refl c c' : last_verified_hash c' = last_verified_hash c -> last_verified_height c' = last_verified_height c ->
  moved c [] c'.
Proof. intros Eh En. repeat split; [done|done|lia]. Qed.

Lemma moved_trans c1 l1 c2 l2 c3 : moved c1 l1 c2 -> moved c2 l2 c3 -> moved c1 (l1 ++ l2) c3.
Proof.
  intros (Hc & Eh & En & Hle) (Hc' & Eh' & En' & Hle'). split; [apply chained_app; by rewrite <- Eh|].
  rewrite tip_hash_app, tip_height_app, <- Eh, <- En. split; [done|]. split; [done|lia].
Qed.

(** What a run does to its state: the cursor moves, and what it saves last is where
    it stands. *)
Definition advanced (st : SyncState (D := D)) (blocks : list Block) (st' : SyncState (D := D)) : Prop :=
  moved (sy_cursor st) blocks (sy_cursor st') /\
  target_height (sy_cursor st') = target_height (sy_cursor st) /\
  exists new, sy_saved st' = sy_saved st ++ new /\
    match last new with Some c => c = sy_cursor st' | None => blocks = [] /\ sy_cursor st' = sy_cursor st end.

Lemma advanced_still (st st' : SyncState (D := D)) : sy_cursor st' = sy_cursor st -> sy_saved st' = sy_saved st -> advanced st [] st'.
Proof.
  intros Ec Es. split; [apply moved_refl; by rewrite Ec|]. split; [by rewrite Ec|]. exists []. by rewrite app_nil_r.
Qed.

Lemma advanced_trans s1 l1 s2 l2 s3 : advanced s1 l1 s2 -> advanced s2 l2 s3 ->
  advanced s1 (l1 ++ l2) s3.
Proof.
  intros (M1 & T1 & n1 & E1 & L1) (M2 & T2 & n2 & E2 & L2). split; [by eapply moved_trans|]. split; [congruence|].
  exists (n1 ++ n2). rewrite E2, E1, app_assoc. split; [done|]. rewrite last_app. destruct (last n2) as [c|]; [done|].
  destruct L2 as [-> E]. rewrite E, app_nil_r. destruct (last n1); [done|]. by destruct L1 as [-> ->].
Qed.
End Progress.

(** ** The rounds of the task *)

Section Rounds.
Context `{BuildProfile} `{Blake3} `{Scale}.
Context {PeerId : Type} `{EqDecision PeerId}.
Context {D : Type} `{StorageEngine D}.

Lemma sync_step_advanced (st st' : SyncState (D := D)) ev flow : sync_step st ev = Ret (st', flow) ->
  exists blocks, advanced st blocks st'.
Proof.
  assert (forall msg, one_failure st msg = (st', flow) -> exists blocks, advanced st blocks st') as Hone.
  { unfold one_failure. intros msg [= <- _]. exists []. by apply advanced_still. }
  assert (soft_failure st = (st', flow) -> exists blocks, advanced st blocks st') as Hsoft.
  { unfold soft_failure. intros [= <- _]. exists []. by apply advanced_still. }
  destruct ev as [| |[bsr|r]]; cbn [sync_step]; try (intros E%Ret_inj; first [eapply Hone, E|by apply Hsoft]).
  destruct (last (rs_blocks bsr)) as [b|] eqn:Hlast; [|intros E%Ret_inj; eapply Hone, E].
  case_bool_decide; cbn [negb]; [|intros E%Ret_inj; eapply Hone, E].
  destruct (continuous _ _) eqn:Hc; cbn [negb]; [|intros E%Ret_inj; by apply Hsoft].
  unfold accept_batch. destruct (for_each put_block _ _) as [d' [[]|e]].
  2:{ intros [= <- _]%Ret_inj. exists []. by apply advanced_still. }
  intros (cursor & Ec & E)%bind_Ret_inv. injection E as <- _. unfold advance, assert_ in Ec.
  destruct (Z.ltb_spec (last_verified_height (sy_cursor st)) (hdr_height (blk_header b))); [|done]. injection Ec as <-.
  exists (rs_blocks bsr). split; [split; [by apply continuous_iff|]|].
  - cbn [sy_cursor last_verified_hash last_verified_height]. unfold tip_hash, tip_height. rewrite Hlast.
    split; [done|]. split; [done|lia].
  - split; [done|]. eexists [_]. split; [done|]. by cbn.
Qed.

(** The height a batch request asks for. *)
Definition batch_start (q : PeerId * SyncRequest) : option Z :=
  match q.2 with
  | BlockSync req => match known_block_hash req with Some _ => Some (start_height req) | None => None end
  | _ => None
  end.

Lemma ask_start accepts (peers : list PeerId) i (st : SyncState (D := D)) p req : cursor_ok (sy_cursor st) ->
  ask accepts peers i st = Ret (Asked p req) -> batch_start (p, req) = Some (last_verified_height (sy_cursor st) + 1).
Proof.
  intros [Hl Ht]. unfold ask. destruct (Z.eqb_spec (gap (sy_cursor st)) 0) as [|Hg]; [done|].
  intros (p' & _ & (rq & Er & E)%bind_Ret_inv)%bind_Ret_inv. destruct (accepts (S i)); [|done]. apply Ret_inj in E. simplify_eq.
  unfold next_request in Er. unfold gap, u64_saturating_sub, is_u64 in *. rewrite u64_add_ok in Er by lia.
  cbn [mbind outcome_bind] in Er. by apply Ret_inj in Er as <-.
Qed.

(** The heights asked for between two states: in order, each one above what is
    verified already. *)
Definition in_order (lo hi : Z) (starts : list Z) : Prop :=
  StronglySorted Z.le starts /\ Forall (fun s => lo < s <= hi + 1) starts.

Lemma in_order_nil lo hi : in_order lo hi [].
Proof. by split; constructor. Qed.

Lemma in_order_app lo mid hi l1 l2 : lo <= mid <= hi -> in_order lo mid l1 -> in_order mid hi l2 -> in_order lo hi (l1 ++ l2).
Proof.
  intros Hm [S1 F1] [S2 F2]. rewrite Forall_forall in F1, F2. split.
  - apply StronglySorted_app. split; [|done]. intros x y Hx%F1 Hy%F2. lia.
  - apply Forall_forall. intros x [Hx%F1|Hx%F2]%elem_of_app; lia.
Qed.

Lemma advanced_height (st st' : SyncState (D := D)) blocks : advanced st blocks st' ->
  last_verified_height (sy_cursor st) <= last_verified_height (sy_cursor st').
Proof. by intros ((_ & _ & _ & ?) & _). Qed.

Lemma advanced_ok (st st' : SyncState (D := D)) blocks : advanced st blocks st' -> cursor_ok (sy_cursor st) -> cursor_ok (sy_cursor st').
Proof. intros A [Hl Ht]. pose proof (advanced_height _ _ _ A). destruct A as (_ & E & _). split; [lia|by rewrite E]. Qed.

Lemma download_advanced accepts (peers : list PeerId) notices : forall i (st st' : SyncState (D := D)) peer sent r,
  cursor_ok (sy_cursor st) -> download accepts peers i st peer notices = Ret (st', sent, r) ->
  exists blocks, advanced st blocks st' /\
    in_order (last_verified_height (sy_cursor st)) (last_verified_height (sy_cursor st')) (omap batch_start sent).
Proof.
  induction notices as [|notice notices IH]; intros i st st' peer sent r Hc; cbn [download].
  { intros E%Ret_inj. simplify_eq. exists []. split; [by apply advanced_still|apply in_order_nil]. }
  destruct (classify peer notice) as [ev|]; [|by apply IH].
  intros ([st1 flow] & Es & E)%bind_Ret_inv. destruct (sync_step_advanced _ _ _ _ Es) as [b1 A1].
  destruct flow as [|msg].
  2:{ apply Ret_inj in E. simplify_eq. exists b1. split; [done|apply in_order_nil]. }
  apply bind_Ret_inv in E as (next & Ea & E). destruct next as [r'|p req].
  { apply Ret_inj in E. simplify_eq. exists b1. split; [done|apply in_order_nil]. }
  apply bind_Ret_inv in E as ([[st2 more] r2] & Ed & E). apply Ret_inj in E. simplify_eq.
  pose proof (advanced_ok _ _ _ A1 Hc) as Hc1. destruct (IH _ _ _ _ _ _ Hc1 Ed) as (b2 & A2 & O2).
  exists (b1 ++ b2). split; [by eapply advanced_trans|]. simpl. rewrite (ask_start _ _ _ _ _ _ Hc1 Ea). simpl.
  pose proof (advanced_height _ _ _ A1). pose proof (advanced_height _ _ _ A2).
  apply (in_order_app _ (last_verified_height (sy_cursor st1)) _ [_]); [lia| |done].
  split; [repeat constructor|]. constructor; [lia|constructor].
Qed.

(** What peers report is a height: [highest_height] is a [u64]. *)
Definition wide_answers (notices : list (Notice (PeerId := PeerId))) : Prop :=
  forall p bsr, Received (EvSyncResponse p (RBlockSync bsr)) ∈ notices -> is_u64 (highest_height bsr).

Lemma wait_in (peer : PeerId) notices r rest : wait_for_sync_response peer notices = Some (Some r, rest) ->
  Received (EvSyncResponse peer r) ∈ notices.
Proof.
  induction notices as [|notice notices IH]; [done|]. cbn [wait_for_sync_response].
  destruct notice as [[| | | |p resp]|n| |]; try (intros E; right; by apply IH).
  destruct (decide (p = peer)) as [->|]; [intros [= -> _]; by left|intros E; right; by apply IH].
Qed.

Lemma run_sync_loop_advanced accepts (peers : list PeerId) cursor (d : D) era notices st sent r :
  0 <= last_verified_height cursor -> wide_answers notices ->
  run_sync_loop accepts peers cursor d era notices = Ret (st, sent, r) ->
  exists blocks, moved cursor blocks (sy_cursor st) /\
    match last (sy_saved st) with Some c => c = sy_cursor st | None => blocks = [] end /\
    in_order (last_verified_height cursor) (last_verified_height (sy_cursor st)) (omap batch_start sent).
Proof.
  intros Hl Hwide. unfold run_sync_loop.
  assert (forall q, in_order (last_verified_height cursor) (last_verified_height cursor) (omap batch_start [(q, tip_request)])) as Htip
    by (intros; apply in_order_nil).
  assert (exists blocks, moved cursor blocks cursor /\ blocks = []) as (b0 & M0 & ->) by (exists []; by split; [apply moved_refl|]).
  destruct peers as [|first rest].
  { intros E%Ret_inj. simplify_eq. exists []. split; [done|]. split; [done|apply in_order_nil]. }
  destruct (accepts 0%nat); cbn [negb]; [|intros E%Ret_inj; simplify_eq; exists []; split; [done|]; split; [done|apply in_order_nil]].
  destruct (wait_for_sync_response first notices) as [[[[bsr|?]|] after]|] eqn:Ew;
    try (intros E%Ret_inj; simplify_eq; by exists []).
  destruct (highest_height bsr <=? last_verified_height cursor); [intros E%Ret_inj; simplify_eq; by exists []|].
  intros (chk & _ & (next & Ea & E)%bind_Ret_inv)%bind_Ret_inv.
  set (st0 := mkSync (set_target cursor (highest_height bsr)) d 0 []) in *.
  assert (cursor_ok (sy_cursor st0)) as Hc by (split; [done|]; eapply Hwide, wait_in, Ew).
  destruct next as [r'|p req].
  { apply Ret_inj in E. simplify_eq. exists []. split; [by apply moved_refl|]. by split. }
  apply bind_Ret_inv in E as ([[st2 more] r2] & Ed & E). apply Ret_inj in E. simplify_eq.
  destruct (download_advanced _ _ _ _ _ _ _ _ _ Hc Ed) as (blocks & A & O). exists blocks.
  pose proof (advanced_height _ _ _ A). destruct A as (M & _ & new & En & Ln). split; [exact M|]. rewrite En. simpl.
  split; [destruct (last new); [done|by destruct Ln]|]. rewrite (ask_start _ _ _ _ _ _ Hc Ea). simpl in *.
  apply (in_order_app _ (last_verified_height cursor) _ [_]); [lia| |done].
  split; [repeat constructor|]. constructor; [lia|constructor].
Qed.
End Rounds.

Section Life.
Context `{BuildProfile} `{Blake3} `{Scale} `{CursorText} `{!CursorTextOk}.
Context {PeerId : Type} `{EqDecision PeerId}.
Context {D : Type} `{StorageOk D}.
Context (genesis_hash : array 32) (era_length : Z).

Abbreviation in_file := (cursor_in genesis_hash).

(** When the writes go through, the file holds the last cursor saved. *)
Lemma save_all_last file io i cursors : (forall i, io i = IoOk) ->
  in_file (save_all file io i cursors) = match last cursors with Some c => c | None => in_file file end.
Proof.
  intros Hio. revert file i. induction cursors as [|c cursors IH]; intros file i; [done|]. cbn [save_all]. rewrite IH, last_cons.
  destruct (last cursors); [done|]. unfold save. destruct (cursor_text_total c) as [json Ej]. rewrite Ej, Hio. simpl.
  unfold cursor_in, load_cursor. by rewrite (cursor_roundtrip c json Ej).
Qed.

(** The height a batch request of the log asks for. *)
Definition asked_height (e : TaskEvent (PeerId := PeerId)) : option Z :=
  match e with Asks peer request => batch_start (peer, request) | _ => None end.

Lemma asked_asks (sent : list (PeerId * SyncRequest)) :
  omap asked_height (map (fun q => Asks q.1 q.2) sent) = omap batch_start sent.
Proof. induction sent as [|[p r] sent IH]; [done|]. cbn in *. by rewrite IH. Qed.

Lemma asked_after r : omap asked_height (after_round (PeerId := PeerId) r) = [].
Proof. by destruct r. Qed.

(** The loop writes no table but the blocks. *)
Lemma download_tables accepts (peers : list PeerId) notices t k : t <> BLOCKS -> forall i (st st' : SyncState (D := D)) peer sent r,
  download accepts peers i st peer notices = Ret (st', sent, r) -> st_view (sy_storage st') t !! k = st_view (sy_storage st) t !! k.
Proof.
  intros Ht. induction notices as [|notice notices IH]; intros i st st' peer sent r; cbn [download].
  { intros E%Ret_inj. by simplify_eq. }
  destruct (classify peer notice) as [ev|]; [|by apply IH].
  intros ([st1 flow] & Es & E)%bind_Ret_inv. pose proof (sync_step_tables _ _ _ _ t k Es Ht) as Hs.
  destruct flow as [|msg]; [|apply Ret_inj in E; by simplify_eq].
  apply bind_Ret_inv in E as (next & _ & E). destruct next as [r'|p req]; [apply Ret_inj in E; by simplify_eq|].
  apply bind_Ret_inv in E as ([[st2 more] r2] & Ed & E). apply Ret_inj in E. simplify_eq. rewrite <- Hs. by eapply IH.
Qed.

Lemma run_sync_loop_tables accepts (peers : list PeerId) cursor (d : D) notices st sent r t k : t <> BLOCKS ->
  run_sync_loop accepts peers cursor d era_length notices = Ret (st, sent, r) -> st_view (sy_storage st) t !! k = st_view d t !! k.
Proof.
  intros Ht. unfold run_sync_loop.
  destruct peers as [|first rest]; [intros E%Ret_inj; by simplify_eq|].
  destruct (accepts 0%nat); cbn [negb]; [|intros E%Ret_inj; by simplify_eq].
  destruct (wait_for_sync_response first notices) as [[[[bsr|?]|] after]|]; try (intros E%Ret_inj; by simplify_eq).
  destruct (_ <=? _); [intros E%Ret_inj; by simplify_eq|].
  intros (chk & _ & (next & _ & E)%bind_Ret_inv)%bind_Ret_inv. destruct next as [r'|p req]; [apply Ret_inj in E; by simplify_eq|].
  apply bind_Ret_inv in E as ([[st2 more] r2] & Ed & E). apply Ret_inj in E. simplify_eq. by rewrite (download_tables _ _ _ t k Ht _ _ _ _ _ _ Ed).
Qed.

Lemma sync_rounds_resume rounds : forall (d d' : D) file file' log,
  Forall (fun rd => (forall i, rd_io rd i = IoOk) /\ wide_answers (rd_notices rd)) rounds ->
  0 <= last_verified_height (in_file file) ->
  sync_rounds genesis_hash era_length d file rounds = Ret (d', file', log) ->
  (exists blocks, moved (in_file file) blocks (in_file file')) /\
  in_order (last_verified_height (in_file file)) (last_verified_height (in_file file')) (omap asked_height log) /\
  forall t k, t <> BLOCKS -> st_view d' t !! k = st_view d t !! k.
Proof.
  induction rounds as [|rd rounds IH]; intros d d' file file' log Hr Hh E; cbn [sync_rounds] in E.
  { apply Ret_inj in E. simplify_eq. split; [exists []; by apply moved_refl|]. split; [apply in_order_nil|done]. }
  apply Forall_cons in Hr as [[Hio Hw] Hr]. apply bind_Ret_inv in E as ([[st sent] r] & Er & E).
  destruct (run_sync_loop_advanced _ _ _ _ _ _ _ _ _ Hh Hw Er) as (b1 & M1 & L1 & O1).
  pose proof (fun t k Ht => run_sync_loop_tables _ _ _ _ _ _ _ _ t k Ht Er) as T1.
  set (file1 := save_all file (rd_io rd) 0 (sy_saved st)) in *.
  assert (exists blocks, moved (in_file file) blocks (in_file file1)) as (c1 & N1).
  { unfold file1. rewrite save_all_last by done. destruct (last (sy_saved st)); [subst; by eexists|]. exists []. by apply moved_refl. }
  assert (last_verified_height (in_file file1) = last_verified_height (sy_cursor st)) as Hf.
  { unfold file1. rewrite save_all_last by done. destruct (last (sy_saved st)); [by subst|]. subst b1.
    by destruct M1 as (_ & _ & -> & _). }
  destruct r as [r|].
  - apply bind_Ret_inv in E as ([[d2 file2] more] & E2 & E). apply Ret_inj in E. simplify_eq.
    pose proof N1 as (_ & _ & _ & Hle).
    assert (0 <= last_verified_height (in_file file1)) as Hh1 by lia.
    destruct (IH _ _ _ _ _ Hr Hh1 E2) as ((c2 & N2) & O2 & T2). split; [exists (c1 ++ c2); by eapply moved_trans|].
    pose proof N2 as (_ & _ & _ & Hle2). split; [|intros t k Ht; by rewrite (T2 t k Ht), T1].
    rewrite !omap_app, asked_asks, asked_after. simpl.
    apply (in_order_app _ (last_verified_height (in_file file1)) _); [lia|by rewrite Hf|exact O2].
  - apply Ret_inj in E. simplify_eq. split; [by exists c1|]. split; [by rewrite asked_asks, Hf|done].
Qed.

(** C32: synchronisation resumes where it stopped.  Over the whole life of the task,
    round after round, whatever peers answer and however rounds end, as long as the
    cursor file can be written: the cursor in the file only moves along blocks that
    are linked by their parent hashes, from the hash it held at the start to the
    hash of the last of them, and its height never falls; the heights asked for
    never fall either and each lies above what was verified at the start, so that
    nothing verified is fetched again; and no table but the blocks is written. *)
Theorem sync_task_resumes (rounds : list (Round (PeerId := PeerId))) (d d' : D) (file file' : option bytes) log
    (Hrounds : Forall (fun rd => (forall i, rd_io rd i = IoOk) /\ wide_answers (rd_notices rd)) rounds)
    (Hfile : 0 <= last_verified_height (in_file file))
    (Hrun : sync_task genesis_hash era_length d file rounds = Ret (d', file', log)) :
  let from := in_file file in let to := in_file file' in
  (exists blocks, chained (last_verified_hash from) blocks /\ last_verified_hash to = tip_hash (last_verified_hash from) blocks /\
     last_verified_height to = tip_height (last_verified_height from) blocks) /\
  last_verified_height from <= last_verified_height to /\
  StronglySorted Z.le (omap asked_height log) /\
  Forall (fun h => last_verified_height from < h <= last_verified_height to + 1) (omap asked_height log) /\
  forall t k, t <> BLOCKS -> st_view d' t !! k = st_view d t !! k.
Proof.
  intros from to. unfold sync_task in Hrun. apply bind_Ret_inv in Hrun as ([[d1 f1] l1] & E & E'). apply Ret_inj in E'. simplify_eq.
  destruct (sync_rounds_resume rounds d d' file file' l1 Hrounds Hfile E) as ((blocks & M1 & M2 & M3 & M4) & [O1 O2] & T).
  split; [by exists blocks|]. done.
Qed.

(** The task between nodes that have nothing to give each other.  Without peers a
    round asks nobody and pauses; with a peer whose tip is verified already, the
    task asks for the tip again at once, without any pause, for as long as the peer
    answers. *)
Lemma idle_rounds (n : nat) (d : D) (file : option bytes) (rd : Round (PeerId := PeerId)) :
  (rd_peers rd = [] -> sync_rounds genesis_hash era_length d file (List.repeat rd n) =
     Ret (d, file, concat (List.repeat [Exited "sync: no connected peers"%string; Sleep 5] n))) /\
  (forall first rest bsr after, rd_peers rd = first :: rest -> rd_accepts rd 0%nat = true ->
     wait_for_sync_response first (rd_notices rd) = Some (Some (RBlockSync bsr), after) ->
     highest_height bsr <= last_verified_height (in_file file) ->
     sync_rounds genesis_hash era_length d file (List.repeat rd n) =
       Ret (d, file, concat (List.repeat [Asks first tip_request; Synced] n))).
Proof.
  split.
  - intros Hp. induction n as [|n IH]; [done|]. cbn [List.repeat sync_rounds]. unfold run_sync_loop. rewrite Hp.
    cbn [mbind outcome_bind sy_saved save_all sy_storage map app]. by rewrite IH.
  - intros first rest bsr after Hp Ha Hw Hh. induction n as [|n IH]; [done|]. cbn [List.repeat sync_rounds]. unfold run_sync_loop.
    rewrite Hp, Ha, Hw. cbn [negb]. rewrite (proj2 (Z.leb_le _ _) Hh).
    cbn [mbind outcome_bind sy_saved save_all sy_storage map app]. by rewrite IH.
Qed.
End Life.

(** ** Instances *)

Import ToyInstances MemStorage.

Definition cursor_fields (c : SyncCursor) : Z * array 32 * Z * option (Z * Z * string) :=
  (last_verified_height c, last_verified_hash c, target_height c,
   (fun r => (hr_start r, hr_end r, hr_peer_id r)) <$> pending_range c).
Definition cursor_of (p : Z * array 32 * Z * option (Z * Z * string)) : SyncCursor :=
  let '(h, a, t, r) := p in mkCursor h a t ((fun '(s, e, n) => mkRange s e n) <$> r).

Lemma cursor_of_fields c : cursor_of (cursor_fields c) = c.
Proof. by destruct c as [h a t [[]|]]. Qed.

#[local] Instance toy_cursor_text : CursorText := {|
  cursor_to_string c := Some (positive_bytes (encode (cursor_fields c)));
  cursor_from_str b := cursor_of <$> decode (bytes_positive b)
|}.

#[local] Instance toy_cursor_text_ok : CursorTextOk.
Proof.
  split; [by eexists|]. intros c s [= <-]. cbn [cursor_from_str toy_cursor_text].
  rewrite bytes_positive_bytes, decode_encode. cbn [fmap option_fmap option_map]. by rewrite cursor_of_fields.
Qed.

(** Two linked blocks, fetched in two rounds. *)
Definition synced_block (height : Z) (parent : array 32) : Block :=
  mkBlock (mkBlockHeader height parent (array_repeat 32 x00) (array_repeat 32 x00) 0 (address_from (array_repeat 32 x00)) 7 sig_fake)
    (mkBlockBody []).
Definition block1_ex : Block := synced_block 1 file_hash.
Definition block2_ex : Block := synced_block 2 (header_hash (blk_header block1_ex)).

Definition round_ex (tip : Z) (anchor : array 32) (b : Block) : Round (PeerId := Z) :=
  mkRound [1] (fun _ => true)
    [Received (EvSyncResponse 1 (RBlockSync (mkSyncResp [] tip file_hash)));
     Received (EvSyncResponse 1 (RBlockSync (mkSyncResp [b] tip (compute_batch_hash anchor [b]))))] (fun _ => IoOk).
Definition rounds_ex : list (Round (PeerId := Z)) :=
  [round_ex 1 file_hash block1_ex; round_ex 2 (header_hash (blk_header block1_ex)) block2_ex].

Definition life_ex : RedbEngine * option bytes * list (TaskEvent (PeerId := Z)) :=
  ret_or (sync_task file_hash 720 loaded_ex None rounds_ex) (loaded_ex, None, []).

Lemma life_runs : sync_task file_hash 720 loaded_ex None rounds_ex = Ret life_ex.
Proof. apply ret_or_ok. vm_compute. reflexivity. Qed.

(** The second round asks for the second block only. *)
Example life_log : omap asked_height life_ex.2 = [1; 2] /\ length life_ex.2 = 7%nat.
Proof. split; vm_compute; reflexivity. Qed.

Lemma sync_task_resumes_witness :
  last_verified_height (cursor_in file_hash None) <= last_verified_height (cursor_in file_hash life_ex.1.2) /\
  Forall (fun h => 0 < h <= last_verified_height (cursor_in file_hash life_ex.1.2) + 1) (omap asked_height life_ex.2).
Proof.
  destruct (sync_task_resumes file_hash 720 rounds_ex loaded_ex life_ex.1.1 None life_ex.1.2 life_ex.2)
    as (_ & Hle & _ & Hf & _).
  - apply Forall_forall. intros rd [->|[->|[]%elem_of_nil]%elem_of_cons]%elem_of_cons; (split; [done|]);
      intros p bsr; repeat (intros [[= _ ->]|Hin]%elem_of_cons; [by split|]; revert Hin); by intros ?%elem_of_nil.
  - discriminate.
  - rewrite life_runs. by destruct life_ex as [[d f] l].
  - split; [exact Hle|exact Hf].
Defined.
