(* ===== verification/Boot.v ===== *)
(** * Starting a node ([run_node] of [mononium-cli/src/node.rs])

    The start-up sequence over a database: genesis on first start, the height to
    resume from, the chain's identity, the state machine rebuilt from storage, the
    consistency check, and what the REST API, the JSON-RPC server, the P2P service
    and the consensus loop are given.  Then what a restart keeps. *)
From Stdlib Require Import Strings.Byte Strings.String.
From stdpp Require Import base gmap sets list strings countable sorting.
From Stdlib Require Import ZArith Lia.
From S2P Require Import Prelude Types External Toy Trie Account State Ledger Refine Scenario Finality Schedule Mempool Storage Genesis Slashing Engine Config Rest Rpc Wallet Peers Sync P2p.

(** What [run_node] sets up; [bt_rpc] is [None] when the port is 0. *)
Record Booted (D Multiaddr : Type) := mkBooted {
  bt_node : Node D;
  bt_height : Z;
  bt_chain_id : Z;
  bt_genesis_hash : array 32;
  bt_p2p : option (P2pConfig Multiaddr);
  bt_rpc : option (D -> RpcState D)     (* on the shared database, as it is *)
}.
Arguments mkBooted {_ _} _ _ _ _ _ _.
Arguments bt_node {_ _} _.
Arguments bt_height {_ _} _.
Arguments bt_chain_id {_ _} _.
Arguments bt_genesis_hash {_ _} _.
Arguments bt_p2p {_ _} _.
Arguments bt_rpc {_ _} _.

Section Boot.
Context `{BuildProfile} `{Blake3} `{Scale} `{Hex} `{GenesisText} `{!HashOrder bytes} `{KeyFileText}.
Context {Multiaddr : Type} (parse_multiaddr : string -> option Multiaddr).
Context {D : Type} `{StorageEngine D}.

(** Step 7: the genesis, unless it is marked loaded. *)
Definition ensure_genesis (config : NodeConfig) (read_file : string -> option bytes) (engine : D) : D * result AnyError unit :=
  match st_exists engine META GENESIS_LOADED_KEY with
  | Err e => (engine, Err (FromLib e))
  | Ok true => (engine, Ok tt)
  | Ok false =>
      match genesis_path config with
      | None => (engine, Err (Anyhow "genesis path not configured"))
      | Some path =>
          let '(engine, r) := load_genesis engine (read_file path) in
          (engine, map_err FromLib r)
      end
  end.

(** Step 10: the genesis hash, which must have 32 bytes, and the chain identifier,
    0 unless eight bytes are stored. *)
Definition load_genesis_hash (engine : D) : outcome (result AnyError (array 32)) :=
  match st_get engine META GENESIS_HASH_KEY with
  | Err e => Ret (Err (FromLib e))
  | Ok o => h ← copy_from_slice 32 (default (List.repeat x00 32) o); Ret (Ok h)
  end.

Definition load_chain_id (engine : D) : Z :=
  match st_get engine META CHAIN_ID_KEY with
  | Ok (Some v) => if bool_decide (length v = 8%nat) then from_le_bytes v else 0
  | _ => 0
  end.

Definition mempool_config : MempoolConfig := mkMempoolConfig 10000 600 0 50.

(** Step 13: the P2P service runs when the port is not 0. *)
Definition p2p_config (config : NodeConfig) : option (P2pConfig Multiaddr) :=
  if 0 <? Config.p2p_port config
  then Some (mkP2pConfig (Config.p2p_port config) (omap parse_multiaddr (bootnodes config)) (enable_mdns config) 50)
  else None.

(** Step 15: an engine, a state machine and a mempool of its own. *)
Definition rpc_state (config : NodeConfig) (current_height chain_id : Z) (genesis_hash : array 32) (peers : list bytes) :
    option (D -> RpcState D) :=
  if 0 <? Config.rpc_port config
  then Some (fun engine =>
    RpcState_new engine (mkLock (StateMachine_new []) false) (mkLock (Mempool_new mempool_config) false) peers
      (set_current_height (ConsensusEngine_new ConsensusConfig_default) current_height) chain_id genesis_hash)
  else None.

(** Step 17: the identity of the local validator, from its key file. *)
Definition local_identity (env : Env) (files : Files) (config : NodeConfig) : option Address :=
  if observer config then None
  else
    kf_path ← key_file config;
    match load_key env files kf_path with
    | Err _ => None
    | Ok kf =>
        bytes ← hex_decode (trim_start_0x (kf_address kf));
        address_from <$> array_of_list 32 (take 32 bytes)
    end.

Definition consensus_engine (env : Env) (files : Files) (config : NodeConfig) (current_height : Z) : ConsensusEngine :=
  let engine := set_current_height (ConsensusEngine_new (ConsensusConfig_new 5 720 100)) current_height in
  match local_identity env files config with
  | Some addr => set_local_validator engine addr
  | None => engine
  end.

(** Steps 8 to 11: everything the node reads back. *)
Definition open_chain (engine : D) : outcome (result AnyError (Z * array 32 * Z * StateMachine)) :=
  current_height <-? load_latest_height engine;
  genesis_hash <-? load_genesis_hash engine;
  state <-? Ret (load_state_from_storage engine);
  '(state, r) ← verify_state_consistency state engine current_height;
  Ret (match r with
       | Ok _ => Ok (current_height, genesis_hash, load_chain_id engine, state)
       | Err _ => Err (Anyhow "state root mismatch")
       end).

Definition run_node (env : Env) (files : Files) (read_file : string -> option bytes) (config : NodeConfig)
    (peers : list bytes) (engine : D) : D * outcome (result AnyError (Booted D Multiaddr)) :=
  match ensure_genesis config read_file engine with
  | (engine, Err e) => (engine, Ret (Err e))
  | (engine, Ok _) =>
      (engine,
       opened <-? open_chain engine;
       let '(current_height, genesis_hash, chain_id, state) := opened in
       Ret (Ok (mkBooted
         (mkNode (consensus_engine env files config current_height) state (Mempool_new mempool_config) engine [])
         current_height chain_id genesis_hash (p2p_config config)
         (rpc_state config current_height chain_id genesis_hash peers))))
  end.

(** The tasks a running node interleaves over the shared machine, mempool and store:
    the slots of the consensus loop, and the submissions the REST API serves. *)
Inductive NodeEvent := Tick (now : Z) | Submit (now : Z) (tx : Transaction).

Definition node_step `{!HashOrder Address} (start : Z) (n : Node D) (e : NodeEvent) : outcome (Node D) :=
  match e with
  | Tick now => slot_tick now n
  | Submit now tx => '(guard, _) ← tx_submit_handler (app_of start n) now tx; Ret (with_pool n (app_mempool guard))
  end.

Definition run_events `{!HashOrder Address} (start : Z) (n : Node D) (events : list NodeEvent) : outcome (Node D) :=
  foldM (node_step start) n events.
End Boot.

(** ** What the loop leaves alone *)

Section Restart.
Context `{BuildProfile} `{Blake3} `{Scale} `{!ScaleOk} `{Hex} `{GenesisText} `{!HashOrder bytes} `{KeyFileText} `{!HashOrder Address}.
Context {Multiaddr : Type} (parse_multiaddr : string -> option Multiaddr).
Context {D : Type} `{StorageOk D} `{!StorageReliable D}.

(** The loop writes no table but the blocks. *)
Lemma produce_block_tables self now sm mp d height s sm' mp' d' pub t k : t <> BLOCKS ->
  produce_block self now sm mp d height s = Ret (sm', mp', d', pub) -> st_view d' t !! k = st_view d t !! k.
Proof.
  intros Ht E. unfold produce_block in E.
  destruct (st_get d BLOCKS _) as [[raw|]|]; [|by simplify_eq..]. destruct (decode_all sc_block raw) as [p|]; [|by simplify_eq].
  apply bind_Ret_inv in E as ([mp1 txs] & _ & E). apply bind_Ret_inv in E as (proposer & _ & E).
  apply bind_Ret_inv in E as ([b sm1] & _ & E). apply bind_Ret_inv in E as ([sm2 r] & _ & E).
  destruct r as [r|e]; [|by simplify_eq]. destruct (st_put d BLOCKS _ _) as [d1 [[]|e]] eqn:Ep; simplify_eq;
    (eapply st_put_other; [exact Ep|by left]).
Qed.

Lemma node_step_tables start (n n' : Node D) e t k : t <> BLOCKS -> node_step start n e = Ret n' ->
  st_view (n_storage n') t !! k = st_view (n_storage n) t !! k.
Proof.
  intros Ht E. destruct e as [now|now tx]; simpl in E.
  - destruct (slot_tick_inv _ _ _ E) as (h & _ & [(self & sm0 & s & mp0 & pub & Ep & _)|(_ & -> & _)]); [|done].
    by eapply produce_block_tables.
  - apply bind_Ret_inv in E as ([guard r] & _ & E). by apply Ret_inj in E as <-.
Qed.

Lemma run_events_tables start (n n' : Node D) events t k : t <> BLOCKS -> run_events start n events = Ret n' ->
  st_view (n_storage n') t !! k = st_view (n_storage n) t !! k.
Proof.
  intros Ht. unfold run_events. revert n. induction events as [|e events IH]; intros n E; simpl in E; [by apply Ret_inj in E as <-|].
  apply bind_Ret_inv in E as (n1 & E1 & E). rewrite (IH n1 E). by eapply node_step_tables.
Qed.

(** The blocks table stays indexed by height. *)
Lemma node_step_indexed start (n n' : Node D) e hs : node_step start n e = Ret n' ->
  indexed_by (n_storage n) hs -> exists hs', indexed_by (n_storage n') hs'.
Proof.
  intros E Hidx. destruct e as [now|now tx]; simpl in E.
  2:{ apply bind_Ret_inv in E as ([guard r] & _ & E). apply Ret_inj in E as <-. by exists hs. }
  destruct (slot_tick_inv _ _ _ E) as (h & Eh & [(self & sm0 & s & mp0 & pub & Ep & _)|(_ & -> & _)]); [|by exists hs].
  apply produce_block_inv in Ep. destruct pub as [b|]; [|exists hs; unfold indexed_by; by rewrite Ep].
  destruct Ep as (p & proposer & l & sm1 & sm2 & _ & _ & _ & Eput). apply u64_add_Ret in Eh as [Eh _].
  destruct Hidx as [Hu Hk]. exists ({[ h ]} ∪ hs). split.
  - intros h' [->%elem_of_singleton|Hh']%elem_of_union; [|by apply Hu]. rewrite Eh. apply Z.mod_pos_bound, W64_pos.
  - intros k. apply st_put_ok in Eput. rewrite (Eput BLOCKS), cell_update_eq, lookup_insert_is_Some, Hk. split.
    + intros [<-|(_ & h' & Hh' & ->)]; [exists h|exists h']; set_solver.
    + intros (h' & [->%elem_of_singleton|Hh']%elem_of_union & ->); [by left|].
      destruct (decide (to_be_bytes 8 h = to_be_bytes 8 h')); [by left|right; split; [done|by exists h']].
Qed.

Lemma run_events_indexed start (n n' : Node D) events hs : run_events start n events = Ret n' ->
  indexed_by (n_storage n) hs -> exists hs', indexed_by (n_storage n') hs'.
Proof.
  unfold run_events. revert n hs. induction events as [|e events IH]; intros n hs E Hidx; simpl in E.
  - apply Ret_inj in E as <-. by exists hs.
  - apply bind_Ret_inv in E as (n1 & E1 & E). destruct (node_step_indexed _ _ _ _ _ E1 Hidx) as [hs1 Hidx1]. by eapply IH.
Qed.

(** The listing of a table depends on its rows alone. *)
Lemma list_keys_ext d d' t : (forall k, st_view d t !! k = st_view d' t !! k) -> t ∈ ALL_TABLES ->
  st_list_keys d t = st_list_keys d' t.
Proof.
  intros E Ht. destruct (st_list_total d t Ht) as [ks Hk], (st_list_total d' t Ht) as [ks' Hk']. rewrite Hk, Hk'. f_equal.
  apply st_list_view in Hk as (Hs & Hn & Hin), Hk' as (Hs' & Hn' & Hin').
  assert (ks ≡ₚ ks') as Hp. { apply NoDup_Permutation; [done..|]. intros k. by rewrite Hin, Hin', E. }
  by apply (sorted_unique bytes_cmp); [apply bytes_cmp_eq|..].
Qed.

Lemma get_ext d d' t k : st_view d t !! k = st_view d' t !! k -> t ∈ ALL_TABLES -> st_get d t k = st_get d' t k.
Proof.
  intros E Ht. destruct (st_get_total d t k Ht) as [o Ho], (st_get_total d' t k Ht) as [o' Ho']. rewrite Ho, Ho'. f_equal.
  apply st_get_view in Ho as ->, Ho' as ->. exact E.
Qed.

Lemma load_state_ext d d' : (forall k, st_view d ACCOUNTS !! k = st_view d' ACCOUNTS !! k) ->
  load_state_from_storage d = load_state_from_storage d'.
Proof.
  intros E. unfold load_state_from_storage. rewrite (list_keys_ext d d' ACCOUNTS E) by auto with tables.
  destruct (st_list_keys d' ACCOUNTS) as [ks|]; [|done]. do 2 f_equal.
  apply list_omap_ext, Forall_Forall2_diag, Forall_forall. intros k _. unfold load_account.
  by rewrite (get_ext d d' ACCOUNTS k (E k)) by auto with tables.
Qed.

Lemma run_events_meta start (n n' : Node D) events k : run_events start n events = Ret n' ->
  st_get (n_storage n') META k = st_get (n_storage n) META k.
Proof. intros E. apply get_ext; [|auto with tables]. by eapply run_events_tables. Qed.

(** ** Opening the database again *)

Lemma StateMachine_new_wf accts : smt_wf (state (StateMachine_new accts)).
Proof.
  unfold StateMachine_new. simpl. generalize smt_new_wf. generalize smt_new.
  induction accts as [|[a x] accts IH]; intros t Ht; simpl; [done|]. apply IH, smt_insert_wf.
Qed.

Lemma load_state_new d : exists l, load_state_from_storage d = Ok (StateMachine_new l).
Proof.
  unfold load_state_from_storage. destruct (st_list_total d ACCOUNTS ltac:(auto with tables)) as [ks ->]. by eexists.
Qed.

(** The check of a block's root against a rebuilt machine decides, and keeps the leaves. *)
Lemma verify_state_spec (sm : StateMachine) (d : D) (h : Z) : smt_wf (state sm) ->
  exists sm' r, verify_state_consistency sm d h = Ret (sm', r) /\
    leaves (state sm') = leaves (state sm) /\ validators sm' = validators sm /\ active_set sm' = active_set sm /\
    (is_ok r = true <-> h = 0 \/ exists block, stored_block d h = Some block /\
       hdr_global_state_root (blk_header block) = merkle_root (leaves (state sm))).
Proof.
  intros Hwf. unfold verify_state_consistency. destruct (Z.eqb_spec h 0) as [Hz|Hz]; [exists sm, (Ok tt); naive_solver|].
  unfold stored_block, row. destruct (st_get_total d BLOCKS (to_be_bytes 8 h) ltac:(auto with tables)) as [o Hg].
  rewrite Hg. apply st_get_view in Hg as <-. destruct o as [raw|]; simpl; [|eexists sm, _; naive_solver].
  destruct (decode_all sc_block raw) as [block|]; [|eexists sm, _; naive_solver].
  unfold state_root. destruct (smt_root_spec (state sm) Hwf) as (t' & -> & Hl & _). simpl.
  case_bool_decide; eexists (set_state sm t'), _; (split; [done|]); (split; [done|]); naive_solver.
Qed.

Lemma loaded_iff d : st_exists d META GENESIS_LOADED_KEY = Ok (bool_decide (is_loaded d)).
Proof.
  unfold st_exists, is_loaded. destruct (st_get_total d META GENESIS_LOADED_KEY ltac:(auto with tables)) as [o Hg].
  rewrite Hg. by apply st_get_view in Hg as ->.
Qed.

Lemma ensure_genesis_loaded config read_file d d1 :
  ensure_genesis config read_file d = (d1, Ok tt) -> is_loaded d1.
Proof.
  unfold ensure_genesis. rewrite loaded_iff. case_bool_decide as Hl; [by intros [= <-]|].
  destruct (genesis_path config); [|done]. destruct (load_genesis d _) as [d2 [[]|e]] eqn:E; [|done]. intros [= <-].
  apply load_genesis_ok in E as (? & ? & ? & ? & _ & _ & _ & _ & V). unfold is_loaded. rewrite (V META).
  unfold genesis_cells. rewrite cell_update_eq. simpl. rewrite lookup_insert_eq. by eexists.
Qed.

Lemma ensure_genesis_again config read_file d : is_loaded d -> ensure_genesis config read_file d = (d, Ok tt).
Proof. intros Hl. unfold ensure_genesis. by rewrite loaded_iff, bool_decide_eq_true_2. Qed.

(** A start that succeeds has loaded a genesis and is made of what it read back. *)
Lemma run_node_inv env files read_file config peers d d1 b :
  run_node parse_multiaddr env files read_file config peers d = (d1, Ret (Ok b)) ->
  is_loaded d1 /\ n_storage (bt_node b) = d1 /\ n_mempool (bt_node b) = Mempool_new mempool_config /\
  load_genesis_hash d1 = Ret (Ok (bt_genesis_hash b)) /\ load_chain_id d1 = bt_chain_id b /\
  load_latest_height d1 = Ret (Ok (bt_height b)) /\
  exists sm, load_state_from_storage d1 = Ok sm /\ verify_state_consistency sm d1 (bt_height b) = Ret (n_state (bt_node b), Ok tt).
Proof.
  unfold run_node. destruct (ensure_genesis config read_file d) as [d0 [[]|e]] eqn:Eg; [|done].
  apply ensure_genesis_loaded in Eg. intros E. injection E as <- E.
  apply try_bind_inv in E as [(e & _ & E)|([[[h g] c] sm] & Eo & E)]; [done|]. apply Ret_inj in E. injection E as <-.
  unfold open_chain in Eo. apply try_bind_inv in Eo as [(e & _ & Eo)|(h0 & Eh & Eo)]; [done|].
  apply try_bind_inv in Eo as [(e & _ & Eo)|(g0 & Eg0 & Eo)]; [done|].
  apply try_bind_inv in Eo as [(e & _ & Eo)|(sm0 & Es & Eo)]; [done|].
  apply bind_Ret_inv in Eo as ([sm1 [[]|e]] & Ev & Eo); [|done]. apply Ret_inj in Eo. injection Eo as <- <- <- <-.
  apply Ret_inj in Es. do 6 (split; [done|]). by exists sm0.
Qed.

(** C28: a restart forgets every balance, nonce and validator.  After a start, let the
    node run through any slots and submissions, then start again over the database
    it left, with any configuration.  The second start never panics and writes
    nothing; it is accepted exactly if no block is stored above height 0, or the
    block at the greatest stored height decodes and its state root is the root of
    the state of the first start.  If it is, the node has that height and the same
    chain, but its accounts and validators are again those of the first start,
    whatever the blocks between have done, and its mempool is empty. *)
Theorem restart_rolls_back env files read_file config peers (d d1 : D) (b : Booted D Multiaddr) (hs : gset Z)
    (events : list NodeEvent) (n' : Node D) env' files' read_file' config' peers'
    (Hstart : run_node parse_multiaddr env files read_file config peers d = (d1, Ret (Ok b)))
    (Hidx : indexed_by d1 hs) (Hrun : run_events (bt_height b) (bt_node b) events = Ret n') :
  exists h r, run_node parse_multiaddr env' files' read_file' config' peers' (n_storage n') = (n_storage n', Ret r) /\
  load_latest_height (n_storage n') = Ret (Ok h) /\
  (is_ok r = true <-> h = 0 \/ exists block, stored_block (n_storage n') h = Some block /\
     hdr_global_state_root (blk_header block) = merkle_root (leaves (state (n_state (bt_node b))))) /\
  forall b', r = Ok b' ->
    bt_height b' = h /\ bt_chain_id b' = bt_chain_id b /\ bt_genesis_hash b' = bt_genesis_hash b /\
    n_mempool (bt_node b') = Mempool_new mempool_config /\
    (forall k, smt_get (state (n_state (bt_node b'))) k = smt_get (state (n_state (bt_node b))) k) /\
    validators (n_state (bt_node b')) = ∅ /\ active_set (n_state (bt_node b')) = [].
Proof.
  destruct (run_node_inv _ _ _ _ _ _ _ _ Hstart) as (Hl & Hd & _ & Hg & Hc & _ & sm & Hsm & Hv).
  set (d2 := n_storage n'). rewrite <- Hd in Hidx. destruct (run_events_indexed _ _ _ _ _ Hrun Hidx) as [hs' Hidx'].
  destruct (latest_height_max _ _ Hidx') as (h & Eh & _). fold d2 in Eh.
  assert (forall k, st_get d2 META k = st_get d1 META k) as Hmeta
    by (intros k; rewrite <- Hd; by eapply run_events_meta).
  assert (is_loaded d2) as Hl2.
  { unfold d2, is_loaded in *. rewrite <- Hd in Hl. by rewrite (run_events_tables _ _ _ _ META GENESIS_LOADED_KEY ltac:(done) Hrun). }
  assert (load_state_from_storage d2 = Ok sm) as Hsm2.
  { rewrite <- Hsm, <- Hd. apply load_state_ext. intros k. by eapply run_events_tables. }
  destruct (load_state_new d1) as [l El]. rewrite Hsm in El. injection El as ->.
  destruct (verify_state_spec _ d1 (bt_height b) (StateMachine_new_wf l)) as (sm1 & r1 & E1 & Hl1 & _). rewrite Hv in E1.
  apply Ret_inj in E1. injection E1 as <- _. rewrite Hl1. clear Hv.
  destruct (verify_state_spec _ d2 h (StateMachine_new_wf l)) as (sm2 & r2 & E2 & Hleaves & Hval & Hact & Hr2).
  unfold run_node, open_chain, load_genesis_hash, load_chain_id. rewrite (ensure_genesis_again _ _ _ Hl2), Eh, !Hmeta.
  unfold load_genesis_hash in Hg. cbn [try_bind mbind outcome_bind] in *. rewrite Hg. cbn [mbind outcome_bind].
  rewrite Hsm2. cbn [mbind outcome_bind]. rewrite E2. cbn [mbind outcome_bind].
  destruct r2 as [[]|e]; eexists h, _; (split; [reflexivity|]); (split; [done|]); (split; [exact Hr2|]); [|done].
  intros b' Eb. injection Eb as <-. cbn [bt_height bt_chain_id bt_genesis_hash bt_node n_mempool n_state].
  split; [done|]. split; [exact Hc|]. do 2 (split; [done|]). split; [|by rewrite Hval, Hact].
  intros k. unfold smt_get. by rewrite Hleaves, Hl1.
Qed.
End Restart.

(** ** The first start *)

Section Fresh.
Context `{BuildProfile} `{Blake3} `{Scale} `{!ScaleOk} `{Hex} `{GenesisText} `{!GenesisTextOk}.
Context `{!HashOrder bytes} `{!HashOrderOk bytes} `{KeyFileText} `{!HashOrder Address} `{!HashOrderOk Address}.
Context {Multiaddr : Type} (parse_multiaddr : string -> option Multiaddr).
Context {D : Type} `{StorageOk D} `{!StorageReliable D}.

(** What a node reads back from a freshly loaded genesis. *)
Lemma genesis_read_back (d d' : D) json config : load_genesis d (Some json) = (d', Ok tt) ->
  genesis_from_str json = Some config -> st_view d BLOCKS = ∅ ->
  indexed_by d' {[ 0 ]} /\ stored_block d' 0 = Some (genesis_block (gc_chain_id config)) /\
  load_genesis_hash d' = Ret (Ok (blake3 json)) /\ load_chain_id d' = gc_chain_id config.
Proof.
  intros (json' & config' & rows & vrows & [= <-] & Hc' & _ & _ & V)%load_genesis_ok Hconfig Hempty.
  rewrite Hconfig in Hc'. injection Hc' as <-. pose proof (genesis_chain_id _ _ Hconfig) as Hid.
  assert (st_view d' BLOCKS = {[ to_be_bytes 8 0 := enc sc_block (genesis_block (gc_chain_id config)) ]}) as Hb.
  { rewrite (V BLOCKS). unfold genesis_cells. by rewrite 3!cell_update_ne, cell_update_eq, Hempty. }
  assert (st_view d' META = add_rows [(CHAIN_ID_KEY, to_le_bytes 8 (gc_chain_id config));
    (GENESIS_HASH_KEY, array_bytes (blake3 json)); (GENESIS_LOADED_KEY, list_byte_of_string "1")] (st_view d META)) as Hm.
  { rewrite (V META). unfold genesis_cells. rewrite cell_update_eq. by rewrite !cell_update_ne. }
  split; [|split; [|split]].
  - split; [by intros h ->%elem_of_singleton|]. intros k. rewrite Hb, lookup_singleton_is_Some. split.
    + intros <-. exists 0. split; [by apply elem_of_singleton|done].
    + by intros (h & ->%elem_of_singleton & ->).
  - unfold stored_block, row. rewrite Hb, lookup_singleton_eq. cbn [mbind option_bind].
    apply (decode_all_enc block_wire_valid); [apply sc_block_ok|]. split; [|constructor].
    split; [by split|]. split; [by split|]. split; [done|]. apply List.repeat_length.
  - unfold load_genesis_hash. destruct (st_get_total d' META GENESIS_HASH_KEY ltac:(auto with tables)) as [o Hg].
    rewrite Hg. apply st_get_view in Hg as ->. rewrite Hm. unfold add_rows. cbn [foldl fst snd].
    rewrite lookup_insert_ne, lookup_insert_eq by done. simpl. unfold copy_from_slice. by rewrite array_of_list_bytes.
  - unfold load_chain_id. destruct (st_get_total d' META CHAIN_ID_KEY ltac:(auto with tables)) as [o Hg].
    rewrite Hg. apply st_get_view in Hg as ->. rewrite Hm. unfold add_rows. cbn [foldl fst snd].
    rewrite !lookup_insert_ne, lookup_insert_eq by done. cbv iota. rewrite bool_decide_eq_true_2 by apply to_le_bytes_length.
    by apply from_to_le_bytes.
Qed.

(** A node without validators proposes in its first slot, as whoever it is. *)
Lemma first_slot_ours engine : schedule engine = None -> current_height engine = 0 ->
  let s := (slot_schedule engine 1).2 in
  sch_active_set s <> [] /\ is_our_slot engine s 1 = Ret true /\
  proposer_for_height s 1 = Ret (default (address_from (array_repeat 32 x00)) (local_validator engine)).
Proof.
  intros Hs _. unfold slot_schedule, is_our_slot. rewrite Hs. simpl. split; [done|].
  destruct (local_validator engine) as [a|]; simpl; [|done].
  unfold is_scheduled_proposer, proposer_for_height. simpl. by rewrite bool_decide_eq_true_2.
Qed.

(** An empty block fits every ledger below half the width. *)
Lemma empty_block_fits (A : gset Address) L header : 0 <= value L -> 2 * value L < W256 ->
  block_fits A L (mkBlock header (mkBlockBody [])).
Proof. intros Hv Hl. split; simpl; [constructor|constructor|done|done|done|lia]. Qed.

Lemma empty_block_ledger m header txs : txs = [] ->
  bs_ledger (spec_block (mkLedger m ∅ []) (mkBlock header (mkBlockBody txs))) = mkLedger m ∅ [].
Proof. by intros ->. Qed.

Lemma consensus_engine_fresh env files nconfig h :
  schedule (consensus_engine env files nconfig h) = None /\ current_height (consensus_engine env files nconfig h) = h /\
  local_validator (consensus_engine env files nconfig h) = local_identity env files nconfig.
Proof. unfold consensus_engine. by destruct (local_identity env files nconfig). Qed.

(** C29: a first start always reaches its first block, and every node makes its own.
    Over an empty reliable database, with a genesis file that reads, parses and has
    well-formed rows, the start succeeds at height 0 with the configured chain
    identifier, the file's hash and the configured balances; no validator is known,
    whatever the file lists.  The first tick then stores and publishes a block at
    height 1 on the genesis block, without transactions, proposed by the node's own
    identity, or by the zero address when it has none (an observer, or a key file
    that does not load): two nodes with different identities start with different
    chains. *)
Theorem first_boot (A : gset Address) (m : gmap Address Account) env files read_file nconfig peers (d : D) path json config
    arows vrows (now : Z)
    (HA : collision_free (keys_of A))
    (Hfresh : forall t, st_view d t = ∅)
    (Hpath : genesis_path nconfig = Some path) (Hread : read_file path = Some json)
    (Hjson : genesis_from_str json = Some config)
    (Harows : rows_of account_row (map_pairs (gc_initial_accounts config)) = Ok arows)
    (Hvrows : rows_of validator_row (gc_initial_validators config) = Ok vrows)
    (Hm : forall a x, m !! a = Some x <-> exists b, gives config a b /\ x = Account_new b)
    (Hknown : forall a, is_Some (m !! a) -> a ∈ A) (Hvalue : 2 * map_sum balance m < W256) :
  let identity := default (address_from (array_repeat 32 x00)) (local_identity env files nconfig) in
  exists d' b, run_node parse_multiaddr env files read_file nconfig peers d = (d', Ret (Ok b)) /\
  bt_height b = 0 /\ bt_chain_id b = gc_chain_id config /\ bt_genesis_hash b = blake3 json /\
  refines A (n_state (bt_node b)) (mkLedger m ∅ []) /\
  exists n' block, slot_tick now (bt_node b) = Ret n' /\ n_published n' = [block] /\
    row (n_storage n') 1 = Some (enc sc_block block) /\ hdr_height (blk_header block) = 1 /\
    hdr_parent_hash (blk_header block) = header_hash (blk_header (genesis_block (gc_chain_id config))) /\
    hdr_proposer (blk_header block) = identity /\ transactions (blk_body block) = [] /\
    refines A (n_state n') (mkLedger m ∅ []).
Proof.
  intros identity.
  assert (~ is_loaded d) as Hnl by (unfold is_loaded; rewrite Hfresh, lookup_empty; apply is_Some_None).
  destruct (write_genesis_total d json config arows vrows Harows Hvrows) as [d' Ew].
  assert (load_genesis d (Some json) = (d', Ok tt)) as Eload.
  { unfold load_genesis. rewrite loaded_iff, bool_decide_eq_false_2, Hjson by done. done. }
  assert (ensure_genesis nconfig read_file d = (d', Ok tt)) as Eens.
  { unfold ensure_genesis. rewrite loaded_iff, bool_decide_eq_false_2, Hpath, Hread, Eload by done. done. }
  destruct (genesis_read_back d d' json config Eload Hjson (Hfresh _)) as (Hidx & Hgen & Ehash & Eid).
  destruct (latest_height_max _ _ Hidx) as (h & Eh & Hmax & [->%elem_of_singleton|[Hh _]]); [|set_solver].
  assert (configured_once config) as Honce.
  { intros a b b' G G'. assert (Some (Account_new b) = Some (Account_new b')) as [= ->]; [|done].
    rewrite <- (proj2 (Hm a (Account_new b))), <- (proj2 (Hm a (Account_new b'))); eauto. }
  pose proof (genesis_accounts d d' json config Eload Hjson (Hfresh _) Honce) as Hs.
  destruct (load_state_refines A HA d') as (sm & m' & Esm & R & Hm').
  { intros a x Hx. apply Hs in Hx as (b & G & ->). split; [apply Hknown; exists (Account_new b); apply Hm; by exists b|].
    by eapply gives_valid. }
  assert (m' = m) as ->. { apply map_eq. intros a. apply option_eq. intros x. by rewrite Hm', Hs, Hm. }
  set (n := mkNode (consensus_engine env files nconfig 0) sm (Mempool_new mempool_config) d' []).
  eexists d', (mkBooted n 0 _ _ _ _). split.
  { unfold run_node, open_chain. rewrite Eens, Eh, Ehash, Esm, Eid. reflexivity. }
  do 3 (split; [done|]). split; [exact R|]. cbn [bt_node].
  assert (ledger_wf (mkLedger m ∅ [])) as Hwf.
  { split; [|apply map_Forall_empty]. intros a x Hx. apply Hm in Hx as (b & G & ->). simpl.
    destruct (gives_valid _ _ _ G) as [[? _] ?]. by split. }
  destruct (consensus_engine_fresh env files nconfig 0) as (Hsched & Hcur & Hloc).
  destruct (first_slot_ours _ Hsched Hcur) as (Hne & Hours & Hprop).
  assert (value (mkLedger m ∅ []) = map_sum balance m) as Hv by (unfold value; simpl; rewrite map_sum_empty; lia).
  pose proof (value_nonneg _ Hwf) as Hv0.
  destruct (slot_produces A (mkLedger m ∅ []) n (genesis_block (gc_chain_id config)) now HA R Hwf NoDup_nil_2)
    as (n' & block & Etick & _ & Hpub & Hrow & Hsel & Hhgt & Hpar & _ & Hpr & R'); cbn [n n_mempool n_engine n_storage];
    rewrite ?Hcur; try done.
  - intros mp l header E. assert (l = []) as -> by (cbn in E; congruence). apply empty_block_fits; lia.
  - exists n', block. assert (transactions (blk_body block) = []) as Htx by (cbn in Hsel; congruence).
    cbn [n n_engine n_storage n_published] in *. rewrite Hcur in *. split; [done|]. split; [done|]. split; [done|].
    split; [done|]. split; [done|]. split.
    { change (0 + 1) with 1 in Hpr. rewrite Hprop in Hpr. apply Ret_inj in Hpr. by rewrite <- Hpr, Hloc. }
    split; [done|]. destruct block as [header [l]]. by rewrite empty_block_ledger in R'.
Qed.
End Fresh.

(** ** What the JSON-RPC server sees *)

Section Stale.
Context `{BuildProfile} `{Blake3} `{Scale} `{Hex} `{GenesisText} `{!HashOrder bytes} `{KeyFileText} `{Serde}.
Context {Multiaddr : Type} (parse_multiaddr : string -> option Multiaddr).
Context {D : Type} `{StorageOk D} `{!StorageReliable D}.

(** The requests that change the server's state, in the order they are served. *)
Definition rpc_requests (app : RpcState D) (reqs : list (Z * bytes)) : RpcState D :=
  foldl (fun app r => (tx_submit app r.1 r.2).1) app reqs.

(** Submissions reach nothing but the server's own pool. *)
Lemma rpc_requests_frame app reqs :
  rs_state_machine (rpc_requests app reqs) = rs_state_machine app /\
  rs_consensus (rpc_requests app reqs) = rs_consensus app /\
  rs_storage (rpc_requests app reqs) = rs_storage app.
Proof.
  unfold rpc_requests. revert app. induction reqs as [|r reqs IH]; intros app; simpl; [done|].
  destruct (IH (tx_submit app r.1 r.2).1) as (-> & -> & ->). unfold tx_submit.
  repeat case_match; try done; by simpl.
Qed.

Lemma run_node_rpc env files read_file nconfig peers (d d1 : D) (b : Booted D Multiaddr) :
  run_node parse_multiaddr env files read_file nconfig peers d = (d1, Ret (Ok b)) ->
  bt_rpc b = rpc_state nconfig (bt_height b) (bt_chain_id b) (bt_genesis_hash b) peers.
Proof.
  unfold run_node. destruct (ensure_genesis nconfig read_file d) as [d0 [[]|e]]; [|done]. intros E. injection E as _ E.
  apply try_bind_inv in E as [(e & _ & E)|([[[h g] c] sm] & _ & E)]; [done|]. apply Ret_inj in E. by injection E as <-.
Qed.

(** The JSON-RPC server answers from the moment of the start.  Once the node has
    started with an RPC port, whatever the chain, the consensus loop and the
    mempool do afterwards (the store [d'] is arbitrary) and however many
    transactions are submitted to the server, its height and era are those of the
    start, every address has balance 0 and nonce 0 and no stake, there is no
    validator, the latest block is the one stored at the starting height, and a
    block above it is never found by its hash. *)
Theorem rpc_stale env files read_file nconfig peers (d d1 : D) (b : Booted D Multiaddr) mk
    (Hstart : run_node parse_multiaddr env files read_file nconfig peers d = (d1, Ret (Ok b)))
    (Hrpc : bt_rpc b = Some mk) (d' : D) (reqs : list (Z * bytes)) (addr_str : bytes) (addr : Address)
    (Haddr : rpc_parse_address addr_str = Ok addr) :
  let app := rpc_requests (mk d') reqs in
  chain_get_height app = JNumber (bt_height b) /\ era_current app = JNumber (era_at_height (bt_height b)) /\
  state_get_balance app addr_str = Ret (Ok (JObject [("balance"%string, JString (u256_hex_alt 0))])) /\
  state_get_nonce app addr_str = Ret (Ok (JObject [("nonce"%string, JNumber 0)])) /\
  rpc_validator_stake app addr_str = Ok (JObject [("stake"%string, JString (u256_hex_alt 0))]) /\
  validator_set app = Ok (JArray []) /\
  block_latest app = match stored_block d' (bt_height b) with Some block => or_null (block_to_value block) | None => JNull end /\
  forall s h, block_id_to_height (JString s) app = Ok h -> h <= Z.max 0 (bt_height b).
Proof.
  intros app. rewrite (run_node_rpc _ _ _ _ _ _ _ _ Hstart) in Hrpc. unfold rpc_state in Hrpc.
  destruct (0 <? _); [|done]. injection Hrpc as <-.
  destruct (rpc_requests_frame (RpcState_new d' (mkLock (StateMachine_new []) false) (mkLock (Mempool_new mempool_config) false) peers
      (set_current_height (ConsensusEngine_new ConsensusConfig_default) (bt_height b)) (bt_chain_id b) (bt_genesis_hash b)) reqs)
    as (Hsm & Hce & Hst). fold app in Hsm, Hce, Hst. simpl in Hsm, Hce, Hst.
  unfold chain_get_height, era_current, state_get_balance, state_get_nonce, rpc_validator_stake, validator_set, block_latest,
    rpc_load_account. rewrite Hsm, Hce, Hst, Haddr. do 6 (split; [done|]). split; [by rewrite load_block_stored|].
  intros s h. unfold block_id_to_height. rewrite Hce, Hst. simpl. case_bool_decide; [intros [= <-]; lia|].
  destruct (hex_decode _) as [hash|]; [|done]. destruct (negb _); [done|].
  pose proof (scan_hash_spec d' hash (bt_height b) (Z.to_nat (bt_height b)) ltac:(done)) as Hscan.
  destruct (scan_hash _ _ _ _) as [k|]; [|done]. intros [= <-]. lia.
Qed.
End Stale.

(** ** Instances *)

Import ToyInstances MemStorage.
#[local] Existing Instance toy_text.
#[local] Existing Instance toy_text_ok.
#[local] Existing Instance toy_serde.
#[local] Existing Instance toy_keyfile_text.

(** An observer with a genesis file, and no usable peer address. *)
Definition observer_ex : NodeConfig :=
  mkNodeConfig None None true (Some "genesis.json"%string) NodeSection_default CryptoSec_default NetworkSection_default
    StorageSection_default MempoolSection_default LogSection_default.
Definition disk_ex (path : string) : option bytes := if bool_decide (path = "genesis.json"%string) then Some json_ex else None.

Definition start_ex (d : RedbEngine) : RedbEngine * outcome (result AnyError (Booted RedbEngine unit)) :=
  run_node (fun _ => None) env_ex ∅ disk_ex observer_ex [] d.

Definition booted_or (r : outcome (result AnyError (Booted RedbEngine unit))) : Booted RedbEngine unit :=
  match r with Ret (Ok b) => b | _ => mkBooted node_ex 0 0 (array_repeat 32 x00) None None end.
Definition started (r : outcome (result AnyError (Booted RedbEngine unit))) : bool :=
  match r with Ret (Ok _) => true | _ => false end.

Lemma started_ok r : started r = true -> r = Ret (Ok (booted_or r)).
Proof. by destruct r as [[b|e]|]. Qed.

Definition booted_ex : Booted RedbEngine unit := booted_or (start_ex mem_new).2.

Lemma boot_ex : start_ex mem_new = (loaded_ex, Ret (Ok booted_ex)).
Proof.
  unfold booted_ex. rewrite <- started_ok by (vm_compute; reflexivity).
  rewrite (surjective_pairing (start_ex mem_new)) at 1. done.
Qed.

(** A payment is submitted and included, and the node starts again. *)
Definition events_ex : list NodeEvent := [Submit 700 (TxRootExample.wire_ex 0); Tick 50].
Definition paid_ex : Node RedbEngine := ret_or (run_events 0 (bt_node booted_ex) events_ex) node_ex.

Lemma run_ex : run_events (bt_height booted_ex) (bt_node booted_ex) events_ex = Ret paid_ex.
Proof. unfold paid_ex. rewrite <- ret_or_ok by (vm_compute; reflexivity). reflexivity. Qed.

(** Bob has been paid. *)
Example paid_bob : get_account (n_state paid_ex) bob = Ret (Some (Account_new 150)).
Proof. vm_compute. reflexivity. Qed.

Lemma restart_ex : started (start_ex (n_storage paid_ex)).2 = true.
Proof. vm_compute. reflexivity. Qed.

Lemma restart_rolls_back_witness : exists b', start_ex (n_storage paid_ex) = (n_storage paid_ex, Ret (Ok b')) /\
  n_mempool (bt_node b') = Mempool_new mempool_config /\
  get_account (n_state (bt_node b')) bob = get_account (n_state (bt_node booted_ex)) bob /\
  get_account (n_state (bt_node booted_ex)) bob = Ret (Some (Account_new 50)).
Proof.
  destruct (restart_rolls_back (fun _ => None) env_ex ∅ disk_ex observer_ex [] mem_new loaded_ex booted_ex {[ 0 ]} events_ex
    paid_ex env_ex ∅ disk_ex observer_ex [] boot_ex loaded_indexed run_ex) as (h & r & E & _ & _ & Hb).
  fold (start_ex (n_storage paid_ex)) in E. pose proof restart_ex as S. rewrite E in S. cbn [snd] in S.
  destruct r as [b'|e]; [|discriminate S]. exists b'. destruct (Hb b' eq_refl) as (_ & _ & _ & Hmp & Hget & _).
  split; [exact E|]. split; [exact Hmp|]. split; [unfold get_account; by rewrite Hget|]. vm_compute. reflexivity.
Defined.

Definition genesis_ledger : gmap Address Account := {[ alice := Account_new 1000; bob := Account_new 50 ]}.

Lemma genesis_ledger_gives a x : genesis_ledger !! a = Some x <-> exists b, gives config_ex a b /\ x = Account_new b.
Proof.
  unfold genesis_ledger. split.
  - intros [[<- <-]|[_ [<- <-]%lookup_singleton_Some]]%lookup_insert_Some.
    + exists 1000. split; [|done]. exists (str_0x ++ account_text alice), (list_byte_of_string "1000").
      split; [apply lookup_insert_eq|]. split; [by apply text_check_ok|vm_compute; reflexivity].
    + exists 50. split; [|done]. exists (account_text bob), (list_byte_of_string "50").
      split; [vm_compute; reflexivity|]. split; [by apply text_check_ok|vm_compute; reflexivity].
  - intros (b & [[-> ->]|[-> ->]]%gives_ex & ->); vm_compute; reflexivity.
Qed.

Definition rows_or (r : Result (list (bytes * bytes))) : list (bytes * bytes) := match r with Ok l => l | Err _ => [] end.

Lemma rows_or_ok r : is_ok r = true -> r = Ok (rows_or r).
Proof. by destruct r. Qed.

Lemma first_boot_witness : exists d' b n' block, start_ex mem_new = (d', Ret (Ok b)) /\
  slot_tick 50 (bt_node b) = Ret n' /\ n_published n' = [block] /\
  hdr_proposer (blk_header block) = address_from (array_repeat 32 x00).
Proof.
  destruct (first_boot (Multiaddr := unit) (fun _ => None) D0 genesis_ledger env_ex ∅ disk_ex observer_ex [] mem_new
    "genesis.json"%string json_ex config_ex
    (rows_or (rows_of account_row (map_pairs (gc_initial_accounts config_ex))))
    (rows_or (rows_of validator_row (gc_initial_validators config_ex))) 50 D0_collision_free)
    as (d' & b & E & _ & _ & _ & _ & n' & block & Et & Hp & _ & _ & _ & Hpr & _).
  - reflexivity.
  - reflexivity.
  - vm_compute. reflexivity.
  - vm_compute. reflexivity.
  - apply rows_or_ok. vm_compute. reflexivity.
  - apply rows_or_ok. vm_compute. reflexivity.
  - exact genesis_ledger_gives.
  - intros a [x Hx]. apply genesis_ledger_gives in Hx as (b & [[-> _]|[-> _]]%gives_ex & _); by apply in_D0.
  - vm_compute. reflexivity.
  - exists d', b, n', block. split; [exact E|]. split; [exact Et|]. split; [exact Hp|exact Hpr].
Defined.

(** The address of the constant bytes, as the server reads it. *)
Definition query_ex : bytes := account_text bob.

Lemma rpc_port_ex : exists mk, bt_rpc booted_ex = Some mk /\ rs_storage (mk (n_storage paid_ex)) = n_storage paid_ex.
Proof. rewrite (run_node_rpc _ _ _ _ _ _ _ _ _ boot_ex). eexists. split; reflexivity. Qed.

Lemma query_ex_parses : exists a, rpc_parse_address query_ex = Ok a.
Proof. destruct (rpc_parse_address query_ex) as [a|e] eqn:E; [by exists a|]. vm_compute in E. discriminate E. Qed.

Lemma rpc_stale_witness : exists mk, bt_rpc booted_ex = Some mk /\ rs_storage (mk (n_storage paid_ex)) = n_storage paid_ex /\
  state_get_balance (rpc_requests (mk (n_storage paid_ex)) []) query_ex =
    Ret (Ok (JObject [("balance"%string, JString (u256_hex_alt 0))])).
Proof.
  destruct rpc_port_ex as (mk & Hmk & Hst). exists mk. split; [exact Hmk|]. split; [exact Hst|].
  destruct query_ex_parses as [a Ea].
  destruct (rpc_stale (fun _ => None) env_ex ∅ disk_ex observer_ex [] mem_new loaded_ex booted_ex mk boot_ex Hmk
             (n_storage paid_ex) [] query_ex a Ea) as (_ & _ & E & _). exact E.
Defined.
