(* ===== verification/Process.v ===== *)
(** * A running node ([run_node] of [mononium-cli/src/node.rs])

    [Boot] opens the chain; here the node is launched on it: the P2P service or a
    dummy handle, the JSON-RPC server, the REST API and the consensus loop, and then
    all of them run.  The tasks are interleaved by a step relation over what they
    share: a slot, the publication of its block, a request, an event of the network
    and an answer the sync task processes are steps of their own.  The storage engine
    is one [Arc]: every task acts on the store of now, and the store it leaves is the
    one the next step finds. *)
From Stdlib Require Import Strings.Byte Strings.String.
From stdpp Require Import base gmap sets list strings countable sorting pretty.
From Stdlib Require Import ZArith Lia.
From S2P Require Import Prelude Types External Toy Trie Account State Ledger Refine Scenario Finality Schedule Mempool Storage Genesis Slashing Engine Config Rest Router Rpc RpcServer Wallet Peers Sync P2p Handle Boot.

(** The filter of the log: the level of the command line, or [info].  Neither the
    configuration file nor the format is asked. *)
Definition log_filter (args : NodeArgs) : string := "mononium=" +:+ default "info"%string (arg_log_level args).

Section Process.
Context {PeerId : Type} `{Countable PeerId} {Multiaddr Channel : Type}.
Context `{BuildProfile} `{Blake3} `{Scale} `{GossipScale} `{Libp2p} `{Hex} `{Serde} `{JsonText} `{Rejections} `{TxText} `{RpcParams}.
Context {D : Type} `{StorageEngine D} `{!HashOrder PeerId} `{!HashOrder Address}.
Abbreviation Sys := (System (PeerId := PeerId) (Multiaddr := Multiaddr) (Channel := Channel) (D := D)).
Abbreviation NetCommand := (P2pCommand (PeerId := PeerId) (Multiaddr := Multiaddr)).
Abbreviation NetCall := (Handle.Call (PeerId := PeerId) (Multiaddr := Multiaddr)).
Context `{!Mpsc NetCommand} `{!Axum Endpoint} `{!RpcModule (Method (D := D))}.

(** ** Launching *)

(** Step 13: the service, or [None] for the dummy handle; a refusal is logged. *)
Definition start_p2p (config : option (P2pConfig Multiaddr)) (chain_id : Z) : option Sys :=
  match config with
  | None => None
  | Some config =>
      match build_service config chain_id with
      | Ok service => match start_service service with Ok s => Some s | Err _ => None end
      | Err _ => None
      end
  end.

(** What runs.  A block waits in [pr_publishing] between the store and the command
    channel. *)
Record Process := mkProcess {
  pr_node : Node D;
  pr_start : Z;
  pr_publishing : option Block;
  pr_net : option Sys;
  pr_rpc : option (module (Method (D := D)) * RpcState D);
  pr_rest : bool
}.

(** Steps 13 to 17; [rpc_bound] and [rest_bound] are the results of binding the two
    servers, and a failure is logged by their tasks. *)
Definition launch (b : Booted D Multiaddr) (rpc_bound rest_bound : result string unit) : Process :=
  mkProcess (bt_node b) (bt_height b) None (start_p2p (bt_p2p b) (bt_chain_id b))
    (match bt_rpc b, start_rpc_server rpc_bound with
     | Some mk, Ok m => Some (m, mk (n_storage (bt_node b)))
     | _, _ => None
     end)
    (is_ok rest_bound).

(** ** Running *)

Definition with_node (p : Process) (n : Node D) (publishing : option Block) : Process :=
  mkProcess n (pr_start p) publishing (pr_net p) (pr_rpc p) (pr_rest p).
Definition with_net (p : Process) (net : option Sys) (publishing : option Block) : Process :=
  mkProcess (pr_node p) (pr_start p) publishing net (pr_rpc p) (pr_rest p).
Definition with_store (n : Node D) (d : D) : Node D := mkNode (n_engine n) (n_state n) (n_mempool n) d (n_published n).

(** The block a slot has made, if any. *)
Definition made (n n' : Node D) : option Block := head (drop (length (n_published n)) (n_published n')).

(** The shared state of the JSON-RPC server over the store and the peers of now. *)
Definition rpc_view (app : RpcState D) (d : D) (peers : list bytes) : RpcState D :=
  mkRpc d (rs_state_machine app) (rs_mempool app) peers (rs_consensus app) (rs_chain_id app) (rs_genesis_hash app).

(** The sync task over the store of now. *)
Definition sync_view (st : SyncState (D := D)) (d : D) : SyncState (D := D) :=
  mkSync (sy_cursor st) d (sy_failures st) (sy_saved st).

(** A service that was given the engine acts on the store of now; the store it leaves
    is the one everybody has. *)
Definition lend (s : Sys) (d : D) : Sys :=
  match storage (sys_service s) with
  | Some _ => mkSystem (with_storage (sys_service s) d (genesis_hash (sys_service s))) (sys_chan s) (sys_running s) (sys_out s)
  | None => s
  end.
Definition store_left (s : Sys) (d : D) : D := default d (storage (sys_service s)).

Definition with_shared (p : Process) (d : D) (net : option Sys) (publishing : option Block) : Process :=
  mkProcess (with_store (pr_node p) d) (pr_start p) publishing net (pr_rpc p) (pr_rest p).

(** What the REST API leaves behind its lock. *)
Definition with_guard (p : Process) (guard : AppState D) : Process :=
  let n := pr_node p in
  mkProcess (mkNode (n_engine n) (app_state guard) (app_mempool guard) (app_engine guard) (n_published n)) (app_height guard)
    (pr_publishing p) (pr_net p) (pr_rpc p) (pr_rest p).

(** A call of the handle, from a store to a store. *)
Inductive net_call (random : PeerId) (d : D) : option Sys -> NetCall -> bool -> D -> option Sys -> Prop :=
| call_live s call ok s' : Handle.step (lend s d) (Called call ok) s' ->
    net_call random d (Some s) call ok (store_left s' d) (Some s')
| call_dummy call e : invoke (cmd_tx (dummy_p2p_handle random)) call = Some (Err e) ->
    net_call random d None call false d None.

Inductive Label :=
| Slot (now : Z)
| Publish (b : Block) (accepted : bool)
| Http (now : Z) (m : HttpMethod) (path : list bytes) (body : bytes) (a : Answer)
| RpcRequest (now : Z) (peers : list bytes) (name : string) (params : bytes) (r : outcome (RpcResult Json))
| Network (l : Handle.Label (PeerId := PeerId) (Multiaddr := Multiaddr) (Channel := Channel))
| Asked (call : NetCall) (accepted : bool)
| Answered (st : SyncState (D := D)) (ev : SyncEvent).

(** The calls of the other tasks: the sync task and [network_peers]. *)
Definition asking (call : NetCall) : bool :=
  match call with CallConnectedPeers | CallSendSyncRequest _ _ => true | _ => false end.

Definition of_loop (l : Handle.Label (PeerId := PeerId) (Multiaddr := Multiaddr) (Channel := Channel)) : bool :=
  match l with Called _ _ => false | _ => true end.

Inductive step : Process -> Label -> Process -> Prop :=
| step_slot p now n : pr_publishing p = None -> slot_tick now (pr_node p) = Ret n ->
    step p (Slot now) (with_node p n (made (pr_node p) n))
| step_publish p b random ok d net : pr_publishing p = Some b ->
    net_call random (n_storage (pr_node p)) (pr_net p) (CallPublishBlock b) ok d net ->
    step p (Publish b ok) (with_shared p d net None)
| step_http p now m path body guard a : pr_rest p = true ->
    serve (app_of (pr_start p) (pr_node p)) now m path body = Ret (guard, a) ->
    step p (Http now m path body a) (with_guard p guard)
| step_rpc p m app now peers name params app' r : pr_rpc p = Some (m, app) ->
    rpc_request m (rpc_view app (n_storage (pr_node p)) peers) now name params = (app', r) ->
    step p (RpcRequest now peers name params r)
      (mkProcess (with_store (pr_node p) (rs_storage app')) (pr_start p) (pr_publishing p) (pr_net p) (Some (m, app')) (pr_rest p))
| step_network p s l s' : pr_net p = Some s -> of_loop l = true -> Handle.step (lend s (n_storage (pr_node p))) l s' ->
    step p (Network l) (with_shared p (store_left s' (n_storage (pr_node p))) (Some s') (pr_publishing p))
| step_asked p call random ok d net : asking call = true ->
    net_call random (n_storage (pr_node p)) (pr_net p) call ok d net ->
    step p (Asked call ok) (with_shared p d net (pr_publishing p))
| step_answered p st ev st' flow : sync_step (sync_view st (n_storage (pr_node p))) ev = Ret (st', flow) ->
    step p (Answered st ev) (with_node p (with_store (pr_node p) (sy_storage st')) (pr_publishing p)).

Inductive steps : Process -> list Label -> Process -> Prop :=
| steps_nil p : steps p [] p
| steps_snoc p tr p1 l p2 : steps p tr p1 -> step p1 l p2 -> steps p (tr ++ [l]) p2.

(** ** The part of the network in the chain *)

(** What the chain of the node sees of a history: slots, submissions, and answers
    the sync task stores. *)
Inductive NodeOp := Event (e : NodeEvent) | Store (st : SyncState (D := D)) (ev : SyncEvent).

Definition op_of (l : Label) : option NodeOp :=
  match l with
  | Slot now => Some (Event (Tick now))
  | Http now m path body _ => (fun tx => Event (Submit now tx)) <$> submits m path body
  | Answered st ev => Some (Store st ev)
  | _ => None
  end.

Definition run_op (start : Z) (n : Node D) (op : NodeOp) : outcome (Node D) :=
  match op with
  | Event e => node_step start n e
  | Store st ev => '(st', _) ← sync_step (sync_view st (n_storage n)) ev; Ret (with_store n (sy_storage st'))
  end.

Definition run_ops (start : Z) (n : Node D) (ops : list NodeOp) : outcome (Node D) := foldM (run_op start) n ops.

(** The static part of the JSON-RPC server. *)
Definition rpc_fixed (app : RpcState D) : RwLock StateMachine * ConsensusEngine * Z * array 32 :=
  (rs_state_machine app, rs_consensus app, rs_chain_id app, rs_genesis_hash app).

(** The submissions of a history over JSON-RPC, and what one does to the server. *)
Definition rpc_submission (l : Label) : option (Z * bytes) :=
  match l with
  | RpcRequest now _ name params _ => if decide (name = "tx_submit"%string) then Some (now, params) else None
  | _ => None
  end.
Definition rpc_submit (app : RpcState D) (request : Z * bytes) : RpcState D :=
  match one_string request.2 with Ok hex_tx => (tx_submit app request.1 hex_tx).1 | Err _ => app end.

(** The process whose service is given the engine of the node, with [with_storage];
    [run_node] leaves it without. *)
Definition equip (given : option (array 32)) (p : Process) : Process :=
  match given with
  | None => p
  | Some genesis_hash =>
      with_net p ((fun s => mkSystem (with_storage (sys_service s) (n_storage (pr_node p)) genesis_hash)
                              (sys_chan s) (sys_running s) (sys_out s)) <$> pr_net p) (pr_publishing p)
  end.
End Process.

(** ** The node command *)

Section Main.
Context {PeerId : Type} `{Countable PeerId} {Multiaddr Channel : Type} (parse_multiaddr : string -> option Multiaddr).
Context `{BuildProfile} `{Blake3} `{Scale} `{GossipScale} `{Libp2p} `{Hex} `{Serde} `{JsonText} `{Rejections} `{TxText} `{RpcParams}.
Context `{GenesisText} `{!HashOrder bytes} `{KeyFileText} `{ConfigText}.
Context {D : Type} `{StorageEngine D} `{!HashOrder PeerId} `{!HashOrder Address}.
Context `{!Mpsc (P2pCommand (PeerId := PeerId) (Multiaddr := Multiaddr))} `{!RpcModule (Method (D := D))}.
Abbreviation Proc := (Process (PeerId := PeerId) (Multiaddr := Multiaddr) (Channel := Channel) (D := D)).

(** [run_node] on its arguments, up to the running tasks: configuration, database,
    chain, launch.  [created] is the result of creating the data directory. *)
Definition run_node_command (env : Env) (files : Files) (args : NodeArgs) (file : option string) (ext : string)
    (created : result AnyError unit) (open_db : string -> Result D) (read_file : string -> option bytes) (peers : list bytes)
    (rpc_bound rest_bound : result string unit) : outcome (result AnyError Proc) :=
  match startup_config args file ext with
  | Err e => Ret (Err (FromLib e))
  | Ok config =>
      match (_ <-! created; map_err FromLib (open_db (path_join (data_dir env config) "chain.redb"))) with
      | Err e => Ret (Err e)
      | Ok engine =>
          r ← (run_node parse_multiaddr env files read_file config peers engine).2;
          Ret (b <-! r; Ok (launch b rpc_bound rest_bound))
      end
  end.

(** A node runs on its configuration: a port 0 means no service, and nothing runs on a
    configuration that is refused. *)
Lemma run_node_command_ok env files args file ext created open_db read_file peers rpc_bound rest_bound (p : Proc) :
  run_node_command env files args file ext created open_db read_file peers rpc_bound rest_bound = Ret (Ok p) ->
  exists config d d1 b, startup_config args file ext = Ok config /\ open_db (path_join (data_dir env config) "chain.redb") = Ok d /\
    run_node parse_multiaddr env files read_file config peers d = (d1, Ret (Ok b)) /\ p = launch b rpc_bound rest_bound /\
    (Config.p2p_port config = 0 -> pr_net p = None) /\ (Config.rpc_port config = 0 -> pr_rpc p = None).
Proof.
  unfold run_node_command. destruct (startup_config args file ext) as [config|]; [|done]. destruct created as [[]|]; [|done]. cbn [and_then].
  destruct (open_db _) as [d|] eqn:Eo; [|done]. cbn [map_err]. intros E. apply bind_Ret_inv in E as (r & Er & E).
  destruct r as [b|]; [|done]. cbn [and_then] in E. apply Ret_inj in E. injection E as <-.
  destruct (run_node parse_multiaddr env files read_file config peers d) as [d1 o] eqn:Erun. cbn [snd] in Er. subst o.
  exists config, d, d1, b. do 4 (split; [done|]). unfold run_node in Erun.
  destruct (ensure_genesis config read_file d) as [d0 [[]|]]; [|done]. injection Erun as _ Erun.
  apply try_bind_inv in Erun as [(e & _ & Erun)|([[[h g] c] sm] & _ & Erun)]; [done|]. apply Ret_inj in Erun. injection Erun as <-.
  cbn [launch pr_net pr_rpc bt_p2p bt_rpc bt_chain_id]. unfold p2p_config, rpc_state. split; intros Hz; rewrite Hz; done.
Qed.
End Main.

Section Isolation.
Context {PeerId : Type} `{Countable PeerId} {Multiaddr Channel : Type}.
Context `{BuildProfile} `{Blake3} `{Scale} `{GossipScale} `{Libp2p} `{Hex} `{Serde} `{JsonText} `{Rejections} `{TxText} `{RpcParams}.
Context {D : Type} `{StorageOk D} `{!HashOrder PeerId} `{!HashOrder Address}.
Abbreviation NetCommand := (P2pCommand (PeerId := PeerId) (Multiaddr := Multiaddr)).
Context `{!Mpsc NetCommand} `{!Axum Endpoint} `{!AxumOk Endpoint} `{!RpcModule (Method (D := D))} `{!RpcModuleOk (Method (D := D))}.
Abbreviation Proc := (Process (PeerId := PeerId) (Multiaddr := Multiaddr) (Channel := Channel) (D := D)).
Abbreviation Lab := (Label (PeerId := PeerId) (Multiaddr := Multiaddr) (Channel := Channel) (D := D)).
Abbreviation Service := (P2pService (PeerId := PeerId) (Multiaddr := Multiaddr) (D := D)).
Abbreviation Sys := (System (PeerId := PeerId) (Multiaddr := Multiaddr) (Channel := Channel) (D := D)).

(** No event and no command changes the engine a service was given. *)
Lemma handle_event_storage (self self' : Service) now event out :
  handle_event (Multiaddr := Multiaddr) (Channel := Channel) self now event = Ret (self', out) -> storage self' = storage self.
Proof.
  destruct event as [src data|peer req ch|peer resp|peer|peer|]; cbn [handle_event]; try (by intros [<- _]%Ret_pair_inj).
  - intros [= E]. unfold handle_gossip in E. destruct (decode_all sc_gossip data) as [[]|]; by injection E as <- <-.
  - destruct (storage self) eqn:Es; [|by intros [<- _]%Ret_pair_inj]. by intros (response & _ & [<- _]%Ret_pair_inj)%bind_Ret_inv.
Qed.

Lemma handle_step_storage (s s' : Sys) l : Handle.step s l s' -> storage (sys_service s') = storage (sys_service s).
Proof. destruct 1; try done. by eapply handle_event_storage. Qed.

Lemma lend_left (s s' : Sys) d l : Handle.step (lend s d) l s' -> store_left s' d = d.
Proof.
  intros Hs%handle_step_storage. unfold store_left. rewrite Hs. unfold lend. by destruct (storage (sys_service s)) eqn:E; [|rewrite E].
Qed.

Lemma net_call_store random d (net net' : option Sys) call ok d' : net_call random d net call ok d' net' -> d' = d.
Proof. destruct 1; [by eapply lend_left|done]. Qed.

Lemma with_store_same (n : Node D) : with_store n (n_storage n) = n.
Proof. by destruct n. Qed.

(** The server of a process has the methods it was started with. *)
Definition served (p : Proc) : Prop := forall m app, pr_rpc p = Some (m, app) ->
  forall name, find_method m name = (list_to_map rpc_methods : gmap string _) !! name.

Lemma step_served (p p' : Proc) (l : Lab) : step p l p' -> served p -> served p'.
Proof. intros Hs Hm. destruct Hs as [| | |p m app now peers name params app' r Er E| | |]; try exact Hm. intros ? ? [= <- _]. by eapply Hm. Qed.

(** What a request does: [tx_submit] inserts in the mempool of the server, any other
    changes nothing. *)
Lemma rpc_request_state m (app app' : RpcState D) now name params r :
  (forall name, find_method m name = (list_to_map rpc_methods : gmap string _) !! name) ->
  rpc_request m app now name params = (app', r) ->
  app' = if decide (name = "tx_submit"%string) then rpc_submit app (now, params) else app.
Proof.
  intros Hm E. case_decide as Hn.
  - subst name. unfold rpc_request in E. rewrite Hm in E.
    replace ((list_to_map rpc_methods : gmap string _) !! "tx_submit"%string)
      with (Some (RpcServer.Call (fun (app : RpcState D) now params => match one_string params with Ok hex_tx => tx_submit app now hex_tx | Err e => (app, Ret (Err e)) end)))
      in E by reflexivity.
    unfold rpc_submit. cbn [fst snd]. destruct (one_string params); [by rewrite E|by injection E as <- _].
  - destruct (rpc_request_frame _ _ _ _ _ _ _ Hm E) as [|[]]; done.
Qed.

Lemma tx_submit_frame (app : RpcState D) now hex_tx : exists mp, (tx_submit app now hex_tx).1 = with_mempool app mp.
Proof.
  unfold tx_submit. assert (exists mp, app = with_mempool app mp) as Hsame by (exists (rs_mempool app); by destruct app).
  repeat case_match; simpl; eauto.
Qed.

(** Two states of the server that differ in the store and the peers at most. *)
Definition same_server (a a' : RpcState D) : Prop := rpc_fixed a = rpc_fixed a' /\ rs_mempool a = rs_mempool a'.

Lemma rpc_submit_frame (app : RpcState D) s : rs_storage (rpc_submit app s) = rs_storage app /\ rpc_fixed (rpc_submit app s) = rpc_fixed app.
Proof.
  unfold rpc_submit. destruct (one_string s.2) as [hex_tx|]; [|done]. by destruct (tx_submit_frame app s.1 hex_tx) as [mp ->].
Qed.

Lemma rpc_submit_same (a a' : RpcState D) s : same_server a a' -> same_server (rpc_submit a s) (rpc_submit a' s).
Proof.
  intros [Hf Hp]. split; [by rewrite !(proj2 (rpc_submit_frame _ s))|].
  unfold rpc_submit. destruct (one_string s.2) as [hex_tx|]; [|done]. unfold tx_submit. rewrite Hp.
  destruct (hex_decode _); [|done]. destruct (decode_all sc_tx _); [|done]. destruct (lock_read _); [|done].
  destruct (insert_tx _ _ _) as [[]|]; done.
Qed.

Lemma step_node (p p' : Proc) (l : Lab) : served p -> step p l p' -> pr_start p' = pr_start p /\
  match op_of l with Some op => run_op (pr_start p) (pr_node p) op = Ret (pr_node p') | None => pr_node p' = pr_node p end.
Proof.
  intros Hm Hs. destruct Hs as [p now n _ E|p b rnd ok d net _ Hc|p now m path body guard a _ E|p m app now peers name params app' r Er E
    |p s l s' _ _ Hl|p call rnd ok d net _ Hc|p st ev st' flow E];
    cbn [op_of pr_start pr_node with_node with_net with_shared with_guard]; try done.
  - apply net_call_store in Hc as ->. by rewrite with_store_same.
  - destruct (serve_frame _ _ _ _ _ _ _ E) as (Hd & Hst & Hh). cbn in Hd, Hst, Hh. rewrite Hd, Hst, Hh. split; [done|].
    apply serve_inv in E. destruct (submits m path body) as [tx|]; cbn [fmap option_fmap option_map].
    + destruct E as [r E]. cbn [run_op node_step]. by rewrite E.
    + subst guard. by destruct (pr_node p).
  - split; [done|]. rewrite (rpc_request_state _ _ _ _ _ _ _ (Hm m app Er) E).
    case_decide; [rewrite (proj1 (rpc_submit_frame _ _))|]; apply with_store_same.
  - split; [done|]. rewrite (lend_left _ _ _ _ Hl). apply with_store_same.
  - apply net_call_store in Hc as ->. by rewrite with_store_same.
  - split; [done|]. cbn [run_op]. by rewrite E.
Qed.

Lemma steps_node (p p' : Proc) (tr : list Lab) : steps p tr p' -> served p -> served p' /\
  pr_start p' = pr_start p /\ run_ops (pr_start p) (pr_node p) (omap op_of tr) = Ret (pr_node p').
Proof.
  intros Hs Hm. induction Hs as [p|p tr p1 l p2 _ IH Hl]; [done|]. destruct (IH Hm) as (Hm1 & IHs & IHn).
  destruct (step_node _ _ _ Hm1 Hl) as [Hs2 Hn2]. split; [by eapply step_served|]. rewrite Hs2. split; [done|].
  rewrite omap_app. unfold run_ops in *. rewrite foldM_app, IHn. cbn [mbind outcome_bind omap list_omap]. rewrite IHs in Hn2.
  destruct (op_of l) as [op|]; cbn [foldM]; by rewrite Hn2.
Qed.

(** No task writes a table but the blocks. *)
Lemma run_op_tables start (n n' : Node D) op t k : t <> BLOCKS -> run_op start n op = Ret n' ->
  st_view (n_storage n') t !! k = st_view (n_storage n) t !! k.
Proof.
  intros Ht. destruct op as [e|st ev]; cbn [run_op]; [by apply node_step_tables|]. intros E.
  apply bind_Ret_inv in E as ([st' flow] & Es & E). apply Ret_inj in E as <-. cbn [with_store n_storage].
  by rewrite (sync_step_tables _ _ _ _ t k Es Ht).
Qed.

Lemma run_ops_tables start ops t k : t <> BLOCKS -> forall (n n' : Node D), run_ops start n ops = Ret n' ->
  st_view (n_storage n') t !! k = st_view (n_storage n) t !! k.
Proof.
  intros Ht. induction ops as [|op ops IH]; intros n n' E; unfold run_ops in *; cbn [foldM] in E; [by apply Ret_inj in E as <-|].
  apply bind_Ret_inv in E as (n1 & E1 & E). rewrite (IH n1 n' E). by eapply run_op_tables.
Qed.

Lemma foldl_rpc_fixed requests (app : RpcState D) : rpc_fixed (foldl rpc_submit app requests) = rpc_fixed app.
Proof.
  revert app. induction requests as [|q requests IH]; intros app; [done|]. cbn [foldl]. rewrite IH. apply rpc_submit_frame.
Qed.

(** The server after a history: its own submissions, over what it was launched with. *)
Definition server_of (p : Proc) (q : option (module (Method (D := D)) * RpcState D)) (requests : list (Z * bytes)) : Prop :=
  match q with
  | None => pr_rpc p = None
  | Some (m, app0) => exists app, pr_rpc p = Some (m, app) /\ same_server app (foldl rpc_submit app0 requests)
  end.

Lemma step_server (p p' : Proc) (l : Lab) q requests : served p -> step p l p' -> server_of p q requests ->
  server_of p' q (requests ++ option_list (rpc_submission l)).
Proof.
  intros Hm Hs. unfold server_of. destruct Hs as [| | |p m app now peers name params app' r Er E| | |]; cbn [rpc_submission option_list];
    rewrite ?app_nil_r; try done.
  intros Hq. destruct q as [[m0 app0]|]; [|congruence]. destruct Hq as (app1 & Eq & Hsame). rewrite Er in Eq. injection Eq as <- <-.
  exists app'. split; [done|]. rewrite (rpc_request_state _ _ _ _ _ _ _ (Hm m app Er) E).
  case_decide; cbn [option_list]; [|by rewrite app_nil_r]. rewrite foldl_app. cbn [foldl]. by apply rpc_submit_same.
Qed.

Lemma steps_server (p p' : Proc) (tr : list Lab) : steps p tr p' -> served p -> server_of p' (pr_rpc p) (omap rpc_submission tr).
Proof.
  intros Hs Hm. induction Hs as [p|p tr p1 l p2 Hs IH Hl].
  - unfold server_of. destruct (pr_rpc p) as [[m app]|]; [by exists app|done].
  - rewrite omap_app. replace (omap rpc_submission [l]) with (option_list (rpc_submission l)) by (cbn; by destruct (rpc_submission l)).
    destruct (steps_node _ _ _ Hs Hm) as [Hm1 _]. exact (step_server p1 p2 l _ _ Hm1 Hl (IH Hm)).
Qed.

Lemma launch_served (b : Booted D Multiaddr) rpc_bound rest_bound given : served (equip given (launch b rpc_bound rest_bound : Proc)).
Proof.
  intros m app E. assert (pr_rpc (launch b rpc_bound rest_bound : Proc) = Some (m, app)) as E' by (by destruct given).
  cbn [launch pr_rpc] in E'. destruct (bt_rpc b); [|done]. destruct (start_rpc_server rpc_bound) as [m0|] eqn:Es; [|done].
  injection E' as <- _. by eapply start_rpc_server_inv.
Qed.

(** C20: the network cannot touch the chain of a launched node.  All tasks share the
    storage engine and may write to it; the service too, if it is given the engine.
    However they interleave, the node, that is its consensus engine, state, mempool
    and store, is the one that the slots, the submissions over HTTP and the answers the
    sync task stores alone produce, in their order: gossip, connections, the sync
    requests that are served, the calls of the handle, every other HTTP request and
    every JSON-RPC request are without effect on it, so that two histories that differ
    only in those end in the same node.  The sync task changes nothing but blocks and
    no task writes another table.  The state machine, the consensus engine, the chain
    id and the genesis hash of the JSON-RPC server are those of the launch for ever,
    and its mempool, which is not the node's, is what its own [tx_submit] requests
    put in it. *)
Theorem process_isolated (b : Booted D Multiaddr) (rpc_bound rest_bound : result string unit) (given : option (array 32))
    (p : Proc) (tr : list Lab) (Hrun : steps (equip given (launch b rpc_bound rest_bound)) tr p) :
  run_ops (bt_height b) (bt_node b) (omap op_of tr) = Ret (pr_node p) /\
  (forall given' tr' p', steps (equip given' (launch b rpc_bound rest_bound) : Proc) tr' p' ->
     omap op_of tr' = omap op_of tr -> pr_node p' = pr_node p) /\
  (forall t k, t <> BLOCKS -> st_view (n_storage (pr_node p)) t !! k = st_view (n_storage (bt_node b)) t !! k) /\
  (forall m app, pr_rpc p = Some (m, app) -> exists mk, bt_rpc b = Some mk /\
     let app0 := mk (n_storage (bt_node b)) in
     rpc_fixed app = rpc_fixed app0 /\ rs_mempool app = rs_mempool (foldl rpc_submit app0 (omap rpc_submission tr))).
Proof.
  assert (forall given tr p, steps (equip given (launch b rpc_bound rest_bound) : Proc) tr p ->
    run_ops (bt_height b) (bt_node b) (omap op_of tr) = Ret (pr_node p)) as Hnode.
  { intros given' tr' p' Hrun'. destruct (steps_node _ _ _ Hrun' (launch_served b rpc_bound rest_bound given')) as (_ & _ & Hn).
    by destruct given'. }
  split; [by eapply Hnode|]. split; [|split].
  - intros given' tr' p' Hrun' E. apply Hnode in Hrun', Hrun. rewrite E, Hrun in Hrun'. by apply Ret_inj in Hrun'.
  - intros t k Ht. by apply (run_ops_tables _ _ t k Ht _ _ (Hnode _ _ _ Hrun)).
  - intros m app E. pose proof (steps_server _ _ _ Hrun (launch_served b rpc_bound rest_bound given)) as Hr.
    assert (pr_rpc (equip given (launch b rpc_bound rest_bound) : Proc) = pr_rpc (launch b rpc_bound rest_bound : Proc)) as El
      by (by destruct given).
    rewrite El in Hr. cbn [launch pr_rpc] in Hr. unfold server_of in Hr. destruct (bt_rpc b) as [mk|]; [|congruence].
    exists mk. split; [done|]. destruct (start_rpc_server rpc_bound); [|congruence]. destruct Hr as (app1 & E1 & Hf & Hp).
    rewrite E in E1. injection E1 as _ <-. cbv zeta.
    split; [by rewrite Hf, foldl_rpc_fixed|done].
Qed.
End Isolation.

(** ** The blocks that are made are published *)

Section Publication.
Context {PeerId : Type} `{Countable PeerId} {Multiaddr Channel : Type}.
Context `{BuildProfile} `{Blake3} `{Scale} `{GossipScale} `{Libp2p} `{Hex} `{Serde} `{JsonText} `{Rejections} `{TxText} `{RpcParams}.
Context {D : Type} `{StorageEngine D} `{!HashOrder PeerId} `{!HashOrder Address}.
Abbreviation NetCommand := (P2pCommand (PeerId := PeerId) (Multiaddr := Multiaddr)).
Context `{!Mpsc NetCommand} `{!MpscOk NetCommand} `{!Axum Endpoint} `{!RpcModule (Method (D := D))}.
Abbreviation Proc := (Process (PeerId := PeerId) (Multiaddr := Multiaddr) (Channel := Channel) (D := D)).
Abbreviation Lab := (Label (PeerId := PeerId) (Multiaddr := Multiaddr) (Channel := Channel) (D := D)).
Abbreviation NetLab := (Handle.Label (PeerId := PeerId) (Multiaddr := Multiaddr) (Channel := Channel)).
Abbreviation Sys := (System (PeerId := PeerId) (Multiaddr := Multiaddr) (Channel := Channel) (D := D)).
Abbreviation Service := (P2pService (PeerId := PeerId) (Multiaddr := Multiaddr) (D := D)).
Abbreviation Out := (Effect (PeerId := PeerId) (Multiaddr := Multiaddr) (Channel := Channel)).

(** The blocks of a sequence of commands, and what of them fits the blocks topic. *)
Definition block_in (c : NetCommand) : option Block := match c with PublishBlock b => Some b | _ => None end.
Definition blocks_topic (chain_id : Z) : string := "mononium/blocks/" +:+ pretty chain_id.
Definition gossiped (b : Block) : option bytes :=
  if decide (Z.of_nat (length (enc sc_gossip (GossipBlock b))) <= 512000) then Some (enc sc_gossip (GossipBlock b)) else None.

(** What the service has put on a topic. *)
Definition on_topic (topic : string) (e : Out) : option bytes :=
  match e with DoPublish t data => if decide (t = topic) then Some data else None | _ => None end.

Definition input_block (i : Input (PeerId := PeerId) (Multiaddr := Multiaddr) (Channel := Channel)) : option Block :=
  match i with OnCommand (Some c) => block_in c | _ => None end.

(** No effect of an event is a publication. *)
Lemma event_silent topic (self self' : Service) now event out : handle_event self now event = Ret (self', out) ->
  omap (on_topic topic) out = [] /\ chain_id self' = chain_id self.
Proof.
  destruct event as [src data|peer req ch|peer resp|peer|peer|]; cbn [handle_event].
  - intros [= E]. unfold handle_gossip in E. destruct (decode_all sc_gossip data) as [[]|]; injection E as <- <-; done.
  - destruct (storage self); [|by intros [<- <-]%Ret_pair_inj]. intros (response & _ & [<- <-]%Ret_pair_inj)%bind_Ret_inv.
    by destruct response.
  - by intros [<- <-]%Ret_pair_inj.
  - by intros [<- <-]%Ret_pair_inj.
  - by intros [<- <-]%Ret_pair_inj.
  - by intros [<- <-]%Ret_pair_inj.
Qed.

(** A command puts on the blocks topic its block, if it has one that fits. *)
Lemma command_publishes (self : Service) cmd out go : handle_command (Channel := Channel) self cmd = Ret (out, go) ->
  omap (on_topic (blocks_topic (chain_id self))) out = omap gossiped (option_list (c ← cmd; block_in c)).
Proof.
  assert (forall i m o topic, standard_topics (pretty (chain_id self)) !! i = Some topic ->
    publish (Channel := Channel) self i m = Ret o ->
    o = match prepare_gossip_message m topic with Ok data => [DoPublish (tc_name topic) data] | Err _ => [] end) as Hpub.
  { intros i m o topic Ht. unfold publish. rewrite Ht. cbn [unwrap mbind outcome_bind]. destruct (prepare_gossip_message m topic); by intros ->%Ret_inj. }
  assert (forall i m o topic, standard_topics (pretty (chain_id self)) !! i = Some topic ->
    tc_name topic <> blocks_topic (chain_id self) ->
    publish (Channel := Channel) self i m = Ret o -> omap (on_topic (blocks_topic (chain_id self))) o = []) as Hother.
  { intros i m o topic Ht Hne Ep. rewrite (Hpub i m o topic Ht Ep). destruct (prepare_gossip_message m topic); [|done].
    cbn. by rewrite decide_False. }
  destruct cmd as [[addr|txs|b|v|e|p r| |]|]; cbn [handle_command mbind option_bind block_in option_list]; intros E;
    try (by apply Ret_pair_inj in E as [<- _]); apply bind_Ret_inv in E as (o & Ep & E); apply Ret_pair_inj in E as [<- _].
  - by eapply (Hother 0%nat); [reflexivity|discriminate|exact Ep].
  - rewrite (Hpub 1%nat (GossipBlock b) o _ eq_refl Ep). unfold prepare_gossip_message, validate_size. cbn [max_message_size tc_name].
    assert (omap gossiped (option_list (Some b)) = option_list (gossiped b)) as -> by (cbn; by destruct (gossiped b)). unfold gossiped.
    destruct (Z.leb_spec (Z.of_nat (length (enc sc_gossip (GossipBlock b)))) 512000) as [Hl|Hl]; cbn [negb].
    + rewrite (decide_True (P := _ <= _)) by done. cbn. by rewrite decide_True.
    + by rewrite decide_False by lia.
  - by eapply (Hother 2%nat); [reflexivity|discriminate|exact Ep].
  - by eapply (Hother 3%nat); [reflexivity|discriminate|exact Ep].
Qed.

Lemma loop_publishes inputs : forall (self self' : Service) out, Forall live inputs ->
  event_loop (Channel := Channel) self inputs = Ret (self', out) ->
  omap (on_topic (blocks_topic (chain_id self))) out = omap gossiped (omap input_block inputs).
Proof.
  induction inputs as [|i inputs IH]; intros self self' out Hl E; cbn [event_loop] in E; [by apply Ret_pair_inj in E as [_ <-]|].
  apply Forall_cons in Hl as [Hi Hl]. destruct i as [now event|cmd].
  - apply bind_Ret_inv in E as ([self1 out1] & Ee & E). apply bind_Ret_inv in E as ([self2 rest] & Er & E).
    apply Ret_pair_inj in E as [_ <-]. destruct (event_silent (blocks_topic (chain_id self)) _ _ _ _ _ Ee) as [Hs Hc].
    rewrite omap_app, Hs. rewrite <- Hc. by eapply IH.
  - apply bind_Ret_inv in E as ([out1 go] & Ec & E). pose proof (command_publishes _ _ _ _ Ec) as Hp.
    destruct (handle_command_stops (Channel := Channel) self cmd) as [o Eo]. rewrite Ec in Eo. apply Ret_pair_inj in Eo as [-> ->].
    cbn [live] in Hi. rewrite Hi in *. cbn [negb] in E.
    apply bind_Ret_inv in E as ([self2 rest] & Er & E). apply Ret_pair_inj in E as [_ <-].
    rewrite omap_app, Hp, (IH self self2 rest Hl Er). destruct cmd as [c|]; [|done]. cbn.
    destruct (block_in c) as [b|]; cbn; [|done]. by destruct (gossiped b).
Qed.

Lemma steps_app (p p1 p2 : Proc) (tr tr' : list Lab) : steps p tr p1 -> steps p1 tr' p2 -> steps p (tr ++ tr') p2.
Proof.
  intros Hs1 Hs2. induction Hs2 as [p1|p1 tr' p2 l p3 _ IH Hl]; [by rewrite app_nil_r|]. rewrite app_assoc. by eapply steps_snoc; [apply IH|].
Qed.

(** A service without the engine leaves the store alone. *)
Lemma lend_plain (s : Sys) d : storage (sys_service s) = None -> lend s d = s /\ store_left s d = d.
Proof. intros Hs. unfold lend, store_left. by rewrite Hs. Qed.

Lemma steps_plain (s0 s : Sys) (ntr : list NetLab) : Handle.steps s0 ntr s -> storage (sys_service s0) = None ->
  storage (sys_service s) = None.
Proof. intros Hs Hp. induction Hs as [s|s tr s1 l s2 _ IH Hl]; [done|]. rewrite (handle_step_storage _ _ _ Hl). by apply IH. Qed.

Lemma with_shared_same (p : Proc) d (net : option Sys) publishing : d = n_storage (pr_node p) ->
  with_shared p d net publishing = with_net p net publishing.
Proof. intros ->. unfold with_shared. by rewrite with_store_same. Qed.

Lemma plain_call random d (s s' : Sys) call ok : storage (sys_service s) = None -> Handle.step s (Called call ok) s' ->
  net_call random d (Some s) call ok d (Some s').
Proof.
  intros Hp Hl. pose proof (handle_step_storage _ _ _ Hl) as Hp'. rewrite Hp in Hp'.
  rewrite <- (proj2 (lend_plain s' d Hp')) at 2. apply call_live. by rewrite (proj1 (lend_plain s d Hp)).
Qed.

(** The blocks made since the launch, against the commands the handle accepted. *)
Definition handing (n0 : nat) (s0 : Sys) (p : Proc) : Prop :=
  storage (sys_service s0) = None /\ exists s ntr, pr_net p = Some s /\ Handle.steps s0 ntr s /\ (Shutdown ∉ omap accepted_of ntr) /\
  (n0 <= length (n_published (pr_node p)))%nat /\
  drop n0 (n_published (pr_node p)) = omap block_in (omap accepted_of ntr) ++ option_list (pr_publishing p).

Lemma handing_plain n0 (s0 s : Sys) (p : Proc) : handing n0 s0 p -> pr_net p = Some s -> storage (sys_service s) = None.
Proof. intros (Hplain & s1 & ntr & En & Hs & _) E. rewrite En in E. injection E as <-. by eapply steps_plain. Qed.

(** Nobody shuts the service down. *)
Lemma keeps_running (s0 s : Sys) (ntr : list NetLab) : Handle.tracked s0 [] s0 -> Handle.steps s0 ntr s ->
  (Shutdown ∉ omap accepted_of ntr) -> sys_running s = true.
Proof.
  intros H0' Hs Hno. destruct (sys_running s) eqn:Hr; [done|]. exfalso.
  destruct (tk_stopped _ _ _ (steps_tracked _ _ _ H0' Hs) Hr) as (_ & cmds & rest & _ & Ha & _). apply Hno. rewrite Ha. set_solver.
Qed.

Lemma publish_not_refused (s s' : Sys) b : cv_receiver (ch_view (sys_chan s)) = true ->
  ~ Handle.step s (Called (CallPublishBlock b) false) s'.
Proof.
  intros Hr Hs. inversion Hs as [|s1 call e E| | |]; subst. cbn [invoke] in E.
  pose proof (ch_send_view (sys_chan s') (PublishBlock b)) as Hv. unfold publish_block in E.
  rewrite E in Hv. destruct Hv as [_ Hv]. congruence.
Qed.

Lemma slot_made now (n n' : Node D) : slot_tick now n = Ret n' -> n_published n' = n_published n ++ option_list (made n n').
Proof.
  intros E. destruct (slot_tick_inv _ _ _ E) as (height & _ & [(self & sm0 & s & mp0 & pub & _ & _ & Ep)|(_ & _ & Ep)]);
    unfold made; rewrite Ep.
  - rewrite drop_app_length. by destruct pub.
  - by rewrite drop_ge, app_nil_r.
Qed.

(** A call of the handle that is answered. *)
Lemma handing_call n0 (s0 : Sys) (p : Proc) random call ok d net publishing : Handle.tracked s0 [] s0 -> handing n0 s0 p ->
  net_call random (n_storage (pr_node p)) (pr_net p) call ok d net -> command call <> Shutdown ->
  option_list (pr_publishing p) = (if ok then option_list (block_in (command call)) else []) ++ option_list publishing ->
  handing n0 s0 (with_shared p d net publishing).
Proof.
  intros H0' (Hplain & s & ntr & En & Hs & Hno & Hle & Hd) Hc Hns Hp. rewrite (with_shared_same _ _ _ _ (net_call_store _ _ _ _ _ _ _ Hc)).
  rewrite En in Hc. destruct (lend_plain s (n_storage (pr_node p)) (steps_plain _ _ _ Hs Hplain)) as [El _].
  inversion Hc as [s' call' ok' s1 Hl|]; subst. rewrite El in Hl. split; [done|].
  exists s1, (ntr ++ [Called call ok]). cbn [with_net pr_net pr_node pr_publishing]. split; [done|]. split; [by eapply Handle.steps_snoc|].
  rewrite omap_app. cbn [omap list_omap accepted_of]. rewrite Hd, Hp. destruct ok; cbn [omap list_omap].
  - split; [intros [Hin|Hin]%elem_of_app; [done|by apply list_elem_of_singleton in Hin]|]. split; [done|].
    rewrite omap_app, <- app_assoc. cbn. by destruct (block_in (command call)).
  - rewrite app_nil_r. split; [done|]. split; [done|]. done.
Qed.

Lemma step_handing n0 (s0 : Sys) (p p' : Proc) (l : Lab) : Handle.tracked s0 [] s0 -> handing n0 s0 p -> step p l p' -> handing n0 s0 p'.
Proof.
  intros H0' Hh Hs. destruct Hs as [p now n Ep E|p b random ok d net Ep Hc|p now m path body guard a _ E|p m app now peers name params app' r _ _
    |p s l s' En Hl Hs|p call random ok d net Ha Hc|p st ev st' flow E];
    try (destruct Hh as (Hplain & s & ntr & Hh); split; [exact Hplain|]; by exists s, ntr).
  - destruct Hh as (Hplain & s & ntr & En & Hs & Hno & Hle & Hd). split; [done|].
    exists s, ntr. cbn [with_node pr_net pr_node pr_publishing].
    do 3 (split; [done|]). rewrite Ep, app_nil_r in Hd. rewrite (slot_made _ _ _ E), length_app. split; [lia|].
    rewrite drop_app_le, Hd by lia. done.
  - destruct ok; [apply (handing_call n0 s0 p random (CallPublishBlock b) true d net None H0' Hh Hc); [done|by rewrite Ep]|].
    exfalso. destruct Hh as (Hplain & s & ntr & En & Hs & Hno & _). rewrite En in Hc.
    destruct (lend_plain s (n_storage (pr_node p)) (steps_plain _ _ _ Hs Hplain)) as [El _].
    inversion Hc as [s1 call' ok' s2 Hl|]; subst. rewrite El in Hl.
    pose proof (keeps_running s0 s ntr H0' Hs Hno) as Hr.
    destruct (tk_running _ _ _ (steps_tracked _ _ _ H0' Hs) Hr) as (_ & Hrecv & _). by apply (publish_not_refused s s2 b Hrecv).
  - destruct Hh as (Hplain & s1 & ntr & En1 & Hs1 & Hno & Hle & Hd). assert (s1 = s) as -> by congruence. split; [done|].
    rewrite (proj1 (lend_plain s _ (steps_plain _ _ _ Hs1 Hplain))) in Hs.
    exists s', (ntr ++ [l]). cbn [with_shared with_store pr_net pr_node pr_publishing n_published]. split; [done|].
    split; [by eapply Handle.steps_snoc|].
    rewrite omap_app. destruct l as [call ok|now event|cmd]; [done|..]; cbn [omap list_omap accepted_of]; by rewrite app_nil_r.
  - apply (handing_call n0 s0 p random call ok d net (pr_publishing p) H0' Hh Hc).
    + by destruct call.
    + destruct call; try discriminate Ha; by destruct ok.
Qed.

Lemma taken_blocks (ntr : list NetLab) : omap input_block (omap input_of ntr) = omap block_in (omap taken_of ntr).
Proof.
  induction ntr as [|l ntr IH]; [done|]. destruct l as [call ok|now event|[c|]]; cbn; try exact IH.
  cbn in IH. by rewrite IH.
Qed.

Lemma start_silent (self : Service) (s0 : Sys) : start_service self = Ok s0 ->
  chain_id (sys_service s0) = chain_id self /\ forall topic, omap (on_topic topic) (sys_out s0) = [].
Proof.
  unfold start_service. intros E. apply and_then_Ok in E as ([] & _ & E). apply and_then_Ok in E as ([] & _ & E).
  unfold start in E. injection E as <-. split; [done|]. intros topic. cbn.
  assert (forall l : list Multiaddr, omap (on_topic topic) (map DoDial l ++ [DoBootstrap]) = []) as Hd by (induction l; done).
  apply Hd.
Qed.

Lemma start_storage (self : Service) (s0 : Sys) : start_service self = Ok s0 -> storage (sys_service s0) = storage self.
Proof. unfold start_service. by intros ([] & _ & ([] & _ & [= <-])%and_then_Ok)%and_then_Ok. Qed.

(** What the invariant says of the service. *)
Lemma handing_facts n0 (self : Service) (s0 : Sys) (p : Proc) : start_service self = Ok s0 -> handing n0 s0 p ->
  exists s handed, pr_net p = Some s /\ sys_running s = true /\
    (length (cv_queue (ch_view (sys_chan s))) <= 64)%nat /\ (Shutdown ∉ cv_queue (ch_view (sys_chan s))) /\
    cv_receiver (ch_view (sys_chan s)) = true /\ cv_capacity (ch_view (sys_chan s)) = 64%nat /\
    drop n0 (n_published (pr_node p)) = handed ++ omap block_in (cv_queue (ch_view (sys_chan s))) ++ option_list (pr_publishing p) /\
    omap (on_topic (blocks_topic (chain_id self))) (sys_out s) = omap gossiped handed.
Proof.
  intros Es (_ & s & ntr & En & Hs & Hno & Hle & Hd). pose proof (start_service_tracked self s0 Es) as H0'.
  pose proof (steps_tracked _ _ _ H0' Hs) as Ht. pose proof (keeps_running s0 s ntr H0' Hs Hno) as Hr.
  destruct (tk_running _ _ _ Ht Hr) as (Hlive & Hrecv & Hcap & Hlen & Hacc & _). destruct (tk_loop _ _ _ Ht) as (out & El & Eo).
  destruct (start_silent self s0 Es) as [Hc Hsilent].
  exists s, (omap block_in (omap taken_of ntr)). do 3 (split; [done|]). split; [intros Hin; apply Hno; rewrite Hacc; set_solver|].
  do 2 (split; [done|]). split; [by rewrite Hd, Hacc, omap_app, <- app_assoc|].
  rewrite Eo, omap_app, Hsilent, <- Hc, (loop_publishes _ _ _ _ Hlive El), taken_blocks. done.
Qed.

(** Steps of the loop alone. *)
Lemma steps_loop (s s' : Sys) (ntr : list NetLab) : Handle.steps s ntr s' -> Forall (fun l => of_loop l = true) ntr -> forall p : Proc,
  storage (sys_service s) = None -> pr_net p = Some s -> steps p (map Network ntr) (with_net p (Some s') (pr_publishing p)).
Proof.
  induction 1 as [s|s tr s1 l s2 Hs IH Hl]; intros Hf p Hp En.
  - cbn [map]. replace (with_net p (Some s) (pr_publishing p)) with p by (destruct p; cbn in *; by rewrite En). apply steps_nil.
  - apply Forall_app in Hf as [Hf1 Hf2]. rewrite map_app. eapply steps_snoc; [by apply IH|]. cbn [map].
    pose proof (steps_plain _ _ _ Hs Hp) as Hp1. pose proof (handle_step_storage _ _ _ Hl) as Hp2. rewrite Hp1 in Hp2.
    set (p1 := with_net p (Some s1) (pr_publishing p)).
    replace (with_net p (Some s2) (pr_publishing p)) with (with_shared p1 (store_left s2 (n_storage (pr_node p1))) (Some s2) (pr_publishing p1))
      by (by rewrite with_shared_same by apply lend_plain, Hp2).
    apply (step_network p1 s1 l s2); [done| |by rewrite (proj1 (lend_plain s1 _ Hp1))]. by inversion Hf2.
Qed.

Lemma silent_ops (ntr : list NetLab) : omap (op_of (D := D)) (map Network ntr) = [].
Proof. by induction ntr. Qed.

(** The loop empties the channel. *)
Lemma drained n0 (self : Service) (s0 : Sys) (p : Proc) : start_service self = Ok s0 -> handing n0 s0 p ->
  exists ntr s, steps p (map Network ntr) (with_net p (Some s) (pr_publishing p)) /\ cv_queue (ch_view (sys_chan s)) = [].
Proof.
  intros Es Hh. destruct (handing_facts n0 self s0 p Es Hh) as (s & handed & En & Hr & _).
  destruct (drain s Hr) as (s' & Hs & Hq). eexists _, s'. split; [|exact Hq].
  eapply steps_loop; [exact Hs| |exact (handing_plain _ _ _ _ Hh En)|done].
  apply Forall_forall. intros l (c & -> & _)%list_elem_of_fmap. done.
Qed.

Lemma steps_handing n0 (s0 : Sys) (p p' : Proc) tr : Handle.tracked s0 [] s0 -> handing n0 s0 p -> steps p tr p' -> handing n0 s0 p'.
Proof. intros H0' Hh Hs. induction Hs as [|p tr p1 l p2 _ IH Hl]; [done|]. by eapply step_handing; [|apply IH|]. Qed.

(** A dummy handle stays one. *)
Lemma step_dummy (p p' : Proc) (l : Lab) : step p l p' -> pr_net p = None -> pr_net p' = None.
Proof.
  intros Hs En. destruct Hs; cbn [pr_net with_node with_shared with_guard]; try done; try congruence;
    match goal with Hc : net_call _ _ _ _ _ _ _ |- _ => rewrite En in Hc; by inversion Hc end.
Qed.

(** A waiting block can be handed over once the channel is empty. *)
Lemma publish_ready (p : Proc) (s : Sys) b : storage (sys_service s) = None -> pr_net p = Some s -> pr_publishing p = Some b ->
  cv_queue (ch_view (sys_chan s)) = [] -> cv_receiver (ch_view (sys_chan s)) = true -> cv_capacity (ch_view (sys_chan s)) = 64%nat ->
  PeerId -> exists net, step p (Publish b true) (with_net p net None).
Proof.
  intros Hp En Ep Hq Hr Hc random. pose proof (ch_send_view (sys_chan s) (PublishBlock b)) as Hv. rewrite Hq, Hc in Hv. cbn [length] in Hv.
  destruct (ch_send (sys_chan s) (PublishBlock b)) as [[tx|e]|] eqn:E.
  - exists (Some (mkSystem (sys_service s) tx (sys_running s) (sys_out s))).
    rewrite <- (with_shared_same p (n_storage (pr_node p))) by done. apply (step_publish p b random); [done|].
    rewrite En. apply plain_call; [done|]. by apply step_accepted.
  - destruct Hv as [_ Hv]. congruence.
  - lia.
Qed.

(** From any moment the handle and the loop alone can bring every block out. *)
Lemma handing_completes n0 (self : Service) (s0 : Sys) (p : Proc) : start_service self = Ok s0 -> handing n0 s0 p -> PeerId ->
  exists tr p' s', steps p tr p' /\ omap op_of tr = [] /\ pr_node p' = pr_node p /\ pr_publishing p' = None /\
    pr_net p' = Some s' /\ cv_queue (ch_view (sys_chan s')) = [].
Proof.
  intros Es Hh random. pose proof (start_service_tracked self s0 Es) as H0'.
  destruct (drained n0 self s0 p Es Hh) as (ntr & s & Hs & Hq).
  destruct (pr_publishing p) as [b|] eqn:Ep.
  2:{ eexists _, _, s. split; [exact Hs|]. split; [apply silent_ops|done]. }
  set (p1 := with_net p (Some s) (Some b)) in *.
  assert (handing n0 s0 p1) as Hh1 by (by eapply steps_handing).
  destruct (handing_facts n0 self s0 p1 Es Hh1) as (s' & handed & En & _ & _ & _ & Hrecv & Hcap & _).
  injection En as <-. destruct (publish_ready p1 s b (handing_plain _ _ _ _ Hh1 eq_refl) eq_refl eq_refl Hq Hrecv Hcap random) as [net Hp].
  set (p2 := with_net p1 net None) in *.
  assert (handing n0 s0 p2) as Hh2 by (by eapply step_handing).
  destruct (drained n0 self s0 p2 Es Hh2) as (ntr2 & s2 & Hs2 & Hq2).
  eexists _, _, s2. split; [eapply steps_app; [eapply steps_snoc; [exact Hs|exact Hp]|exact Hs2]|].
  split; [by rewrite !omap_app, !silent_ops|done].
Qed.

(** C21: every block a launched node makes goes out, once and in order.  With a P2P
    service that started, the service runs as long as the process: the blocks made
    since the launch are those it has put on the gossip topic of the chain, as far
    as they fit its 512000 bytes, then those waiting in its channel, 64 at most, then
    the one its maker is still handing over; and at any moment handle and loop can
    bring all of them out with the chain standing still.  With a dummy handle every
    block is refused at once and the slots go on. *)
Theorem produced_blocks_published (b : Booted D Multiaddr) (rpc_bound rest_bound : result string unit) (p : Proc) (tr : list Lab)
    (random : PeerId) (Hrun : steps (launch b rpc_bound rest_bound) tr p) :
  let topic := blocks_topic (bt_chain_id b) in
  let produced := drop (length (n_published (bt_node b))) (n_published (pr_node p)) in
  match start_p2p (Channel := Channel) (D := D) (bt_p2p b) (bt_chain_id b) with
  | Some _ => exists s handed waiting, pr_net p = Some s /\ sys_running s = true /\
      produced = handed ++ waiting ++ option_list (pr_publishing p) /\ (length waiting <= 64)%nat /\
      omap (on_topic topic) (sys_out s) = omap gossiped handed /\
      exists tr' p' s', steps p tr' p' /\ omap op_of tr' = [] /\ pr_node p' = pr_node p /\ pr_publishing p' = None /\
        pr_net p' = Some s' /\ omap (on_topic topic) (sys_out s') = omap gossiped produced
  | None => pr_net p = None /\ forall b', pr_publishing p = Some b' -> exists p', step p (Publish b' false) p' /\
      pr_node p' = pr_node p /\ pr_publishing p' = None
  end.
Proof.
  intros topic produced. destruct (start_p2p (bt_p2p b) (bt_chain_id b)) as [s0|] eqn:E0.
  - assert (exists self, chain_id self = bt_chain_id b /\ start_service self = Ok s0 /\ storage (sys_service s0) = None)
      as (self & Hc & Es & Hplain).
    { unfold start_p2p in E0. destruct (bt_p2p b) as [config|]; [|done].
      destruct (build_service config (bt_chain_id b)) as [self|] eqn:Eb; [|done]. exists self.
      unfold build_service in Eb. apply and_then_Ok in Eb as ([] & _ & [= <-]). split; [done|].
      destruct (start_service _) as [s|] eqn:Es; [|done]. injection E0 as <-. split; [done|]. by rewrite (start_storage _ _ Es). }
    set (n0 := length (n_published (bt_node b))) in *. pose proof (start_service_tracked self s0 Es) as H0'.
    assert (handing n0 s0 (launch b rpc_bound rest_bound : Proc)) as Hl.
    { split; [exact Hplain|]. exists s0, []. cbn [launch pr_net pr_node pr_publishing]. split; [done|]. split; [constructor|]. split; [by apply not_elem_of_nil|].
      split; [done|]. unfold n0. by rewrite drop_all. }
    assert (handing n0 s0 p) as Hh by (by eapply steps_handing).
    destruct (handing_facts n0 self s0 p Es Hh) as (s & handed & En & Hr & Hlen & _ & _ & _ & Hd & Ho).
    unfold topic. rewrite <- Hc. exists s, handed, (omap block_in (cv_queue (ch_view (sys_chan s)))).
    do 3 (split; [done|]). split; [etrans; [apply omap_length_le|done]|]. split; [done|].
    destruct (handing_completes n0 self s0 p Es Hh random) as (tr' & p' & s' & Hs & Hops & Hn & Hp & En' & Hq).
    exists tr', p', s'. do 5 (split; [done|]). assert (handing n0 s0 p') as Hh' by (by eapply steps_handing).
    destruct (handing_facts n0 self s0 p' Es Hh') as (s'' & handed' & En'' & _ & _ & _ & _ & _ & Hd' & Ho').
    assert (s'' = s') as -> by congruence. rewrite Hq, Hp, Hn, app_nil_r in Hd'. unfold produced. by rewrite Hd'.
  - assert (pr_net p = None) as En.
    { assert (pr_net (launch b rpc_bound rest_bound : Proc) = None) as El by done. revert El. clear E0. induction Hrun; [done|].
      intros El. specialize (IHHrun El). by eapply step_dummy. }
    split; [done|]. intros b' Ep. destruct (dummy_refuses random (CallPublishBlock b')) as (e & Ee & _).
    exists (with_net p None None). split; [|done]. rewrite <- (with_shared_same p (n_storage (pr_node p))) by done.
    apply (step_publish p b' random); [done|]. rewrite En. by eapply call_dummy.
Qed.
End Publication.

(** ** Instances *)

Import ToyInstances MemStorage ToyHttp.
#[local] Existing Instance toy_text.
#[local] Existing Instance toy_serde.
#[local] Existing Instance toy_keyfile_text.
#[local] Existing Instance toy_gossip.
#[local] Existing Instance list_mpsc.
#[local] Existing Instance list_mpsc_ok.
#[local] Existing Instance toy_libp2p.
#[local] Existing Instance map_module.
#[local] Existing Instance map_module_ok.
#[local] Existing Instance toy_params.

Abbreviation ProcEx := (Process (PeerId := Z) (Multiaddr := unit) (Channel := Z) (D := RedbEngine)).
Abbreviation SysEx := (System (PeerId := Z) (Multiaddr := unit) (Channel := Z) (D := RedbEngine)).

Definition proc_ex : ProcEx := launch booted_ex (Ok tt) (Ok tt).

(** Its first slot makes a block. *)
Definition slotted_ex : Node RedbEngine := ret_or (slot_tick 50 (bt_node booted_ex)) node_ex.

Lemma slot_ex : slot_tick 50 (bt_node booted_ex) = Ret slotted_ex.
Proof. apply ret_or_ok. vm_compute. reflexivity. Qed.

Definition made_ex : Block := default (genesis_block 7) (made (bt_node booted_ex) slotted_ex).

Lemma made_ex_made : made (bt_node booted_ex) slotted_ex = Some made_ex.
Proof.
  unfold made_ex. assert (match made (bt_node booted_ex) slotted_ex with Some _ => true | None => false end = true) as E by (vm_compute; reflexivity).
  by destruct (made (bt_node booted_ex) slotted_ex).
Qed.

(** Its service listens and subscribes. *)
Definition net_ex : SysEx :=
  let service := P2pService_new (default P2pConfig_default (bt_p2p booted_ex)) (bt_chain_id booted_ex) in
  mkSystem (P2p.start (Channel := Z) service).1 (mpsc_channel 64) true (P2p.start (Channel := Z) service).2.

Lemma net_ex_started : start_p2p (bt_p2p booted_ex) (bt_chain_id booted_ex) = Some net_ex.
Proof.
  unfold start_p2p, net_ex. assert (exists c, bt_p2p booted_ex = Some c) as [c ->] by (vm_compute; by eexists).
  unfold build_service, start_service. cbn [lp_build lp_listen_on toy_libp2p and_then]. by rewrite subscribe_all_toy.
Qed.

Definition proc1_ex : ProcEx := with_node proc_ex slotted_ex (Some made_ex).
Definition proc2_ex : ProcEx :=
  with_net proc1_ex (Some (mkSystem (sys_service net_ex) (mkChanView [PublishBlock made_ex] 64 true) true (sys_out net_ex))) None.

Lemma steps_proc_ex : steps proc_ex [Slot 50; Publish made_ex true] proc2_ex.
Proof.
  apply (steps_snoc proc_ex [Slot 50] proc1_ex); [apply (steps_snoc proc_ex [] proc_ex); [apply steps_nil|]|].
  - unfold proc1_ex. rewrite <- made_ex_made. apply step_slot; [reflexivity|exact slot_ex].
  - unfold proc2_ex. rewrite <- (with_shared_same proc1_ex (n_storage (pr_node proc1_ex))) by reflexivity.
    apply (step_publish proc1_ex made_ex 0); [reflexivity|].
    assert (pr_net proc1_ex = Some net_ex) as -> by exact net_ex_started.
    apply plain_call; [reflexivity|]. apply step_accepted. reflexivity.
Qed.

Lemma process_isolated_witness : run_ops (bt_height booted_ex) (bt_node booted_ex) [Event (Tick 50)] = Ret slotted_ex /\
  forall k, st_view (n_storage slotted_ex) ACCOUNTS !! k = st_view (n_storage (bt_node booted_ex)) ACCOUNTS !! k.
Proof.
  destruct (process_isolated booted_ex (Ok tt) (Ok tt) None proc2_ex [Slot 50; Publish made_ex true] steps_proc_ex) as (Hn & _ & Ht & _).
  split; [exact Hn|]. intros k. by apply Ht.
Defined.

Lemma produced_blocks_published_witness : exists s handed waiting, pr_net proc2_ex = Some s /\ handed ++ waiting = [made_ex] /\
  exists tr p' s', steps proc2_ex tr p' /\ pr_net p' = Some s' /\
    omap (on_topic (blocks_topic (bt_chain_id booted_ex))) (sys_out s') = omap gossiped [made_ex].
Proof.
  pose proof (produced_blocks_published booted_ex (Ok tt) (Ok tt) proc2_ex [Slot 50; Publish made_ex true] 0 steps_proc_ex) as Hp.
  cbv zeta in Hp. rewrite net_ex_started in Hp. destruct Hp as (s & handed & waiting & En & _ & Hd & _ & _ & tr & p' & s' & Hs & _ & _ & _ & En' & Ho).
  assert (drop (length (n_published (bt_node booted_ex))) (n_published (pr_node proc2_ex)) = [made_ex]) as Hm.
  { change (pr_node proc2_ex) with slotted_ex. rewrite (slot_made _ _ _ slot_ex), drop_app_length, made_ex_made. reflexivity. }
  rewrite Hm in Hd, Ho. exists s, handed, waiting. split; [exact En|]. split; [by rewrite app_nil_r in Hd|].
  exists tr, p', s'. split; [exact Hs|]. split; [exact En'|exact Ho].
Defined.
