(* ===== verification/Cli.v ===== *)
(** * The command line ([mononium-cli/src/main.rs])

    The commands, what each asks of a node over HTTP and prints, and the log
    formatter.  clap fills the command values; HTTP is a pair of functions from
    requests to answers, which the theorems tie to a node that serves [Router]. *)
From Stdlib Require Import Strings.Byte Strings.String.
From stdpp Require Import base gmap sets list strings countable sorting.
From Stdlib Require Import ZArith Lia.
From S2P Require Import Prelude Types External Toy Trie Account State Ledger Refine Scenario Mempool Storage Genesis Finality Schedule Slashing Engine Config Rest Router Wallet.

(** ** Commands *)

Definition DEFAULT_NODE : bytes := list_byte_of_string "http://localhost:9933".

Inductive WalletAction :=
| KeygenCmd (name : string)
| BalanceCmd (address node : bytes)
| TransferCmd (to amount : bytes) (key : string) (node : bytes)
| RegisterCmd (key : string) (node : bytes)
| StakeCmd (validator amount : bytes) (key : string) (node : bytes)
| RegisterAndStakeCmd (amount : bytes) (key : string) (node : bytes)
| UnstakeCmd (validator amount : bytes) (key : string) (node : bytes).

Inductive QueryAction :=
| QueryBlock (height : Z) (node : bytes)
| QueryLatest (node : bytes)
| QueryNonce (address node : bytes)
| QueryValidator (address node : bytes).

Inductive Command :=
| NodeCmd (args : NodeArgs)
| WalletCmd (action : WalletAction)
| QueryCmd (action : QueryAction)
| LogfmtCmd.

(** ** Requests *)

Definition slash : byte := x2f.

(** [s.trim_end_matches('/')] *)
Fixpoint trim_start_byte (b : byte) (s : bytes) : bytes :=
  match s with
  | x :: s' => if decide (x = b) then trim_start_byte b s' else s
  | [] => []
  end.
Definition trim_end_slash (s : bytes) : bytes := reverse (trim_start_byte slash (reverse s)).

(** [format!("{base_url}/a/b")] *)
Definition url (node : bytes) (path : list bytes) : bytes := trim_end_slash node ++ concat (map (cons slash) path).

Definition seg (s : string) : bytes := list_byte_of_string s.

(** The answer to a GET; [None] when the request fails. *)
Abbreviation HttpGet := (bytes -> option Answer).

(** One line of output. *)
Abbreviation Lines := (list bytes).

(** [serde_json::to_value] of a transaction. *)
Class TxValue := { tx_to_value : Transaction -> option Json }.

Section Commands.
Context `{BuildProfile} `{Blake3} `{Hex} `{KeyFileText} `{SignatureScheme} `{Scale} `{GenesisText} `{JsonText} `{TxValue}.

(** A GET whose answer must be a success with a JSON body. *)
Definition fetch (get : HttpGet) (u : bytes) : result AnyError Json :=
  match get u with
  | None => Err (Anyhow "failed to query")
  | Some resp =>
      if negb (is_success resp) then Err (Anyhow "RPC error")
      else ok_or (json_from_str (an_body resp)) (Anyhow "failed to parse response")
  end.

Definition str_or (dflt : string) (j : Json) : bytes := default (list_byte_of_string dflt) (as_str j).

Definition line (parts : list bytes) : bytes := concat parts.

Definition run_query (get : HttpGet) (action : QueryAction) : result AnyError Lines :=
  match action with
  | QueryNonce address node =>
      data <-! fetch get (url node [seg "nonce"; address]);
      Ok [line [seg "Nonce: "; json_to_string (json_get data "nonce")]]
  | QueryValidator address node =>
      data <-! fetch get (url node [seg "validator"; address]);
      Ok [line [seg "Validator: "; address];
          line [seg "  Exists: "; json_to_string (json_get data "exists")];
          line [seg "  Status: "; str_or "?" (json_get data "status")];
          line [seg "  Stake:  "; str_or "0" (json_get data "stake")]]
  | QueryBlock height node =>
      json <-! fetch get (url node [seg "block"; u64_to_string height]);
      Ok [json_to_string_pretty json]
  | QueryLatest node =>
      json <-! fetch get (url node [seg "block"; seg "latest"]);
      Ok [json_to_string_pretty json]
  end.

(** ** The wallet *)

Definition balance (get : HttpGet) (address node : bytes) : result AnyError Lines :=
  data <-! fetch get (url node [seg "balance"; address]);
  Ok [line [seg "Address: "; address];
      line [seg "Balance: "; str_or "0" (json_get data "balance"); seg " MOXX"];
      line [seg "Nonce:   "; u64_to_string (default 0 (as_u64 (json_get data "nonce")))]].

(** The nonce query of the commands that post: the status is not looked at. *)
Definition nonce_query (get : HttpGet) (node : bytes) (address : bytes) : option (Response BalanceResponse) :=
  resp ← get (url node [seg "balance"; address]);
  data ← json_from_str (an_body resp);
  Some (Ok (mkBalance address (str_or "0" (json_get data "balance")) (default 0 (as_u64 (json_get data "nonce"))))).

(** The shared end of the posting commands. *)
Definition submit (post : bytes -> bytes -> option Answer) (node : bytes) (signed_tx : Transaction) : result AnyError Lines :=
  tx_json <-! ok_or (tx_to_value signed_tx) (Anyhow "failed to serialize transaction");
  match post (url node [seg "tx"]) (json_to_string tx_json) with
  | None => Err (Anyhow "failed to submit tx")
  | Some resp =>
      if is_success resp then
        data <-! ok_or (json_from_str (an_body resp)) (Anyhow "failed to parse response");
        Ok [seg "Transaction submitted!"; line [seg "  Tx hash: "; str_or "unknown" (json_get data "tx_hash")]]
      else Err (Anyhow "submit error")
  end.

(** What the commands run against: the directories and files of the machine, the
    random seed of [keygen], and HTTP. *)
Record World := mkWorld {
  w_env : Env;
  w_files : Files;
  w_seed : bytes;
  w_get : HttpGet;
  w_post : bytes -> bytes -> option Answer
}.

Definition posted (w : World) (node : bytes) (run : outcome (result AnyError Transaction)) : outcome (Files * result AnyError Lines) :=
  r ← run;
  Ret (w_files w, tx <-! r; submit (w_post w) node tx).

Definition run_wallet (w : World) (action : WalletAction) : outcome (Files * result AnyError Lines) :=
  let get := w_get w in
  match action with
  | KeygenCmd name =>
      '(files, r) ← keygen (w_env w) (w_files w) (w_seed w) name;
      Ret (files, key_file <-! r;
                  Ok [line [seg "Generated key pair: "; seg name]; line [seg "  Address: "; kf_address key_file];
                      line [seg "  Saved to: "; seg (key_path (w_env w) name)]])
  | BalanceCmd address node => Ret (w_files w, balance get address node)
  | TransferCmd to amount key node => posted w node (transfer (w_env w) (w_files w) (nonce_query get node) to amount key)
  | RegisterCmd key node => posted w node (register_validator (w_env w) (w_files w) (nonce_query get node) key)
  | StakeCmd validator amount key node => posted w node (stake (w_env w) (w_files w) (nonce_query get node) validator amount key)
  | RegisterAndStakeCmd amount key node =>
      posted w node (register_and_stake (w_env w) (w_files w) (nonce_query get node) amount key)
  | UnstakeCmd validator amount key node =>
      posted w node (unstake (w_env w) (w_files w) (nonce_query get node) validator amount key)
  end.

(** ** The log formatter *)

(** The characters of a text: its bytes that start one. *)
Definition char_count (s : bytes) : nat := length (filter (fun b => is_continuation b = false) s).

(** [{level:>5}] *)
Definition pad_left (width : nat) (s : bytes) : bytes := List.repeat x20 (width - char_count s) ++ s.

Definition logfmt_line (l : bytes) : bytes :=
  match json_from_str l with
  | Some json =>
      let level := str_or "?" (json_get json "level") in
      let msg := default l (as_str (json_get json "msg")) in
      let target := str_or "" (json_get json "target") in
      let ts := str_or "" (json_get json "timestamp") in
      line [ts; seg " ["; pad_left 5 level; seg "] "; target; seg ": "; msg]
  | None => l
  end.

(** The lines of standard input, [None] where reading fails; what was printed, and
    the result. *)
Fixpoint run_logfmt (stdin : list (option bytes)) : Lines * result AnyError unit :=
  match stdin with
  | [] => ([], Ok tt)
  | None :: _ => ([], Err (Anyhow "stream did not contain valid UTF-8"))
  | Some l :: stdin => let '(out, r) := run_logfmt stdin in (logfmt_line l :: out, r)
  end.

(** ** [main]: the node runs until it stops *)

Definition main (w : World) (run_node : NodeArgs -> outcome (result AnyError unit)) (stdin : list (option bytes)) (cmd : Command) :
    outcome (Files * Lines * result AnyError unit) :=
  match cmd with
  | NodeCmd args => r ← run_node args; Ret (w_files w, [], r)
  | WalletCmd action =>
      '(files, r) ← run_wallet w action;
      Ret (match r with Ok out => (files, out, Ok tt) | Err e => (files, [], Err e) end)
  | QueryCmd action =>
      Ret (match run_query (w_get w) action with Ok out => (w_files w, out, Ok tt) | Err e => (w_files w, [], Err e) end)
  | LogfmtCmd => let '(out, r) := run_logfmt stdin in Ret (w_files w, out, r)
  end.
End Commands.

(** ** A node behind the URL *)

(** Segments a URL carries unchanged: letters and digits. *)
Definition plain_byte (b : byte) : bool :=
  let z := byte_to_Z b in
  ((48 <=? z) && (z <=? 57)) || ((65 <=? z) && (z <=? 90)) || ((97 <=? z) && (z <=? 122)).
Definition plain (s : bytes) : Prop := s <> [] /\ Forall (fun b => plain_byte b = true) s.

#[export] Instance plain_dec s : Decision (plain s).
Proof. unfold plain. apply _. Defined.

Lemma digit_plain d : 0 <= d < 10 -> plain_byte (digit d) = true.
Proof.
  intros Hd. assert (d = 0 \/ d = 1 \/ d = 2 \/ d = 3 \/ d = 4 \/ d = 5 \/ d = 6 \/ d = 7 \/ d = 8 \/ d = 9) as Hc by lia.
  repeat destruct Hc as [->|Hc]; (reflexivity || subst d; reflexivity).
Qed.

Lemma dec_digits_plain n : forall z rest, 0 <= z -> Forall (fun b => plain_byte b = true) rest ->
  Forall (fun b => plain_byte b = true) (dec_digits n z rest).
Proof.
  induction n as [|n IH]; intros z rest Hz Hr; [done|]. cbn [dec_digits]. destruct (Z.ltb_spec z 10).
  - constructor; [apply digit_plain; lia|done].
  - apply IH; [apply Z.div_pos; lia|]. constructor; [apply digit_plain, Z.mod_pos_bound; lia|done].
Qed.

Lemma u64_to_string_plain z : is_u64 z -> plain (u64_to_string z).
Proof.
  intros [Hz _]. unfold u64_to_string. split; [|apply dec_digits_plain; [done|constructor]].
  destruct (dec_digits_digit 20 z [] Hz ltac:(lia)) as (d & s & _ & ->). done.
Qed.

Lemma u64_not_latest h : is_u64 h -> u64_to_string h <> list_byte_of_string "latest".
Proof. intros Hh E. pose proof (u64_roundtrip h Hh) as Hr. rewrite E in Hr. discriminate Hr. Qed.

Section Queries.
Context `{BuildProfile} `{Blake3} `{Scale} `{!ScaleOk} `{Hex} `{!HexOk} `{Serde} `{JsonTextOk} `{RejectionsOk} `{TxText}.
Context {D : Type} `{StorageOk D} `{!StorageReliable D} `{!Axum Endpoint} `{!AxumOk Endpoint}.

(** The node behind [node] answers GET requests as [serve] does at that moment; a
    handler that panics drops the connection. *)
Definition answers (guard : AppState D) (now : Z) (node : bytes) (get : HttpGet) : Prop :=
  forall path, path <> [] -> Forall plain path ->
    get (url node path) = match serve guard now GET path [] with Ret (_, a) => Some a | Panic => None end.

Lemma fetch_answer get u guard now node path {A} (body : A -> Json) (r : Response A) : answers guard now node get ->
  u = url node path -> path <> [] -> Forall plain path ->
  serve guard now GET path [] = Ret (guard, answer body r) ->
  (forall a, r = Ok a -> json_ok (body a) = true) ->
  (forall e, r = Err e -> 400 <= er_code e) ->
  fetch get u = match r with Ok a => Ok (json_normal (body a)) | Err _ => Err (Anyhow "RPC error") end.
Proof.
  intros Hans -> Hne Hpl Hs Hok Herr. unfold fetch. rewrite (Hans path Hne Hpl), Hs. destruct r as [a|e]; cbn [answer].
  - cbn. by rewrite (json_roundtrip _ (Hok a eq_refl)).
  - specialize (Herr e eq_refl). unfold is_success, error_answer. cbn [an_status].
    by rewrite (proj2 (Z.ltb_ge (er_code e) 300)), andb_false_r by lia.
Qed.

(** The members of a body that was printed and read back. *)
Lemma member fields k : bool_decide (NoDup (map fst fields)) = true ->
  json_get (json_normal (JObject fields)) k = json_normal (json_get (JObject fields) k).
Proof. intros Hn. apply json_normal_get. by apply bool_decide_eq_true in Hn. Qed.

Lemma path_refused (guard : AppState D) address e : parse_raw_address address = Err e ->
  balance_handler guard address = Ret (Err (err_response 400 "invalid address")) /\
  nonce_handler guard address = Ret (Err (err_response 400 "invalid address")) /\
  validator_handler guard address = Err (err_response 400 "invalid address").
Proof. intros E. unfold balance_handler, nonce_handler, validator_handler, path_address. by rewrite E. Qed.

(** A query by address. *)
Lemma fetch_named get guard now node name e address {A} (body : A -> Json) (r : Response A) : answers guard now node get ->
  (GET, [Lit name; Capture], e) ∈ build_router -> name <> "block"%string -> plain (seg name) -> plain address ->
  endpoint guard now e [address] [] = Ret (guard, answer body r) ->
  (forall a, r = Ok a -> json_ok (body a) = true) -> (forall e, r = Err e -> 400 <= er_code e) ->
  fetch get (url node [seg name; address]) = match r with Ok a => Ok (json_normal (body a)) | Err _ => Err (Anyhow "RPC error") end.
Proof.
  intros Hans Hin Hne Hpn Hpa He Hok Herr.
  apply (fetch_answer get _ guard now node [seg name; address] body r); [done|done|done|by apply Forall_cons, conj, Forall_singleton| |done|done].
  by rewrite (serve_named guard now name e address []).
Qed.

(** A query of a block: of a height, or of the latest. *)
Lemma fetch_block get guard now node s (r : Response Json) : answers guard now node get -> plain s ->
  serve guard now GET [seg "block"; s] [] = Ret (guard, answer id r) ->
  (forall j, r = Ok j -> json_ok j = true) -> (forall e, r = Err e -> 400 <= er_code e) ->
  fetch get (url node [seg "block"; s]) = match r with Ok j => Ok (json_normal j) | Err _ => Err (Anyhow "RPC error") end.
Proof.
  intros Hans Hs He Hok Herr.
  apply (fetch_answer get _ guard now node [seg "block"; s] id r); [done|done|done| |done|done|done].
  apply Forall_cons, conj, Forall_singleton; [|done]. apply (bool_decide_unpack _). vm_compute. reflexivity.
Qed.

(** The document of the block stored at a height. *)
Definition block_json (d : D) (h : Z) : option Json := b ← stored_block d h; block_to_value b.

Lemma load_block_view (d : D) h :
  match load_block_json d h with Ok j => block_json d h = Some j | Err _ => block_json d h = None end.
Proof.
  unfold block_json. destruct (load_block_json d h) as [j|] eqn:E.
  - apply load_block_json_ok in E as (b & -> & Hj). done.
  - destruct (stored_block d h) as [b|] eqn:Eb; [|done]. cbn [mbind option_bind].
    destruct (block_to_value b) as [j|] eqn:Ej; [|done].
    assert (load_block_json d h = Ok j) by (apply load_block_json_ok; eauto). congruence.
Qed.

Definition blocks_print : Prop := forall b j, block_to_value b = Some j -> json_ok j = true.

Lemma block_json_ok (d : D) h j : blocks_print -> block_json d h = Some j -> json_ok j = true.
Proof. unfold block_json. intros Hp (b & _ & Hj)%bind_Some. by apply (Hp b). Qed.

(** A block query that is answered from the table. *)
Lemma fetch_stored get guard now node s h code msg : blocks_print -> answers guard now node get -> plain s -> 400 <= code ->
  serve guard now GET [seg "block"; s] [] =
    Ret (guard, answer id (map_err (fun _ => err_response code msg) (load_block_json (app_engine guard) h))) ->
  fetch get (url node [seg "block"; s]) =
    match block_json (app_engine guard) h with Some j => Ok (json_normal j) | None => Err (Anyhow "RPC error") end.
Proof.
  intros Hp Hans Hs Hc He. pose proof (load_block_view (app_engine guard) h) as Hv.
  rewrite (fetch_block _ guard now node s _ Hans Hs He); destruct (load_block_json (app_engine guard) h) as [j|e]; cbn [map_err].
  - by rewrite Hv.
  - by rewrite Hv.
  - intros j' [= <-]. by apply (block_json_ok (app_engine guard) h).
  - done.
  - done.
  - by intros e' [= <-].
Qed.

Lemma fetch_height get guard now node h : blocks_print -> answers guard now node get -> is_u64 h ->
  fetch get (url node [seg "block"; u64_to_string h]) =
    match block_json (app_engine guard) h with Some j => Ok (json_normal j) | None => Err (Anyhow "RPC error") end.
Proof.
  intros Hp Hans Hh. apply (fetch_stored get guard now node _ h 404 "block not found"); [done|done|by apply u64_to_string_plain|lia|].
  unfold seg. rewrite serve_block by (by apply u64_not_latest). cbn [endpoint]. by rewrite u64_roundtrip.
Qed.

Lemma fetch_latest get guard now node h : blocks_print -> answers guard now node get ->
  load_latest_height (app_engine guard) = Ret (Ok h) ->
  fetch get (url node [seg "block"; seg "latest"]) =
    if h =? 0 then Err (Anyhow "RPC error") else
    match block_json (app_engine guard) h with Some j => Ok (json_normal j) | None => Err (Anyhow "RPC error") end.
Proof.
  intros Hp Hans Eh.
  assert (plain (seg "latest")) as Hs by (apply (bool_decide_unpack _); vm_compute; reflexivity).
  assert (serve guard now GET [seg "block"; seg "latest"] [] = endpoint guard now BlockLatestEp [] []) as E
    by (apply (serve_literal guard now GET BlockLatestEp [] ["block"%string; "latest"%string]); unfold build_router; set_solver).
  cbn [endpoint] in E. unfold block_latest_handler, known_height in E. rewrite Eh in E. cbn [mbind outcome_bind] in E.
  destruct (h =? 0).
  - by rewrite (fetch_block _ guard now node _ (Err (err_response 404 "no blocks yet")) Hans Hs E) by (done || by intros e [= <-]).
  - by apply (fetch_stored get guard now node _ h 500 "load error").
Qed.

(** What the commands print for an account and for a validator. *)
Definition nonce_lines (o : option Account) : Lines := [line [seg "Nonce: "; json_to_string (JNumber (from_option nonce 0 o))]].
Definition balance_lines (address : bytes) (o : option Account) : Lines :=
  [line [seg "Address: "; address];
   line [seg "Balance: "; from_option (fun a => u256_dec (Types.balance a)) (seg "0") o; seg " MOXX"];
   line [seg "Nonce:   "; u64_to_string (from_option nonce 0 o)]].
Definition validator_lines (address : bytes) (o : option ValidatorEntry) : Lines :=
  [line [seg "Validator: "; address];
   line [seg "  Exists: "; json_to_string (JBool (bool_decide (is_Some o)))];
   line [seg "  Status: "; from_option (fun v => status_debug (ve_status v)) (seg "unknown") o];
   line [seg "  Stake:  "; from_option (fun v => u256_dec (ve_stake v)) (seg "0") o]].


(** One answer of [fetch_named]; its proof obligations on the table are closed. *)
Ltac ask name e body r :=
  match goal with Hans : answers ?guard ?now _ _ |- _ => rewrite (fetch_named _ guard now _ name e _ body r) end;
    [|eassumption|unfold build_router; set_solver|done|apply (bool_decide_unpack _); vm_compute; reflexivity|eassumption|
     |try done|try (by intros ? [= <-])].

(** Reading the members of a printed body. *)
Ltac read_members :=
  rewrite !member by reflexivity; cbn;
  repeat (first [rewrite decide_True by done | rewrite decide_False by done]; cbn);
  rewrite ?json_normal_number, ?json_normal_bool, ?json_normal_string; cbn.

Lemma query_account get guard now node address r o : answers guard now node get -> plain address ->
  parse_raw_address address = Ok r -> get_account (app_state guard) (address_from r) = Ret o -> is_u64 (from_option nonce 0 o) ->
  run_query get (QueryNonce address node) = Ok (nonce_lines o) /\ balance get address node = Ok (balance_lines address o).
Proof.
  intros Hans Hp Hr Ho [Hn0 Hn]. cbn [run_query]. unfold balance.
  assert ((0 <=? from_option nonce 0 o) && (from_option nonce 0 o <? W64) = true) as Hnum
    by (apply andb_true_iff; split; [by apply Z.leb_le|by apply Z.ltb_lt]).
  ask "nonce"%string NonceEp nonce_body (@Ok ErrorResponse _ (from_option nonce 0 o)).
  2:{ cbn [endpoint]. unfold nonce_handler, path_address. rewrite Hr. cbn [map_err and_then]. by rewrite Ho. }
  2:{ intros a [= <-]. cbn [nonce_body json_ok forallb snd]. by rewrite Hnum. }
  ask "balance"%string BalanceEp balance_body (@Ok ErrorResponse _ (mkBalance address (from_option (fun a => u256_dec (Types.balance a)) (seg "0") o) (from_option nonce 0 o))).
  2:{ cbn [endpoint]. unfold balance_handler, path_address. rewrite Hr. cbn [map_err and_then]. rewrite Ho. by destruct o. }
  2:{ intros a [= <-]. cbn [balance_body json_ok forallb snd br_nonce]. by rewrite Hnum. }
  cbn [and_then]. unfold nonce_body, balance_body. by read_members.
Qed.

Lemma query_validator get guard now node address r : answers guard now node get -> plain address -> parse_raw_address address = Ok r ->
  run_query get (QueryValidator address node) = Ok (validator_lines address (get_validator (app_state guard) (address_from r))).
Proof.
  intros Hans Hp Hr. cbn [run_query].
  ask "validator"%string ValidatorEp validator_body (validator_handler guard address).
  2:{ done. }
  2:{ unfold validator_handler, path_address. by rewrite Hr. }
  unfold validator_handler, path_address. rewrite Hr. cbn [map_err and_then].
  destruct (get_validator _ _) as [v|]; unfold validator_body; by read_members.
Qed.

Lemma query_refused get guard now node address e : answers guard now node get -> plain address -> parse_raw_address address = Err e ->
  run_query get (QueryNonce address node) = Err (Anyhow "RPC error") /\
  run_query get (QueryValidator address node) = Err (Anyhow "RPC error") /\ balance get address node = Err (Anyhow "RPC error").
Proof.
  intros Hans Hp Hr. destruct (path_refused guard address e Hr) as (Hb & Hn & Hv). cbn [run_query]. unfold balance.
  ask "nonce"%string NonceEp nonce_body (@Err ErrorResponse Z (err_response 400 "invalid address")).
  2:{ cbn [endpoint]. by rewrite Hn. }
  ask "validator"%string ValidatorEp validator_body (@Err ErrorResponse ValidatorResponse (err_response 400 "invalid address")).
  2:{ cbn [endpoint]. by rewrite Hv. }
  ask "balance"%string BalanceEp balance_body (@Err ErrorResponse BalanceResponse (err_response 400 "invalid address")).
  2:{ cbn [endpoint]. by rewrite Hb. }
  done.
Qed.

(** C38: the query commands print what the node has.  [query block] prints the block
    stored at the height, [query latest] the one at the greatest height, unless that
    is genesis; [query nonce], [query validator] and [balance] print the account or
    validator of the address, and defaults for an address without one; whatever the
    node refuses is an error and prints nothing. *)
Theorem query_answers (guard : AppState D) (now : Z) (node : bytes) (get : HttpGet)
    (Hans : answers guard now node get) (Hprint : blocks_print) :
  (forall h, is_u64 h -> run_query get (QueryBlock h node) =
     match block_json (app_engine guard) h with
     | Some j => Ok [json_to_string_pretty (json_normal j)]
     | None => Err (Anyhow "RPC error")
     end) /\
  (forall hs, indexed_by (app_engine guard) hs -> exists h, (h ∈ hs \/ hs = ∅ /\ h = 0) /\ (forall h', h' ∈ hs -> h' <= h) /\
     run_query get (QueryLatest node) = if h =? 0 then Err (Anyhow "RPC error") else run_query get (QueryBlock h node)) /\
  (forall address r o, plain address -> parse_raw_address address = Ok r -> get_account (app_state guard) (address_from r) = Ret o ->
     is_u64 (from_option nonce 0 o) ->
     run_query get (QueryNonce address node) = Ok (nonce_lines o) /\ balance get address node = Ok (balance_lines address o)) /\
  (forall address r, plain address -> parse_raw_address address = Ok r ->
     run_query get (QueryValidator address node) = Ok (validator_lines address (get_validator (app_state guard) (address_from r)))) /\
  (forall address e, plain address -> parse_raw_address address = Err e ->
     run_query get (QueryNonce address node) = Err (Anyhow "RPC error") /\
     run_query get (QueryValidator address node) = Err (Anyhow "RPC error") /\ balance get address node = Err (Anyhow "RPC error")).
Proof.
  split; [|split; [|split; [|split; [intros; by eapply query_validator|intros; by eapply query_refused]]]].
  - intros h Hh. cbn [run_query]. rewrite (fetch_height get guard now) by done. by destruct (block_json _ h).
  - intros hs Hidx. destruct (latest_height_max (app_engine guard) hs Hidx) as (h & Eh & Hmax & Hin). exists h.
    split; [done|]. split; [done|]. cbn [run_query]. rewrite (fetch_latest get guard now node h) by done.
    assert (is_u64 h) as Hh by (destruct Hin as [Hin|[_ ->]]; [by apply Hidx|done]).
    rewrite (fetch_height get guard now) by done. by destruct (h =? 0).
  - intros. by eapply query_account.
Qed.
End Queries.

(** ** The address that is printed *)

Section PrintedAddress.
Context `{BuildProfile} `{Blake3} `{Hex} `{!HexOk} `{KeyFileTextOk} `{SignatureOk} `{Scale} `{GenesisText} `{JsonText} `{TxValue}.

(** 40 bytes of hexadecimal. *)
Lemma printed_not_32 a bs : hex_decode (strip_0x (format_address a)) = Some bs -> array_of_list 32 bs = None.
Proof.
  rewrite format_address_eq, strip_0x_app. intros E%hex_decode_length.
  rewrite length_app, !hex_encode_length, checksum_length, array_length in E.
  destruct (array_of_list 32 bs) as [x|] eqn:Ex; [|done]. apply array_of_list_Some in Ex.
  pose proof (array_length x) as Hl. rewrite Ex in Hl. lia.
Qed.

Lemma printed_refused a : exists e, parse_raw_address (format_address a) = Err e.
Proof.
  unfold parse_raw_address. destruct (hex_decode _) as [bs|] eqn:E; [|by eexists].
  rewrite (printed_not_32 a bs E). by eexists.
Qed.

Lemma printed_validator a amount : exists e, validator_and_amount (format_address a) amount = Err e.
Proof.
  unfold validator_and_amount. destruct (hex_decode _) as [bs|] eqn:E; [|by eexists]. cbn [ok_or and_then].
  rewrite (printed_not_32 a bs E). by eexists.
Qed.

Lemma printed_recipient env files node a amount key : exists e, transfer env files node (format_address a) amount key = Ret (Err e).
Proof.
  unfold transfer. destruct (load_key env files key) as [kf|]; cbn [and_then]; [|by eexists].
  destruct (restore_pair kf) as [kp|]; cbn [and_then]; [|by eexists].
  destruct (hex_decode (strip_0x (format_address a))) as [bs|] eqn:E; cbn [ok_or and_then]; [|by eexists].
  rewrite (printed_not_32 a bs E). by eexists.
Qed.

(** C39: the address [keygen] prints is unusable.  It is the checksummed form, which
    [parse_address] accepts but no command and no query does: each reads 32 bytes of
    hexadecimal and the text has 40.  With the printed address as recipient or
    validator, [transfer], [stake] and [unstake] fail before they post anything, and a
    node answers its balance, nonce and validator queries with 400. *)
Theorem printed_address_refused (w : World) (name : string) (files' : Files) (out : Lines)
    (Hkey : run_wallet w (KeygenCmd name) = Ret (files', Ok out)) :
  exists address, (nth_error out 1 = Some (seg "  Address: " ++ address))%list /\
  (exists a, parse_address address = Ret (Ok a)) /\
  (forall w' amount key node, exists e, run_wallet w' (TransferCmd address amount key node) = Ret (w_files w', Err e)) /\
  (forall w' amount key node, exists e, run_wallet w' (StakeCmd address amount key node) = Ret (w_files w', Err e)) /\
  (forall w' amount key node, exists e, run_wallet w' (UnstakeCmd address amount key node) = Ret (w_files w', Err e)) /\
  (forall (D : Type) (St : Serde) (guard : AppState D), exists e, er_code e = 400 /\ balance_handler guard address = Ret (Err e) /\
     nonce_handler guard address = Ret (Err e) /\ validator_handler guard address = Err e).
Proof.
  cbn [run_wallet] in Hkey. apply bind_Ret_inv in Hkey as ([files1 r] & Hk & Hkey).
  apply Ret_pair_inj in Hkey as [<- Hout]. apply and_then_Ok in Hout as (kf & -> & [= <-]).
  destruct (keygen_load _ _ _ _ _ _ Hk) as (_ & kp & pk & _ & _ & _ & Ha & _).
  exists (kf_address kf). cbn [nth_error]. unfold line. cbn [concat]. rewrite app_nil_r. split; [done|]. rewrite Ha. split.
  { exists (derive_address pk). rewrite <- (app_nil_r (format_address _)), parse_format_app.
    rewrite ascii_boundary; [done| |by rewrite length_app, format_address_length].
    apply Forall_app. split; [apply format_address_ascii|constructor]. }
  split; [|split; [|split]].
  - intros w' amount key node. cbn [run_wallet]. unfold posted.
    destruct (printed_recipient (w_env w') (w_files w') (nonce_query (w_get w') node) (derive_address pk) amount key) as [e ->]. by eexists.
  - intros w' amount key node. cbn [run_wallet]. unfold posted, stake.
    destruct (printed_validator (derive_address pk) amount) as [e ->]. by eexists.
  - intros w' amount key node. cbn [run_wallet]. unfold posted, unstake.
    destruct (printed_validator (derive_address pk) amount) as [e ->]. by eexists.
  - intros D St guard. destruct (printed_refused (derive_address pk)) as [e E].
    destruct (path_refused guard _ e E) as (Hb & Hn & Hv). exists (err_response 400 "invalid address"). done.
Qed.
End PrintedAddress.

(** ** The log formatter keeps its lines *)

Lemma run_logfmt_lines `{JsonText} (ls : list bytes) (rest : list (option bytes)) :
  run_logfmt (map Some ls) = (map logfmt_line ls, Ok tt) /\
  exists e, run_logfmt (map Some ls ++ None :: rest) = (map logfmt_line ls, Err e).
Proof.
  induction ls as [|l ls [IH1 [e IH2]]]; [by split; [|eexists]|]. cbn [map app run_logfmt]. rewrite IH1, IH2.
  split; [done|by exists e].
Qed.

(** A line that is no JSON document is passed on. *)
Lemma logfmt_line_verbatim `{JsonText} l : json_from_str l = None -> logfmt_line l = l.
Proof. unfold logfmt_line. by intros ->. Qed.

(** ** Instances *)

Import ToyInstances MemStorage ToyHttp.
#[local] Existing Instance toy_text.
#[local] Existing Instance toy_keyfile_text.
#[local] Existing Instance toy_keyfile_text_ok.
#[local] Existing Instance toy_fndsa.
#[local] Existing Instance toy_fndsa_ok.

(** Blocks as documents of numbers that fit. *)
#[local] Instance cli_serde : Serde := {|
  block_to_value b := Some (JObject [("height"%string, JNumber (Z.max 0 (hdr_height (blk_header b)) mod W64))]);
  header_to_value h := Some (JNumber (Z.max 0 (hdr_height h) mod W64));
  u256_dec z := to_be_bytes 32 z;
  u256_hex z := hex_encode (to_be_bytes 32 z);
  status_debug _ := list_byte_of_string "status"
|}.

Lemma cli_blocks_print : blocks_print.
Proof.
  intros b j [= <-]. cbn [json_ok forallb snd]. rewrite andb_true_r. apply andb_true_iff.
  pose proof (Z.mod_pos_bound (Z.max 0 (hdr_height (blk_header b))) W64 ltac:(done)).
  split; [apply Z.leb_le|apply Z.ltb_lt]; lia.
Qed.

(** A node at the end of the wire: the path is cut at its slashes. *)
Definition cut_slash (b : byte) (p : bytes * list bytes) : bytes * list bytes :=
  if decide (b = slash) then ([], p.1 :: p.2) else (b :: p.1, p.2).
Definition path_of (node u : bytes) : list bytes := (foldr cut_slash ([], []) (drop (length (trim_end_slash node)) u)).2.

Lemma plain_no_slash s : plain s -> slash ∉ s.
Proof. intros [_ Hs] Hin. rewrite Forall_forall in Hs. by specialize (Hs _ Hin). Qed.

Lemma foldr_cut acc s : slash ∉ s -> foldr cut_slash ([], acc) s = (s, acc).
Proof.
  induction s as [|b s IH]; [done|]. intros [Hb Hs]%not_elem_of_cons. cbn [foldr]. rewrite (IH Hs). unfold cut_slash.
  by rewrite decide_False by congruence.
Qed.

Lemma path_of_url node path : Forall plain path -> path_of node (url node path) = path.
Proof.
  unfold path_of, url. rewrite drop_app_length. induction 1 as [|s path Hs _ IH]; [done|].
  cbn [map concat]. rewrite <- app_comm_cons. cbn [foldr]. rewrite foldr_app.
  assert (foldr cut_slash ([], []) (concat (map (cons slash) path)) = ([], path)) as ->.
  { destruct path as [|s' path]; [done|]. revert IH. cbn [map concat]. rewrite <- app_comm_cons. cbn [foldr].
    unfold cut_slash at 1 3. rewrite decide_True by done. cbn [snd]. by intros ->. }
  rewrite foldr_cut by (by apply plain_no_slash). unfold cut_slash. by rewrite decide_True.
Qed.

Definition get_ex (guard : AppState RedbEngine) (now : Z) (node : bytes) : HttpGet :=
  fun u => match serve guard now GET (path_of node u) [] with Ret (_, a) => Some a | Panic => None end.

Lemma get_ex_answers guard now node : answers guard now node (get_ex guard now node).
Proof. intros path _ Hp. unfold get_ex. by rewrite path_of_url. Qed.

Definition asked : bytes := query_text address_ex.

Lemma query_answers_witness :
  run_query (get_ex app_ex 5 DEFAULT_NODE) (QueryBlock 0 DEFAULT_NODE) =
    match block_json (app_engine app_ex) 0 with Some j => Ok [json_to_string_pretty j] | None => Err (Anyhow "RPC error") end /\
  run_query (get_ex app_ex 5 DEFAULT_NODE) (QueryLatest DEFAULT_NODE) = Err (Anyhow "RPC error") /\
  exists o, run_query (get_ex app_ex 5 DEFAULT_NODE) (QueryValidator asked DEFAULT_NODE) = Ok (validator_lines asked o).
Proof.
  destruct (query_answers app_ex 5 DEFAULT_NODE (get_ex app_ex 5 DEFAULT_NODE) (get_ex_answers _ _ _) cli_blocks_print)
    as (Hb & Hl & _ & Hv & _).
  split; [by apply Hb|]. split.
  - destruct (Hl {[ 0 ]} loaded_indexed) as (h & Hin & _ & E). rewrite E.
    destruct Hin as [->%elem_of_singleton|[_ ->]]; reflexivity.
  - eexists. apply (Hv asked (as_bytes address_ex)); [apply (bool_decide_unpack _); vm_compute; reflexivity|].
    unfold parse_raw_address, asked, query_text. rewrite strip_0x_app, hex_decode_encode. by rewrite array_of_list_bytes.
Defined.

#[local] Instance toy_tx_value : TxValue := {| tx_to_value tx := Some (JString (enc sc_tx tx)) |}.

Definition world_ex : World := mkWorld env_ex ∅ seed_ex (fun _ => None) (fun _ _ => None).

Lemma printed_address_refused_witness : exists files out address,
  run_wallet world_ex (KeygenCmd "main") = Ret (files, Ok out) /\ nth_error out 1 = Some (seg "  Address: " ++ address) /\
  exists e, run_wallet world_ex (TransferCmd address (list_byte_of_string "1") "main" DEFAULT_NODE) = Ret (∅, Err e).
Proof.
  destruct keygen_ex as (files & kf & Hkey).
  eassert (run_wallet world_ex (KeygenCmd "main") = Ret (files, Ok _)) as Hrun.
  { cbn [run_wallet]. change (keygen (w_env world_ex) (w_files world_ex) (w_seed world_ex) "main") with (keygen env_ex ∅ seed_ex "main").
    rewrite Hkey. cbn [mbind outcome_bind and_then]. reflexivity. }
  destruct (printed_address_refused world_ex "main" files _ Hrun) as (address & Hout & _ & Ht & _).
  exists files. eexists. exists address. split; [exact Hrun|]. split; [exact Hout|]. apply (Ht world_ex).
Defined.

(** A structured line, and a plain one. *)
Example logfmt_ex :
  let l := json_to_string (JObject [("level"%string, JString (seg "WARN")); ("msg"%string, JString (seg "slow")); ("timestamp"%string, JString (seg "t0"))]) in
  run_logfmt [Some l; None] = ([seg "t0 [ WARN] : slow"], Err (Anyhow "stream did not contain valid UTF-8")).
Proof. vm_compute. reflexivity. Qed.
