(* ===== verification/Cluster.v ===== *)
(** * The cluster harness ([tests/cluster.rs])

    The integration test that runs several validators in one process: each node
    has its own database, state machine, mempool and engine, loads the same genesis
    and runs the consensus loop; the test waits until every node has reached height
    three.  The running cluster is a step relation whose steps are the ticks of the
    nodes, in any order and at any instants.  What a node publishes reaches the
    event channels of the others, which nothing in the harness reads, so the
    network takes no part.  [cluster_stuck]: with at least two validators no node
    ever gets past the first block, and the test cannot pass. *)
From Stdlib Require Import Strings.Byte Strings.String.
From stdpp Require Import base gmap sets list strings countable sorting.
From Stdlib Require Import ZArith Lia.
From S2P Require Import Prelude Types External Toy Trie Account State Ledger Refine Scenario Finality Schedule Mempool Storage Genesis Slashing Engine.

Definition N_VALIDATORS : nat := 3.
Definition BLOCK_TIME_MS : Z := 100.
Definition ADVANCE_TIMEOUT_SECS : Z := 60.
Definition REGISTER_FEE : Z := 100.
Definition VALIDATOR_BALANCE_STR : bytes := list_byte_of_string "10000000000000000000000000000000000".
Definition PROGRESS_TARGET_HEIGHT : Z := 3.

(** ** Helpers *)

(** [bytes[0] = n as u8] *)
Definition validator_addr_bytes (n : nat) : bytes := byte_of_Z (Z.of_nat n mod 256) :: List.repeat x00 31.

Lemma validator_addr_len n : bool_decide (length (validator_addr_bytes n) = 32%nat) = true.
Proof. reflexivity. Qed.

Definition validator_addr (n : nat) : Address := address_from (Array (validator_addr_bytes n) (validator_addr_len n)).

Definition validator_pubkey_bytes (n : nat) : bytes := byte_of_Z ((Z.of_nat n + 1) mod 256) :: List.repeat x01 896.

Lemma validator_pubkey_len n : bool_decide (length (validator_pubkey_bytes n) = 897%nat) = true.
Proof. apply bool_decide_eq_true. unfold validator_pubkey_bytes. cbn [length]. by rewrite List.repeat_length. Qed.

Definition validator_pubkey (n : nat) : array 897 := Array (validator_pubkey_bytes n) (validator_pubkey_len n).

Definition fake_sig : Falcon512Signature := mkSignature (List.repeat xcd FALCON_SIGNATURE_SIZE).

Definition test_mempool_config : MempoolConfig := mkMempoolConfig 10000 600 0 50.

Section Cluster.
Context `{BuildProfile} `{Blake3} `{Scale} `{Hex} `{GenesisText} `{!HashOrder bytes}.
Context `{!HashOrder Address} {D : Type} `{StorageEngine D}.

(** The heights of the keys that have eight bytes; the greatest, or zero. *)
Definition key_height (k : bytes) : option Z :=
  if bool_decide (length k = 8%nat) then Some (from_be_bytes k) else None.

Definition read_height (storage : D) : Z :=
  let keys := match st_list_keys storage BLOCKS with Ok keys => keys | Err _ => [] end in
  foldr Z.max 0 (omap key_height keys).

(** ** A node of the cluster *)

Definition register_tx (addr : Address) (nonce : Z) (public_key : array 897) : Transaction :=
  mkTransaction 0 nonce addr REGISTER_FEE (RegisterValidator public_key) fake_sig.

(** One round of [register_validators]. *)
Definition register_validator (sm : StateMachine) (v : nat * (Address * array 897)) : outcome StateMachine :=
  let '(i, (addr, public_key)) := v in
  o ← get_account sm addr;
  acct ← unwrap o;
  let zero := array_repeat 32 x00 in
  let block := mkBlock
    (mkBlockHeader (Z.of_nat i + 1) zero zero zero (1700000000 + Z.of_nat i) addr 0 fake_sig)
    (mkBlockBody [register_tx addr (nonce acct) public_key]) in
  '(sm, r) ← apply_block sm block;
  match r with
  | Err _ => Panic
  | Ok _ => _ ← assert_ (bool_decide (is_Some (get_validator sm addr))); Ret sm
  end.

Definition register_validators (sm : StateMachine) (addrs : list Address) (pubkeys : list (array 897)) : outcome StateMachine :=
  sm ← foldM register_validator sm (combine (seq 0 (length addrs)) (combine addrs pubkeys));
  Ret (set_active_set sm addrs).

(** A key of another length panics in [copy_from_slice]; a row that does not read
    or decode is skipped. *)
Definition initial_account (storage : D) (key : bytes) : outcome (option (Address * Account)) :=
  raw ← unwrap (array_of_list 32 key);
  Ret (match st_get storage ACCOUNTS key with
       | Ok (Some encoded) => (fun acct => (address_from raw, acct)) <$> decode_all sc_account encoded
       | _ => None
       end).

Definition build_state_machine (storage : D) (addrs : list Address) (pubkeys : list (array 897)) : outcome StateMachine :=
  match st_list_keys storage ACCOUNTS with
  | Err _ => Panic
  | Ok account_keys =>
      rows ← foldM (fun rows key => r ← initial_account storage key; Ret (rows ++ [r])) [] account_keys;
      register_validators (StateMachine_new (omap id rows)) addrs pubkeys
  end.

(** [ClusterNode::new] on a fresh database, up to the spawned loop. *)
Definition ClusterNode_new (engine : D) (genesis_json : bytes) (addrs : list Address) (pubkeys : list (array 897))
    (my_index : nat) : outcome (Node D) :=
  match load_genesis engine (Some genesis_json) with
  | (_, Err _) => Panic
  | (storage, Ok _) =>
      sm ← build_state_machine storage addrs pubkeys;
      let engine := ConsensusEngine_new (ConsensusConfig_new BLOCK_TIME_MS ERA_LENGTH (Z.of_nat N_VALIDATORS)) in
      local ← unwrap (addrs !! my_index);
      let engine := set_local_validator engine local in
      let engine := set_schedule engine (ProposerSchedule_new addrs 0 1) in
      Ret (mkNode engine sm (Mempool_new test_mempool_config) storage [])
  end.

(** ** The cluster *)

(** The configuration [write_genesis_json] writes. *)
Definition genesis_config (chain_id : Z) (addrs : list Address) : GenesisConfig :=
  mkGenesisConfig chain_id (list_byte_of_string "2026-06-25T00:00:00Z")
    (list_to_map (map (fun addr => (hex_encode (array_bytes (as_bytes addr)), VALIDATOR_BALANCE_STR)) addrs)) [].

(** [Cluster::new]: [fresh] is what opening a database in an empty directory
    gives, [to_json] the text serde_json writes. *)
Definition Cluster_new (fresh : D) (to_json : GenesisConfig -> bytes) (count : nat) : outcome (list (Node D)) :=
  let addrs := map validator_addr (seq 0 count) in
  let pubkeys := map validator_pubkey (seq 0 count) in
  let genesis_json := to_json (genesis_config 0 addrs) in
  foldM (fun nodes i => node ← ClusterNode_new fresh genesis_json addrs pubkeys i; Ret (nodes ++ [node])) [] (seq 0 count).

Definition heights (nodes : list (Node D)) : list Z := map (fun n => read_height (n_storage n)) nodes.

(** The cluster runs: the loop of some node ticks.  A loop that has panicked takes
    no further step. *)
Inductive cluster_steps (nodes : list (Node D)) : list (Node D) -> Prop :=
| cluster_start : cluster_steps nodes nodes
| cluster_tick nodes' (i : nat) n n' now : cluster_steps nodes nodes' -> nodes' !! i = Some n -> slot_tick now n = Ret n' ->
    cluster_steps nodes (<[i := n']> nodes').

(** [advance] over its polls: the instant read and the cluster as it then is.
    [None] is still waiting; past the deadline it panics. *)
Fixpoint advance (min_height deadline : Z) (polls : list (Z * list (Node D))) : outcome (option unit) :=
  match polls with
  | [] => Ret None
  | (now, nodes) :: polls =>
      if deadline <? now then Panic
      else if forallb (fun h => min_height <=? h) (heights nodes) then Ret (Some tt)
      else advance min_height deadline polls
  end.

(** [test_3_validators_produce_blocks] with [count] validators; the polls are what
    [advance] sees, and then the cluster is looked at once more.  [None]: the test
    has not ended within these polls. *)
Definition produce_blocks_test (deadline : Z) (polls : list (Z * list (Node D))) (final : list (Node D)) : outcome (option unit) :=
  r ← advance PROGRESS_TARGET_HEIGHT deadline polls;
  match r with
  | None => Ret None
  | Some _ => _ ← assert_ (forallb (fun h => PROGRESS_TARGET_HEIGHT <=? h) (heights final)); Ret (Some tt)
  end.
End Cluster.

(** ** How far the nodes get *)

Section Stuck.
Context `{BuildProfile} `{Blake3} `{Scale} `{Hex} `{GenesisText} `{!HashOrder bytes}.
Context `{!HashOrder Address} {D : Type} `{StorageOk D}.

(** Every block row has the key of a height of at most [m]. *)
Definition rows_up_to (m : Z) (d : D) : Prop :=
  forall k, is_Some (st_view d BLOCKS !! k) -> exists h, k = to_be_bytes 8 h /\ 0 <= h <= m.

Lemma key_height_of h : 0 <= h < W64 -> key_height (to_be_bytes 8 h) = Some h.
Proof.
  intros Hh. unfold key_height. rewrite bool_decide_eq_true_2 by apply to_be_bytes_length.
  by rewrite from_to_be_bytes.
Qed.

Lemma read_height_le m d : m < W64 -> rows_up_to m d -> 0 <= read_height d <= Z.max 0 m.
Proof.
  intros Hm Hd. unfold read_height. destruct (st_list_keys d BLOCKS) as [ks|e] eqn:E; [|simpl; lia].
  apply st_list_view in E as (_ & _ & Hks).
  assert (forall k, k ∈ ks -> exists h, k = to_be_bytes 8 h /\ 0 <= h <= m) as Hall by (intros k Hk; by apply Hd, Hks).
  clear Hks Hd. induction ks as [|k ks IH]; [simpl; lia|].
  destruct (Hall k ltac:(by left)) as (h & -> & Hh). cbn [omap list_omap]. rewrite key_height_of by lia.
  cbn [foldr]. specialize (IH ltac:(intros k Hk; apply Hall; by right)). lia.
Qed.

(** A fresh database after the genesis has the block of height zero alone. *)
Lemma genesis_rows fresh file d : st_view fresh BLOCKS = ∅ -> load_genesis fresh file = (d, Ok tt) -> rows_up_to 0 d.
Proof.
  intros Hfresh (json & config & arows & vrows & _ & _ & _ & _ & V)%load_genesis_ok k Hk.
  rewrite (V BLOCKS) in Hk. change (genesis_cells _ _ _ _ _ BLOCKS) with
    (<[List.repeat x00 8 := enc sc_block (genesis_block (gc_chain_id config))]> (st_view fresh BLOCKS)) in Hk.
  rewrite Hfresh in Hk. apply lookup_insert_is_Some' in Hk as [<-|[? [=]]]. exists 0. by split.
Qed.

(** One block at the next height. *)
Lemma put_rows d h raw d' r m : st_put d BLOCKS (to_be_bytes 8 h) raw = (d', r) ->
  rows_up_to m d -> 0 <= h -> rows_up_to (Z.max m h) d'.
Proof.
  intros E Hd Hh k Hk. destruct (decide (k = to_be_bytes 8 h)) as [->|Hne]; [exists h; split; [done|lia]|].
  rewrite (st_put_other _ _ _ _ _ _ BLOCKS k E) in Hk by by right. destruct (Hd k Hk) as (h' & -> & ?). exists h'. split; [done|lia].
Qed.

(** A tick in the node's own slot, away from era boundaries, moves the height by
    one and writes at most the block of that height. *)
Lemma slot_tick_own now n n' s m : schedule (n_engine n) = Some s ->
  0 <= current_height (n_engine n) < U64_MAX -> is_era_boundary (current_height (n_engine n) + 1) = false ->
  slot_tick now n = Ret n' -> rows_up_to m (n_storage n) ->
  n' = n \/
  n_engine n' = set_current_height (n_engine n) (current_height (n_engine n) + 1) /\
  rows_up_to (Z.max m (current_height (n_engine n) + 1)) (n_storage n').
Proof.
  intros Hs Hh Hera E Hm. unfold U64_MAX in Hh. unfold slot_tick in E. rewrite u64_add_ok in E by lia. cbn [mbind outcome_bind] in E.
  unfold enter_era in E. rewrite Hera in E. cbn [mbind outcome_bind] in E. unfold slot_schedule in E. rewrite Hs in E.
  apply bind_Ret_inv in E as (ours & _ & E). destruct ours; [|left; injection E as <-; by destruct n].
  apply bind_Ret_inv in E as ([[[sm mp] storage] published] & Ep & E). injection E as <-. right. split; [done|]. simpl.
  apply produce_block_inv in Ep. destruct published as [b|].
  - destruct Ep as (p & ? & ? & ? & ? & _ & _ & _ & Eput). eapply put_rows; [exact Eput|exact Hm|lia].
  - intros k Hk. rewrite Ep in Hk. destruct (Hm k Hk) as (h & -> & ?). exists h. split; [done|lia].
Qed.

(** ** The addresses and the schedule *)

Definition cluster_addrs (count : nat) : list Address := map validator_addr (seq 0 count).

Lemma cluster_addrs_lookup count i : (i < count)%nat -> cluster_addrs count !! i = Some (validator_addr i).
Proof. intros Hi. unfold cluster_addrs. by rewrite list_lookup_fmap, lookup_seq_lt. Qed.

Lemma validator_addr_inj i j : (i < 256)%nat -> (j < 256)%nat -> validator_addr i = validator_addr j -> i = j.
Proof.
  intros Hi Hj E. assert (byte_of_Z (Z.of_nat i mod 256) = byte_of_Z (Z.of_nat j mod 256)) as Eb.
  { apply (f_equal (fun a => head (array_bytes (as_bytes a)))) in E. by injection E. }
  apply (f_equal byte_to_Z) in Eb. rewrite !byte_to_of_Z, !Z.mod_mod, !Z.mod_small in Eb by lia. lia.
Qed.

(** The proposer of the first heights is the validator of that number. *)
Lemma cluster_proposer count h : (2 <= count)%nat -> 1 <= h <= 2 ->
  proposer_for_height (ProposerSchedule_new (cluster_addrs count) 0 1) h = Ret (validator_addr (Z.to_nat (h - 1))).
Proof.
  intros Hc Hh. unfold proposer_for_height. cbn [sch_active_set sch_start_height].
  assert (length (cluster_addrs count) = count) as Hl by (unfold cluster_addrs; by rewrite length_map, length_seq).
  rewrite bool_decide_eq_false_2 by (intros E; rewrite E in Hl; simpl in Hl; lia). cbn [negb assert_ mbind outcome_bind].
  unfold index. rewrite Hl. replace (u64_saturating_sub h 1 mod Z.of_nat count) with (h - 1).
  2:{ unfold u64_saturating_sub. rewrite Z.mod_small; lia. }
  by rewrite cluster_addrs_lookup by lia.
Qed.

(** What holds of the node of index [i], whenever it is looked at. *)
Definition node_inv (count i : nat) (n : Node D) : Prop :=
  schedule (n_engine n) = Some (ProposerSchedule_new (cluster_addrs count) 0 1) /\
  local_validator (n_engine n) = Some (validator_addr i) /\
  (current_height (n_engine n) = 0 \/ i = 0%nat /\ current_height (n_engine n) = 1) /\
  rows_up_to (current_height (n_engine n)) (n_storage n).

Lemma node_inv_tick count i n now n' : (2 <= count <= 256)%nat -> (i < count)%nat ->
  node_inv count i n -> slot_tick now n = Ret n' -> node_inv count i n'.
Proof.
  intros Hc Hi (Hs & Hl & Hh & Hr) E.
  assert (0 <= current_height (n_engine n) <= 1) as Hb by (destruct Hh as [->|[_ ->]]; lia).
  assert (is_era_boundary (current_height (n_engine n) + 1) = false) as Hera by (destruct Hh as [->|[_ ->]]; reflexivity).
  destruct (decide (i = 0%nat /\ current_height (n_engine n) = 0)) as [[-> Hz]|Hno].
  - destruct (slot_tick_own now n n' _ _ Hs ltac:(split; [lia|eapply Z.le_lt_trans; [apply Hb|done]]) Hera E Hr) as [->|[En Hr']]; [by repeat split|].
    unfold node_inv. rewrite En. cbn [schedule local_validator current_height set_current_height].
    rewrite Hz in Hr' |- *. repeat split; [done|done|by right|exact Hr'].
  - assert (run_slots n [now] = Ret n) as Hstall.
    { apply (observer_stalls n (ProposerSchedule_new (cluster_addrs count) 0 1) (validator_addr i)); try done.
      - unfold cluster_addrs. cbn [sch_active_set]. destruct count; [lia|done].
      - split; [lia|eapply Z.le_lt_trans; [apply Hb|done]].
      - rewrite cluster_proposer by lia. intros Ei%Ret_inj%validator_addr_inj; [|lia..].
        destruct Hh as [Hz|[-> Hz]]; rewrite Hz in Ei; simpl in Ei; [by apply Hno|done]. }
    cbn [run_slots foldM] in Hstall. unfold run_slots in Hstall. cbn [foldM] in Hstall. rewrite E in Hstall.
    injection Hstall as ->. by repeat split.
Qed.

Lemma cluster_new_inv fresh to_json count nodes : st_view fresh BLOCKS = ∅ ->
  Cluster_new fresh to_json count = Ret nodes ->
  length nodes = count /\ forall i n, nodes !! i = Some n -> node_inv count i n.
Proof.
  intros Hfresh E. unfold Cluster_new in E. fold (cluster_addrs count) in E.
  set (json := to_json _) in E. set (pks := map validator_pubkey _) in E.
  assert (forall k nodes0 nodes1, (k <= count)%nat -> length nodes0 = (count - k)%nat ->
    (forall i n, nodes0 !! i = Some n -> node_inv count i n) ->
    foldM (fun nodes i => node ← ClusterNode_new fresh json (cluster_addrs count) pks i; Ret (nodes ++ [node]))
      nodes0 (seq (count - k) k) = Ret nodes1 ->
    length nodes1 = count /\ forall i n, nodes1 !! i = Some n -> node_inv count i n) as Hgen.
  2:{ apply (Hgen count [] nodes); [done|simpl; lia|done|]. by rewrite Nat.sub_diag. }
  intros k. induction k as [|k IH]; intros nodes0 nodes1 Hk Hlen Hinv Ef.
  { injection Ef as <-. split; [lia|done]. }
  cbn [seq foldM] in Ef. apply bind_Ret_inv in Ef as (nodes2 & En & Ef). apply bind_Ret_inv in En as (node & En & Ea).
  injection Ea as <-. replace (S (count - S k)) with (count - k)%nat in Ef by lia.
  apply IH in Ef; [done|lia|rewrite length_app; simpl; lia|].
  intros i n Hl. apply lookup_app_Some in Hl as [Hl|[Hge Hl]]; [by apply Hinv|].
  apply list_lookup_singleton_Some in Hl as [Hz <-]. replace i with (count - S k)%nat by lia.
  unfold ClusterNode_new in En. destruct (load_genesis fresh (Some json)) as [storage [[]|e]] eqn:Eg; [|done].
  apply bind_Ret_inv in En as (sm & _ & En). rewrite cluster_addrs_lookup in En by lia. cbn [unwrap mbind outcome_bind] in En.
  injection En as <-. repeat split; [by left|]. by eapply genesis_rows.
Qed.

(** C30: a cluster of validators never gets past the first block.  With at least
    two validators set up as the cluster test sets them up, whatever the order and
    the times of the ticks of their loops, no node's stored height exceeds one, and
    every node but the first stays at the genesis: each waits
    in another's slot for a block that nothing brings in.  So the test, which waits
    for height three, runs into its deadline whatever it polls. *)
Theorem cluster_stuck (fresh : D) (to_json : GenesisConfig -> bytes) (count : nat) (nodes : list (Node D))
    (Hfresh : st_view fresh BLOCKS = ∅) (Hcount : (2 <= count <= 256)%nat)
    (Hnew : Cluster_new fresh to_json count = Ret nodes) :
  (forall nodes', cluster_steps nodes nodes' ->
     length nodes' = count /\
     forall i h, heights nodes' !! i = Some h -> 0 <= h <= 1 /\ (i <> 0%nat -> h = 0)) /\
  (forall deadline polls final, (forall p, p ∈ polls -> cluster_steps nodes p.2) ->
     produce_blocks_test deadline polls final = if existsb (fun p => deadline <? p.1) polls then Panic else Ret None).
Proof.
  destruct (cluster_new_inv _ _ _ _ Hfresh Hnew) as [Hlen Hinv].
  assert (forall nodes', cluster_steps nodes nodes' ->
    length nodes' = count /\ forall i n, nodes' !! i = Some n -> node_inv count i n) as Hall.
  { intros nodes' Hs. induction Hs as [|nodes' j n n' now Hs [IHl IH] Hj Ht]; [done|].
    split; [by rewrite length_insert|]. intros i m Hm. apply list_lookup_insert_Some in Hm as [(-> & -> & Hlt)|[_ Hm]]; [|by apply IH].
    eapply node_inv_tick; [done|lia|by apply IH|exact Ht]. }
  assert (forall nodes', cluster_steps nodes nodes' -> length nodes' = count /\
     forall i h, heights nodes' !! i = Some h -> 0 <= h <= 1 /\ (i <> 0%nat -> h = 0)) as Hheights.
  { intros nodes' Hs. destruct (Hall nodes' Hs) as [Hl Hi]. split; [done|]. intros i h Hh. unfold heights in Hh.
    rewrite list_lookup_fmap in Hh. apply fmap_Some in Hh as (n & Hn & ->).
    destruct (Hi i n Hn) as (_ & _ & Hc & Hr). apply read_height_le in Hr; [|unfold W64; destruct Hc as [->|[_ ->]]; lia].
    destruct Hc as [Hz|[-> Hz]]; rewrite Hz in Hr; (split; [lia|]); [lia|done]. }
  split; [exact Hheights|]. intros deadline polls final Hp. unfold produce_blocks_test.
  enough (advance PROGRESS_TARGET_HEIGHT deadline polls = if existsb (fun p => deadline <? p.1) polls then Panic else Ret None) as ->
    by (by destruct (existsb _ _)).
  induction polls as [|[now nodes'] polls IH]; [done|]. cbn [advance existsb fst]. destruct (deadline <? now); [done|].
  destruct (Hheights nodes' (Hp (now, nodes') ltac:(by left))) as [Hl Hh].
  assert (forallb (fun h => PROGRESS_TARGET_HEIGHT <=? h) (heights nodes') = false) as ->.
  { destruct (heights nodes') as [|h hs] eqn:Eh.
    - apply (f_equal length) in Eh. unfold heights in Eh. rewrite length_map in Eh. simpl in Eh. lia.
    - destruct (Hh 0%nat h eq_refl) as [Hb _]. cbn [forallb]. unfold PROGRESS_TARGET_HEIGHT.
      by rewrite (proj2 (Z.leb_gt 3 h)) by lia. }
  cbn [orb]. apply IH. intros p Hin. apply Hp. by right.
Qed.
End Stuck.

(** ** The test with three validators *)

Import ToyInstances MemStorage.

Definition cluster_json : bytes := list_byte_of_string "{cluster}".

#[local] Instance cluster_text : GenesisText := {|
  from_dec_str := digits 0;
  genesis_from_str j := if decide (j = cluster_json) then Some (genesis_config 0 (cluster_addrs N_VALIDATORS)) else None
|}.

Definition cluster_ex : list (Node RedbEngine) :=
  ret_or (Cluster_new mem_new (fun _ => cluster_json) N_VALIDATORS) [].

(** The loops tick: all at 5, then all at 6, by their number. *)
Definition tick_all (nodes : list (Node RedbEngine)) (now : Z) : list (Node RedbEngine) :=
  map (fun n => match slot_tick now n with Ret n' => n' | Panic => n end) nodes.

Example cluster_heights : heights cluster_ex = [0; 0; 0] /\
  heights (tick_all cluster_ex 1800000000) = [1; 0; 0] /\
  heights (tick_all (tick_all cluster_ex 1800000000) 1800000001) = [1; 0; 0].
Proof. by vm_compute. Qed.

Lemma cluster_ex_new : Cluster_new mem_new (fun _ => cluster_json) N_VALIDATORS = Ret cluster_ex.
Proof. apply ret_or_ok. vm_compute. reflexivity. Qed.

(** The node of the first validator after its first tick. *)
Definition ticked_ex (n : Node RedbEngine) : list (Node RedbEngine) :=
  <[0%nat := ret_or (slot_tick 1800000000 n) n]> cluster_ex.

Definition node0_ex : Node RedbEngine := default (node_at engine_ex) (head cluster_ex).

Lemma node0_ex_lookup : cluster_ex !! 0%nat = Some node0_ex.
Proof.
  unfold node0_ex. assert (is_Some (head cluster_ex)) as [n Hn].
  { apply (bool_decide_unpack _). vm_compute. exact I. }
  rewrite Hn. unfold head in Hn. destruct cluster_ex as [|m l]; [discriminate Hn|]. simpl. congruence.
Qed.

Lemma ticked_steps : cluster_steps cluster_ex (ticked_ex node0_ex).
Proof.
  refine (cluster_tick cluster_ex cluster_ex 0 node0_ex (ret_or (slot_tick 1800000000 node0_ex) node0_ex) 1800000000 _ _ _).
  - apply cluster_start.
  - exact node0_ex_lookup.
  - apply ret_or_ok. vm_compute. reflexivity.
Qed.

Lemma cluster_stuck_witness :
  (exists n, cluster_ex !! 0%nat = Some n /\ forall i h, heights (ticked_ex n) !! i = Some h -> 0 <= h <= 1) /\
  produce_blocks_test 60 [(10, cluster_ex); (61, cluster_ex)] cluster_ex = Panic.
Proof.
  destruct (cluster_stuck mem_new (fun _ => cluster_json) N_VALIDATORS cluster_ex) as [Hsteps Htest];
    [apply (bool_decide_unpack _); vm_compute; exact I|unfold N_VALIDATORS; lia|exact cluster_ex_new|].
  split.
  - exists node0_ex. split; [exact node0_ex_lookup|]. intros i h Hh.
    by destruct (proj2 (Hsteps _ ticked_steps) i h Hh).
  - rewrite Htest; [reflexivity|]. intros p Hp. repeat (apply elem_of_cons in Hp as [->|Hp]; [apply cluster_start|]).
    by apply elem_of_nil in Hp.
Defined.
