(* ===== verification/Testing.v ===== *)
(** * Running the repository's unit tests on the model

    The vocabulary of the [*Tests] files.  A Rust test is a function that
    returns unless an assertion, an [unwrap] or an arithmetic check panics; it
    is translated to a definition of type [outcome unit] and passes when it is
    [Ret tt].  The BLAKE3 stand-in of [Toy] keeps 32 bytes of its input, which is
    enough for the keys but sends most tree roots to zero; [mixing] is a
    stand-in that depends on every byte. *)
From Stdlib Require Import Strings.Byte Strings.String.
From stdpp Require Import base gmap sets list strings countable.
From Stdlib Require Import ZArith Lia.
From S2P Require Import Prelude Types External Toy Account.

(** [assert_eq!], [assert_ne!] *)
Definition assert_eq `{EqDecision A} (a b : A) : outcome unit := assert_ (bool_decide (a = b)).
Definition assert_ne `{EqDecision A} (a b : A) : outcome unit := assert_ (bool_decide (a <> b)).

(** [Result::unwrap], [Result::unwrap_err] *)
Definition unwrap_ok {E A} (r : result E A) : outcome A :=
  match r with Ok a => Ret a | Err _ => Panic end.
Definition unwrap_err {E A} (r : result E A) : outcome E :=
  match r with Ok _ => Panic | Err e => Ret e end.

(** [#[should_panic]] *)
Definition should_panic {A} (t : outcome A) : outcome unit :=
  match t with Panic => Ret tt | Ret _ => Panic end.

(** [for x in l { .. }] in a test, [Address::from([b; 32])], a signature of one byte. *)
Definition for_each {A} (l : list A) (f : A -> outcome unit) : outcome unit := foldM (fun _ x => f x) tt l.
Definition addr (b : Z) : Address := address_from (array_repeat 32 (byte_of_Z b)).
Definition sig_of (b : byte) : Falcon512Signature := mkSignature (List.repeat b FALCON_SIGNATURE_SIZE).

(** [str::contains] *)
Fixpoint text_contains (s sub : bytes) : bool :=
  starts_with sub s || match s with [] => false | _ :: s => text_contains s sub end.

(** A test passes when it returns. *)
Definition passes (t : outcome unit) : bool := match t with Ret _ => true | Panic => false end.

(** A state of 32 bytes; each input byte updates the oldest one. *)
Definition mix_byte (s : bytes) (x : byte) : bytes :=
  match s with
  | [] => []
  | h :: s => s ++ [byte_of_Z ((5 * byte_to_Z h + byte_to_Z x * (2 * byte_to_Z h + 1) + 7) mod 256)]
  end.
Definition mix (b : bytes) : bytes := foldl mix_byte (List.repeat x01 32) b.

Lemma mix_byte_length s x : length (mix_byte s x) = length s.
Proof. destruct s; simpl; [done|]. rewrite length_app. simpl. lia. Qed.

Lemma mix_length b s : length (foldl mix_byte s b) = length s.
Proof. revert s. induction b as [|x b IH]; intros s; simpl; [done|]. by rewrite IH, mix_byte_length. Qed.

Lemma mix_len b : bool_decide (length (mix b) = 32%nat) = true.
Proof. apply bool_decide_eq_true. unfold mix. by rewrite mix_length. Qed.

Definition mixing : Blake3 := {| blake3 b := Array (mix b) (mix_len b) |}.

Lemma assert_eq_refl `{EqDecision A} (x : A) : assert_eq x x = Ret tt.
Proof. unfold assert_eq. by rewrite bool_decide_eq_true_2. Qed.

Lemma for_each_Ret {A} (l : list A) (f : A -> outcome unit) :
  (forall x, x ∈ l -> f x = Ret tt) -> for_each l f = Ret tt.
Proof.
  unfold for_each. induction l as [|x l IH]; intros Hf; [done|]. cbn [foldM].
  rewrite Hf by left. apply IH. intros y Hy. apply Hf. by right.
Qed.

(** The instances the tests run with: the [dev] profile, as [cargo test] has it. *)
Module TestInstances.
#[export] Existing Instance mixing.
#[export] Existing Instance toy_order.
#[export] Existing Instance toy_order_ok.
#[export] Existing Instance toy_hex.
#[export] Existing Instance toy_hex_ok.
#[export] Existing Instance toy_scale.
#[export] Existing Instance toy_scale_ok.
#[export] Existing Instance toy_falcon.
#[export] Existing Instance dev_profile.
End TestInstances.
