(* ===== verification/E2e.v ===== *)
(** * The end-to-end test of the binary ([mononium-cli/tests/e2e.rs])

    The test drives the whole program: [wallet keygen], a genesis that funds the
    new address, an observer node started on it, and then, over HTTP, [wallet
    balance], [wallet transfer] and [query] while the node makes blocks.  It is
    translated over the pieces it runs: [Cli] and [Wallet] for the commands,
    [Config] and [Boot] for the child process, [Engine] for its slots and [Router]
    for its answers.  When the node makes a slot and when a request arrives is not
    the test's to say: a [Timeline] gives both.  [e2e_passes] is a timeline on which
    it passes; [e2e_races] shows that one more slot before the transfer makes it
    fail, because the test waits for a height and not for the transaction. *)
From Stdlib Require Import Strings.Byte Strings.String.
From stdpp Require Import base gmap sets list strings countable sorting.
From Stdlib Require Import ZArith Lia.
From S2P Require Import Prelude Types External Toy Trie Account State Ledger Refine Scenario Finality Schedule Mempool Storage Genesis Slashing Engine Config Rest Router Rpc Wallet P2p Boot Cli Testing.

(** ** Text *)

(** [s.split(pat).nth(1)] *)
Fixpoint after_text (pat s : bytes) : option bytes :=
  if starts_with pat s then Some (drop (length pat) s)
  else match s with [] => None | _ :: s => after_text pat s end.
Fixpoint before_text (pat s : bytes) : bytes :=
  if starts_with pat s then []
  else match s with [] => [] | b :: s => b :: before_text pat s end.
Definition split_second (pat s : bytes) : option bytes := before_text pat <$> after_text pat s.

(** [str::trim] on text whose white space is ASCII. *)
Definition is_space (b : byte) : bool :=
  let z := byte_to_Z b in (z =? 32) || ((9 <=? z) && (z <=? 13)).
Fixpoint trim_start_space (s : bytes) : bytes :=
  match s with b :: s' => if is_space b then trim_start_space s' else s | [] => [] end.
Definition trim (s : bytes) : bytes := reverse (trim_start_space (reverse (trim_start_space s))).

(** What a command printed contains [pat]; the lines are joined by newlines, which
    the texts looked for do not have. *)
Definition prints (out : Lines) (pat : string) : bool := existsb (fun l => text_contains l (seg pat)) out.

(** ** The node process *)

(** One turn of a waiting loop: the clock when the deadline is looked at, the slots
    the node makes before the request, whether its server listens yet. *)
Record Poll := mkPoll { poll_clock : Z; poll_slots : list Z; poll_listening : bool }.

(** Nothing has failed, and the polls given have run out. *)
Inductive Waiting := StillWaiting.

Section E2e.
Context `{BuildProfile} `{Blake3} `{Scale} `{Hex} `{Serde} `{JsonText} `{Rejections} `{TxText} `{TxValue} `{GenesisText} `{ConfigText}.
Context `{!HashOrder bytes} `{!HashOrder Address} `{KeyFileText} `{SignatureScheme}.
Context {D : Type} `{StorageEngine D} `{!Axum Endpoint}.

Record NodeProcess := mkProcess { np_start : Z; np_node : Node D; np_port : Z }.

Definition np_url (p : NodeProcess) : bytes := seg "http://localhost:" ++ u64_to_string (np_port p).
Definition np_app (p : NodeProcess) : AppState D := app_of (np_start p) (np_node p).
Definition with_node (p : NodeProcess) (n : Node D) : NodeProcess := mkProcess (np_start p) n (np_port p).

(** The consensus loop of the child makes these slots. *)
Definition elapse (p : NodeProcess) (slots : list Z) : outcome NodeProcess :=
  n ← run_slots (np_node p) slots; Ret (with_node p n).

(** Requests to the child; a handler that panics drops the connection. *)
Definition http_serve (p : NodeProcess) (now : Z) (m : HttpMethod) (u body : bytes) : option (AppState D * Answer) :=
  if starts_with (np_url p) u then
    match serve (np_app p) now m (path_of (np_url p) u) body with Ret r => Some r | Panic => None end
  else None.
Definition http_get (p : NodeProcess) (now : Z) : HttpGet := fun u => snd <$> http_serve p now GET u [].
Definition http_post (p : NodeProcess) (now : Z) (u body : bytes) : option Answer := snd <$> http_serve p now POST u body.

(** The node once a request has been served. *)
Definition after_request (p : NodeProcess) (now : Z) (m : HttpMethod) (u body : bytes) : NodeProcess :=
  match http_serve p now m u body with
  | Some (guard, _) => with_node p (with_pool (np_node p) (app_mempool guard))
  | None => p
  end.

(** A loop of polls until [ready]; past the deadline it panics. *)
Fixpoint wait (ready : NodeProcess -> Z -> bool) (deadline : Z) (p : NodeProcess) (polls : list Poll) :
    outcome (result Waiting NodeProcess) :=
  match polls with
  | [] => Ret (Err StillWaiting)
  | poll :: polls =>
      if deadline <? poll_clock poll then Panic
      else
        p ← elapse p (poll_slots poll);
        if poll_listening poll && ready p (poll_clock poll) then Ret (Ok p) else wait ready deadline p polls
  end.

Definition node_args (genesis_path data_dir : string) (port : Z) : NodeArgs :=
  mkNodeArgs None (Some genesis_path) None None true (Some 0) (Some 0) (Some port) [] (Some data_dir) None (Some "error"%string) None None.

(** The child that is spawned; [None] when it exits at start-up. *)
Definition spawn (env : Env) (files : Files) (fresh : D) (genesis_path data_dir : string) (port : Z) : option NodeProcess :=
  match startup_config (node_args genesis_path data_dir port) None "" with
  | Err _ => None
  | Ok config =>
      match (run_node (fun _ => @None unit) env files (fun path => files !! path) config [] fresh).2 with
      | Ret (Ok b) => Some (mkProcess (bt_height b) (bt_node b) port)
      | _ => None
      end
  end.

Definition healthy (p : NodeProcess) (now : Z) : bool :=
  match http_get p now (np_url p ++ seg "/health") with Some resp => is_success resp | None => false end.

(** [NodeProcess::start] *)
Definition NodeProcess_start (env : Env) (files : Files) (fresh : D) (genesis_path data_dir : string) (port now : Z) (polls : list Poll) :
    outcome (result Waiting NodeProcess) :=
  let deadline := now + 15 in
  match spawn env files fresh genesis_path data_dir port with
  | Some p => wait healthy deadline p polls
  | None => if existsb (fun poll => deadline <? poll_clock poll) polls then Panic else Ret (Err StillWaiting)
  end.

Definition at_height (min_height : Z) (p : NodeProcess) (now : Z) : bool :=
  match (resp ← http_get p now (np_url p ++ seg "/height"); json ← json_from_str (an_body resp); as_u64 (json_get json "height")) with
  | Some h => min_height <=? h
  | None => false
  end.

Definition wait_for_blocks (p : NodeProcess) (min_height timeout now : Z) (polls : list Poll) : outcome (result Waiting NodeProcess) :=
  wait (at_height min_height) (now + timeout) p polls.

(** ** Commands against the child *)

(** A command that asks the node; it must succeed. *)
Definition succeed {A} (r : result AnyError A) : outcome A := match r with Ok a => Ret a | Err _ => Panic end.

Definition client (env : Env) (files : Files) (p q : NodeProcess) (asked sent : Z) : World :=
  mkWorld env files [] (http_get p asked) (http_post q sent).

Definition balance_cmd (env : Env) (files : Files) (p : NodeProcess) (now : Z) (address : bytes) : outcome Lines :=
  '(_, r) ← run_wallet (client env files p p now now) (BalanceCmd address (np_url p));
  succeed r.

(** [wallet transfer] asks for the nonce at [asked] and posts at [sent]; the node may
    make slots in between.  The node afterwards holds what was posted. *)
Definition transfer_cmd (env : Env) (files : Files) (p : NodeProcess) (asked : Z) (slots : list Z) (sent : Z)
    (to amount : bytes) (key_name : string) : outcome (NodeProcess * Lines) :=
  q ← elapse p slots;
  let w := client env files p q asked sent in
  '(_, r) ← run_wallet w (TransferCmd to amount key_name (np_url p));
  out ← succeed r;
  posted ← transfer env files (nonce_query (w_get w) (np_url p)) to amount key_name;
  tx ← succeed posted;
  body ← unwrap (tx_to_value tx);
  Ret (after_request q sent POST (url (np_url p) [seg "tx"]) (json_to_string body), out).

(** ** The test *)

(** When things happen: the clock at the start of each wait and its polls, the
    clock of each command, and the slots made before it. *)
Record Timeline := mkTimeline {
  tl_start : Z * list Poll;
  tl_three : Z * list Poll;
  tl_balance : Z * list Z;
  tl_transfer : Z * list Z * Z;
  tl_four : Z * list Poll;
  tl_bob : Z * list Z;
  tl_latest : Z * list Z;
  tl_block : Z * list Z
}.

Definition GENESIS_BALANCE : string := "100000000000000000000000000000000000".
Definition bob_raw : bytes := seg "bbbbbbbbbbbbbbbbbbbbbbbbbbbbbbbbbbbbbbbbbbbbbbbbbbbbbbbbbbbbbbbb".

Definition e2e_genesis (raw_addr_hex : bytes) : GenesisConfig :=
  mkGenesisConfig 0 (seg "2026-06-20T00:00:00Z") {[ raw_addr_hex := seg GENESIS_BALANCE ]} [].

(** The first line of [keygen]'s output that has an address, and the address on it. *)
Definition printed_address (stdout : Lines) : outcome bytes :=
  addr_line ← unwrap (snd <$> list_find (fun l => text_contains l (seg "Address:") = true) stdout);
  address ← unwrap (split_second (seg "Address: ") addr_line);
  Ret (trim address).

(** Up to the start of the node: the key, its address, the genesis file. *)
Definition e2e_setup (env : Env) (files : Files) (seed : bytes) (key_name : string) (genesis_path : string)
    (to_json : GenesisConfig -> bytes) : outcome (Files * bytes) :=
  '(files, r) ← run_wallet (mkWorld env files seed (fun _ => None) (fun _ _ => None)) (KeygenCmd key_name);
  stdout ← succeed r;
  address_with_checksum ← printed_address stdout;
  _ ← assert_ (starts_with (seg "0x") address_with_checksum);
  _ ← assert_ (Nat.eqb (length address_with_checksum) 82);
  raw_addr_hex ← str_slice address_with_checksum 2 66;
  _ ← assert_ (Nat.eqb (length raw_addr_hex) 64);
  Ret (<[genesis_path := to_json (e2e_genesis raw_addr_hex)]> files, raw_addr_hex).

(** From the transfer on. *)
Definition e2e_transfer (env : Env) (files : Files) (key_name : string) (p : NodeProcess) (tl : Timeline) : outcome (result Waiting unit) :=
  let '(asked, slots, sent) := tl_transfer tl in
  '(p, transfer_stdout) ← transfer_cmd env files p asked slots sent bob_raw (seg "1.0") key_name;
  _ ← assert_ (prints transfer_stdout "Transaction submitted");
  p <-? wait_for_blocks p 4 15 (tl_four tl).1 (tl_four tl).2;
  p ← elapse p (tl_bob tl).2;
  bob_stdout ← balance_cmd env files p (tl_bob tl).1 bob_raw;
  _ ← assert_ (prints bob_stdout "100000000000000000000000000000000");
  p ← elapse p (tl_latest tl).2;
  _ ← succeed (run_query (http_get p (tl_latest tl).1) (QueryLatest (np_url p)));
  p ← elapse p (tl_block tl).2;
  _ ← succeed (run_query (http_get p (tl_block tl).1) (QueryBlock 1 (np_url p)));
  Ret (Ok tt).

Definition e2e_wallet_balance_and_transfer (env : Env) (files : Files) (seed : bytes) (pid dir : string)
    (to_json : GenesisConfig -> bytes) (fresh : D) (tl : Timeline) : outcome (result Waiting unit) :=
  let key_name := ("e2e_test_alice_" ++ pid)%string in
  let genesis_path := path_join dir "genesis.json" in
  '(files, raw_addr_hex) ← e2e_setup env files seed key_name genesis_path to_json;
  p <-? NodeProcess_start env files fresh genesis_path (path_join dir "data") 19944 (tl_start tl).1 (tl_start tl).2;
  p <-? wait_for_blocks p 3 30 (tl_three tl).1 (tl_three tl).2;
  p ← elapse p (tl_balance tl).2;
  balance_stdout ← balance_cmd env files p (tl_balance tl).1 raw_addr_hex;
  _ ← assert_ (prints balance_stdout GENESIS_BALANCE);
  e2e_transfer env files key_name p tl.
End E2e.
Arguments NodeProcess : clear implicits.

(** ** Waiting for a height is not waiting for the transaction *)

Section Race.
Context `{BuildProfile} `{Blake3} `{Scale} `{!ScaleOk} `{Hex} `{!HexOk} `{Serde} `{JsonTextOk} `{RejectionsOk} `{TxText} `{TxValue} `{GenesisText}.
Context `{!HashOrder bytes} `{!HashOrder Address} `{KeyFileText} `{SignatureScheme}.
Context {D : Type} `{StorageOk D} `{!StorageReliable D} `{!Axum Endpoint} `{!AxumOk Endpoint}.

Lemma trim_end_slash_app (s t : bytes) : plain t -> trim_end_slash (s ++ t) = s ++ t.
Proof.
  intros [Hne Ht]. unfold trim_end_slash. destruct (exists_last Hne) as (t' & b & ->).
  apply Forall_app in Ht as [_ [Hb _]%Forall_cons]. rewrite app_assoc, reverse_app.
  change (reverse [b]) with [b]. cbn [app trim_start_byte].
  rewrite decide_False by (intros ->; vm_compute in Hb; discriminate Hb).
  change (b :: reverse (s ++ t')) with (reverse [b] ++ reverse (s ++ t')). by rewrite <- reverse_app, reverse_involutive.
Qed.

(** What the process answers is what its node serves. *)
Lemma np_url_trim (p : NodeProcess D) : is_u64 (np_port p) -> trim_end_slash (np_url p) = np_url p.
Proof. intros Hp. apply trim_end_slash_app. by apply u64_to_string_plain. Qed.

Lemma http_serve_path (p : NodeProcess D) now m path body : is_u64 (np_port p) -> Forall plain path ->
  http_serve p now m (url (np_url p) path) body =
    match serve (np_app p) now m path body with Ret r => Some r | Panic => None end.
Proof.
  intros Hp Hpath. unfold http_serve. rewrite path_of_url by done. unfold url. rewrite np_url_trim by done.
  by rewrite starts_with_app.
Qed.

Lemma http_get_answers (p : NodeProcess D) now : is_u64 (np_port p) -> answers (np_app p) now (np_url p) (http_get p now).
Proof.
  intros Hp path _ Hpath. unfold http_get. rewrite http_serve_path by done. by destruct (serve _ _ _ _ _) as [[]|].
Qed.

Lemma elapse_nil (p : NodeProcess D) : elapse p [] = Ret p.
Proof. by destruct p. Qed.

(** A request leaves the chain and the state where they are. *)
Lemma after_request_frame (p : NodeProcess D) now m u body :
  let p' := after_request p now m u body in
  np_start p' = np_start p /\ np_port p' = np_port p /\
  n_state (np_node p') = n_state (np_node p) /\ n_storage (np_node p') = n_storage (np_node p).
Proof. unfold after_request. by destruct (http_serve p now m u body) as [[guard a]|]. Qed.

Lemma at_height_view (p p' : NodeProcess D) m now : is_u64 (np_port p) -> np_port p' = np_port p -> np_start p' = np_start p ->
  n_storage (np_node p') = n_storage (np_node p) -> at_height m p' now = at_height m p now.
Proof.
  intros Hp Eport Estart Est. unfold at_height, http_get.
  assert (forall q : NodeProcess D, is_u64 (np_port q) -> http_serve q now GET (np_url q ++ seg "/height") [] =
    match endpoint (np_app q) now HeightEp [] [] with Ret r => Some r | Panic => None end) as Hview.
  { intros q Hq. replace (np_url q ++ seg "/height") with (url (np_url q) [seg "height"])
      by (unfold url; by rewrite np_url_trim).
    rewrite http_serve_path by (done || (apply Forall_singleton, (bool_decide_unpack _); vm_compute; reflexivity)).
    rewrite (serve_literal (np_app q) now GET HeightEp [] ["height"%string]); [done|]. unfold build_router. set_solver. }
  rewrite !Hview by (rewrite ?Eport; done). cbn [endpoint]. unfold height_handler, known_height, np_app, app_of. cbn [app_engine app_height].
  rewrite Est, Estart. destruct (load_latest_height _) as [[]|]; done.
Qed.

Lemma transfer_cmd_frame env files (p p' q : NodeProcess D) asked slots sent to amount key out :
  elapse p slots = Ret q -> transfer_cmd env files p asked slots sent to amount key = Ret (p', out) ->
  np_start p' = np_start q /\ np_port p' = np_port q /\
  n_state (np_node p') = n_state (np_node q) /\ n_storage (np_node p') = n_storage (np_node q).
Proof.
  intros Eq E. unfold transfer_cmd in E. rewrite Eq in E. cbn [mbind outcome_bind] in E.
  apply bind_Ret_inv in E as ([fs r] & _ & E). apply bind_Ret_inv in E as (lines & _ & E).
  apply bind_Ret_inv in E as (posted & _ & E). apply bind_Ret_inv in E as (tx & _ & E).
  apply bind_Ret_inv in E as (body & _ & E). apply Ret_pair_inj in E as [<- _]. apply after_request_frame.
Qed.

(** The test is a race.  If the node has made its fourth block before the transfer
    is posted, [wait_for_blocks(4)] returns on its first poll, whether or not a
    block has included the transaction; when no slot falls between the posting
    and the query of the recipient, who has no account yet, the query prints 0 and the
    test fails. *)
Theorem e2e_races env files key_name (p q : NodeProcess D) (tl : Timeline) asked slots sent now clock polls t r
    (Htr : tl_transfer tl = (asked, slots, sent)) (Hq : elapse p slots = Ret q) (Hport : is_u64 (np_port q))
    (Hfour : tl_four tl = (now, mkPoll clock [] true :: polls)) (Hclock : clock <= now + 15)
    (Hheight : at_height 4 q clock = true) (Hbob : tl_bob tl = (t, []))
    (Hraw : parse_raw_address bob_raw = Ok r) (Hnone : get_account (n_state (np_node q)) (address_from r) = Ret None) :
  e2e_transfer env files key_name p tl = Panic.
Proof.
  unfold e2e_transfer. rewrite Htr, Hfour, Hbob. cbn [fst snd].
  destruct (transfer_cmd _ _ _ _ _ _ _ _ _) as [[p' out]|] eqn:Et; [|done]. cbn [mbind outcome_bind].
  apply (transfer_cmd_frame env files p p' q) in Et as (Estart & Eport & Estate & Est); [|done].
  destruct (prints out _); [|done]. cbn [assert_ mbind outcome_bind]. unfold wait_for_blocks. cbn [wait poll_clock poll_slots poll_listening].
  rewrite (proj2 (Z.ltb_ge _ _)), elapse_nil by done. cbn [mbind outcome_bind]. rewrite andb_true_l.
  rewrite (at_height_view q) by done. rewrite Hheight. cbn [try_bind]. rewrite elapse_nil. cbn [mbind outcome_bind]. unfold balance_cmd. cbn [run_wallet].
  assert (is_u64 (np_port p')) as Hport' by (by rewrite Eport).
  destruct (query_account (http_get p' t) (np_app p') t (np_url p') bob_raw r None) as [_ Eb];
    [by apply http_get_answers|apply (bool_decide_unpack _); vm_compute; reflexivity|done|by cbn; rewrite Estate|done|].
  change (w_get (client env files p' p' t t)) with (http_get p' t). rewrite Eb. cbn [mbind outcome_bind succeed].
  replace (prints (balance_lines bob_raw None) _) with false by (vm_compute; reflexivity). done.
Qed.
End Race.

(** ** The test, run *)

Import TestInstances MemStorage ToyHttp.
#[local] Existing Instance toy_keyfile_text.
#[local] Existing Instance toy_fndsa.

(** Amounts in decimal, blocks by their height, transactions as JSON strings. *)
#[local] Instance e2e_serde : Serde := {|
  block_to_value b := Some (JObject [("height"%string, JNumber (hdr_height (blk_header b)))]);
  header_to_value h := Some (JNumber (hdr_height h));
  u256_dec z := dec_digits 78 z [];
  u256_hex z := hex_encode (to_be_bytes 32 z);
  status_debug _ := seg "status"
|}.
#[local] Instance e2e_tx_value : TxValue := {| tx_to_value tx := Some (JString (enc sc_tx tx)) |}.
#[local] Instance e2e_tx_text : TxText := {| tx_from_json s := j ← json_from_str s; t ← as_str j; decode_all sc_tx t |}.

(** A genesis file without validators. *)
Definition c_genesis : codec GenesisConfig :=
  c_iso (fun c => (gc_chain_id c, (gc_genesis_time c, map_pairs (gc_initial_accounts c))))
    (fun p => mkGenesisConfig p.1 p.2.1 (list_to_map p.2.2) [])
    (c_pair c_u64 (c_pair c_bytes (c_list (c_pair c_bytes c_bytes)))).
#[local] Instance e2e_text : GenesisText := {| from_dec_str := digits 0; genesis_from_str := decode_all c_genesis |}.
#[local] Instance e2e_config_text : ConfigText := {| yaml_from_str _ := None; toml_from_str _ := None |}.

(** The clock is in seconds, a slot lasts five.  The node is up at 101 and has three
    blocks at 115; the transfer is posted at 118, after the slots given; the test
    waits from 119, and sees the block made at 120. *)
Definition poll (clock : Z) (slots : list Z) : Poll := mkPoll clock slots true.
Definition timeline (slots : list Z) : Timeline :=
  mkTimeline (100, [mkPoll 100 [] false; poll 101 []]) (101, [poll 102 [105]; poll 115 [110; 115]]) (115, [])
    (116, slots, 118) (119, [poll 119 []; poll 120 [120]]) (121, []) (122, []) (123, []).

Definition run_ex (slots : list Z) : outcome (result Waiting unit) :=
  e2e_wallet_balance_and_transfer env_ex ∅ seed_ex "4242" "/tmp/mononium_e2e_4242" (enc c_genesis) mem_new (timeline slots).

(** The test passes, the node sent no answer to panic on, and every command did what
    it says. *)
Example e2e_passes : run_ex [] = Ret (Ok tt).
Proof. vm_compute. reflexivity. Qed.

(** Without its genesis file the child exits; the test waits for it, and in the end
    gives up. *)
Definition dead_start (polls : list Poll) : outcome (result Waiting unit) :=
  _ <-? NodeProcess_start env_ex ∅ mem_new "genesis.json" "data" 19944 100 polls; Ret (Ok tt).
Example e2e_start_fails : dead_start [poll 100 []] = Ret (Err StillWaiting) /\ dead_start [poll 100 []; poll 116 []] = Panic.
Proof. split; vm_compute; reflexivity. Qed.

(** With its fourth block made just before the posting the test fails. *)
Example e2e_fails : run_ex [117] = Panic.
Proof. vm_compute. reflexivity. Qed.
