(* ===== verification/StateTests.v ===== *)
(** * The unit tests of [core/state.rs]

    Each test of the module's [mod tests] as a definition, with the helpers it
    uses, and their evaluation: every one passes on the model, at a concrete
    hash and codec.  The block literal the tests repeat is [test_block], their
    transaction literal [test_tx] (chain id 0). *)
From Stdlib Require Import Strings.Byte Strings.String.
From stdpp Require Import base gmap sets list strings countable sorting.
From Stdlib Require Import ZArith Lia.
From S2P Require Import Prelude Types External Toy Trie Account State Engine Testing.

Import TestInstances.

Definition alice : Address := address_from (array_repeat 32 xaa).
Definition bob : Address := address_from (array_repeat 32 xbb).

Definition dummy_sig : Falcon512Signature := sig_of xee.
Definition make_account (balance : Z) : Account := Account_new balance.

Definition proposer_sig : Falcon512Signature := sig_of xcd.
Definition test_block (height timestamp : Z) (proposer : Address) (chain_id : Z) (txs : list Transaction) : Block :=
  mkBlock
    (mkBlockHeader height (array_repeat 32 x00) (array_repeat 32 x00) (array_repeat 32 x00)
       timestamp proposer chain_id proposer_sig)
    (mkBlockBody txs).

Definition empty_block (proposer : Address) (height : Z) : Block :=
  test_block height 1700000000 proposer 0 [].

Definition transfer_block (sender recipient : Address) (amount nonce chain_id : Z) : Block :=
  test_block 1 1700000000 (address_from (array_repeat 32 x00)) chain_id
    [mkTransaction chain_id nonce sender 100 (Transfer recipient amount) dummy_sig].

(** The transaction and the two blocks (first and second height) of the tests. *)
Definition test_tx (nonce : Z) (sender : Address) (fee : Z) (body : TxBody) : Transaction :=
  mkTransaction 0 nonce sender fee body dummy_sig.
Definition first_block (proposer : Address) (txs : list Transaction) : Block :=
  test_block 1 1700000000 proposer 0 txs.
Definition second_block (proposer : Address) (txs : list Transaction) : Block :=
  test_block 2 1700000001 proposer 0 txs.

(** [sm.apply_block(&block).unwrap()], [sm.get_account(&a).unwrap()],
    [sm.get_validator(&a).unwrap()] *)
Definition apply (sm : StateMachine) (block : Block) : outcome (StateMachine * BlockReceipt) :=
  '(sm, r) ← apply_block sm block;
  receipt ← unwrap_ok r;
  Ret (sm, receipt).
Definition account (sm : StateMachine) (a : Address) : outcome Account :=
  o ← get_account sm a; unwrap o.
Definition validator (sm : StateMachine) (a : Address) : outcome ValidatorEntry := unwrap (get_validator sm a).

(** [sm.state.insert(&key, entry.encode())] *)
Definition insert_entry (sm : StateMachine) (addr : Address) (entry : ValidatorEntry) : StateMachine :=
  set_state sm (smt_insert (state sm) (namespace_key NS_VALIDATORS (array_bytes (as_bytes addr))) (enc sc_entry entry)).

(** [sm.state.insert(&key, scale_encode_account(&acct))] *)
Definition insert_account (sm : StateMachine) (addr : Address) (acct : Account) : StateMachine :=
  set_state sm (smt_insert (state sm) (namespace_key NS_ACCOUNTS (array_bytes (as_bytes addr))) (scale_encode_account acct)).

Definition setup_with_balance (sm : StateMachine) (addr : Address) (balance : Z) : outcome StateMachine :=
  acct ← account sm addr;
  Ret (insert_account sm addr (set_balance acct balance)).
Definition setup_alice_with_balance (sm : StateMachine) (balance : Z) := setup_with_balance sm alice balance.
Definition setup_bob_with_balance (sm : StateMachine) (balance : Z) := setup_with_balance sm bob balance.

Definition key42 : array 897 := array_repeat 897 x42.
Definition key43 : array 897 := array_repeat 897 x43.

Definition make_register_tx (nonce fee : Z) : Transaction := test_tx nonce alice fee (RegisterValidator key42).

Definition create_validator (sm : StateMachine) (addr : Address) (pk : array 897) (nonce fee : Z) :
    outcome StateMachine :=
  '(sm, _) ← apply sm (first_block addr [test_tx nonce addr fee (RegisterValidator pk)]);
  Ret sm.

Definition make_staked_validator (sm : StateMachine) (addr : Address) (pk : array 897) (stake_amount : Z) :
    outcome StateMachine :=
  '(sm, _) ← apply sm (first_block addr [test_tx 0 addr 0 (RegisterAndStake addr stake_amount)]);
  Ret sm.

Definition insert_test_validator (sm : StateMachine) (addr : Address) (stake : Z) (status : ValidatorStatus) :
    StateMachine :=
  insert_entry sm addr (mkValidatorEntry addr key42 stake status 0).

Definition insert_frozen (sm : StateMachine) (addr : Address) (stake frozen_until : Z) : StateMachine :=
  insert_entry sm addr (mkValidatorEntry addr key42 stake (Frozen frozen_until) 0).

(** ** Construction, transfers, burns *)

Definition test_new_state_machine_has_root : outcome unit :=
  let sm := StateMachine_new [(alice, make_account 100)] in
  '(root, sm) ← state_root sm;
  assert_ne root (array_repeat 32 x00).

Definition test_get_account_exists : outcome unit :=
  let sm := StateMachine_new [(alice, make_account 100)] in
  acct ← account sm alice;
  assert_eq (balance acct) 100.

Definition test_get_account_missing_returns_none : outcome unit :=
  let sm := StateMachine_new [] in
  o ← get_account sm alice;
  assert_eq o None.

Definition test_empty_block_no_state_change : outcome unit :=
  let sm := StateMachine_new [(alice, make_account 100)] in
  '(pre_root, sm) ← state_root sm;
  '(sm, receipt) ← apply sm (empty_block alice 1);
  assert_eq (tx_count receipt) 0 ;;
  assert_eq (failed_count receipt) 0 ;;
  '(post_root, sm) ← state_root sm;
  assert_eq post_root pre_root.

Definition test_transfer_moves_balance : outcome unit :=
  let sm := StateMachine_new [(alice, make_account 1000); (bob, make_account 0)] in
  '(sm, receipt) ← apply sm (transfer_block alice bob 100 0 0);
  assert_eq (tx_count receipt) 1 ;;
  alice_post ← account sm alice;
  bob_post ← account sm bob;
  assert_eq (balance bob_post) 100 ;;
  assert_eq (balance alice_post) 800 ;;
  assert_eq (nonce alice_post) 1.

Definition test_transfer_insufficient_balance_pays_fee : outcome unit :=
  let sm := StateMachine_new [(alice, make_account 50)] in
  '(sm, receipt) ← apply sm (transfer_block alice bob 100 0 0);
  assert_eq (failed_count receipt) 1 ;;
  alice_post ← account sm alice;
  assert_eq (balance alice_post) 50.

Definition test_transfer_wrong_nonce_fails : outcome unit :=
  let sm := StateMachine_new [(alice, make_account 1000)] in
  '(sm, receipt) ← apply sm (transfer_block alice bob 100 5 0);
  assert_eq (failed_count receipt) 1 ;;
  alice_post ← account sm alice;
  assert_eq (balance alice_post) 900 ;;
  assert_eq (nonce alice_post) 0.

Definition test_burn_permanent_deducts_balance : outcome unit :=
  let sm := StateMachine_new [(alice, make_account 1000)] in
  '(sm, receipt) ← apply sm (first_block alice [test_tx 0 alice 100 (Burn Permanent 200)]);
  assert_eq (tx_count receipt) 1 ;;
  alice_post ← account sm alice;
  assert_eq (balance alice_post) 700 ;;
  assert_eq (nonce alice_post) 1 ;;
  burn_acct ← account sm burn_address;
  assert_eq (balance burn_acct) 200.

Definition test_multiple_transfers_in_block : outcome unit :=
  let sm := StateMachine_new [(alice, make_account 1000); (bob, make_account 0)] in
  let tx1 := test_tx 0 alice 50 (Transfer bob 100) in
  let tx2 := test_tx 1 alice 50 (Transfer bob 200) in
  '(sm, receipt) ← apply sm (first_block alice [tx1; tx2]);
  assert_eq (tx_count receipt) 2 ;;
  alice_post ← account sm alice;
  bob_post ← account sm bob;
  assert_eq (balance alice_post) 600 ;;
  assert_eq (nonce alice_post) 2 ;;
  assert_eq (balance bob_post) 300.

Definition test_block_wrong_chain_id : outcome unit :=
  let sm := StateMachine_new [(alice, make_account 1000)] in
  let tx := mkTransaction 99 0 alice 100 (Transfer bob 100) dummy_sig in
  '(sm, receipt) ← apply sm (first_block alice [tx]);
  assert_eq (failed_count receipt) 1.

Definition test_receipt_tracks_fees : outcome unit :=
  let sm := StateMachine_new [(alice, make_account 1000)] in
  '(sm, receipt) ← apply sm (transfer_block alice bob 100 0 0);
  assert_eq (total_fees receipt) 100 ;;
  assert_eq (tx_count receipt) 1 ;;
  assert_eq (failed_count receipt) 0.

Definition test_apply_empty_block_returns_zero_receipt : outcome unit :=
  let sm := StateMachine_new [(alice, make_account 100)] in
  '(sm, receipt) ← apply sm (empty_block alice 1);
  assert_eq (total_fees receipt) 0 ;;
  assert_eq (tx_count receipt) 0 ;;
  assert_eq (failed_count receipt) 0.

Definition test_missing_sender_account_increments_failed_count : outcome unit :=
  let sm := StateMachine_new [] in
  '(sm, receipt) ← apply sm (first_block alice [test_tx 0 alice 100 (Transfer bob 100)]);
  assert_eq (failed_count receipt) 1 ;;
  assert_eq (tx_count receipt) 0.

Definition test_cap_refill_burn_transfer : outcome unit :=
  let sm := StateMachine_new [(alice, make_account 1000)] in
  '(sm, receipt) ← apply sm (first_block alice [test_tx 0 alice 50 (Burn CapRefill 200)]);
  assert_eq (tx_count receipt) 1 ;;
  alice_post ← account sm alice;
  assert_eq (balance alice_post) 750 ;;
  assert_eq (nonce alice_post) 1 ;;
  cap_acct ← account sm cap_refill_address;
  assert_eq (balance cap_acct) 200.

Definition test_failed_tx_still_pays_fee_when_possible : outcome unit :=
  let sm := StateMachine_new [(alice, make_account 1000)] in
  '(sm, receipt) ← apply sm (first_block alice [test_tx 0 alice 50 (Transfer bob 2000)]);
  assert_eq (failed_count receipt) 1 ;;
  assert_eq (tx_count receipt) 0 ;;
  alice_post ← account sm alice;
  assert_eq (balance alice_post) 950 ;;
  assert_eq (nonce alice_post) 0.

Definition test_fee_as_u128_normal : outcome unit := assert_eq (fee_as_u128 42) 42.
Definition test_fee_as_u128_saturated : outcome unit := assert_eq (fee_as_u128 U256_MAX) U128_MAX.

Definition transfer_tests : list (outcome unit) :=
  [test_new_state_machine_has_root; test_get_account_exists; test_get_account_missing_returns_none;
   test_empty_block_no_state_change; test_transfer_moves_balance;
   test_transfer_insufficient_balance_pays_fee; test_transfer_wrong_nonce_fails;
   test_burn_permanent_deducts_balance; test_multiple_transfers_in_block; test_block_wrong_chain_id;
   test_receipt_tracks_fees; test_apply_empty_block_returns_zero_receipt;
   test_missing_sender_account_increments_failed_count; test_cap_refill_burn_transfer;
   test_failed_tx_still_pays_fee_when_possible; test_fee_as_u128_normal; test_fee_as_u128_saturated].

(** ** Registration and stake *)

Definition test_register_validator_deducts_fee_and_deposit : outcome unit :=
  let deposit := ANTI_SPAM_DEPOSIT in
  let sm := StateMachine_new [(alice, make_account 0)] in
  acct ← account sm alice;
  b ← u256_add 1000 deposit;
  let sm := insert_account sm alice (set_balance acct b) in
  '(sm, receipt) ← apply sm (first_block alice [test_tx 0 alice 50 (RegisterValidator key42)]);
  assert_eq (tx_count receipt) 1 ;;
  alice_post ← account sm alice;
  assert_eq (balance alice_post) 950 ;;
  assert_eq (nonce alice_post) 1.

Definition test_register_validator_creates_entry : outcome unit :=
  let deposit := ANTI_SPAM_DEPOSIT in
  let sm := StateMachine_new [(alice, make_account 0)] in
  acct ← account sm alice;
  b ← u256_add 1000 deposit;
  let sm := insert_account sm alice (set_balance acct b) in
  '(sm, receipt) ← apply sm (first_block alice [test_tx 0 alice 50 (RegisterValidator key42)]);
  assert_eq (tx_count receipt) 1 ;;
  entry ← validator sm alice;
  assert_eq (ve_address entry) alice ;;
  assert_eq (ve_public_key entry) key42 ;;
  assert_eq (ve_status entry) Registered ;;
  assert_eq (ve_registration_era entry) 0 ;;
  assert_eq (ve_stake entry) 0 ;;
  alice_post ← account sm alice;
  e ← u256_add 1000 deposit;
  e ← u256_sub e 50;
  expected ← u256_sub e deposit;
  assert_eq (balance alice_post) expected ;;
  assert_eq (nonce alice_post) 1.

Definition test_register_validator_already_registered : outcome unit :=
  let sm := StateMachine_new [(alice, make_account 0)] in
  b ← u256_add 2000 ANTI_SPAM_DEPOSIT;
  sm ← setup_alice_with_balance sm b;
  '(sm, _) ← apply sm (first_block alice [make_register_tx 0 50]);
  '(sm, receipt) ← apply sm (second_block alice [test_tx 1 alice 50 (RegisterValidator key43)]);
  assert_eq (failed_count receipt) 1 ;;
  alice_post ← account sm alice;
  assert_eq (balance alice_post) 1900 ;;
  assert_eq (nonce alice_post) 1.

Definition test_register_validator_invalid_nonce : outcome unit :=
  let sm := StateMachine_new [(alice, make_account 0)] in
  b ← u256_add 1000 ANTI_SPAM_DEPOSIT;
  sm ← setup_alice_with_balance sm b;
  '(sm, receipt) ← apply sm (first_block alice [make_register_tx 5 50]);
  assert_eq (failed_count receipt) 1 ;;
  alice_post ← account sm alice;
  expected ← u256_add 950 ANTI_SPAM_DEPOSIT;
  assert_eq (balance alice_post) expected ;;
  assert_eq (nonce alice_post) 0.

Definition test_register_validator_insufficient_balance : outcome unit :=
  let sm := StateMachine_new [(alice, make_account 0)] in
  sm ← setup_alice_with_balance sm 100;
  '(sm, receipt) ← apply sm (first_block alice [make_register_tx 0 50]);
  assert_eq (failed_count receipt) 1 ;;
  alice_post ← account sm alice;
  assert_eq (balance alice_post) 50 ;;
  assert_eq (nonce alice_post) 0.

Definition test_register_validator_cannot_cover_fee : outcome unit :=
  let sm := StateMachine_new [(alice, make_account 0)] in
  sm ← setup_alice_with_balance sm 30;
  '(sm, receipt) ← apply sm (first_block alice [make_register_tx 0 50]);
  assert_eq (failed_count receipt) 1 ;;
  alice_post ← account sm alice;
  assert_eq (balance alice_post) 30 ;;
  assert_eq (nonce alice_post) 0.

Definition test_stake_deducts_fee_and_amount : outcome unit :=
  let deposit := ANTI_SPAM_DEPOSIT in
  let sm := StateMachine_new [(alice, make_account 0); (bob, make_account 0)] in
  ba ← u256_add 2000 deposit;
  sm ← setup_alice_with_balance sm ba;
  bb ← u256_add 1000 deposit;
  sm ← setup_bob_with_balance sm bb;
  sm ← create_validator sm bob key42 0 0;
  '(sm, receipt) ← apply sm (second_block bob [test_tx 0 alice 75 (Stake bob 200)]);
  assert_eq (tx_count receipt) 1 ;;
  alice_post ← account sm alice;
  expected ← u256_add 1725 deposit;
  assert_eq (balance alice_post) expected ;;
  assert_eq (nonce alice_post) 1 ;;
  entry ← validator sm bob;
  assert_eq (ve_stake entry) 200.

Definition test_stake_increases_validator_stake : outcome unit :=
  let sm := StateMachine_new [(alice, make_account 0); (bob, make_account 0)] in
  ba ← u256_add 1000 ANTI_SPAM_DEPOSIT;
  sm ← setup_alice_with_balance sm ba;
  sm ← setup_bob_with_balance sm 1000;
  sm ← create_validator sm alice key42 0 0;
  let stake_amount := 500 in
  '(sm, receipt) ← apply sm (second_block alice [test_tx 0 bob 50 (Stake alice stake_amount)]);
  assert_eq (tx_count receipt) 1 ;;
  entry ← validator sm alice;
  assert_eq (ve_stake entry) stake_amount ;;
  assert_eq (ve_status entry) (Staked stake_amount) ;;
  bob_post ← account sm bob;
  e ← u256_sub 1000 stake_amount;
  e ← u256_sub e 50;
  assert_eq (balance bob_post) e ;;
  assert_eq (nonce bob_post) 1.

Definition test_stake_self_stake_allowed : outcome unit :=
  let sm := StateMachine_new [(alice, make_account 0)] in
  b ← u256_add 2000 ANTI_SPAM_DEPOSIT;
  sm ← setup_alice_with_balance sm b;
  sm ← create_validator sm alice key42 0 0;
  let stake_amount := 300 in
  '(sm, receipt) ← apply sm (second_block alice [test_tx 1 alice 50 (Stake alice stake_amount)]);
  assert_eq (tx_count receipt) 1 ;;
  entry ← validator sm alice;
  assert_eq (ve_stake entry) stake_amount ;;
  alice_post ← account sm alice;
  assert_eq (balance alice_post) 1650.

Definition test_stake_nonexistent_validator : outcome unit :=
  let sm := StateMachine_new [(alice, make_account 1000)] in
  '(sm, receipt) ← apply sm (first_block alice [test_tx 0 alice 50 (Stake bob 100)]);
  assert_eq (failed_count receipt) 1 ;;
  alice_post ← account sm alice;
  assert_eq (balance alice_post) 950 ;;
  assert_eq (nonce alice_post) 0.

Definition test_stake_amount_zero : outcome unit :=
  let sm := StateMachine_new [(alice, make_account 0)] in
  b ← u256_add 1000 ANTI_SPAM_DEPOSIT;
  sm ← setup_alice_with_balance sm b;
  sm ← create_validator sm alice key42 0 0;
  '(sm, receipt) ← apply sm (second_block alice [test_tx 1 alice 50 (Stake alice 0)]);
  assert_eq (failed_count receipt) 1 ;;
  alice_post ← account sm alice;
  assert_eq (balance alice_post) 950.

Definition test_stake_to_frozen_validator : outcome unit :=
  let sm := StateMachine_new [(alice, make_account 1000)] in
  let entry := mkValidatorEntry bob key42 500 (Frozen 720) 0 in
  let sm := insert_entry sm bob entry in
  '(sm, receipt) ← apply sm (first_block alice [test_tx 0 alice 50 (Stake bob 100)]);
  assert_eq (failed_count receipt) 1 ;;
  alice_post ← account sm alice;
  assert_eq (balance alice_post) 950.

Definition test_register_and_stake_happy : outcome unit :=
  let sm := StateMachine_new [(alice, make_account 0)] in
  b ← u256_add 2000 ANTI_SPAM_DEPOSIT;
  sm ← setup_alice_with_balance sm b;
  '(sm, receipt) ← apply sm (first_block alice [test_tx 0 alice 50 (RegisterAndStake alice 500)]);
  assert_eq (tx_count receipt) 1 ;;
  entry ← validator sm alice;
  assert_eq (ve_stake entry) 500 ;;
  assert_eq (ve_status entry) (Staked 500) ;;
  assert_eq (ve_registration_era entry) 0 ;;
  alice_post ← account sm alice;
  assert_eq (balance alice_post) 1450 ;;
  assert_eq (nonce alice_post) 1.

Definition test_register_and_stake_validator_must_equal_sender : outcome unit :=
  let sm := StateMachine_new [(alice, make_account 0)] in
  b ← u256_add 2000 ANTI_SPAM_DEPOSIT;
  sm ← setup_alice_with_balance sm b;
  '(sm, receipt) ← apply sm (first_block alice [test_tx 0 alice 60 (RegisterAndStake bob 300)]);
  assert_eq (failed_count receipt) 1 ;;
  alice_post ← account sm alice;
  expected ← u256_add 1940 ANTI_SPAM_DEPOSIT;
  assert_eq (balance alice_post) expected ;;
  assert_eq (nonce alice_post) 0.

Definition test_register_and_stake_already_registered : outcome unit :=
  let sm := StateMachine_new [(alice, make_account 0)] in
  b ← u256_add 3000 ANTI_SPAM_DEPOSIT;
  sm ← setup_alice_with_balance sm b;
  sm ← create_validator sm alice key42 0 0;
  '(sm, receipt) ← apply sm (second_block alice [test_tx 1 alice 50 (RegisterAndStake alice 100)]);
  assert_eq (failed_count receipt) 1 ;;
  alice_post ← account sm alice;
  assert_eq (balance alice_post) 2950 ;;
  assert_eq (nonce alice_post) 1.

Definition registration_tests : list (outcome unit) :=
  [test_register_validator_deducts_fee_and_deposit; test_register_validator_creates_entry;
   test_register_validator_already_registered; test_register_validator_invalid_nonce;
   test_register_validator_insufficient_balance; test_register_validator_cannot_cover_fee;
   test_stake_deducts_fee_and_amount; test_stake_increases_validator_stake;
   test_stake_self_stake_allowed; test_stake_nonexistent_validator; test_stake_amount_zero;
   test_stake_to_frozen_validator; test_register_and_stake_happy;
   test_register_and_stake_validator_must_equal_sender; test_register_and_stake_already_registered].

(** ** Unstaking and the era boundary *)

Definition test_unstake_sets_release_era : outcome unit :=
  let sm := StateMachine_new [(alice, make_account 0)] in
  b ← u256_add 2000 ANTI_SPAM_DEPOSIT;
  sm ← setup_alice_with_balance sm b;
  sm ← make_staked_validator sm alice key42 500;
  '(sm, receipt) ← apply sm (second_block alice [test_tx 1 alice 40 (Unstake alice 200)]);
  assert_eq (tx_count receipt) 1 ;;
  entry ← validator sm alice;
  assert_eq (ve_status entry) (Unstaking 168 200) ;;
  assert_eq (ve_stake entry) 500.

Definition test_unstake_by_other_sender : outcome unit :=
  let sm := StateMachine_new [(alice, make_account 0); (bob, make_account 0)] in
  b ← u256_add 2000 ANTI_SPAM_DEPOSIT;
  sm ← setup_alice_with_balance sm b;
  sm ← setup_bob_with_balance sm 1000;
  sm ← make_staked_validator sm alice key42 500;
  '(sm, receipt) ← apply sm (second_block alice [test_tx 0 bob 30 (Unstake alice 100)]);
  assert_eq (tx_count receipt) 1 ;;
  entry ← validator sm alice;
  assert_eq (ve_status entry) (Unstaking 168 100).

Definition test_unstake_nonexistent_validator : outcome unit :=
  let sm := StateMachine_new [(alice, make_account 1000)] in
  '(sm, receipt) ← apply sm (first_block alice [test_tx 0 alice 40 (Unstake bob 100)]);
  assert_eq (failed_count receipt) 1 ;;
  alice_post ← account sm alice;
  assert_eq (balance alice_post) 960 ;;
  assert_eq (nonce alice_post) 0.

Definition test_unstake_amount_exceeds_stake : outcome unit :=
  let sm := StateMachine_new [(alice, make_account 0)] in
  b ← u256_add 2000 ANTI_SPAM_DEPOSIT;
  sm ← setup_alice_with_balance sm b;
  sm ← make_staked_validator sm alice key42 300;
  '(sm, receipt) ← apply sm (second_block alice [test_tx 1 alice 40 (Unstake alice 500)]);
  assert_eq (failed_count receipt) 1.

Definition test_unstake_amount_zero : outcome unit :=
  let sm := StateMachine_new [(alice, make_account 0)] in
  b ← u256_add 2000 ANTI_SPAM_DEPOSIT;
  sm ← setup_alice_with_balance sm b;
  sm ← make_staked_validator sm alice key42 300;
  '(sm, receipt) ← apply sm (second_block alice [test_tx 1 alice 40 (Unstake alice 0)]);
  assert_eq (failed_count receipt) 1.

(** [sm.process_unstaking_cooldown(&a, era).unwrap()], [sm.process_thaw(&a, era).unwrap()] *)
Definition cooldown (sm : StateMachine) (a : Address) (era : Z) : outcome StateMachine :=
  '(sm, r) ← process_unstaking_cooldown sm a era;
  unwrap_ok r ;;
  Ret sm.
Definition thaw (sm : StateMachine) (a : Address) (era : Z) : outcome StateMachine :=
  let '(sm, r) := process_thaw sm a era in
  unwrap_ok r ;;
  Ret sm.

Definition test_unstaking_cooldown_full : outcome unit :=
  let sm := StateMachine_new [(alice, make_account 0)] in
  b ← u256_add 2000 ANTI_SPAM_DEPOSIT;
  sm ← setup_alice_with_balance sm b;
  sm ← make_staked_validator sm alice key42 500;
  '(sm, _) ← apply sm (second_block alice [test_tx 1 alice 40 (Unstake alice 500)]);
  sm ← cooldown sm alice 167;
  assert_ (bool_decide (is_Some (get_validator sm alice))) ;;
  sm ← cooldown sm alice 168;
  entry ← validator sm alice;
  assert_eq (ve_stake entry) 0 ;;
  assert_eq (ve_status entry) Registered.

Definition test_unstaking_cooldown_partial : outcome unit :=
  let one_monex := ONE_MONEX in
  i ← u256_mul one_monex 100;
  initial ← u256_add i ANTI_SPAM_DEPOSIT;
  let sm := StateMachine_new [(alice, make_account 0)] in
  sm ← setup_alice_with_balance sm initial;
  stake ← u256_mul 50 ONE_MONEX;
  sm ← make_staked_validator sm alice key42 stake;
  unstake_amount ← u256_mul 20 one_monex;
  '(sm, _) ← apply sm (second_block alice [test_tx 1 alice 40 (Unstake alice unstake_amount)]);
  sm ← cooldown sm alice 168;
  entry ← validator sm alice;
  expected ← u256_mul 30 one_monex;
  assert_eq (ve_stake entry) expected ;;
  assert_eq (ve_status entry) (Staked expected).

Definition test_thaw_updates_status : outcome unit :=
  let one_monex := ONE_MONEX in
  let sm := StateMachine_new [] in
  stake ← u256_mul one_monex 5;
  let sm := insert_entry sm alice (mkValidatorEntry alice key42 stake (Frozen 720) 0) in
  sm ← thaw sm alice 719;
  entry ← validator sm alice;
  assert_eq (ve_status entry) (Frozen 720) ;;
  sm ← thaw sm alice 720;
  entry ← validator sm alice;
  assert_eq (ve_status entry) Thawed.

Definition charlie : Address := address_from (array_repeat 32 x02).

Definition test_thaw_all_bulk : outcome unit :=
  let one_monex := ONE_MONEX in
  let sm := StateMachine_new [] in
  let al := alice in
  s1 ← u256_mul one_monex 5;
  let sm := insert_frozen sm al s1 700 in
  s2 ← u256_div one_monex 2;
  let sm := insert_frozen sm bob s2 700 in
  s3 ← u256_mul one_monex 10;
  let sm := insert_test_validator sm charlie s3 Active in
  '(sm, count) ← thaw_all sm [al; bob; charlie] 700;
  assert_eq count 2 ;;
  e1 ← validator sm al;
  assert_eq (ve_status e1) Thawed ;;
  e2 ← validator sm bob;
  assert_eq (ve_status e2) Registered ;;
  e3 ← validator sm charlie;
  assert_eq (ve_status e3) Active.

Definition test_thaw_all_empty : outcome unit :=
  '(_, count) ← thaw_all (StateMachine_new []) [] 999;
  assert_eq count 0.

Definition test_thaw_all_not_due : outcome unit :=
  let sm := StateMachine_new [] in
  let al := alice in
  stake ← u256_mul ONE_MONEX 5;
  let sm := insert_frozen sm al stake 720 in
  '(sm, count) ← thaw_all sm [al] 700;
  assert_eq count 0 ;;
  e ← validator sm al;
  assert_ (match ve_status e with Frozen _ => true | _ => false end).

(** ** Fee distribution *)

Definition test_fee_distribution_empty_set_noop : outcome unit :=
  let sm := set_active_set (StateMachine_new []) [] in
  _ ← distribute_fees sm 1000;
  Ret tt.

Definition test_fee_distribution_zero_fees_noop : outcome unit :=
  let sm := StateMachine_new [] in
  let al := alice in
  let sm := insert_test_validator sm al 1000 Active in
  let sm := set_active_set sm [al] in
  sm ← distribute_fees sm 0;
  o ← get_account sm al;
  assert_eq o None.

Definition test_fee_distribution_proportional : outcome unit :=
  let one_monex := ONE_MONEX in
  let sm := StateMachine_new [] in
  let al := alice in
  s1 ← u256_mul one_monex 200;
  let sm := insert_test_validator sm al s1 Active in
  s2 ← u256_mul one_monex 100;
  let sm := insert_test_validator sm bob s2 Active in
  let sm := set_active_set sm [al; bob] in
  let fees := 300 in
  sm ← distribute_fees sm fees;
  al_acct ← account sm al;
  bob_acct ← account sm bob;
  assert_eq (balance al_acct) 200 ;;
  assert_eq (balance bob_acct) 100.

Definition test_fee_distribution_remainder_goes_to_top : outcome unit :=
  let one_monex := ONE_MONEX in
  let sm := StateMachine_new [] in
  let al := alice in
  s1 ← u256_mul one_monex 3;
  let sm := insert_test_validator sm al s1 Active in
  s2 ← u256_mul one_monex 1;
  let sm := insert_test_validator sm bob s2 Active in
  let sm := set_active_set sm [al; bob] in
  sm ← distribute_fees sm 10;
  al_acct ← account sm al;
  bob_acct ← account sm bob;
  assert_eq (balance al_acct) 8 ;;
  assert_eq (balance bob_acct) 2.

Definition test_fee_distribution_integration_via_apply_block : outcome unit :=
  let one_monex := ONE_MONEX in
  initial ← u256_mul one_monex 1000;
  let sm := StateMachine_new [(alice, Account_new initial)] in
  let al := alice in
  s1 ← u256_mul one_monex 100;
  let sm := insert_test_validator sm al s1 Active in
  s2 ← u256_mul one_monex 100;
  let sm := insert_test_validator sm bob s2 Active in
  let sm := set_active_set sm [al; bob] in
  fee ← u256_mul one_monex 5;
  amount ← u256_mul one_monex 10;
  '(sm, receipt) ← apply sm (first_block al [test_tx 0 al fee (Transfer bob amount)]);
  assert_ (0 <? total_fees receipt) ;;
  al_acct ← account sm al;
  bob_acct ← account sm bob;
  assert_ (balance al_acct <? initial) ;;
  assert_ (amount <=? balance bob_acct).

Definition era_tests : list (outcome unit) :=
  [test_unstake_sets_release_era; test_unstake_by_other_sender; test_unstake_nonexistent_validator;
   test_unstake_amount_exceeds_stake; test_unstake_amount_zero; test_unstaking_cooldown_full;
   test_unstaking_cooldown_partial; test_thaw_updates_status; test_thaw_all_bulk; test_thaw_all_empty;
   test_thaw_all_not_due; test_fee_distribution_empty_set_noop; test_fee_distribution_zero_fees_noop;
   test_fee_distribution_proportional; test_fee_distribution_remainder_goes_to_top;
   test_fee_distribution_integration_via_apply_block].

(** ** Elections and slashing *)

(** The loop [for i in 0..n { .. sm.state.insert(..) }] over the entries it builds. *)
Definition insert_all (sm : StateMachine) (entries : list ValidatorEntry) : StateMachine :=
  foldl (fun sm e => insert_entry sm (ve_address e) e) sm entries.

Definition test_election_era_0_open : outcome unit :=
  let sm := StateMachine_new [] in
  let sm := insert_all sm (map (fun i => mkValidatorEntry (addr i) key42 0 Registered i) (seqZ 0 5)) in
  let addrs := map addr (seqZ 0 5) in
  let '(sm, active) := run_election sm addrs 3 0 in
  assert_eq (length active) 3%nat ;;
  assert_eq (active !! 0%nat) (Some (addr 0)) ;;
  assert_eq (active !! 1%nat) (Some (addr 1)) ;;
  assert_eq (active !! 2%nat) (Some (addr 2)) ;;
  for_each active (fun a => entry ← validator sm a; assert_eq (ve_status entry) Active) ;;
  entry ← validator sm (addr 3);
  assert_eq (ve_status entry) Registered.

Definition test_election_era_1_top_n : outcome unit :=
  let one_monex := ONE_MONEX in
  let sm := StateMachine_new [] in
  s0 ← u256_mul 100 one_monex;
  s1 ← u256_mul 50 one_monex;
  s2 ← u256_mul 200 one_monex;
  s3 ← u256_mul 30 one_monex;
  s4 ← u256_mul 75 one_monex;
  let stakes := [s0; s1; s2; s3; s4] in
  let sm := insert_all sm
    (imap (fun i stake => mkValidatorEntry (addr (Z.of_nat i)) key42 stake (Staked stake) (Z.of_nat i)) stakes) in
  let addrs := map addr (seqZ 0 5) in
  let '(sm, active) := run_election sm addrs 3 1 in
  assert_eq (length active) 3%nat ;;
  assert_eq (active !! 0%nat) (Some (addr 2)) ;;
  assert_eq (active !! 1%nat) (Some (addr 0)) ;;
  assert_eq (active !! 2%nat) (Some (addr 4)) ;;
  entry ← validator sm (addr 1);
  expected ← u256_mul 50 one_monex;
  assert_eq (ve_status entry) (Staked expected).

Definition test_election_frozen_excluded : outcome unit :=
  let sm := StateMachine_new [] in
  let sm := insert_all sm
    (map (fun i => mkValidatorEntry (addr i) key42 100 (if i =? 1 then Frozen 999 else Staked 100) i) (seqZ 0 3)) in
  let addrs := map addr (seqZ 0 3) in
  let '(sm, active) := run_election sm addrs 3 0 in
  assert_eq (length active) 2%nat ;;
  assert_eq (active !! 0%nat) (Some (addr 0)) ;;
  assert_eq (active !! 1%nat) (Some (addr 2)).

Definition slash (sm : StateMachine) (proposer_hash : array 32) (reporter : Address) (era : Z) :
    outcome (StateMachine * SlashResult) :=
  '(sm, r) ← apply_slash sm proposer_hash reporter era;
  result ← unwrap_ok r;
  Ret (sm, result).

Definition test_apply_slash_1000_monex : outcome unit :=
  let one_monex := ONE_MONEX in
  let sm := StateMachine_new [] in
  let val_addr := alice in
  stake ← u256_mul 1000 one_monex;
  let sm := insert_entry sm val_addr (mkValidatorEntry val_addr key42 stake Active 0) in
  '(sm, result) ← slash sm (as_bytes val_addr) bob 0;
  m900 ← u256_mul 900 one_monex;
  m810 ← u256_mul 810 one_monex;
  m90 ← u256_mul 90 one_monex;
  m100 ← u256_mul 100 one_monex;
  assert_eq (slashed_amount result) m900 ;;
  assert_eq (burn_amount result) m810 ;;
  assert_eq (bounty_amount result) m90 ;;
  assert_eq (remaining_stake result) m100 ;;
  entry ← validator sm val_addr;
  assert_eq (ve_stake entry) m100 ;;
  assert_eq (ve_status entry) (Frozen 72).

(** [U256::from(9) * one_monex * U256::from(p) / U256::from(100)] *)
Definition nine_percent (p : Z) : outcome Z := m ← u256_mul 9 ONE_MONEX; m ← u256_mul m p; u256_div m 100.

Definition test_apply_slash_10_monex : outcome unit :=
  let one_monex := ONE_MONEX in
  let sm := StateMachine_new [] in
  let val_addr := alice in
  stake ← u256_mul 10 one_monex;
  let sm := insert_entry sm val_addr (mkValidatorEntry val_addr key42 stake Active 0) in
  '(sm, result) ← slash sm (as_bytes val_addr) bob 5;
  m9 ← u256_mul 9 one_monex;
  assert_eq (slashed_amount result) m9 ;;
  burned ← nine_percent 90;
  assert_eq (burn_amount result) burned ;;
  bounty ← nine_percent 10;
  assert_eq (bounty_amount result) bounty ;;
  assert_eq (remaining_stake result) one_monex ;;
  entry ← validator sm val_addr;
  assert_eq (ve_status entry) (Frozen 77).

Definition test_apply_slash_already_frozen_rejected : outcome unit :=
  let one_monex := ONE_MONEX in
  let sm := StateMachine_new [] in
  let val_addr := alice in
  stake ← u256_mul 500 one_monex;
  let sm := insert_entry sm val_addr (mkValidatorEntry val_addr key42 stake (Frozen 72) 0) in
  '(sm, r) ← apply_slash sm (as_bytes val_addr) bob 0;
  err ← unwrap_err r;
  assert_ (match err with AlreadyFrozen => true | _ => false end).

Definition test_apply_slash_nonexistent_validator : outcome unit :=
  let sm := StateMachine_new [] in
  let proposer_hash := array_repeat 32 xff in
  '(sm, r) ← apply_slash sm proposer_hash bob 0;
  err ← unwrap_err r;
  assert_ (match err with ValidatorNotFound _ => true | _ => false end).

Definition test_apply_slash_credits_reporter_account : outcome unit :=
  let one_monex := ONE_MONEX in
  let sm := StateMachine_new [] in
  let val_addr := alice in
  let reporter_addr := bob in
  b ← u256_mul 100 one_monex;
  let sm := insert_account sm reporter_addr (Account_new b) in
  stake ← u256_mul 1000 one_monex;
  let sm := insert_entry sm val_addr (mkValidatorEntry val_addr key42 stake Active 0) in
  '(sm, _) ← slash sm (as_bytes val_addr) reporter_addr 0;
  reporter_post ← account sm reporter_addr;
  expected ← u256_mul 190 one_monex;
  assert_eq (balance reporter_post) expected.

Definition test_apply_slash_burns_to_permanent : outcome unit :=
  let one_monex := ONE_MONEX in
  let sm := StateMachine_new [] in
  let val_addr := alice in
  stake ← u256_mul 1000 one_monex;
  let sm := insert_entry sm val_addr (mkValidatorEntry val_addr key42 stake Active 0) in
  '(sm, _) ← slash sm (as_bytes val_addr) bob 0;
  burn_acct ← account sm burn_address;
  expected ← u256_mul 810 one_monex;
  assert_eq (balance burn_acct) expected.

(** ** The validator index *)

Definition contains (l : list Address) (a : Address) : bool := bool_decide (a ∈ l).

Definition test_list_validator_addresses_empty : outcome unit :=
  let sm := StateMachine_new [] in
  assert_eq (list_validator_addresses sm) [].

Definition test_list_validator_addresses_after_register : outcome unit :=
  let sm := StateMachine_new [(alice, make_account 0)] in
  b ← u256_add 1000 ANTI_SPAM_DEPOSIT;
  sm ← setup_alice_with_balance sm b;
  sm ← create_validator sm alice key42 0 50;
  let addrs := list_validator_addresses sm in
  assert_eq (length addrs) 1%nat ;;
  assert_ (contains addrs alice).

Definition test_list_validator_addresses_multiple : outcome unit :=
  let sm := StateMachine_new [(alice, make_account 0); (bob, make_account 0)] in
  b ← u256_add 1000 ANTI_SPAM_DEPOSIT;
  sm ← setup_alice_with_balance sm b;
  sm ← setup_bob_with_balance sm b;
  sm ← create_validator sm alice key42 0 50;
  sm ← create_validator sm bob key43 0 50;
  let addrs := list_validator_addresses sm in
  assert_eq (length addrs) 2%nat ;;
  assert_ (contains addrs alice) ;;
  assert_ (contains addrs bob).

Definition test_list_validator_addresses_after_stake : outcome unit :=
  let sm := StateMachine_new [(alice, make_account 0); (bob, make_account 0)] in
  b ← u256_add 2000 ANTI_SPAM_DEPOSIT;
  sm ← setup_alice_with_balance sm b;
  sm ← setup_bob_with_balance sm b;
  sm ← create_validator sm alice key42 0 50;
  sm ← create_validator sm bob key43 0 50;
  '(sm, _) ← apply sm (second_block bob [test_tx 1 alice 75 (Stake bob 200)]);
  let addrs := list_validator_addresses sm in
  assert_eq (length addrs) 2%nat ;;
  assert_ (contains addrs alice) ;;
  assert_ (contains addrs bob).

Definition election_tests : list (outcome unit) :=
  [test_election_era_0_open; test_election_era_1_top_n; test_election_frozen_excluded;
   test_apply_slash_1000_monex; test_apply_slash_10_monex; test_apply_slash_already_frozen_rejected;
   test_apply_slash_nonexistent_validator; test_apply_slash_credits_reporter_account;
   test_apply_slash_burns_to_permanent; test_list_validator_addresses_empty;
   test_list_validator_addresses_after_register; test_list_validator_addresses_multiple;
   test_list_validator_addresses_after_stake].

(** ** Every test passes *)

Lemma transfer_tests_pass : forallb passes transfer_tests = true.
Proof. by vm_compute. Qed.

Lemma registration_tests_pass : forallb passes registration_tests = true.
Proof. by vm_compute. Qed.

Lemma era_tests_pass : forallb passes era_tests = true.
Proof. by vm_compute. Qed.

Lemma election_tests_pass : forallb passes election_tests = true.
Proof. by vm_compute. Qed.
