(* ===== verification/ConsensusTests.v ===== *)
(** * The unit tests of [consensus/]

    [supply.rs], [finality.rs], [fork_choice.rs], [proposer.rs], [era.rs],
    [election.rs], [slashing.rs], [mod.rs] and [engine.rs], each test as a
    definition.  Its three property tests quantify over their inputs: they are
    definitions with arguments, and theorems say on which inputs they return. *)
From Stdlib Require Import Strings.Byte Strings.String.
From stdpp Require Import base gmap sets list strings countable sorting.
From Stdlib Require Import ZArith Lia.
From S2P Require Import Prelude Types External Toy Trie Account State Ledger Refine Scenario Supply Finality Schedule Mempool Storage Genesis Slashing Engine Wallet Testing.

Import TestInstances.
#[local] Existing Instance toy_fndsa.
#[local] Remove Hints toy_blake3 : typeclass_instances.

(** ** [supply.rs] *)

Definition test_fixed_supply_always_zero : outcome unit :=
  let fs := FixedSupply_new in
  r ← block_reward fs 0 0 1000;
  assert_eq r 0 ;;
  r ← block_reward fs 1000000 500 1000;
  assert_eq r 0.

Definition test_empty_supply_is_flat_phase : outcome unit :=
  let effective_max := 10000000000 in
  reward ← compute_reward 0 effective_max 350 500;
  assert_ (0 <? reward) ;;
  assert_eq reward 55.

Definition test_at_cap_returns_zero : outcome unit :=
  let effective_max := 10000000000 in
  reward ← compute_reward effective_max effective_max 350 500;
  assert_eq reward 0.

Definition test_above_cap_returns_zero : outcome unit :=
  let max := 1000 in
  reward ← compute_reward 1500 max 350 500;
  assert_eq reward 0.

Definition test_headroom_term_dominates_when_supply_high : outcome unit :=
  let max := 1000000000 in
  let supply := 900000000 in
  reward ← compute_reward supply max 350 500;
  assert_eq reward 0.

Definition test_ceiling_term_dominates_at_low_supply : outcome unit :=
  let max := 1000000000 in
  let supply := 100000000 in
  reward ← compute_reward supply max 350 500;
  assert_ (0 <? reward).

Definition test_new_uses_default_params : outcome unit :=
  let ci := CappedInflation_new in
  assert_eq (base_max_supply ci) BASE_MAX_SUPPLY ;;
  assert_eq (ceiling_rate ci) SUPPLY_CEILING_RATE ;;
  assert_eq (headroom_rate ci) SUPPLY_HEADROOM_RATE.

Definition test_big_supply_comparison : outcome unit :=
  let max := 10000000000000 in
  let supply := 3000000000000 in
  reward ← compute_reward supply max 350 500;
  assert_ (0 <? reward) ;;
  expected ← u256_div 350000000000 BLOCKS_PER_YEAR;
  assert_eq reward expected.

Definition test_fixed_via_trait : outcome unit :=
  let fs := FixedSupply_new in
  r ← block_reward fs 0 0 0;
  assert_eq r 0.

Definition test_capped_via_trait : outcome unit :=
  let ci := CappedInflation_new in
  reward ← block_reward ci 0 0 1000000000000;
  assert_ (0 <? reward).

Definition test_ceiling_exactly_at_headroom : outcome unit :=
  let effective_max := 10000000000 in
  reward ← compute_reward 0 effective_max 500 500;
  assert_eq reward 79.

Definition test_ceiling_term_when_tied : outcome unit :=
  let max := 1000000000 in
  let supply := 300000000 in
  reward ← compute_reward supply max 350 500;
  expected ← u256_div 35000000 BLOCKS_PER_YEAR;
  assert_eq reward expected.

Definition test_with_params_non_default : outcome unit :=
  let ci := with_params 1000 100 200 in
  assert_eq (base_max_supply ci) 1000 ;;
  assert_eq (ceiling_rate ci) 100 ;;
  assert_eq (headroom_rate ci) 200.

Definition test_supply_just_below_cap : outcome unit :=
  let max := 1000000000 in
  let supply := 999999999 in
  reward ← compute_reward supply max 350 500;
  assert_eq reward 0.

Definition test_supply_mid_range_ceiling_binds : outcome unit :=
  let max := 10000000000000 in
  let supply := 1000000000000 in
  reward ← compute_reward supply max 350 500;
  let ceiling_term := 350000000000 in
  expected ← u256_div ceiling_term BLOCKS_PER_YEAR;
  assert_eq reward expected.

Definition test_fixed_supply_default_via_trait : outcome unit :=
  let fs := FixedSupply_new in
  r ← block_reward fs 0 0 0;
  assert_eq r 0.

(** [CappedInflation::default()] is [CappedInflation::new()]. *)
Definition test_capped_inflation_default_via_trait : outcome unit :=
  let ci := CappedInflation_new in
  reward ← block_reward ci 0 0 1000000000000;
  assert_ (0 <? reward).

Definition supply_tests : list (outcome unit) :=
  [test_fixed_supply_always_zero; test_empty_supply_is_flat_phase; test_at_cap_returns_zero;
   test_above_cap_returns_zero; test_headroom_term_dominates_when_supply_high;
   test_ceiling_term_dominates_at_low_supply; test_new_uses_default_params; test_big_supply_comparison;
   test_fixed_via_trait; test_capped_via_trait; test_ceiling_exactly_at_headroom;
   test_ceiling_term_when_tied; test_with_params_non_default; test_supply_just_below_cap;
   test_supply_mid_range_ceiling_binds;
   test_fixed_supply_default_via_trait; test_capped_inflation_default_via_trait].

(** ** [finality.rs] *)

Definition vote (height : Z) (validator : Address) : CommitVote :=
  mkCommitVote height (array_repeat 32 x00) validator (sig_of x00).
Definition weights (validators : list (Address * Z)) : gmap Address Z := list_to_map validators.

Definition test_new_tracker_has_no_commits : outcome unit :=
  let w := weights [(addr 0xAA, 100)] in
  let tracker := tracker_new w in
  assert_ (negb (is_final tracker 1)) ;;
  assert_eq (last_finalized_height tracker) 0.

Definition test_add_vote_accepts_validator_vote : outcome unit :=
  let tracker := tracker_new (weights [(addr 0xAA, 100)]) in
  let '(tracker, r) := add_vote tracker (vote 1 (addr 0xAA)) in
  assert_ r.

Definition test_add_vote_rejects_non_active : outcome unit :=
  let tracker := tracker_new (weights [(addr 0xAA, 100)]) in
  let '(tracker, r) := add_vote tracker (vote 1 (addr 0xBB)) in
  assert_ (negb r).

Definition test_add_vote_rejects_duplicate : outcome unit :=
  let tracker := tracker_new (weights [(addr 0xAA, 100)]) in
  let '(tracker, r) := add_vote tracker (vote 1 (addr 0xAA)) in
  assert_ r ;;
  let '(tracker, r) := add_vote tracker (vote 1 (addr 0xAA)) in
  assert_ (negb r).

Definition test_add_vote_different_heights_allowed : outcome unit :=
  let tracker := tracker_new (weights [(addr 0xAA, 100)]) in
  let '(tracker, r) := add_vote tracker (vote 1 (addr 0xAA)) in
  assert_ r ;;
  let '(tracker, r) := add_vote tracker (vote 2 (addr 0xAA)) in
  assert_ r.

Definition test_cumulative_weight_zero_for_no_votes : outcome unit :=
  let tracker := tracker_new (weights [(addr 0xAA, 100)]) in
  assert_eq (cumulative_weight tracker 1) 0.

Definition test_cumulative_weight_sums_unique_validators : outcome unit :=
  let tracker := tracker_new (weights [(addr 0xAA, 100); (addr 0xBB, 200)]) in
  let '(tracker, _) := add_vote tracker (vote 1 (addr 0xAA)) in
  assert_eq (cumulative_weight tracker 1) 100 ;;
  let '(tracker, _) := add_vote tracker (vote 1 (addr 0xBB)) in
  assert_eq (cumulative_weight tracker 1) 300.

Definition test_cumulative_weight_ignores_duplicate : outcome unit :=
  let tracker := tracker_new (weights [(addr 0xAA, 100)]) in
  let '(tracker, _) := add_vote tracker (vote 1 (addr 0xAA)) in
  let '(tracker, _) := add_vote tracker (vote 1 (addr 0xAA)) in
  assert_eq (cumulative_weight tracker 1) 100.

Definition test_is_final_false_below_threshold : outcome unit :=
  let vals := [(addr 0xAA, 100); (addr 0xBB, 100); (addr 0xCC, 100)] in
  let tracker := tracker_new (weights vals) in
  let '(tracker, _) := add_vote tracker (vote 1 (addr 0xAA)) in
  assert_ (negb (is_final tracker 1)).

Definition test_is_final_true_when_exceeds_two_thirds : outcome unit :=
  let vals := [(addr 0xAA, 100); (addr 0xBB, 100); (addr 0xCC, 100)] in
  let tracker := tracker_new (weights vals) in
  let '(tracker, _) := add_vote tracker (vote 1 (addr 0xAA)) in
  let '(tracker, _) := add_vote tracker (vote 1 (addr 0xBB)) in
  let '(tracker, _) := add_vote tracker (vote 1 (addr 0xCC)) in
  assert_ (is_final tracker 1).

Definition test_is_final_false_at_exactly_two_thirds : outcome unit :=
  let vals := [(addr 0xAA, 100); (addr 0xBB, 50)] in
  let tracker := tracker_new (weights vals) in
  let '(tracker, _) := add_vote tracker (vote 1 (addr 0xAA)) in
  assert_ (negb (is_final tracker 1)).

Definition test_is_final_crosses_at_two_validators_out_of_three : outcome unit :=
  let vals := [(addr 0xAA, 50); (addr 0xBB, 30); (addr 0xCC, 20)] in
  let tracker := tracker_new (weights vals) in
  let '(tracker, _) := add_vote tracker (vote 1 (addr 0xAA)) in
  let '(tracker, _) := add_vote tracker (vote 1 (addr 0xBB)) in
  assert_ (is_final tracker 1).

Definition finality_tests : list (outcome unit) :=
  [test_new_tracker_has_no_commits; test_add_vote_accepts_validator_vote; test_add_vote_rejects_non_active;
   test_add_vote_rejects_duplicate; test_add_vote_different_heights_allowed;
   test_cumulative_weight_zero_for_no_votes; test_cumulative_weight_sums_unique_validators;
   test_cumulative_weight_ignores_duplicate; test_is_final_false_below_threshold;
   test_is_final_true_when_exceeds_two_thirds; test_is_final_false_at_exactly_two_thirds;
   test_is_final_crosses_at_two_validators_out_of_three].

(** ** [fork_choice.rs] *)

#[local] Instance ForkChoiceResult_eq_dec : EqDecision ForkChoiceResult.
Proof. solve_decision. Defined.

Definition block (proposer : Address) : Block :=
  mkBlock (mkBlockHeader 1 (array_repeat 32 x00) (array_repeat 32 x00) (array_repeat 32 x00) 1700000000
             proposer 0 (sig_of xcd)) (mkBlockBody []).
Definition hashmap (data : list (Z * Z)) : gmap Address Z := list_to_map (map (fun p => (addr p.1, p.2)) data).

Definition test_heavier_chain_wins : outcome unit :=
  let chain_a := [block (addr 1); block (addr 2); block (addr 3)] in
  let chain_b := [block (addr 4); block (addr 5)] in
  let stakes := hashmap [(1, 100); (2, 100); (3, 100); (4, 200); (5, 200)] in
  r ← select_canonical chain_a chain_b stakes;
  assert_eq r PreferB.

Definition test_lighter_chain_loses : outcome unit :=
  let chain_a := [block (addr 1); block (addr 2)] in
  let chain_b := [block (addr 3)] in
  let stakes := hashmap [(1, 100); (2, 100); (3, 100)] in
  r ← select_canonical chain_a chain_b stakes;
  assert_eq r PreferA.

Definition test_equal_weight_returns_equal : outcome unit :=
  let chain_a := [block (addr 1)] in
  let chain_b := [block (addr 2)] in
  let stakes := hashmap [(1, 100); (2, 100)] in
  r ← select_canonical chain_a chain_b stakes;
  assert_eq r ForkEqual.

Definition test_unique_proposer_not_duplicate : outcome unit :=
  let chain_a := List.repeat (block (addr 1)) 10 in
  let chain_b := List.repeat (block (addr 2)) 1 in
  let stakes := hashmap [(1, 50); (2, 100)] in
  r ← select_canonical chain_a chain_b stakes;
  assert_eq r PreferB.

Definition test_unknown_proposer_has_zero_weight : outcome unit :=
  let chain := [block (addr 1); block (addr 99)] in
  let stakes := hashmap [(1, 100)] in
  w ← total_stake_backing chain stakes;
  assert_eq w 100.

Definition test_empty_chain_returns_zero : outcome unit :=
  let stakes := hashmap [(1, 100)] in
  w ← total_stake_backing [] stakes;
  assert_eq w 0.

Definition test_empty_stakes_returns_zero : outcome unit :=
  let chain := [block (addr 1)] in
  w ← total_stake_backing chain ∅;
  assert_eq w 0.

Definition fork_choice_tests : list (outcome unit) :=
  [test_heavier_chain_wins; test_lighter_chain_loses; test_equal_weight_returns_equal;
   test_unique_proposer_not_duplicate; test_unknown_proposer_has_zero_weight;
   test_empty_chain_returns_zero; test_empty_stakes_returns_zero].

(** ** [proposer.rs] *)

Definition test_round_robin_cycles : outcome unit :=
  let rr := RoundRobin_new in
  let set := [addr 1; addr 2; addr 3] in
  p ← select_proposer rr 0 set; assert_eq p (addr 1) ;;
  p ← select_proposer rr 1 set; assert_eq p (addr 2) ;;
  p ← select_proposer rr 2 set; assert_eq p (addr 3) ;;
  p ← select_proposer rr 3 set; assert_eq p (addr 1) ;;
  p ← select_proposer rr 4 set; assert_eq p (addr 2).

Definition test_round_robin_single_validator : outcome unit :=
  let rr := RoundRobin_new in
  let set := [addr 5] in
  for_each (seqZ 0 10) (fun slot => p ← select_proposer rr slot set; assert_eq p (addr 5)).

Definition test_round_robin_large_slot_number : outcome unit :=
  let rr := RoundRobin_new in
  let set := [addr 1; addr 2] in
  p ← select_proposer rr U64_MAX set;
  expected ← index set (U64_MAX mod 2);
  assert_eq p expected.

Definition test_round_robin_empty_set_panics : outcome unit :=
  should_panic (
    let rr := RoundRobin_new in
    select_proposer rr 0 []).

Definition test_round_robin_two_validators_alternate : outcome unit :=
  let rr := RoundRobin_new in
  let set := [addr 1; addr 2] in
  for_each (seqZ 0 20) (fun slot =>
    let expected := if slot mod 2 =? 0 then addr 1 else addr 2 in
    p ← select_proposer rr slot set;
    assert_eq p expected).

Definition test_proposer_schedule_cycles_with_start_height : outcome unit :=
  let set := [addr 1; addr 2; addr 3] in
  let sched := ProposerSchedule_new set 1 100 in
  p ← proposer_for_height sched 100; assert_eq p (addr 1) ;;
  p ← proposer_for_height sched 101; assert_eq p (addr 2) ;;
  p ← proposer_for_height sched 102; assert_eq p (addr 3) ;;
  p ← proposer_for_height sched 103; assert_eq p (addr 1).

Definition test_proposer_schedule_single_validator : outcome unit :=
  let set := [addr 42] in
  let sched := ProposerSchedule_new set 1 50 in
  for_each (seqZ 50 50) (fun h => p ← proposer_for_height sched h; assert_eq p (addr 42)).

Definition test_proposer_schedule_with_start_height_zero : outcome unit :=
  let set := [addr 1; addr 2] in
  let sched := ProposerSchedule_new set 0 0 in
  p ← proposer_for_height sched 0; assert_eq p (addr 1) ;;
  p ← proposer_for_height sched 1; assert_eq p (addr 2) ;;
  p ← proposer_for_height sched 2; assert_eq p (addr 1).

Definition test_is_scheduled_proposer : outcome unit :=
  let set := [addr 10; addr 20; addr 30] in
  let sched := ProposerSchedule_new set 1 0 in
  b ← is_scheduled_proposer sched (addr 10) 0; assert_ b ;;
  b ← is_scheduled_proposer sched (addr 20) 1; assert_ b ;;
  b ← is_scheduled_proposer sched (addr 30) 2; assert_ b ;;
  b ← is_scheduled_proposer sched (addr 99) 0; assert_ (negb b).

Definition test_proposer_schedule_accessors : outcome unit :=
  let set := [addr 1] in
  let sched := ProposerSchedule_new set 2 200 in
  assert_eq (sch_active_set sched) set ;;
  assert_eq (sch_era sched) 2 ;;
  assert_eq (sch_start_height sched) 200.

Definition test_proposer_schedule_empty_set_panics : outcome unit :=
  should_panic (
    let sched := ProposerSchedule_new [] 1 0 in
    proposer_for_height sched 0).

Definition proposer_tests : list (outcome unit) :=
  [test_round_robin_cycles; test_round_robin_single_validator; test_round_robin_large_slot_number;
   test_round_robin_empty_set_panics; test_round_robin_two_validators_alternate;
   test_proposer_schedule_cycles_with_start_height; test_proposer_schedule_single_validator;
   test_proposer_schedule_with_start_height_zero; test_is_scheduled_proposer;
   test_proposer_schedule_accessors; test_proposer_schedule_empty_set_panics].

(** ** [era.rs] and [mod.rs] *)

#[local] Instance ElectionMode_eq_dec : EqDecision ElectionMode.
Proof. solve_decision. Defined.

Definition test_era_0_at_genesis : outcome unit :=
  assert_eq (era_at_height 0) 0 ;;
  assert_eq (era_at_height 1) 0 ;;
  assert_eq (era_at_height 719) 0.

Definition test_era_1_starts_at_720 : outcome unit :=
  assert_eq (era_at_height 720) 1 ;;
  assert_eq (era_at_height 721) 1 ;;
  assert_eq (era_at_height 1439) 1.

Definition test_era_2_at_1440 : outcome unit := assert_eq (era_at_height 1440) 2.

Definition test_is_era_boundary : outcome unit :=
  assert_ (negb (is_era_boundary 0)) ;;
  assert_ (negb (is_era_boundary 1)) ;;
  assert_ (is_era_boundary 720) ;;
  assert_ (is_era_boundary 1440) ;;
  assert_ (negb (is_era_boundary 1441)).

Definition test_election_mode_era_0 : outcome unit :=
  let mode := election_mode_for_era 0 None in
  assert_eq mode Open.

Definition test_election_mode_era_1_uses_top_n : outcome unit :=
  let mode := election_mode_for_era 1 (Some 21) in
  assert_eq mode (TopN 21).

Definition test_election_mode_defaults_to_max_validators : outcome unit :=
  let mode := election_mode_for_era 1 None in
  assert_eq mode (TopN MAX_VALIDATORS).

Definition test_era_start_height : outcome unit :=
  h ← era_start_height 0; assert_eq h 0 ;;
  h ← era_start_height 1; assert_eq h 720 ;;
  h ← era_start_height 2; assert_eq h 1440.

Definition test_era_end_height : outcome unit :=
  h ← era_end_height 0; assert_eq h 719 ;;
  h ← era_end_height 1; assert_eq h 1439 ;;
  h ← era_end_height 2; assert_eq h 2159.

Definition test_large_era_number : outcome unit :=
  let era := era_at_height 100000000 in
  assert_eq era (100000000 / 720) ;;
  assert_ (is_era_boundary (720 * 100000)).

Definition test_missed_slot_penalty_constant : outcome unit :=
  let expected := U256_limbs 3722066015023005696 433680868994 0 0 in
  assert_eq ERA_MISSED_SLOT_PENALTY expected.

Definition test_compute_penalty_zero_missed : outcome unit :=
  p ← compute_missed_slot_penalty 0; assert_eq p 0.

Definition test_compute_penalty_one_missed : outcome unit :=
  p ← compute_missed_slot_penalty 1; assert_eq p ERA_MISSED_SLOT_PENALTY.

Definition test_compute_penalty_ten_missed : outcome unit :=
  expected ← u256_mul ERA_MISSED_SLOT_PENALTY 10;
  p ← compute_missed_slot_penalty 10; assert_eq p expected.

Definition test_compute_penalty_full_era_missed : outcome unit :=
  expected ← u256_mul ERA_MISSED_SLOT_PENALTY 720;
  p ← compute_missed_slot_penalty 720; assert_eq p expected.

Definition test_default_config : outcome unit :=
  let cfg := ConsensusConfig_default in
  assert_eq (block_time cfg) 5 ;;
  assert_eq (era_length cfg) 720 ;;
  assert_eq (max_validators cfg) MAX_VALIDATORS.

Definition test_custom_config : outcome unit :=
  let cfg := ConsensusConfig_new 3 360 10 in
  assert_eq (block_time cfg) 3 ;;
  assert_eq (era_length cfg) 360 ;;
  assert_eq (max_validators cfg) 10.

Definition era_tests : list (outcome unit) :=
  [test_era_0_at_genesis; test_era_1_starts_at_720; test_era_2_at_1440; test_is_era_boundary;
   test_election_mode_era_0; test_election_mode_era_1_uses_top_n;
   test_election_mode_defaults_to_max_validators; test_era_start_height; test_era_end_height;
   test_large_era_number; test_missed_slot_penalty_constant; test_compute_penalty_zero_missed;
   test_compute_penalty_one_missed; test_compute_penalty_ten_missed; test_compute_penalty_full_era_missed;
   test_default_config; test_custom_config].

(** ** [election.rs] *)

Definition candidate (b stake : Z) : ValidatorCandidate := ValidatorCandidate_new (addr b) stake.

Definition test_top_n_sorts_by_stake_desc : outcome unit :=
  let election := TopNElection_new in
  let candidates := [candidate 1 50; candidate 2 200; candidate 3 100] in
  let elected := elect election candidates 10 in
  assert_eq (length elected) 3%nat ;;
  a ← index elected 0; assert_eq a (addr 2) ;;
  a ← index elected 1; assert_eq a (addr 3) ;;
  a ← index elected 2; assert_eq a (addr 1).

Definition test_top_n_respects_max : outcome unit :=
  let election := TopNElection_new in
  let candidates := [candidate 1 100; candidate 2 200; candidate 3 300] in
  let elected := elect election candidates 2 in
  assert_eq (length elected) 2%nat ;;
  a ← index elected 0; assert_eq a (addr 3) ;;
  a ← index elected 1; assert_eq a (addr 2).

Definition test_top_n_tie_break_by_address : outcome unit :=
  let election := TopNElection_new in
  let candidates := [candidate 3 100; candidate 1 100; candidate 2 100] in
  let elected := elect election candidates 10 in
  a ← index elected 0; assert_eq a (addr 1) ;;
  a ← index elected 1; assert_eq a (addr 2) ;;
  a ← index elected 2; assert_eq a (addr 3).

Definition test_top_n_empty_candidates : outcome unit :=
  let election := TopNElection_new in
  let elected := elect election [] 10 in
  assert_eq elected [].

Definition test_top_n_zero_max : outcome unit :=
  let election := TopNElection_new in
  let candidates := [candidate 1 100] in
  let elected := elect election candidates 0 in
  assert_eq elected [].

Definition test_top_n_more_candidates_than_max : outcome unit :=
  let election := TopNElection_new in
  let candidates := map (fun i => candidate i (i * 10)) (seqZ 0 10) in
  let elected := elect election candidates 3 in
  assert_eq (length elected) 3%nat ;;
  a ← index elected 0; assert_eq a (addr 9) ;;
  a ← index elected 1; assert_eq a (addr 8) ;;
  a ← index elected 2; assert_eq a (addr 7).

Definition test_top_n_single_candidate : outcome unit :=
  let election := TopNElection_new in
  let candidates := [candidate 5 500] in
  let elected := elect election candidates 1 in
  assert_eq elected [addr 5].

Definition election_tests : list (outcome unit) :=
  [test_top_n_sorts_by_stake_desc; test_top_n_respects_max; test_top_n_tie_break_by_address;
   test_top_n_empty_candidates; test_top_n_zero_max; test_top_n_more_candidates_than_max;
   test_top_n_single_candidate].

(** ** [slashing.rs] *)

Definition slash_header (height : Z) (parent : byte) : BlockHeader :=
  mkBlockHeader height (array_repeat 32 parent) (array_repeat 32 x00) (array_repeat 32 x00) 1700000000
    (address_from (array_repeat 32 x01)) 0 (sig_of xcd).

Definition set_tx_root (h : BlockHeader) (r : array 32) : BlockHeader :=
  mkBlockHeader (hdr_height h) (hdr_parent_hash h) (hdr_global_state_root h) r (hdr_timestamp h)
    (hdr_proposer h) (hdr_chain_id h) (hdr_proposer_signature h).

Definition dummy_keypair : outcome (array 897 * Falcon512KeyPair) :=
  let seed := List.repeat xab 48 in
  kp ← unwrap_ok (falcon_generate seed);
  pk ← falcon_public_key_bytes kp;
  Ret (pk, kp).

Definition sign_header (kp : Falcon512KeyPair) (header : BlockHeader) : outcome Falcon512Signature :=
  let encoded := enc sc_header header in
  r ← falcon_sign kp encoded;
  unwrap_ok r.

(** [assert_eq!(verify_equivocation(..), Err(e))] for the errors of the check. *)
Definition rejected_with (r : Result unit) (e : LibError) : outcome unit :=
  match r with
  | Ok _ => Panic
  | Err x =>
      match x, e with
      | EquivocationHeightMismatch a b, EquivocationHeightMismatch a' b' => assert_ ((a =? a') && (b =? b'))
      | EquivocationParentMismatch, EquivocationParentMismatch
      | EquivocationIdenticalBlocks, EquivocationIdenticalBlocks
      | EquivocationSigAInvalid, EquivocationSigAInvalid
      | EquivocationSigBInvalid, EquivocationSigBInvalid => Ret tt
      | _, _ => Panic
      end
  end.

Definition test_verify_valid_evidence_accepted : outcome unit :=
  '(pk, kp) ← dummy_keypair;
  let h1 := slash_header 5 xbb in
  let h2 := set_tx_root (slash_header 5 xbb) (array_repeat 32 xcc) in
  s1 ← sign_header kp h1;
  s2 ← sign_header kp h2;
  let evidence := mkEvidence h1 s1 h2 s2 (array_repeat 32 x01) in
  assert_ (is_ok (verify_equivocation evidence pk)).

Definition test_verify_height_mismatch : outcome unit :=
  '(pk, _) ← dummy_keypair;
  let h1 := slash_header 5 xbb in
  let h2 := slash_header 6 xbb in
  let evidence := mkEvidence h1 (sig_of x00) h2 (sig_of x00) (array_repeat 32 x01) in
  rejected_with (verify_equivocation evidence pk) (EquivocationHeightMismatch 5 6).

Definition test_verify_parent_hash_mismatch : outcome unit :=
  '(pk, _) ← dummy_keypair;
  let h1 := slash_header 5 xbb in
  let h2 := slash_header 5 xcc in
  let evidence := mkEvidence h1 (sig_of x00) h2 (sig_of x00) (array_repeat 32 x01) in
  rejected_with (verify_equivocation evidence pk) EquivocationParentMismatch.

Definition test_verify_identical_blocks : outcome unit :=
  '(pk, kp) ← dummy_keypair;
  let h1 := slash_header 5 xbb in
  let h2 := slash_header 5 xbb in
  s1 ← sign_header kp (slash_header 5 xbb);
  s2 ← sign_header kp (slash_header 5 xbb);
  let evidence := mkEvidence h1 s1 h2 s2 (array_repeat 32 x01) in
  rejected_with (verify_equivocation evidence pk) EquivocationIdenticalBlocks.

Definition test_verify_invalid_sig_a : outcome unit :=
  '(pk, kp) ← dummy_keypair;
  let h2 := set_tx_root (slash_header 5 xbb) (array_repeat 32 xcc) in
  s2 ← sign_header kp (slash_header 5 xbb);
  let evidence := mkEvidence (slash_header 5 xbb) (sig_of x00) h2 s2 (array_repeat 32 x01) in
  rejected_with (verify_equivocation evidence pk) EquivocationSigAInvalid.

Definition test_verify_invalid_sig_b : outcome unit :=
  '(pk, kp) ← dummy_keypair;
  let h2 := set_tx_root (slash_header 5 xbb) (array_repeat 32 xcc) in
  s1 ← sign_header kp (slash_header 5 xbb);
  let evidence := mkEvidence (slash_header 5 xbb) s1 h2 (sig_of x00) (array_repeat 32 x01) in
  rejected_with (verify_equivocation evidence pk) EquivocationSigBInvalid.

Definition slashing_tests : list (outcome unit) :=
  [test_verify_valid_evidence_accepted; test_verify_height_mismatch; test_verify_parent_hash_mismatch;
   test_verify_identical_blocks; test_verify_invalid_sig_a; test_verify_invalid_sig_b].

(** ** [engine.rs] *)

Definition dummy_block (height : Z) (proposer : Address) : outcome Block :=
  timestamp ← u64_add 1700000000 height;
  Ret (mkBlock (mkBlockHeader height (array_repeat 32 x00) (array_repeat 32 x00) (array_repeat 32 x00)
                  timestamp proposer 0 (sig_of xcd)) (mkBlockBody [])).

Definition set_parent_hash (b : Block) (p : array 32) : Block :=
  let h := blk_header b in
  mkBlock (mkBlockHeader (hdr_height h) p (hdr_global_state_root h) (hdr_tx_root h) (hdr_timestamp h)
             (hdr_proposer h) (hdr_chain_id h) (hdr_proposer_signature h)) (blk_body b).

Definition default_engine : ConsensusEngine := ConsensusEngine_new ConsensusConfig_default.

Definition test_build_block_increments_height : outcome unit :=
  let engine := default_engine in
  let proposer := addr 1 in
  parent ← dummy_block 0 (addr 0);
  let state := StateMachine_new [] in
  '(block, _) ← build_block engine state [] parent proposer 1700000001 (sig_of xcd);
  assert_eq (hdr_height (blk_header block)) 1 ;;
  assert_eq (hdr_proposer (blk_header block)) proposer ;;
  assert_eq (length (transactions (blk_body block))) 0%nat.

Definition test_build_block_parent_hash_links : outcome unit :=
  let engine := default_engine in
  parent ← dummy_block 5 (addr 1);
  let expected_parent_hash := blake3 (enc sc_header (blk_header parent)) in
  let state := StateMachine_new [] in
  '(block, _) ← build_block engine state [] parent (addr 2) 1700000006 (sig_of xcd);
  assert_eq (hdr_parent_hash (blk_header block)) expected_parent_hash.

Definition test_validate_block_correct_passes : outcome unit :=
  let engine := default_engine in
  let proposer := addr 1 in
  let schedule := ProposerSchedule_new [proposer] 1 0 in
  tip ← dummy_block 0 (addr 0);
  let state := StateMachine_new [] in
  '(candidate, _) ← build_block engine state [] tip proposer 1700000001 (sig_of xcd);
  ok ← validate_block engine candidate tip schedule 5 None;
  assert_ ok.

Definition test_validate_block_wrong_parent_rejected : outcome unit :=
  let engine := default_engine in
  let schedule := ProposerSchedule_new [addr 1] 1 0 in
  tip ← dummy_block 0 (addr 0);
  bad_block ← dummy_block 1 (addr 1);
  let bad_block := set_parent_hash bad_block (array_repeat 32 xff) in
  ok ← validate_block engine bad_block tip schedule 5 None;
  assert_ (negb ok).

Definition test_validate_block_wrong_proposer_rejected : outcome unit :=
  let engine := default_engine in
  let schedule := ProposerSchedule_new [addr 2] 1 0 in
  tip ← dummy_block 0 (addr 0);
  let state := StateMachine_new [] in
  '(candidate, _) ← build_block engine state [] tip (addr 1) 1700000001 (sig_of xcd);
  ok ← validate_block engine candidate tip schedule 5 None;
  assert_ (negb ok).

(** The block both signature tests build: its header is encoded with a zeroed
    signature, signed, and completed. *)
Definition signed_block (kp : Falcon512KeyPair) (proposer_addr : Address) (tip : Block) : outcome Block :=
  let unsigned_header := mkBlockHeader 1 (blake3 (enc sc_header (blk_header tip))) (array_repeat 32 x00)
    (array_repeat 32 x00) 1700000001 proposer_addr 0 (sig_of x00) in
  let payload := enc sc_header unsigned_header in
  r ← falcon_sign kp payload;
  sig ← unwrap_ok r;
  let h := unsigned_header in
  Ret (mkBlock (mkBlockHeader (hdr_height h) (hdr_parent_hash h) (hdr_global_state_root h) (hdr_tx_root h)
                  (hdr_timestamp h) (hdr_proposer h) (hdr_chain_id h) sig) (mkBlockBody [])).

Definition test_validate_block_valid_signature_passes : outcome unit :=
  let seed := List.repeat xab 48 in
  kp ← unwrap_ok (falcon_generate seed);
  pk ← falcon_public_key_bytes kp;
  let proposer_addr := derive_address pk in
  let schedule := ProposerSchedule_new [proposer_addr] 1 0 in
  tip ← dummy_block 0 (addr 0);
  block ← signed_block kp proposer_addr tip;
  ok ← validate_block default_engine block tip schedule 5 (Some pk);
  assert_ ok.

Definition test_validate_block_invalid_signature_rejected : outcome unit :=
  let seed_a := List.repeat xab 48 in
  kp ← unwrap_ok (falcon_generate seed_a);
  pk ← falcon_public_key_bytes kp;
  let seed_b := List.repeat xcd 48 in
  kp2 ← unwrap_ok (falcon_generate seed_b);
  pk2 ← falcon_public_key_bytes kp2;
  let proposer_addr := derive_address pk in
  let schedule := ProposerSchedule_new [proposer_addr] 1 0 in
  tip ← dummy_block 0 (addr 0);
  block ← signed_block kp proposer_addr tip;
  ok ← validate_block default_engine block tip schedule 5 (Some pk2);
  assert_ (negb ok).

Definition test_validate_block_no_pk_skips_signature_check : outcome unit :=
  let proposer_addr := addr 1 in
  let schedule := ProposerSchedule_new [proposer_addr] 1 0 in
  tip ← dummy_block 0 (addr 0);
  let engine := default_engine in
  let state := StateMachine_new [] in
  '(block, _) ← build_block engine state [] tip proposer_addr 1700000001 (sig_of xcd);
  ok ← validate_block engine block tip schedule 5 None;
  assert_ ok.

Definition test_set_local_validator : outcome unit :=
  let engine := default_engine in
  assert_eq (local_validator engine) None ;;
  let key := addr 1 in
  let engine := set_local_validator engine key in
  assert_ (bool_decide (is_Some (local_validator engine))) ;;
  v ← unwrap (local_validator engine);
  assert_eq v (addr 1).

Definition test_set_current_height : outcome unit :=
  let engine := default_engine in
  assert_eq (current_height engine) 0 ;;
  let engine := set_current_height engine 42 in
  assert_eq (current_height engine) 42.

Definition test_build_schedule_creates_proposer_schedule : outcome unit :=
  let active_set := [addr 1; addr 2; addr 3] in
  let schedule := build_schedule active_set 1 0 in
  assert_eq (sch_active_set schedule) active_set.

Definition test_set_schedule : outcome unit :=
  let engine := default_engine in
  assert_ (match schedule engine with None => true | Some _ => false end) ;;
  let s := ProposerSchedule_new [addr 1] 1 0 in
  let engine := set_schedule engine s in
  assert_ (match schedule engine with None => false | Some _ => true end).

Definition test_set_commit_tracker : outcome unit :=
  let engine := default_engine in
  assert_ (match commit_tracker engine with None => true | Some _ => false end) ;;
  let tracker := tracker_new (weights [(addr 1, 100)]) in
  let engine := set_commit_tracker engine tracker in
  assert_ (match commit_tracker engine with None => false | Some _ => true end).

Definition test_compute_tx_root_empty : outcome unit :=
  let body := mkBlockBody [] in
  let root := compute_tx_root body in
  let expected := blake3 [] in
  assert_eq root expected.

(** The transfer of one of the root tests. *)
Definition root_tx (nonce : Z) (sender recipient : Address) (amount : Z) : Transaction :=
  mkTransaction 0 nonce sender 10 (Transfer recipient amount) (sig_of xcd).

Definition test_compute_tx_root_with_multiple_txs : outcome unit :=
  let txs := map (fun i => root_tx i (addr 1) (addr 2) (100 + i)) (seqZ 0 5) in
  let body := mkBlockBody txs in
  let root := compute_tx_root body in
  assert_ne root (array_repeat 32 x00) ;;
  let body2 := mkBlockBody (transactions body) in
  assert_eq root (compute_tx_root body2).

Definition test_compute_tx_root_non_empty : outcome unit :=
  let tx := root_tx 0 (addr 1) (addr 2) 100 in
  let body := mkBlockBody [tx] in
  let root := compute_tx_root body in
  assert_ne root (array_repeat 32 x00).

Definition test_compute_tx_root_same_txs_different_order_same_root : outcome unit :=
  let tx1 := root_tx 0 (addr 1) (addr 2) 100 in
  let tx2 := root_tx 1 (addr 2) (addr 1) 200 in
  let body_ab := mkBlockBody [tx1; tx2] in
  let body_ba := mkBlockBody [tx2; tx1] in
  let root_ab := compute_tx_root body_ab in
  let root_ba := compute_tx_root body_ba in
  assert_eq root_ab root_ba.

Definition test_is_timestamp_acceptable_exact : outcome unit :=
  assert_ (is_timestamp_acceptable 100 100 2).

Definition test_is_timestamp_acceptable_within_tolerance : outcome unit :=
  assert_ (is_timestamp_acceptable 100 101 2) ;;
  assert_ (is_timestamp_acceptable 101 100 2).

Definition test_is_timestamp_acceptable_beyond_tolerance : outcome unit :=
  assert_ (negb (is_timestamp_acceptable 100 103 2)) ;;
  assert_ (negb (is_timestamp_acceptable 100 97 2)).

Definition test_is_timestamp_monotonic : outcome unit :=
  assert_ (is_timestamp_monotonic 101 100) ;;
  assert_ (is_timestamp_monotonic 100 100) ;;
  assert_ (negb (is_timestamp_monotonic 99 100)).

Definition test_is_timestamp_acceptable_zero_tolerance : outcome unit :=
  assert_ (is_timestamp_acceptable 100 100 0) ;;
  assert_ (negb (is_timestamp_acceptable 100 101 0)) ;;
  assert_ (negb (is_timestamp_acceptable 101 100 0)).

Definition test_is_timestamp_acceptable_max_tolerance : outcome unit :=
  assert_ (is_timestamp_acceptable 0 U64_MAX U64_MAX) ;;
  assert_ (is_timestamp_acceptable U64_MAX 0 U64_MAX).

Definition test_is_timestamp_acceptable_wrapping_not_allowed : outcome unit :=
  assert_ (negb (is_timestamp_acceptable 0 U64_MAX 10)).

(** The header of the two payload tests. *)
Definition payload_header : BlockHeader :=
  mkBlockHeader 1 (array_repeat 32 xaa) (array_repeat 32 xbb) (array_repeat 32 xcc) 1700000000 (addr 1) 0 (sig_of xab).

Definition test_block_header_unsigned_payload_zeroes_signature : outcome unit :=
  let header := payload_header in
  let bs := block_header_unsigned_payload header in
  '(decoded, _) ← unwrap (dec sc_header bs);
  assert_eq (hdr_height decoded) (hdr_height header) ;;
  assert_eq (hdr_parent_hash decoded) (hdr_parent_hash header) ;;
  assert_eq (hdr_global_state_root decoded) (hdr_global_state_root header) ;;
  assert_eq (hdr_proposer decoded) (hdr_proposer header) ;;
  assert_eq (sig_bytes (hdr_proposer_signature decoded)) (sig_bytes (sig_of x00)).

Definition test_block_header_unsigned_payload_differs_from_original : outcome unit :=
  let header := payload_header in
  let unsigned_bytes := block_header_unsigned_payload header in
  let original_bytes := enc sc_header header in
  assert_ne unsigned_bytes original_bytes.

Definition engine_tests : list (outcome unit) :=
  [test_build_block_increments_height; test_build_block_parent_hash_links;
   test_validate_block_correct_passes; test_validate_block_wrong_parent_rejected;
   test_validate_block_wrong_proposer_rejected; test_validate_block_valid_signature_passes;
   test_validate_block_invalid_signature_rejected; test_validate_block_no_pk_skips_signature_check;
   test_set_local_validator; test_set_current_height; test_build_schedule_creates_proposer_schedule;
   test_set_schedule; test_set_commit_tracker; test_compute_tx_root_empty;
   test_compute_tx_root_with_multiple_txs; test_compute_tx_root_non_empty;
   test_compute_tx_root_same_txs_different_order_same_root; test_is_timestamp_acceptable_exact;
   test_is_timestamp_acceptable_within_tolerance; test_is_timestamp_acceptable_beyond_tolerance;
   test_is_timestamp_monotonic; test_is_timestamp_acceptable_zero_tolerance;
   test_is_timestamp_acceptable_max_tolerance; test_is_timestamp_acceptable_wrapping_not_allowed;
   test_block_header_unsigned_payload_zeroes_signature;
   test_block_header_unsigned_payload_differs_from_original].

(** ** The property tests of [engine.rs] *)

Section Properties.
Context `{BuildProfile} `{Blake3} `{Scale}.

Definition generated_txs (tx_count : nat) (nonce_offset amount_offset : Z) : outcome (list Transaction) :=
  foldM (fun txs i =>
    nonce ← u64_add nonce_offset i;
    a ← u64_add 100 amount_offset;
    amount ← u64_add a i;
    Ret (txs ++ [root_tx nonce (addr 1) (addr 2) amount])) [] (seqZ 0 (Z.of_nat tx_count)).

Definition proptest_compute_tx_root_deterministic (tx_count : nat) (nonce_offset amount_offset : Z) : outcome unit :=
  txs ← generated_txs tx_count nonce_offset amount_offset;
  let body := mkBlockBody txs in
  let root1 := compute_tx_root body in
  let root2 := compute_tx_root body in
  assert_eq root1 root2.

Definition proptest_is_timestamp_acceptable_symmetric (time tolerance : Z) : outcome unit :=
  let acceptable block local := is_timestamp_acceptable block local tolerance in
  next ← u64_add tolerance 1;
  for_each [0; 1; tolerance / 2; tolerance; next; U64_MAX / 2] (fun delta =>
    let block_time := (time + delta) mod W64 in
    let local_time := time in
    let fwd := acceptable block_time local_time in
    let rev := acceptable local_time block_time in
    assert_eq fwd rev).

Definition proptest_is_timestamp_monotonic_consistent (a b : Z) : outcome unit :=
  let result := is_timestamp_monotonic a b in
  if b <=? a then assert_ result else assert_ (negb result).
End Properties.

(** ** Every unit test passes *)

Lemma supply_tests_pass : forallb passes supply_tests = true.
Proof. by vm_compute. Qed.

Lemma finality_tests_pass : forallb passes finality_tests = true.
Proof. by vm_compute. Qed.

Lemma fork_choice_tests_pass : forallb passes fork_choice_tests = true.
Proof. by vm_compute. Qed.

Lemma proposer_tests_pass : forallb passes proposer_tests = true.
Proof. by vm_compute. Qed.

Lemma era_arithmetic_tests_pass : forallb passes era_tests = true.
Proof. by vm_compute. Qed.

Lemma top_n_tests_pass : forallb passes election_tests = true.
Proof. by vm_compute. Qed.

Lemma slashing_tests_pass : forallb passes slashing_tests = true.
Proof. by vm_compute. Qed.

Lemma engine_tests_pass : forallb passes engine_tests = true.
Proof. by vm_compute. Qed.

(** ** What the property tests return *)

Lemma acceptable_sym a b t : is_timestamp_acceptable a b t = is_timestamp_acceptable b a t.
Proof.
  unfold is_timestamp_acceptable. destruct (Z.ltb_spec a b), (Z.ltb_spec b a); try done; [lia|].
  by assert (a = b) as -> by lia.
Qed.

(** The symmetry test returns on every input but [tolerance = u64::MAX], where
    its own [tolerance + 1] overflows under [cargo test]. *)
Lemma symmetric_returns `{BuildProfile} (time tolerance : Z) : 0 <= tolerance < U64_MAX ->
  proptest_is_timestamp_acceptable_symmetric time tolerance = Ret tt.
Proof.
  intros Ht. unfold proptest_is_timestamp_acceptable_symmetric. rewrite u64_add_ok by (unfold U64_MAX in Ht; lia).
  cbn [mbind outcome_bind]. apply for_each_Ret. intros d _.
  rewrite acceptable_sym. apply assert_eq_refl.
Qed.

Lemma symmetric_overflows (time : Z) : proptest_is_timestamp_acceptable_symmetric time U64_MAX = Panic.
Proof. reflexivity. Qed.

Lemma monotonic_returns (a b : Z) : proptest_is_timestamp_monotonic_consistent a b = Ret tt.
Proof.
  unfold proptest_is_timestamp_monotonic_consistent, is_timestamp_monotonic. by destruct (b <=? a).
Qed.

Lemma generated_txs_Ret `{BuildProfile} (n : nat) (nonce_offset amount_offset : Z) :
  0 <= nonce_offset -> 0 <= amount_offset ->
  nonce_offset + Z.of_nat n <= W64 -> 100 + amount_offset + Z.of_nat n <= W64 -> amount_offset < W64 - 100 ->
  exists txs, generated_txs n nonce_offset amount_offset = Ret txs /\ length txs = n.
Proof.
  intros Hn Ha. unfold generated_txs. induction n as [|n IH]; intros Hnb Hab Hb.
  { by exists []. }
  rewrite Nat2Z.inj_succ, <- Z.add_1_r, seqZ_app, foldM_app by lia.
  destruct IH as (txs & -> & Hl); [lia..|]. cbn [mbind outcome_bind foldM]. rewrite seqZ_cons by lia. cbn [foldM].
  rewrite u64_add_ok by lia. cbn [mbind outcome_bind]. rewrite u64_add_ok by lia. cbn [mbind outcome_bind].
  rewrite u64_add_ok by lia. cbn [mbind outcome_bind]. rewrite seqZ_nil by lia. cbn [foldM].
  eexists. split; [done|]. rewrite length_app. simpl. lia.
Qed.

(** The determinism test returns whenever its generated nonces and amounts fit
    64 bits; two transactions from [nonce_offset = u64::MAX] do not. *)
Lemma deterministic_returns `{BuildProfile} `{Blake3} `{Scale} (n : nat) (nonce_offset amount_offset : Z) :
  0 <= nonce_offset -> 0 <= amount_offset ->
  nonce_offset + Z.of_nat n <= W64 -> 100 + amount_offset + Z.of_nat n <= W64 -> amount_offset < W64 - 100 ->
  proptest_compute_tx_root_deterministic n nonce_offset amount_offset = Ret tt.
Proof.
  intros Hn Ha H1' H2' H3'. destruct (generated_txs_Ret n nonce_offset amount_offset) as (txs & E & _); [done..|].
  unfold proptest_compute_tx_root_deterministic. rewrite E. apply assert_eq_refl.
Qed.

Example deterministic_overflows : proptest_compute_tx_root_deterministic 2 U64_MAX 0 = Panic.
Proof. by vm_compute. Qed.
