(* ===== verification/SyncTests.v ===== *)
(** * The unit and property tests of [network/sync.rs]

    The cursor's unit tests, evaluated, and its seven property tests as
    functions of their generated inputs.  The theorems give the inputs on which
    a property test returns: every input of its strategy, but for one overflow in
    the test itself. *)
From Stdlib Require Import Strings.Byte Strings.String.
From stdpp Require Import base gmap sets list strings countable sorting.
From Stdlib Require Import ZArith Lia.
From S2P Require Import Prelude Types External Toy Sync SyncTask Testing.

Import TestInstances.
#[local] Existing Instance toy_cursor_text.
#[local] Existing Instance toy_cursor_text_ok.

#[local] Instance HeightRange_eq_dec : EqDecision HeightRange.
Proof. solve_decision. Defined.

Definition hash_of (b : byte) : array 32 := array_repeat 32 b.

(** [cursor.pending_range.is_none()] *)
Definition no_pending (c : SyncCursor) : bool := match pending_range c with None => true | Some _ => false end.

(** ** Construction, advancing, the gap *)

Definition test_sync_cursor_new_starts_at_genesis : outcome unit :=
  let genesis := hash_of xfe in
  let cursor := SyncCursor_new genesis in
  assert_eq (last_verified_height cursor) 0 ;;
  assert_eq (last_verified_hash cursor) genesis.

Definition test_advance_moves_cursor_forward : outcome unit :=
  let genesis := hash_of x01 in
  let cursor := SyncCursor_new genesis in
  cursor ← advance cursor 10 (hash_of xaa);
  assert_eq (last_verified_height cursor) 10 ;;
  assert_eq (last_verified_hash cursor) (hash_of xaa).

Definition test_gap_new_is_zero : outcome unit :=
  let cursor := SyncCursor_new (hash_of x00) in
  assert_eq (gap cursor) 0.

Definition test_gap_after_set_target : outcome unit :=
  let cursor := SyncCursor_new (hash_of x00) in
  let cursor := set_target cursor 100 in
  assert_eq (gap cursor) 100.

Definition test_gap_after_advance : outcome unit :=
  let cursor := SyncCursor_new (hash_of x00) in
  let cursor := set_target cursor 200 in
  cursor ← advance cursor 50 (hash_of xaa);
  assert_eq (gap cursor) 150.

Definition test_needs_checkpoint_false_for_small_gap : outcome unit :=
  let cursor := SyncCursor_new (hash_of x00) in
  let cursor := set_target cursor 500 in
  b ← needs_checkpoint cursor 720;
  assert_ (negb b).

Definition test_needs_checkpoint_true_for_large_gap : outcome unit :=
  let cursor := SyncCursor_new (hash_of x00) in
  let cursor := set_target cursor 3000 in
  b ← needs_checkpoint cursor 720;
  assert_ b.

Definition test_needs_checkpoint_edge_exactly_2_era : outcome unit :=
  let cursor := SyncCursor_new (hash_of x00) in
  let cursor := set_target cursor 1440 in
  b ← needs_checkpoint cursor 720;
  assert_ b.

Definition test_advance_same_height_panics : outcome unit :=
  should_panic (
    let cursor := SyncCursor_new (hash_of x00) in
    cursor ← advance cursor 10 (hash_of xaa);
    advance cursor 10 (hash_of xbb)).

Definition test_advance_lower_height_panics : outcome unit :=
  should_panic (
    let cursor := SyncCursor_new (hash_of x00) in
    cursor ← advance cursor 20 (hash_of xaa);
    advance cursor 15 (hash_of xbb)).

Definition test_advance_zero_panics_when_already_at_zero : outcome unit :=
  should_panic (
    let cursor := SyncCursor_new (hash_of x00) in
    advance cursor 0 (hash_of xff)).

Definition test_gap_identity_after_multiple_advances : outcome unit :=
  let cursor := SyncCursor_new (hash_of x00) in
  let cursor := set_target cursor 100 in
  assert_eq (gap cursor) 100 ;;
  cursor ← advance cursor 30 (hash_of xaa);
  assert_eq (gap cursor) 70 ;;
  cursor ← advance cursor 80 (hash_of xbb);
  assert_eq (gap cursor) 20 ;;
  cursor ← advance cursor 100 (hash_of xcc);
  assert_eq (gap cursor) 0.

Definition test_gap_without_target_is_zero : outcome unit :=
  let cursor := SyncCursor_new (hash_of x00) in
  cursor ← advance cursor 10 (hash_of xaa);
  assert_eq (gap cursor) 0.

Definition checkpoint_check (gap era_len : Z) (expected : bool) : outcome unit :=
  let cursor := SyncCursor_new (hash_of x00) in
  let cursor := set_target cursor gap in
  b ← needs_checkpoint cursor era_len;
  assert_eq b expected.

Definition test_needs_checkpoint_exactly_at_threshold_for_various_era_lengths : outcome unit :=
  checkpoint_check 0 720 false ;;
  checkpoint_check 1 720 false ;;
  checkpoint_check 1439 720 false ;;
  checkpoint_check 1440 720 true ;;
  checkpoint_check 1441 720 true ;;
  checkpoint_check 0 100 false ;;
  checkpoint_check 200 100 true ;;
  checkpoint_check 199 100 false.

Definition test_needs_checkpoint_with_narrow_era_length : outcome unit :=
  let cursor := SyncCursor_new (hash_of x00) in
  let cursor := set_target cursor 1 in
  b ← needs_checkpoint cursor 1;
  assert_ (negb b).

Definition test_needs_checkpoint_after_advance_reduces_gap : outcome unit :=
  let cursor := SyncCursor_new (hash_of x00) in
  let cursor := set_target cursor 3000 in
  b ← needs_checkpoint cursor 720;
  assert_ b ;;
  cursor ← advance cursor 2000 (hash_of xaa);
  b ← needs_checkpoint cursor 720;
  assert_ (negb b).

Definition test_set_target_reduces_gap_when_lower : outcome unit :=
  let cursor := SyncCursor_new (hash_of x00) in
  let cursor := set_target cursor 100 in
  cursor ← advance cursor 50 (hash_of xaa);
  let cursor := set_target cursor 60 in
  assert_eq (gap cursor) 10.

Definition test_set_target_higher_increases_gap : outcome unit :=
  let cursor := SyncCursor_new (hash_of x00) in
  let cursor := set_target cursor 50 in
  cursor ← advance cursor 30 (hash_of xaa);
  let cursor := set_target cursor 100 in
  assert_eq (gap cursor) 70.

Definition test_advance_updates_hash_and_height_invariant : outcome unit :=
  let genesis := hash_of x01 in
  let cursor := SyncCursor_new genesis in
  assert_eq (last_verified_height cursor) 0 ;;
  assert_eq (last_verified_hash cursor) genesis ;;
  cursor ← advance cursor 7 (hash_of x07);
  assert_eq (last_verified_height cursor) 7 ;;
  assert_eq (last_verified_hash cursor) (hash_of x07) ;;
  cursor ← advance cursor 42 (hash_of x2a);
  assert_eq (last_verified_height cursor) 42 ;;
  assert_eq (last_verified_hash cursor) (hash_of x2a).

(** ** The pending range *)

Definition test_pending_none_after_new : outcome unit :=
  let cursor := SyncCursor_new (hash_of x00) in
  assert_ (no_pending cursor).

Definition test_set_pending_stores_range : outcome unit :=
  let cursor := SyncCursor_new (hash_of x00) in
  let range := mkRange 1 101 "PeerA" in
  let cursor := set_pending cursor range in
  assert_eq (pending_range cursor) (Some range).

Definition test_clear_pending_removes_range : outcome unit :=
  let cursor := SyncCursor_new (hash_of x00) in
  let cursor := set_pending cursor (mkRange 1 101 "PeerA") in
  let cursor := clear_pending cursor in
  assert_ (no_pending cursor).

Definition test_set_pending_overwrites_previous : outcome unit :=
  let cursor := SyncCursor_new (hash_of x00) in
  let cursor := set_pending cursor (mkRange 1 10 "A") in
  let cursor := set_pending cursor (mkRange 10 20 "B") in
  r ← unwrap (pending_range cursor);
  assert_eq (hr_peer_id r) "B"%string ;;
  assert_eq (hr_start r) 10.

Definition test_clear_pending_idempotent : outcome unit :=
  let cursor := SyncCursor_new (hash_of x00) in
  let cursor := clear_pending cursor in
  assert_ (no_pending cursor) ;;
  let cursor := clear_pending cursor in
  assert_ (no_pending cursor).

(** ** The cursor file: [None] is a path where nothing is stored *)

(** [cursor.save(&path).unwrap()] *)
Definition saved (file : option bytes) (c : SyncCursor) : outcome (option bytes) :=
  let '(file, r) := save file IoOk c in
  unwrap_ok r ;;
  Ret file.

Definition test_save_then_load_roundtrip : outcome unit :=
  let genesis := hash_of xab in
  let cursor := SyncCursor_new genesis in
  cursor ← advance cursor 50 (hash_of xcd);
  let cursor := set_target cursor 200 in
  let cursor := set_pending cursor (mkRange 51 151 "PeerA") in
  file ← saved None cursor;
  let loaded := load_cursor cursor_from_str file genesis in
  assert_eq (last_verified_height loaded) 50 ;;
  assert_eq (last_verified_hash loaded) (hash_of xcd) ;;
  assert_eq (target_height loaded) 200 ;;
  assert_eq (pending_range loaded) (Some (mkRange 51 151 "PeerA")).

Definition test_load_nonexistent_returns_fresh_cursor : outcome unit :=
  let genesis := hash_of x42 in
  let cursor := load_cursor cursor_from_str None genesis in
  assert_eq (last_verified_height cursor) 0 ;;
  assert_eq (last_verified_hash cursor) genesis.

Definition test_save_to_deep_path_creates_parent_dirs : outcome unit :=
  let cursor := SyncCursor_new (hash_of x00) in
  cursor ← advance cursor 5 (hash_of xff);
  file ← saved None cursor;
  assert_ (bool_decide (is_Some file)) ;;
  let loaded := load_cursor cursor_from_str file (hash_of x00) in
  assert_eq (last_verified_height loaded) 5.

Definition test_save_load_roundtrip_new_cursor : outcome unit :=
  let genesis := hash_of x99 in
  file ← saved None (SyncCursor_new genesis);
  let loaded := load_cursor cursor_from_str file genesis in
  assert_eq (last_verified_height loaded) 0 ;;
  assert_eq (last_verified_hash loaded) genesis ;;
  assert_eq (target_height loaded) 0 ;;
  assert_ (no_pending loaded).

Definition test_save_load_roundtrip_partial_sync : outcome unit :=
  let genesis := hash_of x99 in
  let cursor := SyncCursor_new genesis in
  cursor ← advance cursor 10 (hash_of x0a);
  let cursor := set_target cursor 200 in
  file ← saved None cursor;
  let loaded := load_cursor cursor_from_str file genesis in
  assert_eq (last_verified_height loaded) 10 ;;
  assert_eq (target_height loaded) 200 ;;
  assert_ (no_pending loaded).

Definition cursor_tests : list (outcome unit) :=
  [test_sync_cursor_new_starts_at_genesis; test_advance_moves_cursor_forward; test_gap_new_is_zero;
   test_gap_after_set_target; test_gap_after_advance; test_needs_checkpoint_false_for_small_gap;
   test_needs_checkpoint_true_for_large_gap; test_needs_checkpoint_edge_exactly_2_era;
   test_advance_same_height_panics; test_advance_lower_height_panics;
   test_advance_zero_panics_when_already_at_zero; test_gap_identity_after_multiple_advances;
   test_gap_without_target_is_zero; test_needs_checkpoint_exactly_at_threshold_for_various_era_lengths;
   test_needs_checkpoint_with_narrow_era_length; test_needs_checkpoint_after_advance_reduces_gap;
   test_set_target_reduces_gap_when_lower; test_set_target_higher_increases_gap;
   test_advance_updates_hash_and_height_invariant; test_pending_none_after_new;
   test_set_pending_stores_range; test_clear_pending_removes_range; test_set_pending_overwrites_previous;
   test_clear_pending_idempotent; test_save_then_load_roundtrip; test_load_nonexistent_returns_fresh_cursor;
   test_save_to_deep_path_creates_parent_dirs; test_save_load_roundtrip_new_cursor;
   test_save_load_roundtrip_partial_sync].

(** ** The property tests *)

Section Properties.
Context `{BuildProfile}.

Definition proptest_gap_identity (verified target : Z) : outcome unit :=
  let cursor := SyncCursor_new (hash_of x00) in
  cursor ← (if 0 <? verified then advance cursor verified (hash_of xaa) else Ret cursor);
  let cursor := set_target cursor target in
  let expected_gap := u64_saturating_sub target verified in
  assert_eq (gap cursor) expected_gap.

Definition proptest_gap_decreases_after_advance (initial_target advance_to : Z) : outcome unit :=
  let cursor := SyncCursor_new (hash_of x00) in
  let cursor := set_target cursor initial_target in
  cursor ← (if (0 <? advance_to) && (last_verified_height cursor <? advance_to)
            then advance cursor advance_to (hash_of xbb) else Ret cursor);
  if advance_to <=? initial_target then
    expected ← u64_sub initial_target advance_to;
    assert_eq (gap cursor) expected
  else Ret tt.

Definition proptest_needs_checkpoint_monotonic (small_gap large_gap era_length : Z) : outcome unit :=
  let small := SyncCursor_new (hash_of x00) in
  let small := set_target small small_gap in
  let large := SyncCursor_new (hash_of x00) in
  let large := set_target large large_gap in
  b ← needs_checkpoint small era_length;
  if b : bool then b' ← needs_checkpoint large era_length; assert_ b' else Ret tt.

Definition proptest_needs_checkpoint_exact_threshold (gap era_length : Z) : outcome unit :=
  let cursor := SyncCursor_new (hash_of x00) in
  let cursor := set_target cursor gap in
  two ← u64_mul 2 era_length;
  let expected := two <=? gap in
  b ← needs_checkpoint cursor era_length;
  assert_eq b expected.

(** One iteration of each loop: the cursor with the variables of the test. *)
Definition advance_step (s : SyncCursor * Z * Z) (step : Z) : outcome (SyncCursor * Z * Z) :=
  let '(cursor, prev_height, cumulative) := s in
  cumulative ← u64_add cumulative step;
  let hash_byte := byte_of_Z (Z.land cumulative 255) in
  cursor ← advance cursor cumulative (array_repeat 32 hash_byte);
  assert_ (prev_height <? last_verified_height cursor) ;;
  assert_eq (last_verified_height cursor) cumulative ;;
  Ret (cursor, cumulative, cumulative).

Definition proptest_advance_monotonic (steps : list Z) : outcome unit :=
  let cursor := SyncCursor_new (hash_of x00) in
  _ ← foldM advance_step (cursor, 0, 0) steps;
  Ret tt.

(** [(0, t)] sets the target, [(1, h)] advances by [h]. *)
Inductive CursorOp := SetTarget (t : Z) | AdvanceBy (h : Z).

Definition op_step (s : SyncCursor * Z * Z) (op : CursorOp) : outcome (SyncCursor * Z * Z) :=
  let '(cursor, verified, target) := s in
  '(cursor, verified, target) ←
    match op with
    | SetTarget val => Ret (set_target cursor val, verified, val)
    | AdvanceBy val =>
        new_h ← u64_add verified val;
        cursor ← advance cursor new_h (hash_of xcc);
        Ret (cursor, new_h, target)
    end;
  assert_eq (gap cursor) (u64_saturating_sub target verified) ;;
  Ret (cursor, verified, target).

Definition proptest_gap_invariant_after_mixed_ops (ops : list CursorOp) : outcome unit :=
  let cursor := SyncCursor_new (hash_of x00) in
  _ ← foldM op_step (cursor, 0, 0) ops;
  Ret tt.

Definition proptest_pending_clear_roundtrip (start end_ : Z) : outcome unit :=
  let cursor := SyncCursor_new (hash_of x00) in
  next ← u64_add start 1;
  let end_ := Z.max end_ next in
  let cursor := set_pending cursor (mkRange start end_ "test") in
  assert_ (negb (no_pending cursor)) ;;
  let cursor := clear_pending cursor in
  assert_ (no_pending cursor).
End Properties.

Lemma cursor_tests_pass : forallb passes cursor_tests = true.
Proof. by vm_compute. Qed.

(** ** The property tests return *)

Section Returns.
Context `{BuildProfile}.

Lemma advance_ok c h a : last_verified_height c < h ->
  advance c h a = Ret (mkCursor h a (target_height c) (pending_range c)).
Proof. intros Hh. unfold advance. by rewrite (proj2 (Z.ltb_lt _ _) Hh). Qed.

Lemma gap_identity_returns (verified target : Z) : is_u64 verified -> is_u64 target ->
  proptest_gap_identity verified target = Ret tt.
Proof.
  intros Hv Ht. unfold proptest_gap_identity. destruct (Z.ltb_spec 0 verified) as [Hlt|Hle].
  - rewrite advance_ok by done. apply assert_eq_refl.
  - assert (verified = 0) as -> by (unfold is_u64 in Hv; lia). apply assert_eq_refl.
Qed.

Lemma gap_decreases_returns (initial_target advance_to : Z) : is_u64 initial_target -> is_u64 advance_to ->
  proptest_gap_decreases_after_advance initial_target advance_to = Ret tt.
Proof.
  intros Hi Ha. unfold is_u64 in *. unfold proptest_gap_decreases_after_advance, u64_sub.
  cbn [last_verified_height set_target SyncCursor_new].
  destruct (Z.ltb_spec 0 advance_to) as [Hlt|Hle]; cbn [andb].
  - rewrite advance_ok by done. cbn [mbind outcome_bind]. destruct (Z.leb_spec advance_to initial_target); [|done].
    rewrite (wrap_check_ok W64) by lia. cbn [mbind outcome_bind]. unfold gap, u64_saturating_sub.
    cbn [target_height last_verified_height set_target]. rewrite Z.max_r by lia. apply assert_eq_refl.
  - assert (advance_to = 0) as -> by lia. cbn [mbind outcome_bind]. rewrite (proj2 (Z.leb_le 0 initial_target)) by lia.
    rewrite (wrap_check_ok W64) by lia. cbn [mbind outcome_bind]. unfold gap, u64_saturating_sub.
    cbn [target_height last_verified_height set_target SyncCursor_new]. rewrite Z.max_r by lia. apply assert_eq_refl.
Qed.

Lemma checkpoint_monotonic_returns (small_gap large_gap era_length : Z) :
  0 <= small_gap <= large_gap -> 0 <= 2 * era_length < W64 ->
  proptest_needs_checkpoint_monotonic small_gap large_gap era_length = Ret tt.
Proof.
  intros Hg He. unfold proptest_needs_checkpoint_monotonic, needs_checkpoint, u64_mul, gap, u64_saturating_sub.
  rewrite (wrap_check_ok W64) by done. cbn [mbind outcome_bind target_height last_verified_height set_target SyncCursor_new].
  rewrite !Z.max_r by lia. destruct (Z.leb_spec (2 * era_length) (small_gap - 0)); [|done].
  by rewrite (proj2 (Z.leb_le _ _)) by lia.
Qed.

Lemma checkpoint_threshold_returns (g era_length : Z) : 0 <= g -> 0 <= 2 * era_length < W64 ->
  proptest_needs_checkpoint_exact_threshold g era_length = Ret tt.
Proof.
  intros Hg He. unfold proptest_needs_checkpoint_exact_threshold, needs_checkpoint, u64_mul, gap, u64_saturating_sub.
  rewrite (wrap_check_ok W64) by done. cbn [mbind outcome_bind target_height last_verified_height set_target SyncCursor_new].
  rewrite Z.sub_0_r, Z.max_r by lia. apply assert_eq_refl.
Qed.

Lemma advance_step_Ret c v step : last_verified_height c = v -> 0 < step -> 0 <= v + step < W64 ->
  exists c', advance_step (c, v, v) step = Ret (c', v + step, v + step) /\ last_verified_height c' = v + step.
Proof.
  intros Hc Hs Hb. unfold advance_step. rewrite u64_add_ok by done. cbn [mbind outcome_bind].
  rewrite advance_ok by lia. cbn [mbind outcome_bind last_verified_height]. rewrite (proj2 (Z.ltb_lt _ _)) by lia.
  rewrite assert_eq_refl. by eexists.
Qed.

Lemma advance_monotonic_returns (steps : list Z) :
  Forall (fun s => 0 < s) steps -> sumZ (fun s => s) steps < W64 -> proptest_advance_monotonic steps = Ret tt.
Proof.
  intros Hs Hb. unfold proptest_advance_monotonic.
  assert (forall c v, last_verified_height c = v -> 0 <= v -> v + sumZ (fun s => s) steps < W64 ->
    exists r, foldM advance_step (c, v, v) steps = Ret r) as Hloop.
  { clear Hb. induction Hs as [|s steps Hs Hall IH]; intros c v Hc Hv Hb; [by eexists|]. simpl in Hb.
    assert (0 <= sumZ (fun s => s) steps).
    { apply sumZ_nonneg. intros x Hx. rewrite Forall_forall in Hall. by apply Hall in Hx; lia. }
    destruct (advance_step_Ret c v s Hc Hs) as (c' & E & Hc'); [lia|]. cbn [foldM]. rewrite E.
    cbn [mbind outcome_bind]. apply IH; [done|lia|lia]. }
  destruct (Hloop (SyncCursor_new (hash_of x00)) 0) as [r ->]; [done|lia|lia|done].
Qed.

Definition op_advance (op : CursorOp) : Z := match op with SetTarget _ => 0 | AdvanceBy h => h end.
Definition op_ok (op : CursorOp) : Prop := match op with SetTarget t => 0 <= t | AdvanceBy h => 0 < h end.

Lemma op_step_Ret c v t op : last_verified_height c = v -> target_height c = t -> op_ok op ->
  0 <= v + op_advance op < W64 ->
  exists c' t', op_step (c, v, t) op = Ret (c', v + op_advance op, t') /\
    last_verified_height c' = v + op_advance op /\ target_height c' = t'.
Proof.
  intros Hc Ht Hop Hb. unfold op_step. destruct op as [x|h]; simpl in Hop, Hb; cbn [op_advance].
  - rewrite Z.add_0_r in *. cbn [mbind outcome_bind]. unfold gap. cbn [target_height last_verified_height set_target].
    rewrite Hc, assert_eq_refl. by eexists _, _.
  - rewrite u64_add_ok by done. cbn [mbind outcome_bind]. rewrite advance_ok by lia. cbn [mbind outcome_bind].
    unfold gap. cbn [target_height last_verified_height]. rewrite Ht, assert_eq_refl. by eexists _, _.
Qed.

Lemma mixed_ops_returns (ops : list CursorOp) :
  Forall op_ok ops -> sumZ op_advance ops < W64 -> proptest_gap_invariant_after_mixed_ops ops = Ret tt.
Proof.
  intros Hs Hb. unfold proptest_gap_invariant_after_mixed_ops.
  assert (forall op, op_ok op -> 0 <= op_advance op) as Hnn by (intros [] Hop; simpl in *; lia).
  assert (forall c v t, last_verified_height c = v -> target_height c = t -> 0 <= v ->
    v + sumZ op_advance ops < W64 -> exists r, foldM op_step (c, v, t) ops = Ret r) as Hloop.
  { clear Hb. induction Hs as [|op ops Hop Hall IH]; intros c v t Hc Ht Hv Hb; [by eexists|]. simpl in Hb.
    assert (0 <= sumZ op_advance ops).
    { apply sumZ_nonneg. intros x Hx. rewrite Forall_forall in Hall. auto. }
    pose proof (Hnn op Hop).
    destruct (op_step_Ret c v t op Hc Ht Hop) as (c' & t' & E & Hc' & Ht'); [lia|]. cbn [foldM]. rewrite E.
    cbn [mbind outcome_bind]. apply (IH c' _ t'); [done|done|lia|lia]. }
  destruct (Hloop (SyncCursor_new (hash_of x00)) 0 0) as [r ->]; [done|done|lia|lia|done].
Qed.

(** All but [start = u64::MAX], where the test's own [start + 1] overflows. *)
Lemma pending_clear_returns (start end_ : Z) : 0 <= start < U64_MAX ->
  proptest_pending_clear_roundtrip start end_ = Ret tt.
Proof.
  intros Hs. unfold proptest_pending_clear_roundtrip. by rewrite u64_add_ok by (unfold U64_MAX in Hs; lia).
Qed.
End Returns.

Lemma pending_clear_overflows (end_ : Z) : proptest_pending_clear_roundtrip U64_MAX end_ = Panic.
Proof. reflexivity. Qed.
