(* ===== verification/PoolTests.v ===== *)
(** * The unit tests of [mempool/] and [governance/]

    The clock of the pool is an argument of the model: a test that does not
    sleep runs at instant 0, a sleep advances it. *)
From Stdlib Require Import Strings.Byte Strings.String.
From stdpp Require Import base gmap sets list strings countable sorting.
From Stdlib Require Import ZArith Lia.
From S2P Require Import Prelude Types External Toy Trie Account State Schedule Mempool Governance Errors Testing.

Import TestInstances.
#[local] Remove Hints toy_blake3 : typeclass_instances.

Abbreviation txt s := (list_byte_of_string s%string) (only parsing).

(** ** [mempool/mod.rs] *)

Definition make_tx (sender nonce fee : Z) : Transaction :=
  mkTransaction 0 nonce (addr sender) fee (Transfer (addr 0x99) 100) (sig_of x00).

Definition make_pool : Mempool := Mempool_new (mkMempoolConfig 10000 600 10 50).

Definition make_pool_with_cap (max_size per_sender_cap min_fee : Z) : Mempool :=
  Mempool_new (mkMempoolConfig max_size 600 min_fee per_sender_cap).

(** [pool.insert(tx).unwrap()] and [pool.insert(tx).unwrap_err()], at an instant *)
Definition inserted_at (now : Z) (pool : Mempool) (tx : Transaction) : outcome Mempool :=
  '(pool, r) ← insert_tx pool now tx;
  unwrap_ok r ;;
  Ret pool.
Definition inserted (pool : Mempool) (tx : Transaction) : outcome Mempool := inserted_at 0 pool tx.
Definition insert_error (pool : Mempool) (tx : Transaction) : outcome (Mempool * bytes) :=
  '(pool, r) ← insert_tx pool 0 tx;
  err ← unwrap_err r;
  Ret (pool, error_display err).

Definition test_insert_increases_count : outcome unit :=
  pool ← inserted make_pool (make_tx 1 0 100);
  assert_eq (pool_len pool) 1 ;;
  assert_ (negb (pool_is_empty pool)).

Definition test_insert_duplicate_sender_nonce_rejected : outcome unit :=
  pool ← inserted make_pool (make_tx 1 0 100);
  '(pool, err) ← insert_error pool (make_tx 1 0 200);
  assert_ (text_contains err (txt "nonce")).

Definition test_insert_below_min_fee_rejected : outcome unit :=
  let pool := make_pool_with_cap 100 50 50 in
  '(pool, err) ← insert_error pool (make_tx 1 0 10);
  assert_ (text_contains err (txt "fee too low")).

Definition test_insert_when_full_rejected : outcome unit :=
  let pool := make_pool_with_cap 1 50 0 in
  pool ← inserted pool (make_tx 1 0 100);
  '(pool, err) ← insert_error pool (make_tx 2 0 100);
  assert_ (text_contains err (txt "mempool full")).

Definition test_insert_respects_sender_cap : outcome unit :=
  let pool := make_pool_with_cap 100 3 0 in
  pool ← inserted pool (make_tx 1 0 100);
  pool ← inserted pool (make_tx 1 1 100);
  pool ← inserted pool (make_tx 1 2 100);
  '(pool, err) ← insert_error pool (make_tx 1 3 100);
  assert_ (text_contains err (txt "sender at cap")).

Definition test_remove_existing : outcome unit :=
  pool ← inserted make_pool (make_tx 1 0 100);
  '(pool, removed) ← remove pool (addr 1) 0;
  assert_ removed ;;
  assert_eq (pool_len pool) 0.

Definition test_remove_nonexistent : outcome unit :=
  '(pool, removed) ← remove make_pool (addr 1) 0;
  assert_ (negb removed).

Definition test_remove_cleans_up_sender_entry : outcome unit :=
  pool ← inserted make_pool (make_tx 1 0 100);
  '(pool, _) ← remove pool (addr 1) 0;
  assert_eq (sender_tx_count pool (addr 1)) 0.

Definition test_contains_after_insert : outcome unit :=
  pool ← inserted make_pool (make_tx 1 0 100);
  assert_ (contains pool (addr 1) 0) ;;
  assert_ (negb (contains pool (addr 1) 1)).

(** [selected[i]] *)
Definition nth_tx (l : list Transaction) (i : Z) : outcome Transaction := index l i.

Definition test_select_returns_highest_fee_first : outcome unit :=
  pool ← inserted make_pool (make_tx 1 0 50);
  pool ← inserted pool (make_tx 2 0 200);
  pool ← inserted pool (make_tx 3 0 100);
  '(pool, selected) ← select pool 10;
  assert_eq (length selected) 3%nat ;;
  t ← nth_tx selected 0; assert_eq (tx_fee t) 200 ;;
  t ← nth_tx selected 1; assert_eq (tx_fee t) 100 ;;
  t ← nth_tx selected 2; assert_eq (tx_fee t) 50.

Definition test_select_removes_txs_from_pool : outcome unit :=
  pool ← inserted make_pool (make_tx 1 0 100);
  '(pool, selected) ← select pool 10;
  assert_eq (length selected) 1%nat ;;
  assert_ (pool_is_empty pool).

Definition test_select_respects_max_count : outcome unit :=
  pool ← inserted make_pool (make_tx 1 0 100);
  pool ← inserted pool (make_tx 2 0 100);
  pool ← inserted pool (make_tx 3 0 100);
  '(pool, selected) ← select pool 2;
  assert_eq (length selected) 2%nat.

Definition test_select_respects_per_sender_cap : outcome unit :=
  let pool := make_pool_with_cap 100 2 0 in
  pool ← inserted pool (make_tx 1 0 100);
  pool ← inserted pool (make_tx 1 1 100);
  '(pool, err) ← insert_error pool (make_tx 1 2 100);
  assert_ (text_contains err (txt "sender at cap")) ;;
  '(pool, selected) ← select pool 10;
  assert_eq (length selected) 2%nat.

Definition test_select_interleaves_senders_by_fee : outcome unit :=
  pool ← inserted make_pool (make_tx 1 0 50);
  pool ← inserted pool (make_tx 1 1 50);
  pool ← inserted pool (make_tx 3 0 200);
  pool ← inserted pool (make_tx 2 0 100);
  '(pool, selected) ← select pool 10;
  assert_eq (length selected) 4%nat ;;
  t0 ← nth_tx selected 0; assert_eq (tx_sender t0) (addr 3) ;;
  t1 ← nth_tx selected 1; assert_eq (tx_sender t1) (addr 2) ;;
  t2 ← nth_tx selected 2; assert_eq (tx_sender t2) (addr 1) ;;
  t3 ← nth_tx selected 3; assert_eq (tx_sender t3) (addr 1) ;;
  assert_eq (tx_nonce t2) 0 ;;
  assert_eq (tx_nonce t3) 1.

Definition test_evict_expired_removes_old_txs : outcome unit :=
  let pool := Mempool_new (mkMempoolConfig 100 0 0 50) in
  pool ← inserted_at 0 pool (make_tx 1 0 100);
  assert_eq (pool_len pool) 1 ;;
  '(pool, evicted) ← evict_expired pool 1;
  assert_eq evicted 1 ;;
  assert_ (pool_is_empty pool).

Definition test_evict_leaves_fresh_txs : outcome unit :=
  pool ← inserted_at 0 make_pool (make_tx 1 0 100);
  '(pool, evicted) ← evict_expired pool 0;
  assert_eq evicted 0 ;;
  assert_eq (pool_len pool) 1.

(** [pool.config.ttl = ..] *)
Definition set_ttl (pool : Mempool) (t : Z) : Mempool :=
  let c := config pool in
  mkMempool (mkMempoolConfig (max_size c) t (min_fee c) (per_sender_cap c)) (txs pool) (count pool).

Definition test_evict_mixed : outcome unit :=
  let pool := Mempool_new (mkMempoolConfig 100 0 0 50) in
  pool ← inserted_at 0 pool (make_tx 1 0 100);
  '(pool, evicted) ← evict_expired pool 1;
  assert_eq evicted 1 ;;
  assert_ (pool_is_empty pool) ;;
  let pool := set_ttl pool 600 in
  pool ← inserted_at 1 pool (make_tx 2 0 100);
  assert_eq (pool_len pool) 1 ;;
  '(pool, evicted2) ← evict_expired pool 1;
  assert_eq evicted2 0 ;;
  assert_eq (pool_len pool) 1.

Definition test_sender_tx_count : outcome unit :=
  let pool := make_pool in
  assert_eq (sender_tx_count pool (addr 1)) 0 ;;
  pool ← inserted pool (make_tx 1 0 100);
  pool ← inserted pool (make_tx 1 1 100);
  pool ← inserted pool (make_tx 2 0 100);
  assert_eq (sender_tx_count pool (addr 1)) 2 ;;
  assert_eq (sender_tx_count pool (addr 2)) 1.

Definition test_select_empty_pool : outcome unit :=
  '(pool, selected) ← select make_pool 10;
  assert_eq (length selected) 0%nat.

Definition test_select_zero_count : outcome unit :=
  pool ← inserted make_pool (make_tx 1 0 100);
  '(pool, selected) ← select pool 0;
  assert_eq (length selected) 0%nat ;;
  assert_eq (pool_len pool) 1.

Definition test_select_deducts_from_sender_count : outcome unit :=
  pool ← inserted make_pool (make_tx 1 0 100);
  pool ← inserted pool (make_tx 1 1 100);
  assert_eq (sender_tx_count pool (addr 1)) 2 ;;
  '(pool, selected) ← select pool 1;
  assert_eq (length selected) 1%nat ;;
  assert_eq (sender_tx_count pool (addr 1)) 1.

Definition test_remove_absent_sender_returns_false : outcome unit :=
  '(pool, removed) ← remove make_pool (addr 99) 0;
  assert_ (negb removed).

Definition test_clear_resets_pool : outcome unit :=
  pool ← inserted make_pool (make_tx 1 0 100);
  pool ← inserted pool (make_tx 2 0 200);
  '(pool, selected) ← select pool 0;
  assert_eq (length selected) 0%nat ;;
  assert_eq (pool_len pool) 2 ;;
  '(pool, selected) ← select pool 100;
  assert_eq (length selected) 2%nat ;;
  assert_ (pool_is_empty pool).

Definition test_insert_min_fee_boundary : outcome unit :=
  let low_fee_tx := make_tx 1 0 5 in
  '(pool, err) ← insert_error make_pool low_fee_tx;
  assert_ (text_contains err (txt "min fee") || text_contains err (txt "fee")).

Definition test_select_only_takes_from_existing_txs : outcome unit :=
  pool ← inserted make_pool (make_tx 1 0 100);
  '(pool, selected) ← select pool 100;
  assert_eq (length selected) 1%nat ;;
  '(pool, empty) ← select pool 100;
  assert_eq (length empty) 0%nat.

Definition test_remove_cleans_up_empty_sender_entry : outcome unit :=
  pool ← inserted make_pool (make_tx 1 0 100);
  pool ← inserted pool (make_tx 1 1 100);
  assert_eq (pool_len pool) 2 ;;
  '(pool, removed) ← remove pool (addr 1) 0;
  assert_ removed ;;
  assert_eq (pool_len pool) 1 ;;
  '(pool, removed) ← remove pool (addr 1) 1;
  assert_ removed ;;
  assert_eq (pool_len pool) 0 ;;
  '(pool, removed) ← remove pool (addr 1) 0;
  assert_ (negb removed).

Definition test_select_respects_per_sender_cap_with_multiple_senders : outcome unit :=
  let pool := make_pool_with_cap 10000 2 10 in
  pool ← inserted pool (make_tx 1 0 100);
  pool ← inserted pool (make_tx 1 1 101);
  pool ← inserted pool (make_tx 2 0 200);
  pool ← inserted pool (make_tx 2 1 201);
  pool ← inserted pool (make_tx 3 0 150);
  pool ← inserted pool (make_tx 3 1 151);
  assert_eq (pool_len pool) 6 ;;
  '(pool, selected) ← select pool 20;
  assert_eq (length selected) 6%nat ;;
  for_each [1; 2; 3] (fun byte =>
    let sender_addr := addr byte in
    let n := length (filter (fun tx => tx_sender tx = sender_addr) selected) in
    assert_ (n <=? 2)%nat).

Definition test_select_per_sender_cap_at_boundary : outcome unit :=
  let pool := make_pool_with_cap 10000 2 10 in
  pool ← inserted pool (make_tx 1 0 100);
  pool ← inserted pool (make_tx 1 1 100);
  assert_eq (pool_len pool) 2 ;;
  '(pool, selected) ← select pool 10;
  assert_eq (length selected) 2%nat ;;
  let pool2 := make_pool_with_cap 10000 2 10 in
  pool2 ← inserted pool2 (make_tx 1 0 100);
  pool2 ← inserted pool2 (make_tx 1 1 100);
  pool2 ← inserted pool2 (make_tx 2 0 200);
  pool2 ← inserted pool2 (make_tx 2 1 200);
  '(pool2, r) ← insert_tx pool2 0 (make_tx 2 2 200);
  assert_ (negb (is_ok r)) ;;
  assert_eq (pool_len pool2) 4 ;;
  '(pool2, selected2) ← select pool2 10;
  assert_eq (length selected2) 4%nat.

Definition pool_tests : list (outcome unit) :=
  [test_insert_increases_count; test_insert_duplicate_sender_nonce_rejected;
   test_insert_below_min_fee_rejected; test_insert_when_full_rejected; test_insert_respects_sender_cap;
   test_remove_existing; test_remove_nonexistent; test_remove_cleans_up_sender_entry;
   test_contains_after_insert; test_select_returns_highest_fee_first; test_select_removes_txs_from_pool;
   test_select_respects_max_count; test_select_respects_per_sender_cap;
   test_select_interleaves_senders_by_fee; test_evict_expired_removes_old_txs;
   test_evict_leaves_fresh_txs; test_evict_mixed; test_sender_tx_count; test_select_empty_pool;
   test_select_zero_count; test_select_deducts_from_sender_count; test_remove_absent_sender_returns_false;
   test_clear_resets_pool; test_insert_min_fee_boundary; test_select_only_takes_from_existing_txs;
   test_remove_cleans_up_empty_sender_entry; test_select_respects_per_sender_cap_with_multiple_senders;
   test_select_per_sender_cap_at_boundary].

(** ** [mempool/ordering.rs] *)

#[local] Instance comparison_eq_dec : EqDecision comparison.
Proof. solve_decision. Defined.

Definition test_higher_fee_higher_priority : outcome unit :=
  let low := new_at (make_tx 1 0 50) 0 in
  let high := new_at (make_tx 1 0 100) 0 in
  assert_eq (cmp_priority low high) Gt ;;
  assert_eq (cmp_priority high low) Lt.

Definition test_earlier_time_higher_priority_same_fee : outcome unit :=
  let now := 0 in
  let early := new_at (make_tx 1 0 100) now in
  let late := new_at (make_tx 2 0 100) (now + 1) in
  assert_eq (cmp_priority early late) Lt ;;
  assert_eq (cmp_priority late early) Gt.

Definition test_lower_nonce_higher_priority_same_fee_time : outcome unit :=
  let now := 0 in
  let a := new_at (make_tx 1 5 100) now in
  let b := new_at (make_tx 2 0 100) now in
  assert_eq (cmp_priority b a) Lt ;;
  assert_eq (cmp_priority a b) Gt.

Definition test_priority_sort_orders_correctly : outcome unit :=
  let now := 0 in
  let best := new_at (make_tx 1 5 200) now in
  let mid := new_at (make_tx 2 0 100) (now + 1) in
  let mid2 := new_at (make_tx 3 3 100) now in
  let worst := new_at (make_tx 4 0 50) now in
  let txs := sort_by cmp_priority [worst; mid; best; mid2] in
  t ← index txs 0; assert_eq (pt_fee t) 200 ;;
  t ← index txs 1; assert_eq (pt_fee t) 100 ;;
  t ← index txs 2; assert_eq (pt_fee t) 100 ;;
  t ← index txs 3; assert_eq (pt_fee t) 50.

Definition ordering_tests : list (outcome unit) :=
  [test_higher_fee_higher_priority; test_earlier_time_higher_priority_same_fee;
   test_lower_nonce_higher_priority_same_fee_time; test_priority_sort_orders_correctly].

(** ** [governance/constants.rs] *)

Definition test_quorum_met_exactly_two_thirds : outcome unit := b ← quorum_met 200 300; assert_ b.
Definition test_quorum_met_above_two_thirds : outcome unit := b ← quorum_met 250 300; assert_ b.
Definition test_quorum_not_met_below_two_thirds : outcome unit := b ← quorum_met 199 300; assert_ (negb b).
Definition test_threshold_met_majority : outcome unit := b ← threshold_met 101 200; assert_ b.
Definition test_threshold_not_met_tie : outcome unit := b ← threshold_met 100 200; assert_ (negb b).
Definition test_threshold_not_met_minority : outcome unit := b ← threshold_met 50 200; assert_ (negb b).

Definition test_param_bounds_contains_all_variants : outcome unit :=
  for_each [MaxValidators; EraLength; BlockSizeCapBytes; BlockTxCap; FlatFee; PerByteRate; AntiSpamDeposit;
            MissedSlotPenalty; SupplyCeilingRate; SupplyHeadroomRate]
    (fun param => assert_ (bool_decide (is_Some (param_bounds_for param)))).

Definition test_param_bounds_min_less_than_max : outcome unit :=
  for_each param_bounds (fun '(param, (min, max)) => assert_ (min <? max)).

Definition tally_tests : list (outcome unit) :=
  [test_quorum_met_exactly_two_thirds; test_quorum_met_above_two_thirds;
   test_quorum_not_met_below_two_thirds; test_threshold_met_majority; test_threshold_not_met_tie;
   test_threshold_not_met_minority; test_param_bounds_contains_all_variants;
   test_param_bounds_min_less_than_max].

(** ** [governance/engine.rs]; the engine borrows the machine it is given *)

Definition proposal_id (n : Z) : array 32 := array_repeat 32 (byte_of_Z n).

Definition setup_state : outcome StateMachine :=
  b ← u256_mul PROPOSAL_DEPOSIT 5;
  let sm := StateMachine_new [(addr 1, Account_new b)] in
  stake ← u256_mul ONE_MONEX 1000;
  let val := mkValidatorEntry (addr 2) (array_repeat 897 x42) stake Active 0 in
  Ret (set_validator sm (addr 2) val).

(** [.unwrap()] and [.unwrap_err()] on a call that returns the machine *)
Definition accepted (m : outcome (StateMachine * Result unit)) : outcome StateMachine :=
  '(sm, r) ← m; unwrap_ok r ;; Ret sm.
Definition refused (m : outcome (StateMachine * Result unit)) : outcome LibError :=
  '(sm, r) ← m; unwrap_err r.

Definition max_validators_to (v : Z) : list GovernanceAction := [UpdateParam MaxValidators v].

Definition is_rejected (e : LibError) : bool := match e with GovernanceRejected _ => true | _ => false end.

Definition test_submit_proposal_success : outcome unit :=
  sm ← setup_state;
  let pid := proposal_id 1 in
  sm ← accepted (submit_proposal sm (addr 1) pid (txt "Test Proposal") (txt "Description") (max_validators_to 50) 0);
  proposal ← unwrap (get_proposal sm pid);
  assert_eq (pr_proposer proposal) (addr 1) ;;
  assert_eq (pr_status proposal) PActive ;;
  assert_eq (pr_submission_era proposal) 0 ;;
  assert_eq (pr_deposit proposal) PROPOSAL_DEPOSIT.

Definition test_submit_proposal_insufficient_balance : outcome unit :=
  let sm := StateMachine_new [(addr 1, Account_new 10)] in
  err ← refused (submit_proposal sm (addr 1) (proposal_id 1) (txt "Title") (txt "Desc") (max_validators_to 50) 0);
  assert_ (match err with InsufficientBalance _ _ => true | _ => false end).

Definition test_submit_proposal_title_too_long : outcome unit :=
  sm ← setup_state;
  let title := List.repeat x00 257 in
  err ← refused (submit_proposal sm (addr 1) (proposal_id 1) title (txt "Desc") [] 0);
  assert_ (is_rejected err).

Definition test_submit_proposal_empty_actions_rejected : outcome unit :=
  sm ← setup_state;
  err ← refused (submit_proposal sm (addr 1) (proposal_id 1) (txt "Title") (txt "Desc") [] 0);
  assert_ (is_rejected err).

Definition test_submit_proposal_param_out_of_bounds : outcome unit :=
  sm ← setup_state;
  err ← refused (submit_proposal sm (addr 1) (proposal_id 1) (txt "Title") (txt "Desc") (max_validators_to 0) 0);
  assert_ (is_rejected err).

(** The proposal the later tests submit. *)
Definition submit_test (sm : StateMachine) (pid : array 32) (value era : Z) : outcome StateMachine :=
  accepted (submit_proposal sm (addr 1) pid (txt "Test") (txt "Desc") (max_validators_to value) era).

Definition test_cast_vote_success : outcome unit :=
  sm ← setup_state;
  sm ← submit_test sm (proposal_id 1) 50 0;
  sm ← accepted (cast_vote sm (proposal_id 1) (addr 2) true 0 100);
  let vk := vote_key (proposal_id 1) (addr 2) in
  bs ← unwrap (governance_get sm vk);
  '(vote, _) ← unwrap (dec sc_vote bs);
  assert_ (vt_approve vote) ;;
  assert_eq (vt_voter vote) (addr 2) ;;
  w ← u256_mul ONE_MONEX 1000;
  assert_eq (vt_weight vote) w.

Definition test_cast_vote_no_stake_rejected : outcome unit :=
  sm ← setup_state;
  sm ← submit_test sm (proposal_id 1) 50 0;
  err ← refused (cast_vote sm (proposal_id 1) (addr 3) true 0 100);
  assert_ (is_rejected err).

Definition test_cancel_proposal_success : outcome unit :=
  sm ← setup_state;
  let pid := proposal_id 1 in
  sm ← submit_test sm pid 50 0;
  sm ← accepted (cancel_proposal sm pid (addr 1));
  proposal ← unwrap (get_proposal sm pid);
  assert_eq (pr_status proposal) PCancelled.

Definition test_cancel_proposal_not_proposer : outcome unit :=
  sm ← setup_state;
  sm ← submit_test sm (proposal_id 1) 50 0;
  err ← refused (cancel_proposal sm (proposal_id 1) (addr 3));
  assert_ (is_rejected err).

Definition stored_max_validators (sm : StateMachine) : outcome Z :=
  let pk := param_key MaxValidators in
  bs ← unwrap (governance_get sm pk);
  '(stored, _) ← unwrap (dec sc_u256 bs);
  Ret stored.

Definition test_execute_update_param : outcome unit :=
  sm ← setup_state;
  let pid := proposal_id 1 in
  sm ← submit_test sm pid 100 0;
  let sm := set_proposal_status sm pid PApproved in
  let sm := execute_approved sm [pid] in
  stored ← stored_max_validators sm;
  assert_eq stored 100.

Definition test_execute_multiple_params_last_wins : outcome unit :=
  sm ← setup_state;
  sm ← foldM (fun sm '(i, val) =>
         let pid := proposal_id i in
         sm ← submit_test sm pid val i;
         Ret (set_proposal_status sm pid PApproved)) sm [(1, 50); (2, 200)];
  let sm := execute_approved sm [proposal_id 1; proposal_id 2] in
  stored ← stored_max_validators sm;
  assert_eq stored 200.

Definition governance_tests : list (outcome unit) :=
  [test_submit_proposal_success; test_submit_proposal_insufficient_balance;
   test_submit_proposal_title_too_long; test_submit_proposal_empty_actions_rejected;
   test_submit_proposal_param_out_of_bounds; test_cast_vote_success; test_cast_vote_no_stake_rejected;
   test_cancel_proposal_success; test_cancel_proposal_not_proposer; test_execute_update_param;
   test_execute_multiple_params_last_wins].

(** ** Every test passes *)

Lemma pool_tests_pass : forallb passes pool_tests = true.
Proof. by vm_compute. Qed.

Lemma ordering_tests_pass : forallb passes ordering_tests = true.
Proof. by vm_compute. Qed.

Lemma tally_tests_pass : forallb passes tally_tests = true.
Proof. by vm_compute. Qed.

Lemma governance_tests_pass : forallb passes governance_tests = true.
Proof. by vm_compute. Qed.
