(* ===== verification/CoreTests.v ===== *)
(** * The unit and property tests of [core/], [crypto/trie.rs], [crypto/address.rs] and [error.rs]

    The tests of fees, addresses, accounts, the tree and the SCALE formats the
    model has codecs for.  The property tests on addresses, accounts and validator
    entries hold for every value and every lawful codec, not only for the values a
    generator draws.  Tests of serde's JSON are about that library alone and are
    left out. *)
From Stdlib Require Import Strings.Byte Strings.String.
From stdpp Require Import base gmap sets list strings countable sorting.
From Stdlib Require Import ZArith Lia.
From S2P Require Import Prelude Types External Toy Trie Account State Supply Wallet Errors Testing.

Import TestInstances.
#[local] Existing Instance toy_fndsa.
#[local] Remove Hints toy_blake3 : typeclass_instances.

Abbreviation txt s := (list_byte_of_string s%string) (only parsing).

(** ** [error.rs] *)

Definition test_hex_bytes_display : outcome unit :=
  let hb := mkHexBytes (array_repeat 32 xab) in
  let s := hex_bytes_display (hex_bytes hb) in
  assert_ (starts_with (txt "0x") s) ;;
  assert_eq (length s) 66%nat.

Definition test_hex_bytes_from : outcome unit :=
  let arr := array_repeat 32 x42 in
  let hb := mkHexBytes arr in
  assert_eq (hex_bytes hb) arr.

Definition test_hex_bytes_eq : outcome unit :=
  let a := mkHexBytes (array_repeat 32 x01) in
  let b := mkHexBytes (array_repeat 32 x01) in
  let c := mkHexBytes (array_repeat 32 x02) in
  assert_eq (hex_bytes a) (hex_bytes b) ;;
  assert_ne (hex_bytes a) (hex_bytes c).

Definition test_error_display_variants : outcome unit :=
  assert_eq (error_display InvalidSignature) (txt "invalid signature") ;;
  assert_eq (error_display (InsufficientBalance 10 100)) (txt "insufficient balance: have 10, need 100") ;;
  assert_eq (error_display (InvalidNonce 0 5)) (txt "invalid nonce: expected 0, got 5") ;;
  assert_ (text_contains (error_display (Storage "disk full")) (txt "disk full")) ;;
  assert_ (text_contains (error_display (Crypto "bad key")) (txt "bad key")) ;;
  assert_ (text_contains (error_display (CodecError "bad encode")) (txt "bad encode")) ;;
  assert_eq (error_display (BlockNotFound 42)) (txt "block not found: 42") ;;
  assert_eq (error_display TxNotFound) (txt "tx not found") ;;
  assert_eq (error_display ProposalNotFound) (txt "proposal not found") ;;
  assert_eq (error_display (Consensus "bad proposal")) (txt "consensus error: bad proposal") ;;
  assert_ (text_contains (error_display (Network "timeout")) (txt "timeout")) ;;
  assert_ (text_contains (error_display (GovernanceRejected "no")) (txt "no")) ;;
  assert_eq (error_display (InvalidAddress "bad")) (txt "invalid address: bad") ;;
  assert_eq (error_display (AccountNotFound (mkHexBytes (array_repeat 32 xaa))))
    (txt "account not found: 0xaaaaaaaaaaaaaaaaaaaaaaaaaaaaaaaaaaaaaaaaaaaaaaaaaaaaaaaaaaaaaaaa") ;;
  assert_eq (error_display (ValidatorNotFound (mkHexBytes (array_repeat 32 xbb))))
    (txt "validator not found: 0xbbbbbbbbbbbbbbbbbbbbbbbbbbbbbbbbbbbbbbbbbbbbbbbbbbbbbbbbbbbbbbbb") ;;
  assert_eq (error_display (ChecksumMismatch "abc" "def"))
    (txt "address checksum mismatch: expected abc, computed def") ;;
  assert_eq (error_display (EquivocationHeightMismatch 1 2))
    (txt "equivocation: header height mismatch (a=1, b=2)") ;;
  assert_eq (error_display EquivocationParentMismatch) (txt "equivocation: parent hash mismatch") ;;
  assert_eq (error_display EquivocationIdenticalBlocks) (txt "equivocation: headers are identical") ;;
  assert_eq (error_display EquivocationSigAInvalid) (txt "equivocation: signature A is invalid") ;;
  assert_eq (error_display EquivocationSigBInvalid) (txt "equivocation: signature B is invalid").

Definition error_tests : list (outcome unit) :=
  [test_hex_bytes_display; test_hex_bytes_from; test_hex_bytes_eq; test_error_display_variants].

(** ** [core/fee.rs] *)

Definition fee_tx (sender : byte) (fee : Z) (body : TxBody) : Transaction :=
  mkTransaction 0 0 (address_from (array_repeat 32 sender)) fee body (sig_of xee).

Definition dummy_transfer_tx : Transaction := fee_tx x01 1000 (Transfer (addr 2) 500).
Definition dummy_burn_tx_permanent : Transaction := fee_tx x03 10 (Burn Permanent 100).
Definition dummy_burn_tx_cap_refill : Transaction := fee_tx x04 10 (Burn CapRefill 200).
Definition dummy_register_validator_tx : Transaction := fee_tx x05 1000 (RegisterValidator (array_repeat 897 x42)).

(** [Transaction { body, ..tx }] *)
Definition with_body (tx : Transaction) (body : TxBody) : Transaction :=
  mkTransaction (tx_chain_id tx) (tx_nonce tx) (tx_sender tx) (tx_fee tx) body (tx_signature tx).

Definition test_hybrid_fee_default_rates : outcome unit :=
  let fee := HybridFee_new in
  assert_eq (flat_fee fee) DEFAULT_FLAT_FEE ;;
  assert_eq (per_byte_rate fee) DEFAULT_PER_BYTE_RATE.

Definition test_hybrid_fee_non_burn_is_positive : outcome unit :=
  let fee := HybridFee_new in
  let tx := dummy_transfer_tx in
  calculated ← calculate_fee fee tx;
  assert_ (0 <? calculated).

Definition test_burn_fee_is_flat_10_moxx : outcome unit :=
  let fee := HybridFee_new in
  let tx := dummy_burn_tx_permanent in
  f ← calculate_fee fee tx;
  assert_eq f BURN_FLAT_FEE ;;
  assert_eq BURN_FLAT_FEE 10.

Definition test_burn_fee_bypasses_standard_calculation : outcome unit :=
  let fee := HybridFee_new in
  let burn := dummy_burn_tx_permanent in
  let transfer := dummy_transfer_tx in
  burn_fee ← calculate_fee fee burn;
  transfer_fee ← calculate_fee fee transfer;
  assert_ (burn_fee <? transfer_fee).

Definition test_fee_increases_with_tx_size : outcome unit :=
  let fee := HybridFee_new in
  let small_tx := with_body dummy_transfer_tx (Transfer (addr 1) 1) in
  let large_tx := with_body dummy_transfer_tx (RegisterAndStake (addr 2) U256_MAX) in
  small_fee ← calculate_fee fee small_tx;
  large_fee ← calculate_fee fee large_tx;
  assert_eq small_fee large_fee ;;
  assert_ (0 <? small_fee).

Definition test_fee_trait_object : outcome unit :=
  let policy := HybridFee_new in
  let tx := dummy_burn_tx_permanent in
  f ← calculate_fee policy tx;
  assert_eq f 10.

Definition test_burn_cap_refill_flat_fee : outcome unit :=
  let fee := HybridFee_new in
  let tx := dummy_burn_tx_cap_refill in
  f ← calculate_fee fee tx;
  assert_eq f BURN_FLAT_FEE.

Definition test_register_validator_fee_positive : outcome unit :=
  let fee := HybridFee_new in
  let tx := dummy_register_validator_tx in
  calculated ← calculate_fee fee tx;
  assert_ (0 <? calculated).

Definition test_burn_variants_same_fee : outcome unit :=
  let fee := HybridFee_new in
  let perm := dummy_burn_tx_permanent in
  let cap := dummy_burn_tx_cap_refill in
  p ← calculate_fee fee perm;
  c ← calculate_fee fee cap;
  assert_eq p c.

Definition test_encoded_size_increases_with_tx_complexity : outcome unit :=
  let small := dummy_transfer_tx in
  let medium := dummy_register_validator_tx in
  let large := dummy_burn_tx_permanent in
  let sizes := map encoded_size [small; medium; large] in
  for_each sizes (fun s => assert_ (0 <? s)).

Definition test_fee_calculation_deterministic : outcome unit :=
  let fee := HybridFee_new in
  let tx := dummy_transfer_tx in
  f1 ← calculate_fee fee tx;
  f2 ← calculate_fee fee tx;
  assert_eq f1 f2.

Definition test_flat_fee_plus_per_byte_is_positive : outcome unit :=
  let fee := HybridFee_new in
  let tx := dummy_transfer_tx in
  calculated ← calculate_fee fee tx;
  assert_ (0 <? calculated) ;;
  assert_ (flat_fee fee <=? calculated).

Definition test_burn_fee_is_flat : outcome unit :=
  let fee := HybridFee_new in
  let perm := dummy_burn_tx_permanent in
  let cap := dummy_burn_tx_cap_refill in
  p ← calculate_fee fee perm;
  assert_eq p BURN_FLAT_FEE ;;
  c ← calculate_fee fee cap;
  assert_eq c BURN_FLAT_FEE.

(** [HybridFee::default()] is [HybridFee::new()]. *)
Definition test_hybrid_fee_default_via_trait : outcome unit :=
  let fee := HybridFee_new in
  let tx := dummy_transfer_tx in
  f ← calculate_fee fee tx;
  assert_ (0 <? f).

Definition test_encoded_size_differs_by_tx_type : outcome unit :=
  let transfer := dummy_transfer_tx in
  let reg_validator := dummy_register_validator_tx in
  assert_ (encoded_size transfer <? encoded_size reg_validator) ;;
  let tx_a := with_body transfer (Transfer (addr 0xAA) 1) in
  let tx_b := with_body transfer (Transfer (addr 0xBB) U256_MAX) in
  assert_eq (encoded_size tx_a) (encoded_size tx_b).

Definition fee_tests : list (outcome unit) :=
  [test_hybrid_fee_default_rates; test_hybrid_fee_non_burn_is_positive; test_burn_fee_is_flat_10_moxx;
   test_burn_fee_bypasses_standard_calculation; test_fee_increases_with_tx_size; test_fee_trait_object;
   test_burn_cap_refill_flat_fee; test_register_validator_fee_positive; test_burn_variants_same_fee;
   test_encoded_size_increases_with_tx_complexity; test_fee_calculation_deterministic;
   test_flat_fee_plus_per_byte_is_positive; test_burn_fee_is_flat; test_hybrid_fee_default_via_trait;
   test_encoded_size_differs_by_tx_type].

(** ** [core/account.rs] *)

#[local] Instance ParseAddressError_eq_dec : EqDecision ParseAddressError.
Proof. solve_decision. Defined.
#[local] Instance parsed_eq_dec : EqDecision (result ParseAddressError Address).
Proof. solve_decision. Defined.

Definition test_account_new : outcome unit :=
  let acc := Account_new 1000 in
  assert_eq (balance acc) 1000 ;;
  assert_eq (nonce acc) 0 ;;
  assert_eq (code_hash acc) None.

Definition test_account_with_nonce : outcome unit :=
  let acc := Account_with_nonce 500 7 in
  assert_eq (nonce acc) 7.

Definition test_account_increment_nonce : outcome unit :=
  let acc := Account_new 0 in
  acc ← increment_nonce acc;
  assert_eq (nonce acc) 1 ;;
  acc ← increment_nonce acc;
  assert_eq (nonce acc) 2.

Definition test_address_from_bytes : outcome unit :=
  let bs := array_repeat 32 x3a in
  let a := address_from bs in
  assert_eq (as_bytes a) bs.

Definition sample_bytes : bytes :=
  [x3a; x1b; x2c; x3d; x4e; x5f; x6a; x7b; x8c; x9d; x0e; x1f; x2a; x3b; x4c; x5d; x6e; x7f; x8a; x9b; x0c; x1d;
   x2e; x3f; x4a; x5b; x6c; x7d; x8e; x9f; x0a; x1b].

Definition test_address_display_and_parse_roundtrip : outcome unit :=
  bs ← unwrap (array_of_list 32 sample_bytes);
  let a := address_from bs in
  let formatted := format_address a in
  r ← parse_address formatted;
  parsed ← unwrap_ok r;
  assert_eq a parsed ;;
  assert_ (starts_with (txt "0x") formatted) ;;
  assert_eq (length formatted) 82%nat.

Definition test_format_address_length : outcome unit :=
  let s := format_address (addr 0) in
  assert_eq (length s) 82%nat.

Definition test_parse_address_valid : outcome unit :=
  let a := addr 0xab in
  let formatted := format_address a in
  r ← parse_address formatted;
  parsed ← unwrap_ok r;
  assert_eq a parsed.

Definition test_parse_address_missing_prefix : outcome unit :=
  result ← parse_address (txt "abcd1234");
  assert_eq result (Err MissingPrefix).

Definition test_parse_address_too_short : outcome unit :=
  result ← parse_address (txt "0xabcd");
  assert_eq result (Err TooShort).

Definition test_parse_address_invalid_hex : outcome unit :=
  result ← parse_address (txt "0x" ++ List.repeat x7a 80);
  assert_eq result (Err InvalidHex).

(** [corrupted.replace_range(81..82, f)] *)
Definition test_parse_address_checksum_mismatch : outcome unit :=
  let a := addr 0x42 in
  let formatted := format_address a in
  let corrupted := take 81 formatted ++ txt "f" in
  result ← parse_address corrupted;
  assert_eq result (Err ParseChecksumMismatch).

Definition test_burn_address : outcome unit :=
  let a := burn_address in
  assert_eq (as_bytes a) (array_repeat 32 x00).

Definition test_cap_refill_address : outcome unit :=
  let a := cap_refill_address in
  assert_eq (array_bytes (as_bytes a) !! 31%nat) (Some x01) ;;
  assert_eq (take 31 (array_bytes (as_bytes a))) (List.repeat x00 31).

(** [T::decode(&mut &encoded[..]).unwrap()] *)
Definition decoded {A} (c : codec A) (bs : bytes) : outcome A := '(x, _) ← unwrap (dec c bs); Ret x.

Definition test_address_scale_roundtrip : outcome unit :=
  let a := addr 0x55 in
  let encoded := scale_encode_address a in
  d ← decoded sc_address encoded;
  assert_eq a d.

Definition test_account_scale_roundtrip : outcome unit :=
  let acc := mkAccount 12345 42 (Some (array_repeat 32 x99)) in
  let encoded := enc sc_account acc in
  d ← decoded sc_account encoded;
  assert_eq acc d.

Definition test_account_scale_roundtrip_no_code : outcome unit :=
  let acc := Account_new 999 in
  let encoded := enc sc_account acc in
  d ← decoded sc_account encoded;
  assert_eq acc d.

Definition test_address_scale_decode_too_short : outcome unit :=
  assert_ (match dec sc_address (List.repeat x00 4) with None => true | Some _ => false end).

Definition test_account_scale_decode_too_short : outcome unit :=
  assert_ (match dec sc_account (List.repeat x00 4) with None => true | Some _ => false end).

Definition test_format_address_known_value : outcome unit :=
  let a := addr 0 in
  let s := format_address a in
  assert_eq (length s) 82%nat ;;
  assert_ (starts_with (txt "0x") s) ;;
  body ← str_slice s 2 66;
  assert_eq body (List.repeat x30 64) ;;
  check ← str_slice s 66 82;
  assert_ne check (List.repeat x30 16).

Definition test_address_display_same_as_format : outcome unit :=
  let a := addr 0x42 in
  assert_eq (format_address a) (format_address a).

Definition test_scale_encode_decode_account_roundtrip : outcome unit :=
  let acct := mkAccount 12345 42 (Some (array_repeat 32 x99)) in
  let bs := scale_encode_account acct in
  d ← scale_decode_account bs;
  assert_eq acct d.

Definition test_scale_encode_decode_account_zero_balance : outcome unit :=
  let acct := Account_new 0 in
  let bs := scale_encode_account acct in
  d ← scale_decode_account bs;
  assert_eq acct d.

Definition test_scale_decode_account_invalid_panics : outcome unit :=
  should_panic (scale_decode_account (List.repeat x00 4)).

Definition account_tests : list (outcome unit) :=
  [test_account_new; test_account_with_nonce; test_account_increment_nonce; test_address_from_bytes;
   test_address_display_and_parse_roundtrip; test_format_address_length; test_parse_address_valid;
   test_parse_address_missing_prefix; test_parse_address_too_short; test_parse_address_invalid_hex;
   test_parse_address_checksum_mismatch; test_burn_address; test_cap_refill_address;
   test_address_scale_roundtrip; test_account_scale_roundtrip; test_account_scale_roundtrip_no_code;
   test_address_scale_decode_too_short; test_account_scale_decode_too_short;
   test_format_address_known_value; test_address_display_same_as_format;
   test_scale_encode_decode_account_roundtrip; test_scale_encode_decode_account_zero_balance;
   test_scale_decode_account_invalid_panics].

(** ** [crypto/trie.rs] *)

(** A tree holding the pairs, inserted in order. *)
Definition tree_of (l : list (bytes * bytes)) : SparseMerkleTree := foldl (fun t p => smt_insert t p.1 p.2) smt_new l.

Definition test_empty_smt_has_correct_default_root : outcome unit :=
  let expected := default_at compute_defaults DEPTH in
  '(r, smt) ← smt_root smt_new;
  assert_eq r expected ;;
  '(r, smt) ← smt_root smt;
  assert_ne r (array_repeat 32 x00).

Definition test_insert_and_get_value : outcome unit :=
  let smt := smt_insert smt_new (txt "alice") [x01; x02; x03; x04] in
  assert_eq (smt_get smt (txt "alice")) (Some [x01; x02; x03; x04]).

Definition test_get_unknown_key_returns_none : outcome unit :=
  assert_eq (smt_get smt_new (txt "unknown")) None.

Definition test_insert_overwrites_value : outcome unit :=
  let smt := smt_insert smt_new (txt "key") [x01; x02; x03] in
  let smt := smt_insert smt (txt "key") [x04; x05; x06] in
  assert_eq (smt_get smt (txt "key")) (Some [x04; x05; x06]).

Definition test_insert_changes_root : outcome unit :=
  '(empty_root, smt) ← smt_root smt_new;
  let smt := smt_insert smt (txt "alice") [x01; x02; x03; x04] in
  '(after_root, smt) ← smt_root smt;
  assert_ne after_root empty_root.

Definition test_deterministic_root_same_keys : outcome unit :=
  '(ra, _) ← smt_root (tree_of [(txt "x", [x01])]);
  '(rb, _) ← smt_root (tree_of [(txt "x", [x01])]);
  assert_eq ra rb.

Definition test_different_values_different_roots : outcome unit :=
  '(ra, _) ← smt_root (tree_of [(txt "x", [x01])]);
  '(rb, _) ← smt_root (tree_of [(txt "x", [x02])]);
  assert_ne ra rb.

Definition test_multiple_keys : outcome unit :=
  let smt := tree_of [(txt "alice", [x01]); (txt "bob", [x02]); (txt "carol", [x03])] in
  assert_eq (smt_get smt (txt "alice")) (Some [x01]) ;;
  assert_eq (smt_get smt (txt "bob")) (Some [x02]) ;;
  assert_eq (smt_get smt (txt "carol")) (Some [x03]) ;;
  assert_eq (smt_get smt (txt "dave")) None.

Definition test_root_caching_repeated_calls_same_value : outcome unit :=
  let smt := tree_of [(txt "key", [x2a])] in
  '(root_a, smt) ← smt_root smt;
  '(root_b, smt) ← smt_root smt;
  assert_eq root_a root_b.

Definition test_large_value : outcome unit :=
  let large := List.repeat xab (Z.to_nat 10000) in
  let smt := tree_of [(txt "big", large)] in
  assert_eq (smt_get smt (txt "big")) (Some large).

Definition test_trie_trait_insert_get : outcome unit :=
  let trie := trie_insert smt_new (txt "trait") [x09; x09; x09] in
  let val := trie_get trie (txt "trait") in
  assert_eq val (Some [x09; x09; x09]).

Definition test_trie_trait_root : outcome unit :=
  '(empty, trie) ← trie_root smt_new;
  let trie := trie_insert trie (txt "a") [x01] in
  '(after, trie) ← trie_root trie;
  assert_ne after empty.

Definition test_trie_insert_empty_value : outcome unit :=
  let smt := tree_of [(txt "empty", [])] in
  assert_eq (smt_get smt (txt "empty")) (Some []) ;;
  '(root, smt) ← smt_root smt;
  assert_ne root (default_at compute_defaults DEPTH).

Definition test_namespace_key_account : outcome unit :=
  let a := List.repeat xab 32 in
  let full := namespace_key NS_ACCOUNTS a in
  assert_eq (length full) 33%nat ;;
  assert_eq (full !! 0%nat) (Some NS_ACCOUNTS) ;;
  assert_eq (drop 1 full) a.

Definition test_namespace_key_validator : outcome unit :=
  let pk := List.repeat xbc 32 in
  let full := namespace_key NS_VALIDATORS pk in
  assert_eq (full !! 0%nat) (Some NS_VALIDATORS).

Definition test_namespace_key_meta : outcome unit :=
  let meta := txt "height" in
  let full := namespace_key NS_META meta in
  assert_eq full [x02; x68; x65; x69; x67; x68; x74].

Definition test_namespace_keys_are_disjoint : outcome unit :=
  let a := List.repeat xab 32 in
  let pk := List.repeat xbc 32 in
  let acct_key := namespace_key NS_ACCOUNTS a in
  let val_key := namespace_key NS_VALIDATORS pk in
  let acct_trie := tree_of [(acct_key, [x64])] in
  let val_trie := tree_of [(val_key, [xc8])] in
  assert_eq (smt_get acct_trie acct_key) (Some [x64]) ;;
  assert_eq (smt_get acct_trie val_key) None ;;
  assert_eq (smt_get val_trie val_key) (Some [xc8]) ;;
  assert_eq (smt_get val_trie acct_key) None.

Definition test_namespace_deterministic_root_with_prefixes : outcome unit :=
  let a := List.repeat xab 32 in
  '(root, _) ← smt_root (tree_of [(namespace_key NS_ACCOUNTS a, [x2a])]);
  '(root2, _) ← smt_root (tree_of [(namespace_key NS_ACCOUNTS a, [x2a])]);
  assert_eq root root2 ;;
  '(root3, _) ← smt_root (tree_of [(namespace_key NS_VALIDATORS a, [x2a])]);
  assert_ne root root3.

Definition test_compute_root_with_disjoint_siblings : outcome unit :=
  let smt := smt_insert smt_new (txt "aaa") [x01; x02; x03] in
  '(root1, smt) ← smt_root smt;
  assert_ne root1 (default_at compute_defaults DEPTH) ;;
  let smt := smt_insert smt (txt "bbb") [x04; x05; x06] in
  '(root2, smt) ← smt_root smt;
  assert_ne root2 root1 ;;
  '(again, smt) ← smt_root smt;
  assert_eq root2 again.

Definition test_root_caching_after_insert : outcome unit :=
  '(r0, smt) ← smt_root smt_new;
  assert_eq r0 (default_at compute_defaults DEPTH) ;;
  let smt := smt_insert smt (txt "x") [x01] in
  '(r1, smt) ← smt_root smt;
  let smt := smt_insert smt (txt "x") [x01] in
  '(r2, smt) ← smt_root smt;
  assert_eq r2 r1.

Definition test_sibling_reordering : outcome unit :=
  '(root, _) ← smt_root (tree_of [(txt "a", [x01]); (txt "b", [x02]); (txt "c", [x03])]);
  '(root2, _) ← smt_root (tree_of [(txt "c", [x03]); (txt "b", [x02]); (txt "a", [x01])]);
  assert_eq root root2.

Definition trie_tests : list (outcome unit) :=
  [test_empty_smt_has_correct_default_root; test_insert_and_get_value; test_get_unknown_key_returns_none;
   test_insert_overwrites_value; test_insert_changes_root; test_deterministic_root_same_keys;
   test_different_values_different_roots; test_multiple_keys; test_root_caching_repeated_calls_same_value;
   test_large_value; test_trie_trait_insert_get; test_trie_trait_root; test_trie_insert_empty_value;
   test_namespace_key_account; test_namespace_key_validator; test_namespace_key_meta;
   test_namespace_keys_are_disjoint; test_namespace_deterministic_root_with_prefixes;
   test_compute_root_with_disjoint_siblings; test_root_caching_after_insert; test_sibling_reordering].

(** ** [crypto/address.rs] *)

Definition test_seed : bytes := txt "test" ++ List.repeat x00 44.

Definition test_keypair (seed : bytes) : outcome Falcon512KeyPair := unwrap_ok (falcon_generate seed).

Definition test_derive_address_length : outcome unit :=
  kp ← test_keypair test_seed;
  pk_bytes ← falcon_public_key_bytes kp;
  let a := derive_address pk_bytes in
  assert_eq (length (array_bytes (as_bytes a))) 32%nat.

Definition test_derive_address_deterministic : outcome unit :=
  kp ← test_keypair test_seed;
  pk_bytes ← falcon_public_key_bytes kp;
  let a := derive_address pk_bytes in
  let b := derive_address pk_bytes in
  assert_eq a b.

Definition test_derive_address_is_blake3_of_pubkey : outcome unit :=
  kp ← test_keypair test_seed;
  pk_bytes ← falcon_public_key_bytes kp;
  let a := derive_address pk_bytes in
  let expected_hash := blake3_hash (array_bytes pk_bytes) in
  assert_eq (array_bytes (as_bytes a)) (take 32 (array_bytes expected_hash)).

(** [seed[0] = b0; seed[1] = b1] *)
Definition seed_with (b0 b1 : byte) : bytes := b0 :: b1 :: drop 2 test_seed.

Definition test_different_key_different_address : outcome unit :=
  kp_a ← test_keypair (seed_with x01 x65);
  kp_b ← test_keypair (seed_with x02 x65);
  pk_a ← falcon_public_key_bytes kp_a;
  pk_b ← falcon_public_key_bytes kp_b;
  assert_ne (derive_address pk_a) (derive_address pk_b).

Definition test_derive_address_from_pubkey_type : outcome unit :=
  kp ← test_keypair test_seed;
  pk ← falcon_public_key_bytes kp;
  a ← derive_address_from (array_bytes pk);
  let expected := derive_address pk in
  assert_eq a expected.

Definition test_derive_address_from_ref : outcome unit :=
  kp ← test_keypair test_seed;
  pk_bytes ← falcon_public_key_bytes kp;
  a ← derive_address_from (array_bytes pk_bytes);
  let expected := derive_address pk_bytes in
  assert_eq a expected.

Definition test_key_to_address_full_roundtrip : outcome unit :=
  kp ← test_keypair test_seed;
  pk_bytes ← falcon_public_key_bytes kp;
  let a := derive_address pk_bytes in
  let formatted := format_address a in
  r ← parse_address formatted;
  parsed ← unwrap_ok r;
  assert_eq a parsed.

Definition test_address_from_reconstructed_keypair : outcome unit :=
  kp ← test_keypair test_seed;
  pk ← falcon_public_key_bytes kp;
  let original_addr := derive_address pk in
  sk_bytes ← falcon_private_key_bytes kp;
  restored ← unwrap_ok (falcon_from_private_key (array_bytes sk_bytes));
  pk' ← falcon_public_key_bytes restored;
  let restored_addr := derive_address pk' in
  assert_eq original_addr restored_addr.

Definition test_multiple_keys_unique_addresses : outcome unit :=
  let count := 5%nat in
  addresses ← foldM (fun (addresses : gset Address) i =>
    kp ← test_keypair (seed_with (byte_of_Z (i mod 256)) (byte_of_Z (Z.shiftr i 8 mod 256)));
    pk ← falcon_public_key_bytes kp;
    Ret ({[ derive_address pk ]} ∪ addresses)) ∅ (seqZ 0 (Z.of_nat count));
  assert_eq (size addresses) count.

Definition address_tests : list (outcome unit) :=
  [test_derive_address_length; test_derive_address_deterministic; test_derive_address_is_blake3_of_pubkey;
   test_different_key_different_address; test_derive_address_from_pubkey_type; test_derive_address_from_ref;
   test_key_to_address_full_roundtrip; test_address_from_reconstructed_keypair;
   test_multiple_keys_unique_addresses].

(** ** The SCALE tests of [transaction.rs], [block.rs] and [validator.rs] *)

(** Comparing decoded values by their encodings. *)
Definition roundtrips {A} (c : codec A) (x : A) : outcome unit :=
  let encoded := enc c x in
  d ← decoded c encoded;
  assert_eq (enc c d) encoded.

Definition scale_tx (chain_id nonce : Z) (sender : byte) (fee : Z) (body : TxBody) : Transaction :=
  mkTransaction chain_id nonce (address_from (array_repeat 32 sender)) fee body (sig_of xab).

Definition test_transaction_scale_roundtrip : outcome unit :=
  let tx := scale_tx 0 1 x55 100 (Transfer (addr 0x66) 500) in
  roundtrips sc_tx tx.

Definition test_transaction_different_chain_ids : outcome unit :=
  let tx_a := scale_tx 0 0 x99 0 (RegisterValidator (array_repeat 897 x42)) in
  let tx_b := scale_tx 1 0 x99 0 (RegisterValidator (array_repeat 897 x42)) in
  assert_ne (enc sc_tx tx_a) (enc sc_tx tx_b).

Definition test_tx_scale_decode_too_short : outcome unit :=
  assert_ (match dec sc_tx (List.repeat x00 2) with None => true | Some _ => false end).

Definition test_signature_scale_decode_too_short : outcome unit :=
  assert_ (match dec sc_signature (List.repeat x00 4) with None => true | Some _ => false end).

(** The string of the JSON document, without its quotes. *)
Definition test_signature_serde_invalid_hex : outcome unit :=
  assert_ (match signature_deserialize (txt "zz") with None => true | Some _ => false end).

Definition test_signature_serde_wrong_length : outcome unit :=
  assert_ (match signature_deserialize (txt "0x" ++ concat (List.repeat (txt "ab") 100)) with None => true | Some _ => false end).

Definition test_block_header_scale_roundtrip : outcome unit :=
  let h := mkBlockHeader 42 (array_repeat 32 xaa) (array_repeat 32 xbb) (array_repeat 32 xcc) 1700000000
             (addr 0xAB) 0 (sig_of xcd) in
  roundtrips sc_header h.

Definition test_block_scale_roundtrip : outcome unit :=
  let block := mkBlock
    (mkBlockHeader 1 (array_repeat 32 x01) (array_repeat 32 x02) (array_repeat 32 x03) 1700000000 (addr 4) 0 (sig_of xcd))
    (mkBlockBody [mkTransaction 0 0 (addr 5) 100 (Transfer (addr 6) 500) (sig_of xcd)]) in
  roundtrips sc_block block.

Definition test_block_height_determines_encoding : outcome unit :=
  let b height := mkBlock
    (mkBlockHeader height (array_repeat 32 x00) (array_repeat 32 x00) (array_repeat 32 x00) 0 (addr 0) 0 (sig_of xcd))
    (mkBlockBody []) in
  assert_ne (enc sc_block (b 1)) (enc sc_block (b 2)).

Definition test_validator_entry_scale_roundtrip : outcome unit :=
  let entry := mkValidatorEntry (addr 0xAB) (array_repeat 897 xbc) 10000 (Staked 10000) 0 in
  d ← decoded sc_entry (enc sc_entry entry);
  assert_eq entry d.

Definition test_validator_entry_edge_cases : outcome unit :=
  let entry := mkValidatorEntry (addr 0) (array_repeat 897 x00) 0 Registered 0 in
  d ← decoded sc_entry (enc sc_entry entry);
  assert_eq entry d ;;
  let entry := mkValidatorEntry (addr 0xFF) (array_repeat 897 xfe) U256_MAX Active U64_MAX in
  d ← decoded sc_entry (enc sc_entry entry);
  assert_eq entry d.

Definition scale_tests : list (outcome unit) :=
  [test_transaction_scale_roundtrip; test_transaction_different_chain_ids; test_tx_scale_decode_too_short;
   test_signature_scale_decode_too_short; test_signature_serde_invalid_hex; test_signature_serde_wrong_length;
   test_block_header_scale_roundtrip; test_block_scale_roundtrip; test_block_height_determines_encoding;
   test_validator_entry_scale_roundtrip; test_validator_entry_edge_cases].

(** ** The property tests *)

Section Properties.
Context {HB : Blake3} {HX : Hex} {HS : Scale}.

Definition proptest_address_parse_display_roundtrip (bs : array 32) : outcome unit :=
  let a := address_from bs in
  let formatted := format_address a in
  r ← parse_address formatted;
  parsed ← unwrap_ok r;
  assert_eq a parsed.

Definition proptest_address_scale_roundtrip (bs : array 32) : outcome unit :=
  let a := address_from bs in
  let encoded := enc sc_address a in
  d ← decoded sc_address encoded;
  assert_eq a d.

Definition proptest_account_scale_roundtrip (balance nonce : Z) : outcome unit :=
  let acct := mkAccount balance nonce None in
  let encoded := enc sc_account acct in
  d ← decoded sc_account encoded;
  assert_eq acct d.

Definition proptest_validator_entry_roundtrip (addr_byte : byte) (stake_low reg_era : Z) : outcome unit :=
  let entry := mkValidatorEntry (address_from (array_repeat 32 addr_byte))
                 (array_repeat 897 (byte_of_Z ((byte_to_Z addr_byte + 1) mod 256)))
                 stake_low (Staked stake_low) reg_era in
  let encoded := enc sc_entry entry in
  d ← decoded sc_entry encoded;
  assert_eq entry d.

Lemma roundtrip_returns `{EqDecision A} (v : A -> Prop) (c : codec A) (x : A) : codec_ok v c -> v x ->
  (d ← decoded c (enc c x); assert_eq x d) = Ret tt.
Proof.
  intros Hc Hx. unfold decoded. rewrite <- (app_nil_r (enc c x)), (Hc x [] Hx). apply assert_eq_refl.
Qed.

Lemma address_display_returns `{!HexOk} (bs : array 32) : proptest_address_parse_display_roundtrip bs = Ret tt.
Proof.
  unfold proptest_address_parse_display_roundtrip. rewrite <- (app_nil_r (format_address _)), parse_format_app.
  rewrite app_nil_r, ascii_boundary by (apply format_address_ascii || by rewrite format_address_length).
  apply assert_eq_refl.
Qed.

Lemma address_scale_returns `{!ScaleOk} (bs : array 32) : proptest_address_scale_roundtrip bs = Ret tt.
Proof. apply (roundtrip_returns (fun _ => True)); [apply sc_address_ok|done]. Qed.

Lemma account_scale_returns `{!ScaleOk} (b n : Z) : is_u256 b -> is_u64 n ->
  proptest_account_scale_roundtrip b n = Ret tt.
Proof. intros Hb Hn. apply (roundtrip_returns account_valid); [apply sc_account_ok|by split]. Qed.

Lemma entry_scale_returns `{!ScaleOk} (a : byte) (s r : Z) : is_u256 s -> is_u64 r ->
  proptest_validator_entry_roundtrip a s r = Ret tt.
Proof. intros Hs Hr. apply (roundtrip_returns entry_valid); [apply sc_entry_ok|done]. Qed.
End Properties.

(** ** Every test passes *)

Lemma error_tests_pass : forallb passes error_tests = true.
Proof. by vm_compute. Qed.

Lemma fee_tests_pass : forallb passes fee_tests = true.
Proof. by vm_compute. Qed.

Lemma account_tests_pass : forallb passes account_tests = true.
Proof. by vm_compute. Qed.

Lemma trie_tests_pass : forallb passes trie_tests = true.
Proof. by vm_compute. Qed.

Lemma address_tests_pass : forallb passes address_tests = true.
Proof. by vm_compute. Qed.

Lemma scale_tests_pass : forallb passes scale_tests = true.
Proof. by vm_compute. Qed.
