(* ===== verification/NetworkTests.v ===== *)
(** * The unit and property tests of [network/peer_score.rs], [topics.rs], [messages.rs], [sync_protocol.rs]

    Scores, the rate limiter, request limits, batch hashes, and the responder over
    an in-memory database.  The clock of the rate limiter's tests is the list of
    instants the calls read; [sleep] moves it.  The SCALE tests run over the lawful
    codecs of the interface, so those on gossip hold for all of them. *)
From Stdlib Require Import Strings.Byte Strings.String.
From stdpp Require Import base gmap sets list strings countable sorting.
From Stdlib Require Import ZArith Lia.
From S2P Require Import Prelude Types External Toy State Schedule Storage Genesis Engine Peers Sync P2p Testing.

Import TestInstances MemStorage.
#[local] Remove Hints toy_blake3 : typeclass_instances.
#[local] Existing Instance toy_gossip.

(** ** [peer_score.rs] *)

Definition test_new_score_is_zero : outcome unit :=
  let ps := PeerScore_new 0 in
  assert_eq (score ps) 0.

Definition test_adjust_clamps_correctly : outcome unit :=
  let ps := PeerScore_new 0 in
  let ps := adjust ps 1 50 in
  assert_eq (score ps) 50 ;;
  let ps := adjust ps 2 100 in
  assert_eq (score ps) MAX_SCORE ;;
  let ps := adjust ps 3 (-250) in
  assert_eq (score ps) MIN_SCORE.

Definition test_ban_threshold : outcome unit :=
  let ps := PeerScore_new 0 in
  assert_ (negb (should_ban ps)) ;;
  let ps := adjust ps 1 (-19) in
  assert_ (negb (should_ban ps)) ;;
  let ps := adjust ps 2 (-2) in
  assert_ (should_ban ps).

Definition test_ban_duration : outcome unit :=
  let ps := PeerScore_new 0 in
  let ps := apply_ban ps 50 in
  b ← is_banned ps 50; assert_ b ;;
  b ← is_banned ps 769; assert_ b ;;
  b ← is_banned ps 770; assert_ (negb b).

Definition test_score_event_deltas : outcome unit :=
  assert_eq (delta ValidBlockPropagated) 1 ;;
  assert_eq (delta ValidVotePropagated) 1 ;;
  assert_eq (delta SuccessfulSyncBatch) 2 ;;
  assert_eq (delta SyncBatchHashMismatch) (-10) ;;
  assert_eq (delta SyncBatchVerifyFail) (-20) ;;
  assert_eq (delta EmptySyncResponse) (-2) ;;
  assert_eq (delta SyncTimeout) (-4) ;;
  assert_eq (delta InvalidBlockGossiped) (-10) ;;
  assert_eq (delta InvalidVoteGossiped) (-10) ;;
  assert_eq (delta ConnectDisconnectLoop) (-10) ;;
  assert_eq (delta DuplicateBlockGossip) (-2).

(** [dummy_peer_id(n)] is the number [n]. *)
Definition repo0 : gmap Z PeerScore := repo_new.

Definition test_repo_apply_event : outcome unit :=
  let repo := repo0 in
  let peer := 1 in
  let repo := apply_event repo peer 0 ValidBlockPropagated in
  assert_eq (repo_score repo peer) (Some 1) ;;
  let repo := apply_event repo peer 1 InvalidBlockGossiped in
  assert_eq (repo_score repo peer) (Some (-9)).

Definition test_repo_len_and_is_empty : outcome unit :=
  let repo := repo0 in
  assert_ (repo_is_empty repo) ;;
  assert_eq (repo_len repo) 0%nat ;;
  let peer := 1 in
  let repo := apply_event repo peer 0 ValidBlockPropagated in
  assert_ (negb (repo_is_empty repo)) ;;
  assert_eq (repo_len repo) 1%nat.

(** [repo.iter()] visits the entries of the map in some order. *)
Definition test_repo_iter : outcome unit :=
  let repo := repo0 in
  let p1 := 1 in
  let p2 := 2 in
  let repo := apply_event repo p1 0 ValidBlockPropagated in
  let repo := apply_event repo p2 1 InvalidBlockGossiped in
  let scores := prod_map id score <$> map_to_list repo in
  assert_eq (length scores) 2%nat ;;
  assert_ (bool_decide ((p1, 1) ∈ scores)) ;;
  assert_ (bool_decide ((p2, -10) ∈ scores)).

Definition test_repo_default_is_empty : outcome unit :=
  let repo := repo0 in
  assert_ (repo_is_empty repo).

Definition test_peer_score_default_is_zero : outcome unit :=
  let ps := PeerScore_new 0 in
  assert_eq (score ps) 0.

Definition test_peer_score_is_banned_false_when_never_banned : outcome unit :=
  let ps := PeerScore_new 0 in
  b ← is_banned ps 0; assert_ (negb b) ;;
  b ← is_banned ps 100; assert_ (negb b) ;;
  b ← is_banned ps U64_MAX; assert_ (negb b).

Definition test_peer_score_is_banned_true_when_banned_and_still_active : outcome unit :=
  let ps := PeerScore_new 0 in
  let ps := apply_ban ps 100 in
  b ← is_banned ps 100; assert_ b ;;
  b ← is_banned ps 819; assert_ b.

Definition test_peer_score_is_banned_false_after_ban_expires : outcome unit :=
  let ps := PeerScore_new 0 in
  let ps := apply_ban ps 100 in
  b ← is_banned ps 820; assert_ (negb b) ;;
  b ← is_banned ps 900; assert_ (negb b).

Definition test_peer_score_is_banned_transition : outcome unit :=
  let ps := PeerScore_new 0 in
  b ← is_banned ps 50; assert_ (negb b) ;;
  let ps := apply_ban ps 50 in
  b ← is_banned ps 50; assert_ b ;;
  b ← is_banned ps 769; assert_ b ;;
  b ← is_banned ps 770; assert_ (negb b).

Definition test_repo_score_none_for_unknown : outcome unit :=
  let repo := repo0 in
  assert_eq (repo_score repo 99) None.

Definition test_repo_is_banned_unknown_peer : outcome unit :=
  let repo := repo0 in
  b ← repo_is_banned repo 99 0; assert_ (negb b).

Definition test_repo_auto_ban : outcome unit :=
  let repo := repo0 in
  let peer := 1 in
  let repo := apply_event repo peer 0 SyncBatchVerifyFail in
  let repo := apply_event repo peer 1 SyncBatchVerifyFail in
  let repo := auto_ban repo 100 in
  b ← repo_is_banned repo peer 100; assert_ b ;;
  b ← repo_is_banned repo peer 821; assert_ (negb b).

Definition peer_score_tests : list (outcome unit) :=
  [test_new_score_is_zero; test_adjust_clamps_correctly; test_ban_threshold; test_ban_duration;
   test_score_event_deltas; test_repo_apply_event; test_repo_len_and_is_empty; test_repo_iter;
   test_repo_default_is_empty; test_peer_score_default_is_zero;
   test_peer_score_is_banned_false_when_never_banned;
   test_peer_score_is_banned_true_when_banned_and_still_active;
   test_peer_score_is_banned_false_after_ban_expires; test_peer_score_is_banned_transition;
   test_repo_score_none_for_unknown; test_repo_is_banned_unknown_peer; test_repo_auto_ban].

Example peer_score_tests_pass : forallb passes peer_score_tests = true.
Proof. by vm_compute. Qed.

(** ** [topics.rs] *)

Definition test_topic_config_size_validation : outcome unit :=
  let topic := mkTopic "test" 1000 10 in
  assert_ (validate_size topic 500) ;;
  assert_ (validate_size topic 1000) ;;
  assert_ (negb (validate_size topic 1001)).

Definition test_standard_topics_have_correct_limits : outcome unit :=
  let topics := standard_topics "1" in
  t ← index topics 0;
  assert_ (validate_size t 1048576) ;; assert_ (negb (validate_size t 1048577)) ;;
  t ← index topics 1;
  assert_ (validate_size t 512000) ;; assert_ (negb (validate_size t 512001)) ;;
  t ← index topics 2;
  assert_ (validate_size t 1024) ;; assert_ (negb (validate_size t 1025)) ;;
  t ← index topics 3;
  assert_ (validate_size t 5120) ;; assert_ (negb (validate_size t 5121)).

(** Milliseconds, for the windows and sleeps below; every call is made within one
    millisecond of the one before. *)
Definition ms (n : Z) : Z := n * 1000000.
Abbreviation limiter := (RateLimiter (SocketAddr := string)).

Definition set_window (rl : limiter) (w : Z) : limiter := mkRateLimiter (max_per_window rl) w (counters rl).

(** [assert!(rl.allow(peer))] at an instant, and its negation. *)
Definition allowed (rl : limiter) (now : Z) (peer : string) (expected : bool) : outcome limiter :=
  '(rl, b) ← allow rl now now peer;
  assert_eq b expected ;;
  Ret rl.

Definition test_rate_limiter_accepts_under_limit : outcome unit :=
  let rl := RateLimiter_new 5 in
  let peer := "127.0.0.1:1234"%string in
  _ ← foldM (fun rl now => allowed rl now peer true) rl (seqZ 0 5);
  Ret tt.

Definition test_rate_limiter_rejects_over_limit : outcome unit :=
  let rl := RateLimiter_new 3 in
  let peer := "127.0.0.1:1234"%string in
  rl ← foldM (fun rl now => allowed rl now peer true) rl (seqZ 0 3);
  _ ← allowed rl 3 peer false;
  Ret tt.

Definition test_rate_limiter_multiple_peers_independent : outcome unit :=
  let rl := RateLimiter_new 2 in
  let peer_a := "10.0.0.1:30333"%string in
  let peer_b := "10.0.0.2:30333"%string in
  rl ← allowed rl 0 peer_a true;
  rl ← allowed rl 1 peer_a true;
  rl ← allowed rl 2 peer_a false;
  rl ← allowed rl 3 peer_b true;
  rl ← allowed rl 4 peer_b true;
  _ ← allowed rl 5 peer_b false;
  Ret tt.

Definition test_rate_limiter_window_resets_after_timeout : outcome unit :=
  let rl := RateLimiter_new 2 in
  let rl := set_window rl (ms 10) in
  let peer := "127.0.0.1:30333"%string in
  rl ← allowed rl 0 peer true;
  rl ← allowed rl 1 peer true;
  rl ← allowed rl 2 peer false;
  let awake := ms 20 + 3 in
  rl ← allowed rl awake peer true;
  rl ← allowed rl (awake + 1) peer true;
  _ ← allowed rl (awake + 2) peer false;
  Ret tt.

Definition test_rate_limiter_check_and_increment_with_window_reset : outcome unit :=
  let rl := RateLimiter_new 1 in
  let rl := set_window rl (ms 10) in
  let peer := "127.0.0.1:9999"%string in
  let '(rl, b) := check rl 0 peer in
  assert_ b ;;
  rl ← increment rl 1 peer;
  let '(rl, b) := check rl 2 peer in
  assert_ (negb b) ;;
  let awake := ms 20 + 3 in
  let '(rl, b) := check rl awake peer in
  assert_ b.

Definition test_rate_limiter_increment_with_window_reset_maintains_limit : outcome unit :=
  let rl := RateLimiter_new 2 in
  let rl := set_window rl (ms 10) in
  let peer := "127.0.0.1:8888"%string in
  rl ← increment rl 0 peer;
  rl ← increment rl 1 peer;
  let '(rl, b) := check rl 2 peer in
  assert_ (negb b) ;;
  let awake := ms 20 + 3 in
  rl ← increment rl awake peer;
  let '(rl, b) := check rl (awake + 1) peer in
  assert_ b ;;
  rl ← increment rl (awake + 2) peer;
  let '(rl, b) := check rl (awake + 3) peer in
  assert_ (negb b).

Definition test_rate_limiter_separate_check_and_increment : outcome unit :=
  let rl := RateLimiter_new 2 in
  let peer := "127.0.0.1:9999"%string in
  let '(rl, b) := check rl 0 peer in
  assert_ b ;;
  rl ← increment rl 1 peer;
  let '(rl, b) := check rl 2 peer in
  assert_ b ;;
  rl ← increment rl 3 peer;
  let '(rl, b) := check rl 4 peer in
  assert_ (negb b).

Definition topics_tests : list (outcome unit) :=
  [test_topic_config_size_validation; test_standard_topics_have_correct_limits;
   test_rate_limiter_accepts_under_limit; test_rate_limiter_rejects_over_limit;
   test_rate_limiter_multiple_peers_independent; test_rate_limiter_window_resets_after_timeout;
   test_rate_limiter_check_and_increment_with_window_reset;
   test_rate_limiter_increment_with_window_reset_maintains_limit;
   test_rate_limiter_separate_check_and_increment].

Example topics_tests_pass : forallb passes topics_tests = true.
Proof. by vm_compute. Qed.

(** ** [messages.rs] *)

#[local] Instance GovernanceAction_eq_dec : EqDecision GovernanceAction.
Proof. solve_decision. Defined.
#[local] Instance BurnTarget_eq_dec : EqDecision BurnTarget.
Proof. solve_decision. Defined.
#[local] Instance TxBody_eq_dec : EqDecision TxBody.
Proof. solve_decision. Defined.
#[local] Instance Signature_eq_dec : EqDecision Falcon512Signature.
Proof. solve_decision. Defined.
#[local] Instance Transaction_eq_dec : EqDecision Transaction.
Proof. solve_decision. Defined.
#[local] Instance BlockHeader_eq_dec : EqDecision BlockHeader.
Proof. solve_decision. Defined.
#[local] Instance BlockBody_eq_dec : EqDecision BlockBody.
Proof. solve_decision. Defined.
#[local] Instance Block_eq_dec : EqDecision Block.
Proof. solve_decision. Defined.
#[local] Instance CommitVote_eq_dec : EqDecision CommitVote.
Proof. solve_decision. Defined.
#[local] Instance NetworkEvidence_eq_dec : EqDecision NetworkEvidence.
Proof. solve_decision. Defined.
#[local] Instance GossipMessage_eq_dec : EqDecision GossipMessage.
Proof. solve_decision. Defined.

Definition hash32 (b : byte) : array 32 := array_repeat 32 b.

(** A header with the given height, hashes of one byte, timestamp and proposer. *)
Definition header_of (height : Z) (parent root txs : byte) (timestamp proposer chain : Z) (s : byte) : BlockHeader :=
  mkBlockHeader height (hash32 parent) (hash32 root) (hash32 txs) timestamp (addr proposer) chain (sig_of s).

Definition dummy_block : Block := mkBlock (header_of 1 x00 x00 x00 1700000000 1 0 xcd) (mkBlockBody []).

(** [b.header.height = h] *)
Definition set_block_height (b : Block) (h : Z) : Block :=
  let hd := blk_header b in
  mkBlock (mkBlockHeader h (hdr_parent_hash hd) (hdr_global_state_root hd) (hdr_tx_root hd) (hdr_timestamp hd)
    (hdr_proposer hd) (hdr_chain_id hd) (hdr_proposer_signature hd)) (blk_body b).

Definition test_validate_sync_request_ok : outcome unit :=
  let req := mkSyncReq 1 100 Forward None in
  assert_ (is_ok (validate_sync_request req)).

Definition test_validate_sync_request_zero_blocks : outcome unit :=
  let req := mkSyncReq 1 0 Forward None in
  assert_ (negb (is_ok (validate_sync_request req))).

Definition test_validate_sync_request_exceeds_max : outcome unit :=
  let req := mkSyncReq 1 501 Forward None in
  assert_ (negb (is_ok (validate_sync_request req))).

Definition test_validate_sync_request_max_allowed : outcome unit :=
  let req := mkSyncReq 1 500 Forward None in
  assert_ (is_ok (validate_sync_request req)).

Definition test_validate_by_hash_request_ok : outcome unit :=
  let req := mkHashReq [hash32 x00] in
  assert_ (is_ok (validate_by_hash_request req)).

Definition test_validate_by_hash_request_empty : outcome unit :=
  let req := mkHashReq [] in
  assert_ (negb (is_ok (validate_by_hash_request req))).

Definition test_validate_by_hash_request_exceeds_max : outcome unit :=
  let req := mkHashReq (List.repeat (hash32 x00) 101) in
  assert_ (negb (is_ok (validate_by_hash_request req))).

Definition test_validate_by_hash_request_max_allowed : outcome unit :=
  let req := mkHashReq (List.repeat (hash32 x00) 100) in
  assert_ (is_ok (validate_by_hash_request req)).

(** *** [compute_batch_hash] *)

Definition test_compute_batch_hash_empty_returns_genesis : outcome unit :=
  let genesis := hash32 xfe in
  let hash := compute_batch_hash genesis [] in
  assert_eq hash genesis.

Definition test_compute_batch_hash_deterministic : outcome unit :=
  let genesis := hash32 x01 in
  let block := dummy_block in
  let hash1 := compute_batch_hash genesis [block] in
  let hash2 := compute_batch_hash genesis [block] in
  assert_eq hash1 hash2.

Definition test_compute_batch_hash_different_height_different_hash : outcome unit :=
  let genesis := hash32 x01 in
  let b1 := dummy_block in
  let b2 := set_block_height dummy_block 2 in
  let hash1 := compute_batch_hash genesis [b1] in
  let hash2 := compute_batch_hash genesis [b2] in
  assert_ne hash1 hash2.

Definition test_compute_batch_hash_multi_block : outcome unit :=
  let genesis := hash32 x01 in
  let b1 := dummy_block in
  let b2 := set_block_height dummy_block 2 in
  let hash1 := compute_batch_hash genesis [b1; b2] in
  let hash2 := compute_batch_hash genesis [b1; b2] in
  assert_eq hash1 hash2.

(** *** SCALE *)

(** [let decoded = T::decode(&mut &x.encode()[..]).unwrap(); assert_eq!(x, decoded)] *)
Definition scale_roundtrip `{EqDecision A} (c : codec A) (x : A) : outcome unit :=
  decoded ← unwrap (decode_all c (enc c x));
  assert_eq x decoded.

Definition dummy_tx : Transaction :=
  mkTransaction 0 0 (addr 0x11) 100 (Transfer (addr 0x22) 500) (sig_of xab).

Definition dummy_commit_vote : CommitVote := mkCommitVote 1 (hash32 xcc) (addr 0xdd) (sig_of xee).

Definition test_gossip_txs_scale_roundtrip : outcome unit :=
  let msg := GossipTxs [dummy_tx] in
  scale_roundtrip sc_gossip msg.

Definition test_gossip_block_scale_roundtrip : outcome unit :=
  let block := mkBlock (header_of 1 x00 x00 x00 1700000000 0xee 0 xcd) (mkBlockBody [dummy_tx]) in
  let msg := GossipBlock block in
  scale_roundtrip sc_gossip msg.

Definition test_gossip_vote_scale_roundtrip : outcome unit :=
  let msg := GossipVote dummy_commit_vote in
  scale_roundtrip sc_gossip msg.

Definition dummy_equivocation_evidence : NetworkEvidence :=
  mkNetworkEvidence (header_of 1 x00 x00 x00 0 0 0 x00) (array_repeat 666 x11)
    (header_of 2 xff xee xdd 1 1 0 x00) (array_repeat 666 x22) (hash32 xff).

Definition test_gossip_evidence_scale_roundtrip : outcome unit :=
  let msg := GossipEvidence dummy_equivocation_evidence in
  scale_roundtrip sc_gossip msg.

Definition messages_tests : list (outcome unit) :=
  [test_validate_sync_request_ok; test_validate_sync_request_zero_blocks;
   test_validate_sync_request_exceeds_max; test_validate_sync_request_max_allowed;
   test_validate_by_hash_request_ok; test_validate_by_hash_request_empty;
   test_validate_by_hash_request_exceeds_max; test_validate_by_hash_request_max_allowed;
   test_compute_batch_hash_empty_returns_genesis; test_compute_batch_hash_deterministic;
   test_compute_batch_hash_different_height_different_hash; test_compute_batch_hash_multi_block;
   test_gossip_txs_scale_roundtrip; test_gossip_block_scale_roundtrip;
   test_gossip_vote_scale_roundtrip; test_gossip_evidence_scale_roundtrip].

Example messages_tests_pass : forallb passes messages_tests = true.
Proof. by vm_compute. Qed.

(** *** Property tests *)

Section Proptests.
Context `{Blake3} `{ScaleOk}.

Definition proptest_compute_batch_hash_deterministic (genesis_byte : byte) : outcome unit :=
  let genesis := hash32 genesis_byte in
  let blocks := [dummy_block] in
  let h1 := compute_batch_hash genesis blocks in
  let h2 := compute_batch_hash genesis blocks in
  assert_eq h1 h2.

Definition proptest_compute_batch_hash_empty_returns_genesis (genesis_byte : byte) : outcome unit :=
  let genesis := hash32 genesis_byte in
  let hash := compute_batch_hash genesis [] in
  assert_eq hash genesis.

Definition proptest_compute_batch_hash_differs_for_different_blocks (genesis_byte : byte) : outcome unit :=
  let genesis := hash32 genesis_byte in
  let b1 := set_block_height dummy_block 1 in
  let b2 := set_block_height dummy_block 2 in
  let h1 := compute_batch_hash genesis [b1] in
  let h2 := compute_batch_hash genesis [b2] in
  assert_ne h1 h2.

Lemma batch_hash_deterministic_returns b : proptest_compute_batch_hash_deterministic b = Ret tt.
Proof. apply assert_eq_refl. Qed.

Lemma batch_hash_empty_returns b : proptest_compute_batch_hash_empty_returns_genesis b = Ret tt.
Proof. apply assert_eq_refl. Qed.

Lemma dummy_at_valid h : is_u64 h -> block_wire_valid (set_block_height dummy_block h).
Proof. intros Hh. repeat split; simpl; try done; apply Hh. Qed.

(** The two batches are different strings under every lawful codec, so their
    hashes differ unless these two strings collide. *)
Lemma batch_hash_differs_returns b :
  let input h := array_bytes (hash32 b) ++ enc sc_block (set_block_height dummy_block h) ++ [] in
  collision_free (fun x => x = input 1 \/ x = input 2) ->
  proptest_compute_batch_hash_differs_for_different_blocks b = Ret tt.
Proof.
  intros input Hcf. unfold proptest_compute_batch_hash_differs_for_different_blocks, assert_ne.
  rewrite bool_decide_eq_true_2; [done|]. intros E. change (blake3 (input 1) = blake3 (input 2)) in E.
  apply Hcf in E; [|by left|by right]. apply app_inv_head in E. rewrite !app_nil_r in E.
  apply (enc_inj block_wire_valid) in E; [discriminate E|apply sc_block_ok|by apply dummy_at_valid..].
Qed.

(** [proptest]s of a round trip: lawful codecs pass on every valid value. *)
Lemma scale_roundtrip_returns `{EqDecision A} (valid : A -> Prop) (c : codec A) (x : A) :
  codec_ok valid c -> valid x -> scale_roundtrip c x = Ret tt.
Proof. intros Hc Hx. unfold scale_roundtrip. rewrite (decode_all_enc valid) by done. apply assert_eq_refl. Qed.
End Proptests.

(** ** [sync_protocol.rs] *)

(** [RedbEngine::open] on a fresh directory. *)
Definition open_engine : outcome RedbEngine := unwrap_ok (redb_open []).

Definition dummy_header (height : Z) : outcome BlockHeader :=
  timestamp ← u64_add 1700000000 height;
  Ret (header_of height x00 x00 x00 timestamp 1 0 xcd).

(** [engine.put(..).unwrap()] *)
Definition put_unwrap (engine : RedbEngine) (table : string) (key value : bytes) : outcome RedbEngine :=
  let '(engine, r) := st_put engine table key value in
  _ ← unwrap_ok r;
  Ret engine.

Definition store_block (engine : RedbEngine) (height : Z) : outcome RedbEngine :=
  header ← dummy_header height;
  let block := mkBlock header (mkBlockBody []) in
  put_unwrap engine BLOCKS (to_be_bytes 8 height) (enc sc_block block).

(** [let SyncResponse::BlockSync(resp) = response.unwrap() else { panic!(..) }] *)
Definition expect_block_sync (response : option SyncResponse) : outcome BlockSyncResponse :=
  match response with Some (RBlockSync resp) => Ret resp | _ => Panic end.
Definition expect_by_hash (response : option SyncResponse) : outcome BlockByHashResponse :=
  match response with Some (RBlockByHash resp) => Ret resp | _ => Panic end.

(** [assert_eq!(blocks[i].header.height, h)] *)
Definition assert_height (blocks : list Block) (i h : Z) : outcome unit :=
  b ← index blocks i;
  assert_eq (hdr_height (blk_header b)) h.

Definition test_serve_block_sync_forward : outcome unit :=
  engine ← open_engine;
  engine ← foldM store_block engine (seqZ 1 10);
  let genesis_hash := hash32 xfe in
  let request := BlockSync (mkSyncReq 3 5 Forward None) in
  response ← serve_sync_request request engine genesis_hash 10;
  resp ← expect_block_sync response;
  assert_eq (length (rs_blocks resp)) 5%nat ;;
  assert_height (rs_blocks resp) 0 3 ;;
  assert_height (rs_blocks resp) 4 7 ;;
  assert_eq (highest_height resp) 10.

Definition test_serve_block_sync_backward : outcome unit :=
  engine ← open_engine;
  engine ← foldM store_block engine (seqZ 1 10);
  let request := BlockSync (mkSyncReq 10 4 Backward None) in
  response ← serve_sync_request request engine (hash32 x00) 10;
  resp ← expect_block_sync response;
  assert_eq (length (rs_blocks resp)) 4%nat ;;
  assert_height (rs_blocks resp) 0 6 ;;
  assert_height (rs_blocks resp) 3 9.

Definition test_serve_block_sync_partial : outcome unit :=
  engine ← open_engine;
  engine ← foldM store_block engine (seqZ 1 3);
  let request := BlockSync (mkSyncReq 2 100 Forward None) in
  response ← serve_sync_request request engine (hash32 x00) 3;
  resp ← expect_block_sync response;
  assert_eq (length (rs_blocks resp)) 2%nat.

Definition test_serve_block_sync_fork_mismatch : outcome unit :=
  engine ← open_engine;
  engine ← store_block engine 5;
  let request := BlockSync (mkSyncReq 6 5 Forward (Some (hash32 xff))) in
  response ← serve_sync_request request engine (hash32 xfe) 5;
  resp ← expect_block_sync response;
  assert_ (bool_decide (rs_blocks resp = [])).

Definition test_serve_block_sync_invalid_request_returns_none : outcome unit :=
  engine ← open_engine;
  let request := BlockSync (mkSyncReq 1 0 Forward None) in
  response ← serve_sync_request request engine (hash32 x00) 0;
  assert_ (match response with None => true | Some _ => false end).

Definition test_serve_block_by_hash : outcome unit :=
  engine ← open_engine;
  header ← dummy_header 42;
  let block := mkBlock header (mkBlockBody []) in
  let encoded := enc sc_block block in
  let hash := blake3 encoded in
  let height_key := to_be_bytes 8 42 in
  engine ← put_unwrap engine BLOCKS height_key encoded;
  engine ← put_unwrap engine BLOCK_HASHES (array_bytes hash) height_key;
  let request := BlockByHash (mkHashReq [hash]) in
  response ← serve_sync_request request engine (hash32 x00) 0;
  resp ← expect_by_hash response;
  assert_eq (length (hs_blocks resp)) 1%nat ;;
  assert_height (hs_blocks resp) 0 42.

Definition test_serve_block_by_hash_missing : outcome unit :=
  engine ← open_engine;
  let request := BlockByHash (mkHashReq [hash32 xdd]) in
  response ← serve_sync_request request engine (hash32 x00) 0;
  resp ← expect_by_hash response;
  assert_ (bool_decide (hs_blocks resp = [])).

Definition sync_protocol_tests : list (outcome unit) :=
  [test_serve_block_sync_forward; test_serve_block_sync_backward; test_serve_block_sync_partial;
   test_serve_block_sync_fork_mismatch; test_serve_block_sync_invalid_request_returns_none;
   test_serve_block_by_hash; test_serve_block_by_hash_missing].

Example sync_protocol_tests_pass : forallb passes sync_protocol_tests = true.
Proof. by vm_compute. Qed.
