(* ===== verification/StorageTests.v ===== *)
(** * The unit tests of [storage/mod.rs] and [storage/genesis.rs]

    The storage contract on [RedbEngine] over an in-memory redb, and the loading of
    the genesis.  serde_json is a parameter: a configuration text has a name, and
    [known_texts] gives the value it denotes; a text that is not listed is not
    valid.  The two tests that open a database at a bad path test redb alone and
    are left out. *)
From Stdlib Require Import Strings.Byte Strings.String.
From stdpp Require Import base gmap sets list strings countable sorting.
From Stdlib Require Import ZArith Lia.
From S2P Require Import Prelude Types External Toy Account State Storage Genesis Errors NetworkTests Testing.

Import TestInstances MemStorage.
#[local] Remove Hints toy_blake3 : typeclass_instances.

Abbreviation txt s := (list_byte_of_string s%string) (only parsing).

(** [engine.delete(..).unwrap()], [engine.exists(..).unwrap()],
    [engine.get(..).unwrap().unwrap()] *)
Definition delete_unwrap (engine : RedbEngine) (table : string) (key : bytes) : outcome RedbEngine :=
  let '(engine, r) := st_delete engine table key in
  _ ← unwrap_ok r;
  Ret engine.
Definition exists_unwrap (engine : RedbEngine) (table : string) (key : bytes) : outcome bool :=
  unwrap_ok (st_exists engine table key).
Definition get_unwrap (engine : RedbEngine) (table : string) (key : bytes) : outcome bytes :=
  o ← unwrap_ok (st_get engine table key);
  unwrap o.

(** [assert!(err.to_string().contains(text))] on an [unwrap_err]. *)
Definition fails_with {A} (r : Result A) (text : string) : outcome unit :=
  err ← unwrap_err r;
  assert_ (text_contains (error_display err) (txt text)).

(** ** [storage/mod.rs] *)

Definition setup_engine : outcome RedbEngine := open_engine.

Definition test_put_get_roundtrip : outcome unit :=
  engine ← setup_engine;
  engine ← put_unwrap engine ACCOUNTS (txt "alice") (txt "1000");
  val ← get_unwrap engine ACCOUNTS (txt "alice");
  assert_eq val (txt "1000").

Definition test_get_missing_returns_none : outcome unit :=
  engine ← setup_engine;
  val ← unwrap_ok (st_get engine ACCOUNTS (txt "nobody"));
  assert_eq val None.

Definition test_overwrite : outcome unit :=
  engine ← setup_engine;
  engine ← put_unwrap engine ACCOUNTS (txt "key") (txt "v1");
  engine ← put_unwrap engine ACCOUNTS (txt "key") (txt "v2");
  val ← get_unwrap engine ACCOUNTS (txt "key");
  assert_eq val (txt "v2").

Definition test_delete : outcome unit :=
  engine ← setup_engine;
  engine ← put_unwrap engine ACCOUNTS (txt "tmp") (txt "data");
  b ← exists_unwrap engine ACCOUNTS (txt "tmp"); assert_ b ;;
  engine ← delete_unwrap engine ACCOUNTS (txt "tmp");
  b ← exists_unwrap engine ACCOUNTS (txt "tmp"); assert_ (negb b).

Definition test_separate_tables_dont_clash : outcome unit :=
  engine ← setup_engine;
  engine ← put_unwrap engine ACCOUNTS (txt "key") (txt "account-data");
  engine ← put_unwrap engine META (txt "key") (txt "meta-data");
  v ← get_unwrap engine ACCOUNTS (txt "key"); assert_eq v (txt "account-data") ;;
  v ← get_unwrap engine META (txt "key"); assert_eq v (txt "meta-data").

Definition test_list_keys : outcome unit :=
  engine ← setup_engine;
  engine ← put_unwrap engine ACCOUNTS (txt "a") (txt "1");
  engine ← put_unwrap engine ACCOUNTS (txt "b") (txt "2");
  engine ← put_unwrap engine ACCOUNTS (txt "c") (txt "3");
  keys ← unwrap_ok (st_list_keys engine ACCOUNTS);
  let expected := [txt "a"; txt "b"; txt "c"] in
  assert_eq (sort_by bytes_cmp keys) (sort_by bytes_cmp expected).

Definition test_multiple_databases_isolated : outcome unit :=
  engine1 ← open_engine;
  engine2 ← open_engine;
  engine1 ← put_unwrap engine1 ACCOUNTS (txt "shared") (txt "db1");
  engine2 ← put_unwrap engine2 ACCOUNTS (txt "shared") (txt "db2");
  v ← get_unwrap engine1 ACCOUNTS (txt "shared"); assert_eq v (txt "db1") ;;
  v ← get_unwrap engine2 ACCOUNTS (txt "shared"); assert_eq v (txt "db2").

Definition test_unknown_table_errors : outcome unit :=
  engine ← setup_engine;
  let nonexistent := "nonexistent_table"%string in
  let '(engine, r) := st_put engine nonexistent (txt "k") (txt "v") in
  fails_with r "unknown table" ;;
  fails_with (st_get engine nonexistent (txt "k")) "unknown table" ;;
  let '(engine, r) := st_delete engine nonexistent (txt "k") in
  fails_with r "unknown table" ;;
  fails_with (st_list_keys engine nonexistent) "unknown table".

Definition test_list_keys_empty_table : outcome unit :=
  engine ← setup_engine;
  for_each [BLOCKS; TXS; VOTES; VALIDATORS; META; BLOCK_HASHES] (fun table =>
    keys ← unwrap_ok (st_list_keys engine table);
    assert_eq keys []).

Definition test_delete_nonexistent_key : outcome unit :=
  engine ← setup_engine;
  _ ← delete_unwrap engine ACCOUNTS (txt "ghost");
  Ret tt.

Definition test_put_get_large_value : outcome unit :=
  engine ← setup_engine;
  let large_val := List.repeat xab (Z.to_nat 65536) in
  engine ← put_unwrap engine ACCOUNTS (txt "big") large_val;
  got ← get_unwrap engine ACCOUNTS (txt "big");
  assert_eq (length got) (Z.to_nat 65536) ;;
  assert_eq got large_val.

Definition test_exists_returns_true_for_existing_key : outcome unit :=
  engine ← setup_engine;
  engine ← put_unwrap engine ACCOUNTS (txt "alice") (txt "data");
  b ← exists_unwrap engine ACCOUNTS (txt "alice"); assert_ b.

Definition test_exists_returns_false_for_missing_key : outcome unit :=
  engine ← setup_engine;
  b ← exists_unwrap engine ACCOUNTS (txt "ghost"); assert_ (negb b).

Definition test_exists_after_delete : outcome unit :=
  engine ← setup_engine;
  engine ← put_unwrap engine ACCOUNTS (txt "tmp") (txt "x");
  b ← exists_unwrap engine ACCOUNTS (txt "tmp"); assert_ b ;;
  engine ← delete_unwrap engine ACCOUNTS (txt "tmp");
  b ← exists_unwrap engine ACCOUNTS (txt "tmp"); assert_ (negb b).

Definition test_exists_unknown_table_errors : outcome unit :=
  engine ← setup_engine;
  fails_with (st_exists engine "bad_table" (txt "k")) "unknown table".

Definition storage_tests : list (outcome unit) :=
  [test_put_get_roundtrip; test_get_missing_returns_none; test_overwrite; test_delete;
   test_separate_tables_dont_clash; test_list_keys; test_multiple_databases_isolated;
   test_unknown_table_errors; test_list_keys_empty_table; test_delete_nonexistent_key;
   test_put_get_large_value; test_exists_returns_true_for_existing_key;
   test_exists_returns_false_for_missing_key; test_exists_after_delete;
   test_exists_unknown_table_errors].

Example storage_tests_pass : forallb passes storage_tests = true.
Proof. by vm_compute. Qed.

(** ** [storage/genesis.rs] *)

(** 32 bytes in hex. *)
Definition hex_of (d : string) : bytes := flat_map (fun _ => txt d) (seq 0 32).

Definition genesis_of (chain_id : Z) (accounts : gmap bytes bytes) (validators : list GenesisValidator) : GenesisConfig :=
  mkGenesisConfig chain_id (txt "2025-01-01T00:00:00Z") accounts validators.

(** The values of the configuration texts of the tests. *)
Definition known_texts : list (bytes * GenesisConfig) := [
  (txt "minimal", genesis_of 0 {[ hex_of "ab" := txt "1000000000000000000000000000000000" ]} []);
  (txt "bad address", genesis_of 0 {[ txt "zz" := txt "1000" ]} []);
  (txt "bad balance", genesis_of 0 {[ hex_of "ab" := txt "not-a-number" ]} []);
  (txt "validator", mkGenesisConfig 7 (txt "2025-06-01T00:00:00Z") ∅
     [mkGenesisValidator (hex_of "aa") (txt "50000000000000000000000000000000000")]);
  (txt "bad validator address", genesis_of 0 ∅ [mkGenesisValidator (txt "zz") (txt "1000")]);
  (txt "bad validator stake", genesis_of 0 ∅ [mkGenesisValidator (hex_of "aa") (txt "not-a-number")]);
  (txt "prefixed", genesis_of 0 {[ txt "0x" ++ hex_of "cc" := txt "5000" ]} []);
  (txt "empty", genesis_of 0 ∅ []);
  (txt "no validators", genesis_of 0 {[ hex_of "aa" := txt "1000" ]} [])].

Definition parse_known (json : bytes) : option GenesisConfig :=
  snd <$> List.find (fun p => bool_decide (p.1 = json)) known_texts.

#[local] Instance test_text : GenesisText := {| from_dec_str := digits 0; genesis_from_str := parse_known |}.

#[local] Instance test_text_ok : GenesisTextOk.
Proof.
  split; cbn [from_dec_str genesis_from_str test_text].
  - intros s z. by apply digits_range.
  - intros j c. unfold parse_known. destruct (List.find _ _) as [p|] eqn:E; [|done]. intros [= <-].
    apply List.find_some in E as [Hin _]. simpl in Hin. by repeat destruct Hin as [<-|Hin].
Qed.

(** [write_genesis_json] and [load_genesis(&engine, &path).unwrap()] *)
Definition load_unwrap (engine : RedbEngine) (json : bytes) : outcome RedbEngine :=
  let '(engine, r) := load_genesis engine (Some json) in
  _ ← unwrap_ok r;
  Ret engine.

Definition test_load_genesis_sets_chain_id : outcome unit :=
  engine ← setup_engine;
  engine ← load_unwrap engine (txt "minimal");
  raw ← get_unwrap engine META CHAIN_ID_KEY;
  assert_eq (length raw) 8%nat ;;
  let chain_id := from_le_bytes raw in
  assert_eq chain_id 0.

(** [Account::decode(&mut &raw[..]).unwrap()] of a row. *)
Definition stored_account (engine : RedbEngine) (addr_hex : bytes) : outcome Account :=
  raw_addr ← unwrap_ok (parse_hex_addr addr_hex);
  raw ← get_unwrap engine ACCOUNTS (array_bytes raw_addr);
  unwrap (decode_all sc_account raw).

Definition test_load_genesis_creates_account : outcome unit :=
  engine ← setup_engine;
  engine ← load_unwrap engine (txt "minimal");
  account ← stored_account engine (hex_of "ab");
  expected ← unwrap (from_dec_str (txt "1000000000000000000000000000000000"));
  assert_eq (balance account) expected ;;
  assert_eq (nonce account) 0.

Definition test_load_genesis_stores_hash : outcome unit :=
  engine ← setup_engine;
  engine ← load_unwrap engine (txt "minimal");
  raw ← get_unwrap engine META GENESIS_HASH_KEY;
  assert_eq (length raw) 32%nat ;;
  let expected := blake3 (txt "minimal") in
  assert_eq raw (array_bytes expected).

Definition test_load_genesis_rejects_duplicate : outcome unit :=
  engine ← setup_engine;
  engine ← load_unwrap engine (txt "minimal");
  fails_with (load_genesis engine (Some (txt "minimal"))).2 "genesis already loaded".

(** [load_genesis(&engine, &path).unwrap_err()] on a fresh engine. *)
Definition genesis_fails (file : option bytes) (text : string) : outcome unit :=
  engine ← setup_engine;
  fails_with (load_genesis engine file).2 text.

Definition test_load_genesis_rejects_invalid_json : outcome unit :=
  genesis_fails (Some (txt "not json")) "invalid genesis JSON".

Definition test_load_genesis_rejects_invalid_address : outcome unit :=
  genesis_fails (Some (txt "bad address")) "invalid hex".

Definition test_load_genesis_rejects_invalid_balance : outcome unit :=
  genesis_fails (Some (txt "bad balance")) "invalid decimal".

Definition test_load_genesis_with_validator : outcome unit :=
  engine ← setup_engine;
  engine ← load_unwrap engine (txt "validator");
  raw_addr ← unwrap_ok (parse_hex_addr (hex_of "aa"));
  raw ← get_unwrap engine VALIDATORS (array_bytes raw_addr);
  assert_eq (take 32 raw) (array_bytes raw_addr) ;;
  let stake_bytes := take 32 (drop 32 raw) in
  assert_eq (length stake_bytes) 32%nat ;;
  let stake := from_le_bytes stake_bytes in
  expected ← unwrap (from_dec_str (txt "50000000000000000000000000000000000"));
  assert_eq stake expected.

Definition test_fresh_db_no_genesis_marker : outcome unit :=
  engine ← setup_engine;
  b ← exists_unwrap engine META GENESIS_LOADED_KEY; assert_ (negb b).

Definition test_genesis_marker_set_after_load : outcome unit :=
  engine ← setup_engine;
  engine ← load_unwrap engine (txt "minimal");
  b ← exists_unwrap engine META GENESIS_LOADED_KEY; assert_ b.

Definition assert_ends (result : array 32) (b : byte) : outcome unit :=
  x ← unwrap (array_bytes result !! 0%nat); assert_eq x b ;;
  x ← unwrap (array_bytes result !! 31%nat); assert_eq x b.

Definition test_parse_hex_addr_with_0x_prefix : outcome unit :=
  let addr_hex := txt "0x" ++ hex_of "ab" in
  result ← unwrap_ok (parse_hex_addr addr_hex);
  assert_ends result xab.

Definition test_parse_hex_addr_wrong_length : outcome unit :=
  fails_with (parse_hex_addr (txt "ab")) "must be 32 bytes".

Definition test_parse_hex_addr_invalid_chars : outcome unit :=
  fails_with (parse_hex_addr (hex_of "zz")) "invalid hex".

Definition test_load_genesis_rejects_invalid_validator_address : outcome unit :=
  genesis_fails (Some (txt "bad validator address")) "invalid hex".

Definition test_load_genesis_rejects_invalid_validator_stake : outcome unit :=
  genesis_fails (Some (txt "bad validator stake")) "invalid decimal".

Definition test_load_genesis_account_with_0x_prefix : outcome unit :=
  engine ← setup_engine;
  engine ← load_unwrap engine (txt "prefixed");
  account ← stored_account engine (hex_of "cc");
  assert_eq (balance account) 5000.

Definition test_load_genesis_empty_accounts_and_validators : outcome unit :=
  engine ← setup_engine;
  engine ← load_unwrap engine (txt "empty");
  b ← exists_unwrap engine META GENESIS_LOADED_KEY; assert_ b.

(** A path that does not exist, or a directory: [read_to_string] fails. *)
Definition test_load_genesis_nonexistent_file : outcome unit :=
  genesis_fails None "cannot read genesis file".

Definition test_parse_u256_zero : outcome unit :=
  v ← unwrap_ok (parse_u256 (txt "0")); assert_eq v 0.

Definition test_parse_u256_large : outcome unit :=
  val ← unwrap_ok (parse_u256 (txt "10000000000000000000000000000000000000"));
  assert_ (0 <? val).

Definition test_parse_u256_invalid : outcome unit :=
  fails_with (parse_u256 (txt "xyz")) "invalid decimal".

Definition test_parse_u256_large_full_scale : outcome unit :=
  val ← unwrap_ok (parse_u256 (txt "99999999999999999999999999999999999999"));
  expected ← unwrap (from_dec_str (txt "99999999999999999999999999999999999999"));
  assert_eq val expected.

Definition test_load_genesis_empty_validators_creates_no_entries : outcome unit :=
  engine ← setup_engine;
  engine ← load_unwrap engine (txt "no validators");
  keys ← unwrap_ok (st_list_keys engine VALIDATORS);
  assert_eq keys [].

Definition test_parse_hex_addr_without_prefix : outcome unit :=
  raw ← unwrap_ok (parse_hex_addr (hex_of "bb"));
  assert_ends raw xbb.

Definition test_load_genesis_from_directory_path : outcome unit :=
  genesis_fails None "cannot read genesis file".

Definition genesis_tests : list (outcome unit) :=
  [test_load_genesis_sets_chain_id; test_load_genesis_creates_account; test_load_genesis_stores_hash;
   test_load_genesis_rejects_duplicate; test_load_genesis_rejects_invalid_json;
   test_load_genesis_rejects_invalid_address; test_load_genesis_rejects_invalid_balance;
   test_load_genesis_with_validator; test_fresh_db_no_genesis_marker;
   test_genesis_marker_set_after_load; test_parse_hex_addr_with_0x_prefix;
   test_parse_hex_addr_wrong_length; test_parse_hex_addr_invalid_chars;
   test_load_genesis_rejects_invalid_validator_address;
   test_load_genesis_rejects_invalid_validator_stake; test_load_genesis_account_with_0x_prefix;
   test_load_genesis_empty_accounts_and_validators; test_load_genesis_nonexistent_file;
   test_parse_u256_zero; test_parse_u256_large; test_parse_u256_invalid;
   test_parse_u256_large_full_scale; test_load_genesis_empty_validators_creates_no_entries;
   test_parse_hex_addr_without_prefix; test_load_genesis_from_directory_path].

Example genesis_tests_pass : forallb passes genesis_tests = true.
Proof. by vm_compute. Qed.
