(* ===== verification/RpcTests.v ===== *)
(** * The unit tests of [rpc/config.rs] and [rpc/server.rs]

    The server's tests start it on an application state and call its methods; here
    [build_server] registers the methods and [rpc_call] dispatches a request.  A
    test of a subscription feeds the event that the test sends to the loop of the
    subscription.  Parameters and answers travel as JSON texts, which are jsonrpsee's:
    [test_params] has a text form for the few shapes the tests send. *)
From Stdlib Require Import Strings.Byte Strings.String.
From stdpp Require Import base gmap sets list strings countable sorting.
From Stdlib Require Import ZArith Lia.
From S2P Require Import Prelude Types External Toy Account State Schedule Mempool Storage Engine Config Rest Rpc RpcServer NetworkTests Testing.

Import TestInstances MemStorage.
#[local] Remove Hints toy_blake3 : typeclass_instances.
#[local] Existing Instance map_module.
#[local] Existing Instance map_module_ok.

Abbreviation txt s := (list_byte_of_string s%string) (only parsing).

(** ** [rpc/config.rs] *)

Definition test_default_config : outcome unit :=
  let cfg := RpcConfig_default in
  assert_eq (rpc_cfg_port cfg) 9944 ;;
  assert_eq (rest_cfg_port cfg) 9933 ;;
  assert_eq (max_connections cfg) 100.

Definition test_custom_config : outcome unit :=
  let cfg := mkRpcConfig 19559 18080 500 in
  assert_eq (rpc_cfg_port cfg) 19559 ;;
  assert_eq (rest_cfg_port cfg) 18080 ;;
  assert_eq (max_connections cfg) 500.

Definition test_error_code_values : outcome unit :=
  assert_eq (code Success) 0 ;;
  assert_eq (code Internal) (-1) ;;
  assert_eq (code InvalidParams) (-2) ;;
  assert_eq (code TxValidation) (-3) ;;
  assert_eq (code RpcBlockNotFound) (-4) ;;
  assert_eq (code RpcTxNotFound) (-5) ;;
  assert_eq (code AddressNotFound) (-6) ;;
  assert_eq (code RateLimited) (-7).

Definition test_error_code_messages : outcome unit :=
  assert_eq (message Success) "success"%string ;;
  assert_eq (message Internal) "internal error"%string ;;
  assert_eq (message InvalidParams) "invalid parameters"%string ;;
  assert_eq (message TxValidation) "transaction validation failed"%string ;;
  assert_eq (message RpcBlockNotFound) "block not found"%string ;;
  assert_eq (message RpcTxNotFound) "transaction not found"%string ;;
  assert_eq (message AddressNotFound) "address not found"%string ;;
  assert_eq (message RateLimited) "rate limited"%string.

Definition test_all_error_codes_unique : outcome unit :=
  let codes := [code Success; code Internal; code InvalidParams; code TxValidation;
                code RpcBlockNotFound; code RpcTxNotFound; code AddressNotFound; code RateLimited] in
  let unique : gset Z := list_to_set codes in
  assert_eq (length codes) (size unique).

Definition config_tests : list (outcome unit) :=
  [test_default_config; test_custom_config; test_error_code_values; test_error_code_messages;
   test_all_error_codes_unique].

Example config_tests_pass : forallb passes config_tests = true.
Proof. by vm_compute. Qed.

(** ** The server under test *)

(** [resp[key]]: [Null] when there is no such field; [assert_eq!] with a number or
    a string; [as_array] and [as_str] with [unwrap]. *)
Definition json_index (j : Json) (key : string) : Json :=
  match j with
  | JObject fields => from_option snd JNull (List.find (fun p => bool_decide (p.1 = key)) fields)
  | _ => JNull
  end.
Definition assert_number (j : Json) (z : Z) : outcome unit :=
  match j with JNumber n => assert_eq n z | _ => Panic end.
Definition as_array (j : Json) : outcome (list Json) := match j with JArray l => Ret l | _ => Panic end.
Definition as_str (j : Json) : outcome bytes := match j with JString s => Ret s | _ => Panic end.
Definition assert_string (j : Json) (s : bytes) : outcome unit :=
  text ← as_str j; assert_eq text s.
Definition is_null (j : Json) : bool := match j with JNull => true | _ => false end.

(** Lower-case hex of a number without leading zeros ([{:x}]). *)
Definition hex_number (z : Z) : bytes :=
  if z =? 0 then txt "0"
  else (fix strip l := match l with x30 :: l => strip l | _ => l end) (hex_encode (rev (to_le_bytes 32 z))).

(** The serialised forms, cut to the fields the tests look at. *)
#[local] Instance test_serde : Serde := {|
  header_to_value h := Some (JObject [("height"%string, JNumber (hdr_height h))]);
  block_to_value b := Some (JObject [("header"%string, JObject [("height"%string, JNumber (hdr_height (blk_header b)))])]);
  u256_dec z := txt "decimal";
  u256_hex z := hex_number z;
  status_debug _ := txt "status"
|}.

(** The texts of parameters: none, a string, a number, something else. *)
Inductive Params := NoParams | PString (s : bytes) | PNumber (z : Z) | PObject.
Definition params_text (p : Params) : bytes :=
  match p with
  | NoParams => []
  | PString s => x73 :: s
  | PNumber z => x6e :: byte_of_Z (if z <? 0 then 1 else 0) :: to_le_bytes 8 (Z.abs z)
  | PObject => [x6f]
  end.

#[local] Instance test_params : RpcParams := {|
  one_string text := match text with x73 :: s => Ok s | _ => Err (-32602, "Invalid params"%string) end;
  one_value text := match text with
    | x73 :: s => Ok (JString s)
    | x6e :: sign :: z => Ok (JNumber (if bool_decide (sign = x00) then from_le_bytes z else - from_le_bytes z))
    | [x6f] => Ok (JObject [("invalid"%string, JBool true)])
    | _ => Err (-32602, "Invalid params"%string)
    end;
  may_block := false;
  method_not_found := (-32601, "Method not found"%string)
|}.

Abbreviation TestState := (RpcState RedbEngine).
Abbreviation TestModule := (module (Method (D := RedbEngine))).

Definition test_state_with_height (height : Z) (validators : list (Address * Account)) : outcome TestState :=
  storage ← open_engine;
  let state_machine := mkLock (StateMachine_new validators) false in
  let mempool := mkLock (Mempool_new MempoolConfig_default) false in
  let consensus := ConsensusEngine_new ConsensusConfig_default in
  let consensus := set_current_height consensus height in
  Ret (RpcState_new storage state_machine mempool [] consensus 0 (array_repeat 32 x00)).

Definition test_state : outcome TestState := test_state_with_height 0 [].

Definition build_server : outcome TestModule :=
  unwrap (m ← register_all module_new chain_methods;
          m ← register_all m state_methods;
          m ← register_all m block_methods;
          m ← register_all m tx_methods;
          m ← register_all m network_methods;
          m ← register_all m governance_methods;
          register_all m subscription_methods).

(** [client.request(method, params).await]; [rpc_call] unwraps it. *)
Definition request (m : TestModule) (state : TestState) (method : string) (params : Params) : outcome (RpcResult Json) :=
  (rpc_request m state 0 method (params_text params)).2.
Definition rpc_call (m : TestModule) (state : TestState) (method : string) (params : Params) : outcome Json :=
  r ← request m state method params;
  unwrap_ok r.

(** The common course of a test: a call on the state, and what its answer must be. *)
Definition answers (state : outcome TestState) (method : string) (params : Params) (post : Json -> outcome unit) : outcome unit :=
  state ← state;
  m ← build_server;
  resp ← rpc_call m state method params;
  post resp.
Definition refuses (method : string) (params : Params) : outcome unit :=
  state ← test_state;
  m ← build_server;
  result ← request m state method params;
  assert_ (negb (is_ok result)).

(** [state.storage.put(BLOCKS, ..).unwrap()] of a block with the given height. *)
Definition with_block (state : outcome TestState) (height : Z) : outcome TestState :=
  state ← state;
  let block := mkBlock (header_of height x00 x00 x00 1700000000 0xaa 0 xcd) (mkBlockBody []) in
  storage ← put_unwrap (rs_storage state) BLOCKS (to_be_bytes 8 height) (enc sc_block block);
  Ret (mkRpc storage (rs_state_machine state) (rs_mempool state) (rs_peers state) (rs_consensus state)
    (rs_chain_id state) (rs_genesis_hash state)).

Definition unknown_address : bytes := txt "0xabababababababababababababababababababababababababababababababab".

(** ** [rpc/server.rs]: chain and state *)

Definition test_chain_get_health : outcome unit :=
  answers test_state "chain_get_health" NoParams (fun resp =>
    assert_string (json_index resp "status") (txt "ok") ;;
    assert_number (json_index resp "height") 0 ;;
    assert_number (json_index resp "chain_id") 0 ;;
    assert_ (match json_index resp "peers" with JNumber _ => true | _ => false end)).

Definition test_chain_get_height : outcome unit :=
  answers test_state "chain_get_height" NoParams (fun resp => assert_number resp 0).

Definition test_chain_get_genesis : outcome unit :=
  answers test_state "chain_get_genesis" NoParams (fun resp =>
    hex_str ← as_str resp;
    assert_eq (length hex_str) 64%nat).

Definition test_era_current : outcome unit :=
  answers test_state "era_current" NoParams (fun resp => assert_number resp 0).

Definition test_state_get_balance_unknown : outcome unit :=
  answers test_state "state_get_balance" (PString unknown_address) (fun resp =>
    assert_string (json_index resp "balance") (txt "0x0")).

Definition test_state_get_nonce_unknown : outcome unit :=
  answers test_state "state_get_nonce" (PString unknown_address) (fun resp =>
    assert_number (json_index resp "nonce") 0).

Definition test_validator_set_empty : outcome unit :=
  answers test_state "validator_set" NoParams (fun resp =>
    arr ← as_array resp;
    assert_eq (length arr) 0%nat).

Definition test_validator_set_with_populated_state : outcome unit :=
  let addr1 := addr 0xaa in
  let addr2 := addr 0xbb in
  let acct1 := Account_new 1000 in
  let acct2 := Account_new 2000 in
  let state := test_state_with_height 0 [(addr1, acct1); (addr2, acct2)] in
  answers state "validator_set" NoParams (fun resp =>
    arr ← as_array resp;
    assert_eq (length arr) 0%nat).

Definition test_validator_stake_unknown : outcome unit :=
  answers test_state "validator_stake" (PString unknown_address) (fun resp =>
    assert_string (json_index resp "stake") (txt "0x0")).

Definition test_parse_address_invalid_hex : outcome unit :=
  let result := rpc_parse_address (txt "0xGGGG") in
  assert_ (negb (is_ok result)).

Definition test_parse_address_wrong_length : outcome unit :=
  let result := rpc_parse_address (txt "0xabcd") in
  assert_ (negb (is_ok result)).

Definition test_state_get_balance_invalid_address : outcome unit := refuses "state_get_balance" (PString (txt "not-hex")).
Definition test_state_get_nonce_invalid_address : outcome unit := refuses "state_get_nonce" (PString (txt "not-hex")).
Definition test_validator_stake_invalid_address : outcome unit := refuses "validator_stake" (PString (txt "not-hex")).

(** ** Blocks *)

Definition test_block_latest_returns_null_when_no_blocks : outcome unit :=
  answers test_state "block_latest" NoParams (fun resp => assert_ (is_null resp)).

Definition test_block_latest_with_stored_block : outcome unit :=
  let state := test_state_with_height 7 [] in
  answers (with_block state 7) "block_latest" NoParams (fun resp =>
    assert_number (json_index (json_index resp "header") "height") 7).

Definition test_block_header_latest_fails_when_no_blocks : outcome unit := refuses "block_header" (PString (txt "latest")).

Definition test_block_header_with_stored_block : outcome unit :=
  answers (with_block test_state 5) "block_header" (PNumber 5) (fun resp =>
    assert_number (json_index resp "height") 5).

Definition test_block_get_by_height : outcome unit :=
  answers (with_block test_state 7) "block_get" (PNumber 7) (fun resp =>
    assert_number (json_index (json_index resp "header") "height") 7).

Definition test_block_get_missing_returns_error : outcome unit := refuses "block_get" (PNumber 99).
Definition test_block_get_by_hash_not_found : outcome unit := refuses "block_get" (PString unknown_address).
Definition test_block_get_by_invalid_params : outcome unit := refuses "block_get" PObject.
Definition test_block_get_by_invalid_number : outcome unit := refuses "block_get" (PNumber (-1)).
Definition test_block_get_by_hash_too_short : outcome unit := refuses "block_get" (PString (txt "0xabcd")).
Definition test_block_get_by_hash_invalid_hex : outcome unit :=
  refuses "block_get" (PString (txt "0xZZZZZZZZZZZZZZZZZZZZZZZZZZZZZZZZZZZZZZZZZZZZZZZZZZZZZZZZZZZZZZZZ")).

(** ** Transactions, network, governance *)

Definition transfer_of (sender recipient amount : Z) : Transaction :=
  mkTransaction 0 0 (addr sender) 1000 (Transfer (addr recipient) amount) (sig_of xcd).

(** [resp[..].as_str().unwrap_or().starts_with(..)] with the empty string as default *)
Definition assert_tx_hash (resp : Json) : outcome unit :=
  assert_ (match json_index resp "tx_hash" with JString s => starts_with (txt "0x") s | _ => false end).

Definition test_tx_submit_invalid_hex : outcome unit := refuses "tx_submit" (PString (txt "not-hex")).

Definition test_tx_submit_valid_hex : outcome unit :=
  let tx := transfer_of 0xaa 0xbb 100 in
  let encoded := enc sc_tx tx in
  let hex_tx := hex_encode encoded in
  answers test_state "tx_submit" (PString hex_tx) assert_tx_hash.

Definition test_tx_submit_with_0x_prefix : outcome unit :=
  let tx := transfer_of 0xcc 0xdd 50 in
  let encoded := enc sc_tx tx in
  let hex_tx := txt "0x" ++ hex_encode encoded in
  answers test_state "tx_submit" (PString hex_tx) assert_tx_hash.

Definition test_tx_submit_invalid_scale_data : outcome unit := refuses "tx_submit" (PString (txt "deadbeef")).

Definition test_tx_status_returns_unknown : outcome unit :=
  answers test_state "tx_status" (PString (txt "0xabcd")) (fun resp =>
    assert_string (json_index resp "status") (txt "unknown")).

(** A timeout or an error would do, too: a request that panics in its task is not
    answered, or with an error. *)
Definition test_network_peers_returns_empty_when_no_p2p : outcome unit :=
  state ← test_state;
  m ← build_server;
  match request m state "network_peers" NoParams with
  | Ret (Ok resp) => _ ← as_array resp; Ret tt
  | _ => Ret tt
  end.

Definition test_governance_proposals_returns_empty : outcome unit :=
  answers test_state "governance_proposals" NoParams (fun resp =>
    arr ← as_array resp;
    assert_eq (length arr) 0%nat).

Definition test_governance_params_returns_empty : outcome unit :=
  answers test_state "governance_params" NoParams (fun resp =>
    arr ← as_array resp;
    assert_eq (length arr) 0%nat).

(** ** Subscriptions *)

(** [client.subscribe(name, ..).await]: the name is registered for the kind. *)
Definition subscribe (m : TestModule) (name : string) (kind : EventKind) : bool :=
  match find_method m name, kind with
  | Some (Subscribe BlockEvents), BlockEvents | Some (Subscribe FinalityEvents), FinalityEvents
  | Some (Subscribe VoteEvents), VoteEvents => true
  | _, _ => false
  end.

(** The notification of the one event sent, its [height]. *)
Definition notified {A} (encode : A -> option Json) (event : A) (height : Z) : outcome unit :=
  match serve_subscription encode (fun _ => true) 0 [RecvOk event] with
  | val :: _ => assert_number (json_index val "height") height
  | [] => Panic
  end.

Definition vote_value (v : CommitVote) : option Json := Some (JObject [("height"%string, JNumber (cv_height v))]).

Definition test_subscribe_blocks_returns_subscription_id : outcome unit :=
  m ← build_server;
  assert_ (subscribe m "subscribe_blocks" BlockEvents) ;;
  let header := header_of 42 x00 x00 x00 0 0 0 x00 in
  notified (subscribe_blocks Some) header 42.

Definition test_subscribe_finality_returns_subscription_id : outcome unit :=
  m ← build_server;
  assert_ (subscribe m "subscribe_finality" FinalityEvents).

Definition test_subscribe_votes_returns_subscription_id : outcome unit :=
  m ← build_server;
  assert_ (subscribe m "subscribe_votes" VoteEvents).

Definition test_subscribe_finality_notification : outcome unit :=
  m ← build_server;
  assert_ (subscribe m "subscribe_finality" FinalityEvents) ;;
  notified (subscribe_finality Some) 99 99.

Definition test_subscribe_votes_notification : outcome unit :=
  m ← build_server;
  assert_ (subscribe m "subscribe_votes" VoteEvents) ;;
  let vote := mkCommitVote 42 (hash32 xab) (addr 0xbb) (sig_of xcc) in
  notified (subscribe_votes vote_value Some) vote 42.

Definition server_tests : list (outcome unit) :=
  [test_chain_get_health; test_chain_get_height; test_chain_get_genesis; test_era_current;
   test_state_get_balance_unknown; test_state_get_nonce_unknown; test_validator_set_empty;
   test_validator_set_with_populated_state; test_validator_stake_unknown;
   test_parse_address_invalid_hex; test_parse_address_wrong_length;
   test_state_get_balance_invalid_address; test_state_get_nonce_invalid_address;
   test_validator_stake_invalid_address; test_block_latest_returns_null_when_no_blocks;
   test_block_latest_with_stored_block; test_block_header_latest_fails_when_no_blocks;
   test_block_header_with_stored_block; test_block_get_by_height; test_block_get_missing_returns_error;
   test_block_get_by_hash_not_found; test_block_get_by_invalid_params; test_block_get_by_invalid_number;
   test_block_get_by_hash_too_short; test_block_get_by_hash_invalid_hex; test_tx_submit_invalid_hex;
   test_tx_submit_valid_hex; test_tx_submit_with_0x_prefix; test_tx_submit_invalid_scale_data;
   test_tx_status_returns_unknown; test_network_peers_returns_empty_when_no_p2p;
   test_governance_proposals_returns_empty; test_governance_params_returns_empty;
   test_subscribe_blocks_returns_subscription_id; test_subscribe_finality_returns_subscription_id;
   test_subscribe_votes_returns_subscription_id; test_subscribe_finality_notification;
   test_subscribe_votes_notification].

Example server_tests_pass : forallb passes server_tests = true.
Proof. by vm_compute. Qed.
