(* ===== verification/ConfigTests.v ===== *)
(** * The unit tests of [config/mod.rs] and [config/constants.rs]

    Defaults, accessors, the overlay of the command line, validation and loading.
    The YAML and TOML parsers are parameters: a text has a name and [known_yaml],
    [known_toml] give the value it denotes.  Tests that depend on the environment
    take it as an argument.  The two tests of a floating-point constant are left out. *)
From Stdlib Require Import Strings.Byte Strings.String.
From stdpp Require Import base gmap sets list strings countable.
From Stdlib Require Import ZArith Lia.
From S2P Require Import Prelude Types External Toy Config Errors StorageTests Testing.

Import TestInstances.
#[local] Open Scope string_scope.

Abbreviation txt s := (list_byte_of_string s%string) (only parsing).

(** ** Building configurations *)

(** Assignments to fields: [cfg.key = Some(..)] and so on. *)
Definition set_key (c : NodeConfig) (k : string) : NodeConfig :=
  mkNodeConfig (Some k) (key_file c) (observer c) (genesis c) (node c) (crypto c) (network c) (storage c) (mempool c) (log c).
Definition set_key_file (c : NodeConfig) (k : string) : NodeConfig :=
  mkNodeConfig (key c) (Some k) (observer c) (genesis c) (node c) (crypto c) (network c) (storage c) (mempool c) (log c).
Definition set_observer (c : NodeConfig) : NodeConfig :=
  mkNodeConfig (key c) (key_file c) true (genesis c) (node c) (crypto c) (network c) (storage c) (mempool c) (log c).
Definition set_genesis (c : NodeConfig) (g : string) : NodeConfig :=
  mkNodeConfig (key c) (key_file c) (observer c) (Some g) (node c) (crypto c) (network c) (storage c) (mempool c) (log c).
Definition set_node (c : NodeConfig) (n : NodeSection) : NodeConfig :=
  mkNodeConfig (key c) (key_file c) (observer c) (genesis c) n (crypto c) (network c) (storage c) (mempool c) (log c).
Definition set_network (c : NodeConfig) (n : NetworkSection) : NodeConfig :=
  mkNodeConfig (key c) (key_file c) (observer c) (genesis c) (node c) (crypto c) n (storage c) (mempool c) (log c).
Definition set_storage (c : NodeConfig) (s : StorageSection) : NodeConfig :=
  mkNodeConfig (key c) (key_file c) (observer c) (genesis c) (node c) (crypto c) (network c) s (mempool c) (log c).
Definition set_mempool (c : NodeConfig) (m : MempoolSection) : NodeConfig :=
  mkNodeConfig (key c) (key_file c) (observer c) (genesis c) (node c) (crypto c) (network c) (storage c) m (log c).
Definition set_log (c : NodeConfig) (l : LogSection) : NodeConfig :=
  mkNodeConfig (key c) (key_file c) (observer c) (genesis c) (node c) (crypto c) (network c) (storage c) (mempool c) l.

(** The three ports of the network section, the rest as it was. *)
Definition set_ports (c : NodeConfig) (p2p rpc rest : option Z) : NodeConfig :=
  let n := network c in
  set_network c (mkNetworkSection p2p rpc rest (net_bootnodes n) (net_enable_mdns n)).

(** [CliOverrides::default()] *)
Definition no_overrides : CliOverrides :=
  mkOverrides None None None None None None None None None None None None None None None.

Definition defaults : NodeConfig := NodeConfig_default.

(** [option.is_none()] *)
Definition is_none {A} (o : option A) : bool := match o with None => true | Some _ => false end.

(** ** Defaults *)

Definition test_default_p2p_port : outcome unit := assert_eq (p2p_port defaults) 30333.
Definition test_default_rpc_port : outcome unit := assert_eq (rpc_port defaults) 9944.
Definition test_default_rest_port : outcome unit := assert_eq (rest_port defaults) 9933.
Definition test_default_log_level : outcome unit := assert_eq (log_level defaults) "info".
Definition test_default_log_json : outcome unit := assert_ (log_json defaults).
Definition test_default_unlock_timeout : outcome unit := assert_eq (unlock_timeout defaults) 20.
Definition test_default_enable_mdns : outcome unit := assert_ (enable_mdns defaults).

Definition test_mempool_section_default : outcome unit :=
  let s := MempoolSection_default in
  assert_ (is_none (ms_max_tx_per_account s)).

Definition test_log_section_default : outcome unit :=
  let s := LogSection_default in
  assert_ (is_none (ls_level s)) ;;
  assert_ (is_none (ls_json s)) ;;
  assert_ (is_none (ls_file s)).

Definition test_node_section_default : outcome unit :=
  let s := NodeSection_default in
  assert_ (is_none (ns_data_dir s)) ;;
  assert_ (is_none (ns_unlock_timeout s)).

Definition test_crypto_section_default : outcome unit :=
  let s := CryptoSec_default in
  assert_ (is_none (cs_argon2_memory_mib s)) ;;
  assert_ (is_none (cs_argon2_iterations s)).

Definition test_network_section_default : outcome unit :=
  let s := NetworkSection_default in
  assert_ (is_none (net_p2p_port s)) ;;
  assert_ (is_none (net_rpc_port s)) ;;
  assert_ (is_none (net_rest_port s)) ;;
  assert_ (is_none (net_bootnodes s)).

Definition test_storage_section_default : outcome unit :=
  let s := StorageSection_default in
  assert_ (is_none (ss_mode s)) ;;
  assert_ (is_none (ss_compact_eras s)) ;;
  assert_ (is_none (ss_full_node_rpc s)).

(** ** Parsing and loading *)

Definition full_config : NodeConfig :=
  mkNodeConfig (Some "my-validator") None false (Some "configs/genesis.devnet.json")
    (mkNodeSection (Some "/tmp/mononium-data") (Some 30)) CryptoSec_default
    (mkNetworkSection (Some 30444) (Some 9955) None None true) (mkStorageSection (Some "compact") None None)
    MempoolSection_default (mkLogSection (Some "debug") (Some false) None).

Definition small_config : NodeConfig := set_genesis (set_key defaults "test") "test.json".

(** The values of the texts of the tests. *)
Definition known_yaml : list (string * NodeConfig) := [
  ("no mdns", set_network (set_genesis (set_observer defaults) "genesis.json") (mkNetworkSection None None None None false));
  ("full", full_config);
  ("bootnodes", set_network (set_genesis (set_observer defaults) "genesis.json")
     (mkNetworkSection None None None
        (Some ["/ip4/1.2.3.4/tcp/30333/p2p/QmX"; "/ip4/5.6.7.8/tcp/30333/p2p/QmY"]) true));
  ("small", small_config)].
Definition known_toml : list (string * NodeConfig) := [("full", full_config); ("small", small_config)].

Definition parse_named (known : list (string * NodeConfig)) (s : string) : option NodeConfig :=
  snd <$> List.find (fun p => bool_decide (p.1 = s)) known.

#[local] Instance test_config_text : ConfigText :=
  {| yaml_from_str := parse_named known_yaml; toml_from_str := parse_named known_toml |}.

Definition test_enable_mdns_from_yaml : outcome unit :=
  cfg ← unwrap (yaml_from_str "no mdns");
  assert_ (negb (enable_mdns cfg)).

Definition test_yaml_full_config : outcome unit :=
  cfg ← unwrap (yaml_from_str "full");
  assert_eq (key cfg) (Some "my-validator") ;;
  assert_eq (genesis cfg) (Some "configs/genesis.devnet.json") ;;
  assert_eq (p2p_port cfg) 30444 ;;
  assert_eq (rpc_port cfg) 9955 ;;
  assert_eq (log_level cfg) "debug" ;;
  assert_ (negb (log_json cfg)) ;;
  assert_eq (storage_mode cfg) "compact" ;;
  assert_eq (unlock_timeout cfg) 30.

Definition test_yaml_with_bootnodes : outcome unit :=
  cfg ← unwrap (yaml_from_str "bootnodes");
  assert_ (observer cfg) ;;
  assert_eq (length (bootnodes cfg)) 2%nat.

Definition test_toml_full_config : outcome unit :=
  cfg ← unwrap (toml_from_str "full");
  assert_eq (key cfg) (Some "my-validator") ;;
  assert_eq (p2p_port cfg) 30444 ;;
  assert_eq (rpc_port cfg) 9955 ;;
  assert_eq (log_level cfg) "debug" ;;
  assert_ (negb (log_json cfg)) ;;
  assert_eq (storage_mode cfg) "compact" ;;
  assert_eq (unlock_timeout cfg) 30.

Definition test_load_yaml_file : outcome unit :=
  cfg ← unwrap_ok (load (Some "small") "yaml");
  assert_eq (key cfg) (Some "test").

Definition test_load_toml_file : outcome unit :=
  cfg ← unwrap_ok (load (Some "small") "toml");
  assert_eq (key cfg) (Some "test").

Definition test_load_unsupported_extension : outcome unit := fails_with (load (Some "{}") "json") "unsupported".
Definition test_load_nonexistent_path : outcome unit := fails_with (load None "yaml") "cannot read config".

(** ** The overlay of the command line *)

Definition test_merge_cli_overrides : outcome unit :=
  let cfg := defaults in
  let cli := mkOverrides None None None None (Some 30666) None None None None None None None (Some "trace") None None in
  let cfg := merge_cli cfg cli in
  assert_eq (p2p_port cfg) 30666 ;;
  assert_eq (log_level cfg) "trace" ;;
  assert_eq (rpc_port cfg) 9944.

Definition overrides_observer (b : bool) : CliOverrides :=
  mkOverrides None None None (Some b) None None None None None None None None None None None.

Definition test_merge_cli_does_not_erase_existing : outcome unit :=
  let cfg := defaults in
  let cfg := set_ports cfg (Some 30888) None None in
  let cfg := merge_cli cfg (overrides_observer true) in
  assert_ (observer cfg) ;;
  assert_eq (p2p_port cfg) 30888.

Definition test_merge_cli_observer_false : outcome unit :=
  let cfg := set_observer defaults in
  let cfg := merge_cli cfg (overrides_observer false) in
  assert_ (negb (observer cfg)).

Definition test_merge_cli_all_fields (env : Env) : outcome unit :=
  let cfg := defaults in
  let cli := mkOverrides (Some "cli-genesis.json") (Some "cli-key") (Some "cli-key-file") (Some true) (Some 30666)
    (Some 9955) (Some 9944) (Some ["/ip4/1.2.3.4"]) (Some "/cli/data") (Some "archive") (Some 5) (Some ["bob"])
    (Some "trace") (Some false) (Some 120) in
  let cfg := merge_cli cfg cli in
  assert_eq (genesis cfg) (Some "cli-genesis.json") ;;
  assert_eq (key cfg) (Some "cli-key") ;;
  assert_eq (key_file cfg) (Some "cli-key-file") ;;
  assert_ (observer cfg) ;;
  assert_eq (p2p_port cfg) 30666 ;;
  assert_eq (rpc_port cfg) 9955 ;;
  assert_eq (rest_port cfg) 9944 ;;
  assert_eq (bootnodes cfg) ["/ip4/1.2.3.4"] ;;
  assert_eq (data_dir env cfg) "/cli/data" ;;
  assert_eq (storage_mode cfg) "archive" ;;
  assert_eq (compact_eras cfg) 5 ;;
  assert_eq (full_node_rpc cfg) ["bob"] ;;
  assert_eq (log_level cfg) "trace" ;;
  assert_ (negb (log_json cfg)) ;;
  assert_eq (unlock_timeout cfg) 120.

(** ** Validation *)

Definition test_validate_no_identity_errors : outcome unit :=
  let cfg := set_genesis defaults "genesis.json" in
  fails_with (validate cfg) "one of key".

Definition test_validate_mutually_exclusive : outcome unit :=
  let cfg := set_key defaults "alice" in
  let cfg := set_key_file cfg "/path/key.json" in
  let cfg := set_genesis cfg "genesis.json" in
  fails_with (validate cfg) "mutually exclusive".

Definition test_validate_zero_ports_allowed : outcome unit :=
  let cfg := set_genesis defaults "genesis.json" in
  let cfg := set_key cfg "test" in
  let cfg := set_ports cfg (Some 0) (Some 0) (Some 9933) in
  assert_ (is_ok (validate cfg)).

Definition test_validate_observer_with_key_errors : outcome unit :=
  let cfg := set_key defaults "alice" in
  let cfg := set_observer cfg in
  let cfg := set_genesis cfg "genesis.json" in
  fails_with (validate cfg) "observer".

Definition test_validate_no_genesis_errors : outcome unit :=
  let cfg := set_key defaults "alice" in
  fails_with (validate cfg) "genesis".

Definition validator_config : NodeConfig := set_genesis (set_key defaults "alice") "genesis.json".

Definition test_validate_port_conflict_p2p_rest : outcome unit :=
  let cfg := set_ports validator_config (Some 9933) None (Some 9933) in
  fails_with (validate cfg) "p2p_port" ;;
  fails_with (validate cfg) "rest_port".

Definition test_validate_port_conflict_p2p_rpc : outcome unit :=
  let cfg := set_ports validator_config (Some 9944) (Some 9944) None in
  fails_with (validate cfg) "p2p_port" ;;
  fails_with (validate cfg) "rpc_port".

Definition test_validate_port_conflict_rest_rpc : outcome unit :=
  let cfg := set_ports validator_config None (Some 9955) (Some 9955) in
  fails_with (validate cfg) "rest_port" ;;
  fails_with (validate cfg) "rpc_port".

Definition test_validate_observer_passes : outcome unit :=
  let cfg := set_observer defaults in
  let cfg := set_genesis cfg "genesis.json" in
  assert_ (is_ok (validate cfg)).

Definition test_validate_validator_passes : outcome unit :=
  let cfg := validator_config in
  assert_ (is_ok (validate cfg)).

Definition test_validate_key_file_passes : outcome unit :=
  let cfg := set_key_file defaults "/path/key.json" in
  let cfg := set_genesis cfg "genesis.json" in
  assert_ (is_ok (validate cfg)).

(** ** Accessors *)

Definition test_data_dir_default (env : Env) : outcome unit :=
  assert_ (negb (bool_decide (data_dir env defaults = ""))).

Definition test_data_dir_from_config (env : Env) : outcome unit :=
  let cfg := set_node defaults (mkNodeSection (Some "/custom/path") None) in
  assert_eq (data_dir env cfg) "/custom/path".

Definition test_storage_mode_default : outcome unit := assert_eq (storage_mode defaults) "full".

Definition test_storage_mode_from_config : outcome unit :=
  let cfg := set_storage defaults (mkStorageSection (Some "archive") None None) in
  assert_eq (storage_mode cfg) "archive".

Definition test_compact_eras_default : outcome unit := assert_eq (compact_eras defaults) 2.

Definition test_compact_eras_from_config : outcome unit :=
  let cfg := set_storage defaults (mkStorageSection None (Some 3) None) in
  assert_eq (compact_eras cfg) 3.

Definition test_full_node_rpc_default : outcome unit := assert_eq (full_node_rpc defaults) [].

Definition test_full_node_rpc_from_config : outcome unit :=
  let cfg := set_storage defaults (mkStorageSection None None (Some ["alice"])) in
  assert_eq (full_node_rpc cfg) ["alice"].

Definition test_max_tx_per_account_default : outcome unit := assert_eq (max_tx_per_account defaults) 50.

Definition test_max_tx_per_account_from_config : outcome unit :=
  let cfg := set_mempool defaults (mkMempoolSection (Some 500)) in
  assert_eq (max_tx_per_account cfg) 500.

Definition test_log_file_default : outcome unit := assert_ (is_none (log_file defaults)).

Definition test_log_file_from_config : outcome unit :=
  let cfg := set_log defaults (mkLogSection None None (Some "/var/log/mononium.log")) in
  assert_eq (log_file cfg) (Some "/var/log/mononium.log").

Definition test_bootnodes_default : outcome unit := assert_eq (bootnodes defaults) [].

Definition test_genesis_path : outcome unit :=
  let cfg := defaults in
  assert_ (is_none (genesis_path cfg)) ;;
  let cfg := set_genesis cfg "custom.json" in
  assert_eq (genesis_path cfg) (Some "custom.json").

Definition config_mod_tests : list (outcome unit) :=
  [test_default_p2p_port; test_default_rpc_port; test_default_rest_port; test_default_log_level;
   test_default_log_json; test_default_unlock_timeout; test_default_enable_mdns;
   test_mempool_section_default; test_log_section_default; test_node_section_default;
   test_crypto_section_default; test_network_section_default; test_storage_section_default;
   test_enable_mdns_from_yaml; test_yaml_full_config; test_yaml_with_bootnodes; test_toml_full_config;
   test_load_yaml_file; test_load_toml_file; test_load_unsupported_extension;
   test_load_nonexistent_path; test_merge_cli_overrides; test_merge_cli_does_not_erase_existing;
   test_merge_cli_observer_false; test_validate_no_identity_errors; test_validate_mutually_exclusive;
   test_validate_zero_ports_allowed; test_validate_observer_with_key_errors;
   test_validate_no_genesis_errors; test_validate_port_conflict_p2p_rest;
   test_validate_port_conflict_p2p_rpc; test_validate_port_conflict_rest_rpc;
   test_validate_observer_passes; test_validate_validator_passes; test_validate_key_file_passes;
   test_storage_mode_default; test_storage_mode_from_config; test_compact_eras_default;
   test_compact_eras_from_config; test_full_node_rpc_default; test_full_node_rpc_from_config;
   test_max_tx_per_account_default; test_max_tx_per_account_from_config; test_log_file_default;
   test_log_file_from_config; test_bootnodes_default; test_genesis_path].

Example config_mod_tests_pass : forallb passes config_mod_tests = true.
Proof. by vm_compute. Qed.

(** The tests that depend on the environment pass in every one. *)
Lemma join_nonempty base part : part <> "" -> path_join base part <> "".
Proof.
  intros Hp. unfold path_join. destruct (starts_with_slash part); [done|].
  destruct (_ || _); destruct base; by simpl.
Qed.

Lemma env_tests_pass env :
  test_merge_cli_all_fields env = Ret tt /\ test_data_dir_from_config env = Ret tt /\
  test_data_dir_default env = Ret tt.
Proof.
  split; [reflexivity|]. split; [reflexivity|]. unfold test_data_dir_default.
  rewrite bool_decide_eq_false_2; [done|]. by apply join_nonempty.
Qed.

(** ** [config/constants.rs] *)

(** [path.to_string_lossy().contains(s)] *)
Definition contains (path s : string) : bool := text_contains (txt path) (txt s).

Definition test_default_data_dir_returns_path (env : Env) : outcome unit :=
  let path := default_data_dir env in
  assert_ (contains path ".mononium") ;;
  assert_ (contains path "data").

Definition test_default_key_dir_returns_path (env : Env) : outcome unit :=
  let path := default_key_dir env in
  assert_ (contains path ".mononium") ;;
  assert_ (contains path "keys").

Definition test_default_config_dir_returns_path (env : Env) : outcome unit :=
  let path := default_config_dir env in
  assert_ (contains path ".mononium") ;;
  assert_ (negb (contains path "data")) ;;
  assert_ (negb (contains path "keys")).

Definition test_default_ports : outcome unit :=
  assert_eq DEFAULT_P2P_PORT 30333 ;;
  assert_eq DEFAULT_RPC_PORT 9944 ;;
  assert_eq DEFAULT_REST_PORT 9933.

Definition test_default_storage_params : outcome unit :=
  assert_eq DEFAULT_STORAGE_MODE "full" ;;
  assert_eq DEFAULT_COMPACT_ERAS 2 ;;
  assert_eq DEFAULT_MAX_TX_PER_ACCOUNT 50 ;;
  assert_eq DEFAULT_UNLOCK_TIMEOUT_SECS 20.

Definition test_default_dirs_contain_mononium (env : Env) : outcome unit :=
  let data := default_data_dir env in
  let keys := default_key_dir env in
  let cfg := default_config_dir env in
  assert_ (contains data ".mononium/data") ;;
  assert_ (contains keys ".mononium/keys") ;;
  assert_ (contains cfg ".mononium") ;;
  assert_ (negb (contains cfg "data")).

Definition constants_tests (env : Env) : list (outcome unit) :=
  [test_default_data_dir_returns_path env; test_default_key_dir_returns_path env;
   test_default_config_dir_returns_path env; test_default_ports; test_default_storage_params;
   test_default_dirs_contain_mononium env].

Example constants_tests_pass :
  forallb (fun env => forallb passes (constants_tests env))
    [mkEnv (Some "/home/user") None; mkEnv None (Some "C:\Users\me"); mkEnv None None; mkEnv (Some "/root/") None] = true.
Proof. by vm_compute. Qed.

(** Two of them fail for a home directory whose path contains [data] or [keys]. *)
Example config_dir_tests_depend_on_home :
  test_default_config_dir_returns_path (mkEnv (Some "/data/home/user") None) = Panic /\
  test_default_config_dir_returns_path (mkEnv (Some "/home/monkeys") None) = Panic /\
  test_default_dirs_contain_mononium (mkEnv (Some "/data/home/user") None) = Panic.
Proof. by vm_compute. Qed.
