(* ===== verification/NodeTests.v ===== *)
(** * The unit tests of [network/mod.rs], [node.rs] and [wallet.rs]

    The service tests start two nodes that libp2p connects: here [deliver] carries
    what one node hands its swarm to the other, and [run_node] runs the loop of a
    node on the commands and events it meets.  The dummy handle, the start-up
    helpers of the node binary and the wallet's amounts are evaluated as they are.
    Sockets, the choice of ports and the time for connections to form are libp2p's,
    and the test of a ten-megabyte block is left out for its size. *)
From Stdlib Require Import Strings.Byte Strings.String.
From stdpp Require Import base gmap sets list strings countable sorting pretty.
From Stdlib Require Import ZArith Lia.
From S2P Require Import Prelude Types External Toy Account State Schedule Storage Genesis Peers Sync P2p Handle Rest Wallet Errors NetworkTests StorageTests RpcTests Testing.

Import TestInstances MemStorage.
#[local] Remove Hints toy_blake3 : typeclass_instances.
#[local] Existing Instance list_mpsc.
#[local] Existing Instance list_mpsc_ok.
#[local] Existing Instance test_text.
#[local] Existing Instance test_serde.

Abbreviation txt s := (list_byte_of_string s%string) (only parsing).

(** ** Two nodes ([network/mod.rs]) *)

(** A vote must fit its topic, so its signature has the length it has in SCALE: a
    compact length of two bytes, then the bytes. *)
Definition c_sig_compact : codec Falcon512Signature :=
  mkCodec (fun s => to_le_bytes 2 (4 * Z.of_nat (length (sig_bytes s)) + 1) ++ sig_bytes s)
    (fun bs =>
      let n := Z.to_nat (from_le_bytes (take 2 bs) / 4) in
      if decide (2 + n <= length bs)%nat then Some (mkSignature (take n (drop 2 bs)), drop n (drop 2 bs)) else None).

Lemma c_sig_compact_ok : codec_ok signature_valid c_sig_compact.
Proof.
  intros [s] r Hs. unfold signature_valid in Hs. cbn [enc dec c_sig_compact sig_bytes] in *.
  rewrite <- app_assoc, take_app_length', drop_app_length' by (by rewrite to_le_bytes_length).
  rewrite from_to_le_bytes by (rewrite Hs; split; [done|reflexivity]).
  replace (Z.to_nat ((4 * Z.of_nat (length s) + 1) / 4)) with (length s).
  2:{ rewrite Z.mul_comm, Z.div_add_l by done. by rewrite Z.add_0_r, Nat2Z.id. }
  rewrite decide_True by (rewrite !length_app, to_le_bytes_length; lia).
  by rewrite take_app_length, drop_app_length.
Qed.

#[local] Instance test_gossip : GossipScale := {|
  sc_gossip := c_iso
    (fun m => match m with GossipTxs t => inl (inl t) | GossipBlock b => inl (inr b)
                         | GossipVote v => inr (inl v) | GossipEvidence e => inr (inr e) end)
    (fun s => match s with inl (inl t) => GossipTxs t | inl (inr b) => GossipBlock b
                         | inr (inl v) => GossipVote v | inr (inr e) => GossipEvidence e end)
    (c_sum (c_sum (c_list c_tx) c_block)
       (c_sum (c_iso (fun v => (cv_height v, (cv_block_hash v, (cv_validator v, cv_signature v))))
                 (fun p => let '(h, (b, (v, s))) := p in mkCommitVote h b v s)
                 (c_pair c_u64 (c_pair (c_array 32) (c_pair c_addr c_sig_compact)))) c_evidence))
|}.

Abbreviation Service := (P2pService (PeerId := Z) (Multiaddr := bytes) (D := RedbEngine)).
Abbreviation Command := (P2pCommand (PeerId := Z) (Multiaddr := bytes)).
Abbreviation Out := (Effect (PeerId := Z) (Multiaddr := bytes) (Channel := Z)).
Abbreviation Event := (SwarmEvent (PeerId := Z) (Channel := Z)).

(** What the swarm of the other node sees of an effect of the node [from]. *)
Definition deliver (from : Z) (out : list Out) : list Event :=
  omap (fun e => match e with
    | DoDial _ => Some (ConnectionEstablished from)
    | DoPublish _ data => Some (GossipReceived from data)
    | DoSendRequest _ request => Some (SyncRequestReceived from request 0)
    | DoSendResponse _ response => Some (SyncResponseReceived from response)
    | _ => None
    end) out.

(** The loop of a node on commands and then on events. *)
Definition run_node (self : Service) (commands : list Command) (events : list Event) : outcome (Service * list Out) :=
  event_loop self (map (fun c => OnCommand (Some c)) commands ++ map (OnSwarm 0) events).

(** [events.try_recv()]: the first event a loop emitted. *)
Definition first_event (out : list Out) : option (P2pEvent (PeerId := Z)) :=
  head (omap (fun e => match e with DoEmit ev => Some ev | _ => None end) out).

Definition node_with (bootstrap : list bytes) : Service :=
  P2pService_new (mkP2pConfig DEFAULT_P2P_PORT bootstrap true MAX_PEERS) 0.

(** The course of the gossip tests: node 2 dials node 1 and publishes, node 1
    receives (or the other way round). *)
Definition published_event (publisher receiver : Service) (command : Command) : outcome (option (P2pEvent (PeerId := Z))) :=
  let '(publisher, out0) := start (Channel := Z) publisher in
  let receiver := (start (Channel := Z) receiver).1 in
  '(_, out) ← run_node publisher [command; Shutdown] [];
  '(_, out) ← run_node receiver [] (deliver 2 (out0 ++ out));
  Ret (first_event out).

Definition gossip_tx (sender recipient amount : Z) : Transaction :=
  mkTransaction 0 0 (addr sender) 0 (Transfer (addr recipient) amount) (sig_of x00).

Definition test_p2p_event_channel_delivers_gossip : outcome unit :=
  let node1 := node_with [] in
  let node2 := node_with [] in
  ev ← published_event node1 node2 (PublishTx [gossip_tx 0x11 0x22 100]);
  match ev with Some (TxReceived _ _) => Ret tt | _ => Panic end.

(** Node 2 dials node 1 by itself: the dial is in what [start] asks of the swarm. *)
Definition test_p2p_bootstrap_dial_connects_automatically : outcome unit :=
  let node1 := node_with [] in
  let node2 := node_with [txt "/ip4/127.0.0.1/tcp/30333"] in
  assert_ (existsb (fun e : Out => match e with DoDial _ => true | _ => false end) (start (Channel := Z) node2).2) ;;
  ev ← published_event node2 node1 (PublishTx [gossip_tx 0x33 0x44 200]);
  match ev with Some (TxReceived _ _) => Ret tt | _ => Panic end.

Definition test_p2p_publish_block_delivers_block_received_event : outcome unit :=
  let node1 := node_with [] in
  let node2 := node_with [] in
  let block := mkBlock (header_of 1 xaa xbb xcc 1700000000 0xdd 0 xcd) (mkBlockBody []) in
  ev ← published_event node2 node1 (PublishBlock block);
  match ev with Some (BlockReceived _ _) => Ret tt | _ => Panic end.

Definition test_p2p_publish_vote_delivers_vote_event : outcome unit :=
  let node1 := node_with [] in
  let node2 := node_with [] in
  let vote := mkCommitVote 1 (hash32 xee) (addr 0xff) (sig_of xaa) in
  ev ← published_event node2 node1 (PublishVote vote);
  match ev with Some (VoteReceived _ _) => Ret tt | _ => Panic end.

Definition test_p2p_sync_request_delivers_response : outcome unit :=
  engine ← open_engine;
  let genesis_hash := hash32 xfe in
  engine ← foldM store_block engine (seqZ 1 5);
  let node1 := set_highest_known_height (with_storage (node_with []) engine genesis_hash) 5 in
  let node2 := node_with [] in
  let request := BlockSync (mkSyncReq 2 3 Forward None) in
  '(node2, out2) ← run_node node2 [Dial (txt "/ip4/127.0.0.1/tcp/30333"); SendSyncRequest 1 request] [];
  '(_, out1) ← run_node node1 [] (deliver 2 out2);
  '(_, out2) ← run_node node2 [] (deliver 1 out1);
  match first_event out2 with
  | Some (EvSyncResponse _ (RBlockSync resp)) =>
      assert_eq (length (rs_blocks resp)) 3%nat ;;
      assert_height (rs_blocks resp) 0 2 ;;
      assert_height (rs_blocks resp) 2 4
  | _ => Panic
  end.

Definition test_prepare_gossip_message_accepts_valid_size : outcome unit :=
  topic ← index (standard_topics "0") 0;
  let msg := GossipTxs [] in
  assert_ (is_ok (prepare_gossip_message msg topic)).

Definition test_prepare_gossip_message_rejects_oversized : outcome unit :=
  let tiny_topic := mkTopic "tiny" 0 1 in
  let msg := GossipTxs [] in
  assert_ (negb (is_ok (prepare_gossip_message msg tiny_topic))).

Definition test_p2p_config_defaults : outcome unit :=
  let cfg := P2pConfig_default (M := bytes) in
  assert_eq (pc_port cfg) DEFAULT_P2P_PORT ;;
  assert_eq (pc_bootstrap_peers cfg) [] ;;
  assert_ (pc_enable_mdns _ cfg) ;;
  assert_eq (pc_max_peers _ cfg) 50.

(** ** The dummy handle *)

Abbreviation TestHandle := (P2pHandle (PeerId := Z) (Multiaddr := bytes)).
Definition dummy : TestHandle := dummy_p2p_handle 1.

(** [rt.block_on(..)] of a method: it completes, with an error. *)
Definition call_fails (call : Call (PeerId := Z) (Multiaddr := bytes)) : outcome unit :=
  match invoke (cmd_tx dummy) call with Some (Err _) => Ret tt | _ => Panic end.

Definition test_dummy_p2p_handle_connected_peers : outcome unit :=
  sent ← unwrap (request_peers (cmd_tx dummy));
  let peers := connected_peers_of sent None in
  assert_eq peers [].

Definition test_dummy_p2p_handle_publish_tx : outcome unit :=
  let tx := mkTransaction 0 0 (addr 0xaa) 0 (Transfer (addr 0xbb) 1) (sig_of xcd) in
  call_fails (CallPublishTx [tx]).

Definition test_dummy_handle_publish_block_fails : outcome unit :=
  let block := mkBlock (header_of 1 x00 x00 x00 0 0 0 xcd) (mkBlockBody []) in
  call_fails (CallPublishBlock block).

Definition test_dummy_handle_send_sync_request_fails : outcome unit :=
  let peer := local_peer_id dummy in
  let req := BlockSync (mkSyncReq 1 1 Forward None) in
  call_fails (CallSendSyncRequest peer req).

Definition test_dummy_handle_publish_vote_fails : outcome unit :=
  let vote := mkCommitVote 1 (hash32 x00) (addr 0) (sig_of xcd) in
  call_fails (CallPublishVote vote).

Definition test_dummy_handle_publish_evidence_fails : outcome unit :=
  let evidence := mkNetworkEvidence (header_of 1 x00 x00 x00 0 0 0 xcd) (array_repeat 666 xaa)
    (header_of 1 x00 x00 x00 1 0 0 xcd) (array_repeat 666 xbb) (hash32 x00) in
  call_fails (CallPublishEvidence evidence).

Definition network_tests : list (outcome unit) :=
  [test_p2p_event_channel_delivers_gossip; test_p2p_bootstrap_dial_connects_automatically;
   test_p2p_publish_block_delivers_block_received_event; test_p2p_publish_vote_delivers_vote_event;
   test_p2p_sync_request_delivers_response; test_prepare_gossip_message_accepts_valid_size;
   test_prepare_gossip_message_rejects_oversized; test_p2p_config_defaults;
   test_dummy_p2p_handle_connected_peers; test_dummy_p2p_handle_publish_tx;
   test_dummy_handle_publish_block_fails; test_dummy_handle_send_sync_request_fails;
   test_dummy_handle_publish_vote_fails; test_dummy_handle_publish_evidence_fails].

Example network_tests_pass : forallb passes network_tests = true.
Proof. by vm_compute. Qed.

(** ** [node.rs] *)

Definition test_parse_raw_address_valid : outcome unit :=
  let addr := hash32 xab in
  let hex := hex_encode (array_bytes addr) in
  result ← unwrap_ok (parse_raw_address hex);
  assert_eq result addr.

Definition test_parse_raw_address_with_0x : outcome unit :=
  let addr := hash32 x42 in
  let hex := txt "0x" ++ hex_encode (array_bytes addr) in
  result ← unwrap_ok (parse_raw_address hex);
  assert_eq result addr.

Definition test_parse_raw_address_wrong_length : outcome unit :=
  fails_with (parse_raw_address (txt "aabb")) "invalid address".

Definition test_parse_raw_address_invalid_hex : outcome unit :=
  fails_with (parse_raw_address (List.repeat x7a 64)) "invalid address".

(** [err.to_string()] of an [anyhow::Error]. *)
Definition any_fails_with {A} (r : result AnyError A) (text : string) : outcome unit :=
  err ← unwrap_err r;
  assert_ (text_contains (match err with FromLib e => error_display e | Anyhow msg => txt msg end) (txt text)).

Definition test_load_latest_height_empty_db : outcome unit :=
  engine ← setup_engine;
  r ← load_latest_height engine;
  height ← unwrap_ok r;
  assert_eq height 0.

(** [engine.put(BLOCKS, height.to_be_bytes(), block.encode()).unwrap()] of a block
    with the given state root. *)
Definition put_block_with_root (engine : RedbEngine) (height : Z) (root : array 32) : outcome RedbEngine :=
  let block := mkBlock (mkBlockHeader height (hash32 x00) root (hash32 x00) 1700000000 (addr 0xaa) 0 (sig_of xcd))
    (mkBlockBody []) in
  put_unwrap engine BLOCKS (to_be_bytes 8 height) (enc sc_block block).

Definition test_load_latest_height_with_block : outcome unit :=
  engine ← setup_engine;
  engine ← put_block_with_root engine 5 (hash32 x00);
  r ← load_latest_height engine;
  height ← unwrap_ok r;
  assert_eq height 5.

Definition test_load_block_json_not_found : outcome unit :=
  engine ← setup_engine;
  fails_with (load_block_json engine 99) "block not found".

Definition test_load_block_json_roundtrip : outcome unit :=
  engine ← setup_engine;
  engine ← put_block_with_root engine 1 (hash32 x00);
  json ← unwrap_ok (load_block_json engine 1);
  assert_number (json_index (json_index json "header") "height") 1.

Definition test_load_state_from_storage_empty : outcome unit :=
  engine ← setup_engine;
  sm ← unwrap_ok (load_state_from_storage engine);
  '(root, sm) ← state_root sm;
  assert_ne root (hash32 x00) ;;
  o ← get_account sm (addr 0x01);
  assert_eq o None.

Definition test_verify_state_consistency_genesis_height_skips : outcome unit :=
  engine ← setup_engine;
  sm ← unwrap_ok (load_state_from_storage engine);
  '(_, r) ← verify_state_consistency sm engine 0;
  unwrap_ok r.

Definition test_verify_state_consistency_matching_root : outcome unit :=
  engine ← setup_engine;
  sm ← unwrap_ok (load_state_from_storage engine);
  '(state_root, sm) ← state_root sm;
  engine ← put_block_with_root engine 5 state_root;
  '(_, r) ← verify_state_consistency sm engine 5;
  unwrap_ok r.

Definition test_verify_state_consistency_mismatch_fails : outcome unit :=
  engine ← setup_engine;
  sm ← unwrap_ok (load_state_from_storage engine);
  engine ← put_block_with_root engine 3 (hash32 xff);
  '(_, r) ← verify_state_consistency sm engine 3;
  any_fails_with r "state root mismatch".

Definition test_verify_state_consistency_missing_block_fails : outcome unit :=
  engine ← setup_engine;
  sm ← unwrap_ok (load_state_from_storage engine);
  '(_, r) ← verify_state_consistency sm engine 42;
  any_fails_with r "not found".

Definition node_tests : list (outcome unit) :=
  [test_parse_raw_address_valid; test_parse_raw_address_with_0x; test_parse_raw_address_wrong_length;
   test_parse_raw_address_invalid_hex; test_load_latest_height_empty_db;
   test_load_latest_height_with_block; test_load_block_json_not_found; test_load_block_json_roundtrip;
   test_load_state_from_storage_empty; test_verify_state_consistency_genesis_height_skips;
   test_verify_state_consistency_matching_root; test_verify_state_consistency_mismatch_fails;
   test_verify_state_consistency_missing_block_fails].

Example node_tests_pass : forallb passes node_tests = true.
Proof. by vm_compute. Qed.

(** ** [wallet.rs] *)

(** [U256::pow] panics when the power does not fit. *)
Definition u256_pow (b n : Z) : outcome Z := u256_check (b ^ n).

Definition test_parse_monex_amount_whole : outcome unit :=
  val ← unwrap_ok (parse_monex_amount (txt "100"));
  expected ← u256_pow 10 34;
  assert_eq val expected.

Definition test_parse_monex_amount_decimal : outcome unit :=
  val ← unwrap_ok (parse_monex_amount (txt "1.5"));
  p ← u256_pow 10 31;
  expected ← u256_mul 15 p;
  assert_eq val expected.

Definition test_parse_monex_amount_zero : outcome unit :=
  val ← unwrap_ok (parse_monex_amount (txt "0"));
  assert_eq val 0.

Definition test_parse_monex_amount_too_many_decimals : outcome unit :=
  let err := parse_monex_amount (txt "1.1234567890123456789012345678901234567890") in
  assert_ (negb (is_ok err)).

Definition test_parse_monex_amount_small : outcome unit :=
  val ← unwrap_ok (parse_monex_amount (txt "0.0000000000000000001"));
  expected ← unwrap (from_dec_str (txt "10000000000000"));
  assert_eq val expected.

Definition test_parse_monex_amount_invalid : outcome unit :=
  assert_ (negb (is_ok (parse_monex_amount (txt "abc")))) ;;
  assert_ (negb (is_ok (parse_monex_amount (txt "1.2.3")))).

Definition wallet_tests : list (outcome unit) :=
  [test_parse_monex_amount_whole; test_parse_monex_amount_decimal; test_parse_monex_amount_zero;
   test_parse_monex_amount_too_many_decimals; test_parse_monex_amount_small;
   test_parse_monex_amount_invalid].

Example wallet_tests_pass : forallb passes wallet_tests = true.
Proof. by vm_compute. Qed.
