(* ===== verification/CryptoTests.v ===== *)
(** * The unit tests of [crypto/falcon.rs] and [crypto/hash.rs]

    The tests of signing that only use what the [SignatureScheme] interface
    promises hold for every lawful scheme whose key generation and signing
    succeed on the test's seed ([lawful_tests_pass]), the large message included.
    Those that need more (another message, another key or a changed byte must not
    verify) are evaluated on a scheme whose signature is a digest of key and
    message. *)
From Stdlib Require Import Strings.Byte Strings.String.
From stdpp Require Import base gmap sets list strings countable.
From Stdlib Require Import ZArith Lia.
From S2P Require Import Prelude Types External Toy Account Wallet Errors StorageTests Testing.

Abbreviation txt s := (list_byte_of_string s%string) (only parsing).

#[local] Instance Falcon512Signature_eq_dec : EqDecision Falcon512Signature.
Proof. solve_decision. Defined.

(** A fixed 48-byte seed, and the seed with another first byte. *)
Definition test_seed : bytes := txt "test" ++ List.repeat x00 44.
Definition seed_from (b : byte) : bytes := b :: txt "est" ++ List.repeat x00 44.
Definition test_message : bytes := txt "hello mononium".

(** ** [crypto/falcon.rs] on any scheme *)

Section Scheme.
Context `{SignatureScheme}.

(** [Falcon512::generate(&seed).unwrap()], [Falcon512::sign(&kp, msg).unwrap()] *)
Definition generate_unwrap (seed : bytes) : outcome KeyPair := unwrap_ok (generate seed).
Definition sign_unwrap (kp : KeyPair) (msg : bytes) : outcome Falcon512Signature :=
  r ← sign kp msg;
  unwrap_ok r.
Definition restore_unwrap (sk : array 1281) : outcome KeyPair := unwrap_ok (from_private_key (array_bytes sk)).

Definition test_generate_keypair : outcome unit :=
  kp ← generate_unwrap test_seed;
  pk ← public_key_bytes kp;
  assert_eq (length (array_bytes pk)) FALCON_PUBLIC_KEY_SIZE.

Definition test_generate_deterministic : outcome unit :=
  kp_a ← generate_unwrap test_seed;
  kp_b ← generate_unwrap test_seed;
  pk_a ← public_key_bytes kp_a;
  pk_b ← public_key_bytes kp_b;
  assert_eq pk_a pk_b.

Definition test_different_seed_different_key : outcome unit :=
  let seed_a := seed_from x01 in
  let seed_b := seed_from x02 in
  kp_a ← generate_unwrap seed_a;
  kp_b ← generate_unwrap seed_b;
  pk_a ← public_key_bytes kp_a;
  pk_b ← public_key_bytes kp_b;
  assert_ne pk_a pk_b.

Definition test_public_key_size : outcome unit :=
  kp ← generate_unwrap test_seed;
  pk ← public_key_bytes kp;
  assert_eq (length (array_bytes pk)) FALCON_PUBLIC_KEY_SIZE ;;
  assert_eq FALCON_PUBLIC_KEY_SIZE 897%nat.

Definition test_private_key_size : outcome unit :=
  kp ← generate_unwrap test_seed;
  sk ← private_key_bytes kp;
  assert_eq (length (array_bytes sk)) FALCON_PRIVATE_KEY_SIZE ;;
  assert_eq FALCON_PRIVATE_KEY_SIZE 1281%nat.

Definition test_sign_and_verify : outcome unit :=
  kp ← generate_unwrap test_seed;
  let msg := test_message in
  sig ← sign_unwrap kp msg;
  pk ← public_key_bytes kp;
  assert_ (verify pk msg sig).

Definition test_signature_size : outcome unit :=
  kp ← generate_unwrap test_seed;
  let msg := test_message in
  sig ← sign_unwrap kp msg;
  assert_eq (length (sig_bytes sig)) FALCON_SIGNATURE_SIZE ;;
  assert_eq FALCON_SIGNATURE_SIZE 809%nat.

Definition test_wrong_message_fails : outcome unit :=
  kp ← generate_unwrap test_seed;
  sig ← sign_unwrap kp (txt "real message");
  pk ← public_key_bytes kp;
  assert_ (negb (verify pk (txt "wrong message") sig)).

Definition test_wrong_pubkey_fails : outcome unit :=
  kp ← generate_unwrap test_seed;
  let msg := test_message in
  sig ← sign_unwrap kp msg;
  let other_seed := seed_from xff in
  other_kp ← generate_unwrap other_seed;
  wrong_pk ← public_key_bytes other_kp;
  assert_ (negb (verify wrong_pk msg sig)).

(** [*b ^= 0xff] on the last byte. *)
Fixpoint flip_last (l : bytes) : bytes :=
  match l with
  | [] => []
  | [b] => [byte_of_Z (Z.lxor (byte_to_Z b) 255)]
  | b :: l => b :: flip_last l
  end.

Definition test_verify_rejects_tampered_signature : outcome unit :=
  kp ← generate_unwrap test_seed;
  let msg := test_message in
  sig ← sign_unwrap kp msg;
  let bytes := flip_last (sig_bytes sig) in
  let sig := mkSignature bytes in
  pk ← public_key_bytes kp;
  assert_ (negb (verify pk msg sig)).

Definition test_keypair_roundtrip_via_private_key : outcome unit :=
  kp ← generate_unwrap test_seed;
  sk ← private_key_bytes kp;
  original_pk ← public_key_bytes kp;
  restored ← restore_unwrap sk;
  restored_pk ← public_key_bytes restored;
  assert_eq original_pk restored_pk.

Definition test_keypair_roundtrip_sign_after_restore : outcome unit :=
  kp ← generate_unwrap test_seed;
  sk ← private_key_bytes kp;
  restored ← restore_unwrap sk;
  let msg := test_message in
  sig ← sign_unwrap restored msg;
  pk ← public_key_bytes restored;
  assert_ (verify pk msg sig).

Definition test_signature_from_bytes_roundtrip : outcome unit :=
  kp ← generate_unwrap test_seed;
  let msg := test_message in
  sig ← sign_unwrap kp msg;
  pk ← public_key_bytes kp;
  sig2 ← unwrap_ok (signature_from_bytes (sig_bytes sig));
  assert_ (verify pk msg sig2).

Definition test_signature_from_bytes_wrong_length : outcome unit :=
  match signature_from_bytes (List.repeat x00 100) with
  | Err (Crypto _) => Ret tt
  | _ => Panic
  end.

Definition test_signature_into_bytes : outcome unit :=
  kp ← generate_unwrap test_seed;
  sig ← sign_unwrap kp test_message;
  let bytes := sig_bytes sig in
  assert_eq (length bytes) FALCON_SIGNATURE_SIZE ;;
  assert_eq bytes (sig_bytes sig).

Definition test_signature_as_bytes : outcome unit :=
  kp ← generate_unwrap test_seed;
  sig ← sign_unwrap kp test_message;
  let bytes := sig_bytes sig in
  assert_eq (length bytes) FALCON_SIGNATURE_SIZE.

Definition test_deterministic_signing_consistency : outcome unit :=
  kp ← generate_unwrap test_seed;
  let msg := test_message in
  sig1 ← sign_unwrap kp msg;
  sig2 ← sign_unwrap kp msg;
  pk ← public_key_bytes kp;
  assert_ (verify pk msg sig1) ;;
  assert_ (verify pk msg sig2).

(** The common course of the next two tests. *)
Definition signs_and_verifies (msg : bytes) : outcome unit :=
  kp ← generate_unwrap test_seed;
  pk ← public_key_bytes kp;
  sig ← sign_unwrap kp msg;
  assert_ (verify pk msg sig).

Definition test_empty_message : outcome unit := signs_and_verifies [].
Definition test_large_message : outcome unit :=
  let large_msg := List.repeat xab (Z.to_nat 1000000) in
  signs_and_verifies large_msg.

Definition test_signature_verify_fresh_instance : outcome unit :=
  kp ← generate_unwrap test_seed;
  let msg := test_message in
  sig_orig ← sign_unwrap kp msg;
  pk ← public_key_bytes kp;
  sig_reconstructed ← unwrap_ok (signature_from_bytes (sig_bytes sig_orig));
  pk_reconstructed ← copy_from_slice 897 (array_bytes pk);
  assert_ (verify pk_reconstructed msg sig_reconstructed).

Definition test_private_key_roundtrip_from_private_key : outcome unit :=
  kp ← generate_unwrap test_seed;
  pk_original ← public_key_bytes kp;
  priv_bytes ← private_key_bytes kp;
  restored ← restore_unwrap priv_bytes;
  pk_restored ← public_key_bytes restored;
  assert_eq pk_original pk_restored.

Definition test_from_private_key_too_short_fails `{Hex} : outcome unit :=
  fails_with (from_private_key (List.repeat x00 4)) "invalid private key".

Definition test_falcon_sign_as_ref_roundtrip : outcome unit :=
  kp ← generate_unwrap test_seed;
  sig ← sign_unwrap kp (txt "msg");
  sig2 ← unwrap_ok (signature_from_bytes (sig_bytes sig));
  assert_eq sig sig2.

(** The tests that follow from the interface alone. *)
Definition lawful_tests : list (outcome unit) :=
  [test_generate_keypair; test_generate_deterministic; test_public_key_size; test_private_key_size;
   test_sign_and_verify; test_signature_size; test_keypair_roundtrip_via_private_key;
   test_keypair_roundtrip_sign_after_restore; test_signature_from_bytes_roundtrip;
   test_signature_from_bytes_wrong_length; test_signature_into_bytes; test_signature_as_bytes;
   test_deterministic_signing_consistency; test_empty_message; test_large_message;
   test_signature_verify_fresh_instance; test_private_key_roundtrip_from_private_key;
   test_falcon_sign_as_ref_roundtrip].

Context `{!SignatureOk}.

(** What a pair of the scheme gives in a test. *)
Lemma signed_facts (kp : KeyPair) : exists pk sk,
  public_key_bytes kp = Ret pk /\ private_key_bytes kp = Ret sk /\ restore_unwrap sk = Ret kp /\
  copy_from_slice 897 (array_bytes pk) = Ret pk /\
  forall msg sig, sign_unwrap kp msg = Ret sig ->
    verify pk msg sig = true /\ length (sig_bytes sig) = FALCON_SIGNATURE_SIZE /\
    signature_from_bytes (sig_bytes sig) = Ok sig.
Proof.
  destruct (public_key_total kp) as [pk Hpk]. destruct (private_key_total kp) as [sk Hsk]. exists pk, sk.
  do 2 (split; [done|]). split; [unfold restore_unwrap; by rewrite (from_private_key_restores kp sk)|].
  split; [by apply copy_from_slice_Ret|]. intros msg sig Hs.
  apply bind_Ret_inv in Hs as (r & Hr & Hs). destruct r as [s|e]; [|done]. injection Hs as ->.
  destruct (sign_verifies kp pk msg sig Hpk Hr) as [Hv Hl]. do 2 (split; [done|]).
  unfold signature_from_bytes. rewrite bool_decide_true by done. by destruct sig.
Qed.

(** They pass for every lawful scheme that generates and signs. *)
Section Lawful.
Context (kp : KeyPair) (Hgen : generate test_seed = Ok kp).
Context (Hsign : forall msg, exists sig, sign kp msg = Ret (Ok sig)).

Lemma sign_unwrap_total msg : exists sig, sign_unwrap kp msg = Ret sig.
Proof. destruct (Hsign msg) as [sig E]. exists sig. unfold sign_unwrap. by rewrite E. Qed.

Lemma generate_unwrap_seed : generate_unwrap test_seed = Ret kp.
Proof. unfold generate_unwrap. by rewrite Hgen. Qed.

(** Runs a test: every call gives the value [signed_facts] says it has. *)
Ltac run_test :=
  let pk := fresh "pk" in let sk := fresh "sk" in
  let Hpk := fresh "Hpk" in let Hsk := fresh "Hsk" in let Hr := fresh "Hr" in
  let Hc := fresh "Hc" in let Hs := fresh "Hs" in
  destruct (signed_facts kp) as (pk & sk & Hpk & Hsk & Hr & Hc & Hs);
  repeat first
    [ rewrite generate_unwrap_seed | rewrite Hpk | rewrite Hsk | rewrite Hr | rewrite Hc
    | match goal with
      | |- context [sign_unwrap kp ?msg] =>
          let sig := fresh "sig" in let E := fresh "E" in
          let Hv := fresh "Hv" in let Hl := fresh "Hl" in let Hf := fresh "Hf" in
          destruct (sign_unwrap_total msg) as [sig E]; rewrite E; destruct (Hs msg sig E) as (Hv & Hl & Hf)
      | Hf : signature_from_bytes _ = Ok _ |- _ => rewrite Hf
      end
    | progress cbn [mbind outcome_bind unwrap_ok] ];
  repeat match goal with H : verify _ _ _ = true |- _ => rewrite H end;
  cbn [assert_ mbind outcome_bind];
  repeat (rewrite assert_eq_refl || (unfold assert_eq at 1; rewrite bool_decide_eq_true_2 by auto using array_length));
  reflexivity.

Lemma signs_and_verifies_returns msg : signs_and_verifies msg = Ret tt.
Proof. unfold signs_and_verifies. run_test. Qed.

Lemma lawful_tests_pass : forallb passes lawful_tests = true.
Proof.
  assert (Forall (fun t => t = Ret tt) lawful_tests) as Hall.
  { unfold lawful_tests. repeat apply List.Forall_cons; [..|apply List.Forall_nil];
      lazymatch goal with
      | |- test_empty_message = _ => apply signs_and_verifies_returns
      | |- test_large_message = _ => apply signs_and_verifies_returns
      | |- test_signature_from_bytes_wrong_length = _ => reflexivity
      | |- ?t = _ => unfold t; run_test
      end. }
  induction Hall as [|t l -> Hall IH]; [done|]. exact IH.
Qed.
End Lawful.
End Scheme.

(** ** A scheme whose signatures bind key and message *)

Import TestInstances.
#[local] Remove Hints toy_blake3 : typeclass_instances.
#[local] Remove Hints toy_falcon : typeclass_instances.

(** The signature of a message under a public key; nobody is meant to forge it. *)
Definition digest_sign (pk msg : bytes) : bytes := mix msg ++ resize 777 x00 pk.

#[local] Instance binding_falcon : Falcon := {|
  falcon_verify s pk msg := bool_decide (s = digest_sign (array_bytes pk) msg)
|}.

#[local] Instance binding_fndsa : FnDsa := {|
  fn_keypair := array 48;
  fn_generate seed _ := array_of_list 48 seed;
  fn_public_key kp := resize 897 x00 (array_bytes kp);
  fn_private_key kp := resize 1281 x00 (array_bytes kp);
  fn_sign kp msg := Some (digest_sign (resize 897 x00 (array_bytes kp)) msg);
  fn_from_private_key bs := if bool_decide (length bs = 1281%nat) then array_of_list 48 (take 48 bs) else None
|}.

#[local] Instance binding_ok : FnDsaOk.
Proof.
  split; simpl.
  - intros kp. apply length_resize.
  - intros kp. apply length_resize.
  - intros kp. rewrite bool_decide_true by apply length_resize. apply array_of_list_Some.
    pose proof (array_length kp) as Hl. rewrite resize_ge by (rewrite Hl; lia). by rewrite take_app_length'.
  - intros kp msg s [= <-]. unfold digest_sign, mix. by rewrite length_app, mix_length, length_resize.
  - intros kp msg s pk [= <-] ->. by apply bool_decide_eq_true.
Qed.

(** The tests of the interface hold for it, and it passes the others. *)
Example lawful_tests_binding : forallb passes lawful_tests = true.
Proof.
  destruct (array_of_list_len 48 test_seed eq_refl) as (kp & Ekp & _).
  apply (lawful_tests_pass (H := Falcon512) (mkKeyPair (H0 := binding_fndsa) kp)).
  { cbn [generate Falcon512]. unfold falcon_generate. cbn [fn_generate binding_fndsa]. by rewrite Ekp. }
  intros msg. eexists. cbn [sign Falcon512]. unfold falcon_sign. cbn [fn_sign binding_fndsa].
  unfold debug_assert. cbn [debug_assertions dev_profile]. unfold digest_sign, mix.
  by rewrite length_app, mix_length, length_resize.
Qed.

Definition binding_tests : list (outcome unit) :=
  [test_different_seed_different_key; test_wrong_message_fails; test_wrong_pubkey_fails;
   test_verify_rejects_tampered_signature; test_from_private_key_too_short_fails].

Example binding_tests_pass : forallb passes binding_tests = true.
Proof. by vm_compute. Qed.

(** ** [crypto/hash.rs] *)

Definition test_blake3_hash_length : outcome unit :=
  let hash := blake3_hash (txt "hello") in
  assert_eq (length (array_bytes hash)) 32%nat.

Definition test_blake3_hash_deterministic : outcome unit :=
  let a := blake3_hash (txt "hello mononium") in
  let b := blake3_hash (txt "hello mononium") in
  assert_eq a b.

Definition test_blake3_hash_different_inputs : outcome unit :=
  let a := blake3_hash (txt "hello") in
  let b := blake3_hash (txt "world") in
  assert_ne a b.

Definition test_blake3_hash_empty : outcome unit :=
  let hash := blake3_hash [] in
  assert_eq (length (array_bytes hash)) 32%nat.

Definition test_batch_hash_empty : outcome unit :=
  let hash := blake3_batch_hash [] in
  assert_eq hash (blake3_hash []).

Definition test_batch_hash_single_item : outcome unit :=
  let items := [txt "single"] in
  let hash := blake3_batch_hash items in
  assert_eq hash (blake3_hash (txt "single")).

Definition test_batch_hash_multiple_items : outcome unit :=
  let items := [txt "a"; txt "b"; txt "c"] in
  let hash := blake3_batch_hash items in
  let expected := blake3_hash (txt "abc") in
  assert_eq hash expected.

Definition test_batch_hash_order_matters : outcome unit :=
  let items_abc := [txt "a"; txt "b"; txt "c"] in
  let items_cba := [txt "c"; txt "b"; txt "a"] in
  let hash_abc := blake3_batch_hash items_abc in
  let hash_cba := blake3_batch_hash items_cba in
  assert_ne hash_abc hash_cba.

Definition hash_tests : list (outcome unit) :=
  [test_blake3_hash_length; test_blake3_hash_deterministic; test_blake3_hash_different_inputs;
   test_blake3_hash_empty; test_batch_hash_empty; test_batch_hash_single_item;
   test_batch_hash_multiple_items; test_batch_hash_order_matters].

Example hash_tests_pass : forallb passes hash_tests = true.
Proof. by vm_compute. Qed.
